(* ===== verification/_CoqProject ===== *)
-Q . S2P
Prelude.v
GoStrings.v
GoNet.v
GoJson.v
Json.v
GoFs.v
Rollback.v
UidPool.v
Ipam.v
PortMgr.v
Binding.v
Registry.v
Pool.v
PoolInv.v
PoolProps.v
Lifecycle.v
HostNet.v
Tap.v
ImageStore.v
StorageBoot.v
StorageBootProps.v
StorageBootDemo.v
Factory.v
FactoryInv.v
FactorySteps.v
FactoryProps.v
FactoryFiles.v
Config.v
Observer.v
Service.v
Proxy.v
Daemon.v
Telemetry.v
Node.v
NodeInv.v
NodeProps.v
Crowd.v
Vsock.v
GuestAgent.v
EndToEnd.v
VmConfig.v
GuestReap.v
GuestBoot.v
Cloud.v
Init.v
Cli.v
Wire.v
Mux.v
Routes.v
Start.v
