(* ===== verification/Prelude.v ===== *)
(** * herd: a verification development for the microVM session pool

    herd gives every session a Firecracker microVM of its own.  The daemon's control plane
    creates, lists and deletes sessions; its data plane proxies HTTP requests to the VM of
    the session they name; a reaper ends sessions whose lease is over.  Behind them a pool
    bounds the number of workers and pins each session to one; a factory builds a worker
    from a UID, a root filesystem, an address, a tap device, host ports and firewall rules.
    Inside a VM an agent mounts its file systems, configures its network and runs the
    workload that the host sends; a client of a cloud service turns its commands into
    sessions; commands set up a node, start the daemon and talk to it.  The pool and the
    agent run many goroutines, and are step relations; everything else is called under
    locks, one call at a time, and is modelled as functions on explicit state.

    ** The files, bottom up

    - [Prelude]: results, machine integers, tactics and list lemmas shared by all files.
    - [GoStrings], [GoNet], [GoJson]: the parts of Go's [strings], [strconv],
      [path/filepath], [net], [net/netip] and [encoding/json] that herd calls, with the
      lemmas about them.  [Json]: printing trees, and reading what was printed.  [Mux]: the
      patterns of [net/http]'s [ServeMux], their conflicts and the choice of a handler.
      [GoFs]: files by path, kind and owner.  [Rollback]: steps that may fail and the undo
      actions they register, with the lemmas that relate a world to its pending actions; the factory, the storage bootstrap, the guest agent and
      [herd init] are written with them.
    - [UidPool] ([internal/uid/pool.go]): the channel of UIDs.  [Ipam]
      ([internal/network/ipam.go]): the set of addresses and its rotor, on bytes.
      [PortMgr] ([internal/network/portmgr.go]): the map of host ports; the interface
      [Host] says what can be bound.  [Binding] ([internal/network/utils.go]): the parser
      of port bindings and the choice of an interface's address.
    - [Registry] ([registry.go], [worker.go]): the interface [SessionRegistry] with its
      laws, the in-memory registry that meets them, and the records of a tenant's request.
    - [Pool] ([pool.go], [options.go]): goroutines as program counters, one step per locked
      section, channel operation or outside call; [PoolInv] and [PoolProps] hold its
      invariants, its guarantees, and the runs in which a guarantee ends.
    - [Lifecycle] ([internal/lifecycle]): leases, request counts and the reaper's sweep,
      against [WorkerReaper], the pool as the reaper sees it.
    - [HostNet] and [Tap] ([internal/network/nat.go]): firewall rules and tap devices over
      the interfaces [Commands] and [Netlink], each with a machine that meets its laws.
    - [ImageStore] ([internal/storage/containerd.go]): images, snapshots and leases over
      the interface [Containerd] and its laws.  A host may refuse to delete a rule, a link,
      a lease or a snapshot; what it refused stays, and [rule_kept], [link_kept] and
      [store_kept] remember that it did.
    - [StorageBoot] ([internal/storage/bootstrap.go]): loop devices, thin pool and
      containerd over the interface [Tools] and its laws; [StorageBootProps] follows the
      cleanup stack and a teardown, [StorageBootDemo] is a machine that meets the laws.
      [pkill] looks for a pattern in command lines, and a device that is detached in use
      stays: [w_warned] records the warnings that are logged, [lapsed] what no program tells.
    - [Factory] ([firecracker_factory.go]): [Spawn] with its undo stack and [Close], on the
      models above, each release of which may be refused ([kept] says that one was);
      [FactoryInv] relates the world to the undo actions that are pending, [FactorySteps]
      carries facts that every step keeps through both, and
      [FactoryProps] draws the conclusions and runs both on a concrete machine;
      [FactoryFiles] follows the file system through a [Spawn].  [VmConfig]: the JSON text
      that [Spawn] writes for Firecracker.
    - [Config] ([internal/config/config.go]): loading, defaults and validation.  [Observer]
      ([observer], [internal/system/info.go]): the readers of [/proc].
    - [Service]: the pool as the proxy and the daemon see it, with its laws.  [Proxy]
      ([proxy/proxy.go], [NewDataPlaneHandler] of [internal/daemon/runtime.go]) and
      [Daemon] ([internal/daemon]): requests to the data plane and the control plane.
      [Telemetry] ([internal/daemon/telemetry.go]): the lines of the event log.  [Routes]
      ([internal/daemon/api.go], [runtime.go]): what a method and a path reach.
    - [Node]: the pool of [Pool], run one call at a time over the factory of [Factory], as
      an instance of [Service]; [NodeInv] keeps the books of a host on which workers come
      and go, and [NodeProps] follows them through every history of the daemon.  [Crowd]:
      the same pool and factory with any number of goroutines in any interleaving.
    - [Vsock] ([internal/vsock]): the handshake through the buffered reader, and [Execute].
      [GuestAgent] ([cmd/herd-guest-agent]): what the agent does in a VM, as sequences of
      system calls whose answers are a function of the history; [EndToEnd] composes it with
      [Factory] and [Ipam]; [GuestBoot]: its goroutines and the host as a step relation;
      [GuestReap]: the goroutine that waits for orphans.
    - [Cloud] ([internal/cloud]): identity, transport and credentials, telemetry and
      commands, on [Daemon].  [Init], [Cli] and [Start] ([cmd/herd]): the commands;
      [Init.runInit] is on [StorageBoot] and [HostNet], [Start.runDaemon] on the allocators,
      the pool, [Cloud] and [Routes], [Cli.deploy] and its like on [Daemon.handle].  [Wire]:
      the JSON that they and the daemon exchange.

    A definition has the name of the Go function or type it translates; a method takes its
    receiver first and returns the new one.  Where a function was cut into pieces (the
    locked sections of [Acquire], the stages of [Spawn]) a comment or the name says which.

    ** What the theorems show

    - The program as a whole, in every history of control-plane requests, sweeps and
      proxied requests, which begin and end as steps of their own ([NodeProps]): sessions
      share no UID, address, tap or file; the host's
      books balance; nothing is left when no session is, and nothing when the daemon stops.
      These hold while the host has refused no release ([kept]), for names that it can tell
      apart and was not using before ([NodeInv.fits]: plain path elements that differ in
      the last eight bytes; [VmConfig.taps_collide] and [FactoryFiles.session_id_escapes]
      are what others do), and that are not used again after a creation under them failed.
      The commands of the cloud are such requests ([Cloud.boot_as_request]).  With the calls
      interleaved the virtual machines stay apart too ([Crowd]), in the orderly runs: those in
      which nothing is spawned under a name whose old worker still runs.  The pool does not
      keep to them; [overtaken_close_breaks_vm] is a run that shows what happens then.
      The pool that they run on is a map from names to workers ([Node.pool_serves]).
    - The pool, in every interleaving of [Acquire], [GetSession] and [KillWorker], which is
      what the daemon calls, with a registry and workers whose operations do not fail or
      crash: never
      more workers than the bound, one flight per session, a session keeps its worker, no
      panic, every run ends or waits for a ticket that is really taken, and a kill undoes
      an acquire.  With concurrent [Release], crashes, failing closes or registries, single
      runs show where those guarantees end.
    - The allocators: what is handed out is exclusive, comes from its range, and is found
      whenever there is one; addresses refine a cyclic search of the usable subnet.  Ports
      are exclusive as long as nobody gives back what it does not hold, which [Close] does
      for a port mapped twice ([second_release_breaks_isolation]).
    - The factory, where the host had nothing in the VM's name and refuses no release: a
      [Spawn] that fails at any step, and a [Close], restore UIDs, addresses,
      ports, links, rules, files and processes (only the parent directories of a chroot
      stay), and containerd's snapshots and leases but for the cases that the statement
      names; a [Spawn] that succeeds runs the command the image and the request ask for,
      in a jail whose files and owners are listed one by one, isolated as the rules say.
    - Leases: a sweep ends exactly the sessions whose limits have passed, a session with a
      request in flight is never idle, and across control plane, data plane and sweeps the
      sessions with a lease are those with a worker, each with a record of its own.
    - Storage: a bootstrap that fails at any step gives back loop devices, pool and files, and
      a teardown takes back what one that succeeds has set up, as long as no undo failed with
      a warning and no program let drop in silence what it was asked; [teardown_stops_others]
      and [busy_device_stays] are runs in which one did.
    - The guest: from the request to the process, the address that the allocator grants is
      the one that [eth0] gets, and the command of the session is the one that the agent
      starts ([EndToEnd]); in every interleaving no process starts before file
      systems and network are set up, and every process has the container as its root.
    - The commands: [herd init --yes] writes a configuration that loads, a configuration that
      is valid starts a daemon with what it names, [deploy] asks for what its flags say and
      [stop] is its inverse, a deployment means the same
      as JSON, every path of the control plane reaches the handler of the table of routes,
      the text for Firecracker is the VM, a credential swap survives a restart, a [boot_vm]
      command is answered, and every prompt ends.
    - Parsers, validation and the event log: accepted exactly when well formed, round trips,
      and the behaviour on short or overflowing input.

    ** Bounds and fuel

    [int] has 64 bits; sums and products that can wrap are written with [wrap64].  Loops
    over data are structural.  Two loops take fuel: the search of [Ipam] (one more than the
    addresses in use, [Acquire_spec]) and the port scan of [PortMgr] (one per port of the
    range and one more, [Allocate_spec]); both lemmas show that a result is always
    produced.  The IPv6 parser of [GoNet] takes the length of its input, and so do the line
    reader of [Vsock], the prompts of [Init] and the JSON reader of [GoJson], three times; a call of
    [Node] takes twelve steps, and [Shutdown] one for each worker and three; [read_line_spec], [prompts_end], [read_json_fuel], [pool_serves] and
    [shutdown_closes] show that it is enough.

    ** What is not modelled

    - Generated protocol code; the attribute of child processes, which nothing sets; the
      manual test [cmd/test_boot]; the serving of HTTP and of gRPC and their transport, YAML,
      printing and logging but for the text of an event, and the time that calls take.  Of
      the guest agent: the prefixing of its output and the copying of a shell's; of JSON:
      the limit on nesting; of the command line: the registration of flags.  What Firecracker
      and the jailer make of their arguments is theirs; of the files that they and the VM put
      below the chroot it is taken that they add to herd's and change none.
    - Interleavings inside a [Spawn] or a [Close]: in [Crowd] each is one step of the host.
      A proxied request is two steps, its begin and its end; what its worker does is not
      modelled.  Of the factory's worker: [Healthy], which nothing calls, and [OnCrash],
      which does nothing.
    - The answers of the kernel, of
      containerd, iptables and netlink are parameters, with the documented behaviour the
      code relies on as the laws of a class; each class has an instance. *)
From stdpp Require Export base gmap strings list list_numbers fin_maps numbers relations.
From stdpp Require Import options.

Declare Scope herd_scope.
Delimit Scope herd_scope with herd.
#[global] Open Scope herd_scope.
#[global] Open Scope Z_scope.

(** ** Fallible results

    A Go function that returns [(v, error)] is a function into [result E A]:
    [Ok v] when the error is nil and [Err e] otherwise. *)

Inductive result (E A : Type) : Type :=
  | Ok (a : A)
  | Err (e : E).
Arguments Ok {E A} a.
Arguments Err {E A} e.

#[global] Instance result_eq_dec {E A} `{EqDecision E, EqDecision A} : EqDecision (result E A).
Proof. solve_decision. Defined.

#[global] Instance result_ret {E} : MRet (result E) := λ A a, Ok a.
#[global] Instance result_bind {E} : MBind (result E) := λ A B f r,
  match r with Ok a => f a | Err e => Err e end.

Definition is_ok {E A} (r : result E A) : bool :=
  match r with Ok _ => true | Err _ => false end.

(** A boolean guard that returns early with an error, as [if !b { return e }]. *)
Definition check {E} (b : bool) (e : E) : result E unit :=
  if b then Ok tt else Err e.

Notation "'let!' x ':=' m 'in' k" := (mbind (M := result _) (λ x, k) m)
  (at level 100, x pattern, m at next level, k at level 200, right associativity) : herd_scope.

(** ** Machine integers

    Go's [int] is 64-bit on the platforms herd supports, with two's complement
    wrap-around; a byte is 8-bit. *)

Definition int64_min : Z := - 2 ^ 63.
Definition int64_max : Z := 2 ^ 63 - 1.
Definition wrap64 (z : Z) : Z := (z + 2 ^ 63) `mod` 2 ^ 64 - 2 ^ 63.
Definition in_int64 (z : Z) : Prop := int64_min ≤ z ≤ int64_max.
Definition wrap8 (z : Z) : Z := z `mod` 256.
Definition is_byte (z : Z) : Prop := 0 ≤ z < 256.

#[global] Instance in_int64_dec z : Decision (in_int64 z).
Proof. unfold in_int64. apply _. Defined.
#[global] Instance is_byte_dec z : Decision (is_byte z).
Proof. unfold is_byte. apply _. Defined.

Lemma wrap64_id z : in_int64 z → wrap64 z = z.
Proof.
  unfold in_int64, int64_min, int64_max, wrap64. intros Hz.
  rewrite Z.mod_small; lia.
Qed.

Lemma wrap64_range z : in_int64 (wrap64 z).
Proof.
  unfold in_int64, int64_min, int64_max, wrap64.
  pose proof (Z.mod_pos_bound (z + 2 ^ 63) (2 ^ 64) ltac:(lia)). lia.
Qed.

(** The wrap of a sum forgets the wraps inside. *)
Lemma wrap64_add_l a b : wrap64 (wrap64 a + b) = wrap64 (a + b).
Proof.
  unfold wrap64. f_equal. replace ((a + 2 ^ 63) `mod` 2 ^ 64 - 2 ^ 63 + b + 2 ^ 63)
    with ((a + 2 ^ 63) `mod` 2 ^ 64 + b) by lia.
  rewrite Zplus_mod_idemp_l. f_equal. lia.
Qed.

Lemma wrap8_id z : is_byte z → wrap8 z = z.
Proof. apply Z.mod_small. Qed.

Lemma wrap8_range z : is_byte (wrap8 z).
Proof. apply Z.mod_pos_bound. lia. Qed.

(** ** Automation *)

Create HintDb herd.
Create Rewrite HintDb herd.
#[export] Hint Resolve wrap64_range wrap8_range : herd.
#[export] Hint Rewrite wrap64_id using (unfold in_int64, int64_min, int64_max in *; lia) : herd.

(** Unfold a machine-integer side condition and leave it to [lia]. *)
Ltac int_lia :=
  unfold in_int64, is_byte, int64_min, int64_max in *; simpl in *; lia.

(** Evaluate the literal powers of two, so that [lia] sees constant divisors. *)
Ltac is_literal n :=
  lazymatch n with Zpos ?p => let b := eval vm_compute in (Z.leb n 64) in constr_eq b true | _ => fail end.

Ltac pow_const :=
  repeat match goal with
  | |- context [2 ^ ?n] =>
      is_literal n; let v := eval vm_compute in (2 ^ n) in change (2 ^ n) with v
  | H : context [2 ^ ?n] |- _ =>
      is_literal n; let v := eval vm_compute in (2 ^ n) in change (2 ^ n) with v in H
  end.

(** [lia] with literal powers, and division and modulo turned into equations. *)
Ltac pow_lia := pow_const; Z.to_euclidean_division_equations; lia.

(** Case analysis on every [match]/[if] of the hypotheses, then cleaning up. *)
Ltac crush_match :=
  repeat (case_match; simplify_eq/=; try done).

(** A counter modulo [c] either steps or wraps. *)
Lemma mod_succ x c :
  0 < c → (x + 1) `mod` c = if decide (x `mod` c = c - 1) then 0 else x `mod` c + 1.
Proof.
  intros Hc. rewrite <-Zplus_mod_idemp_l. pose proof (Z.mod_pos_bound x c Hc).
  case_decide as E; [|by rewrite Z.mod_small by lia].
  rewrite E. replace (c - 1 + 1) with c by lia. apply Z.mod_same. lia.
Qed.

(** ** Invariants of transition systems *)

Section invariants.
Context {S : Type} (step : S → S → Prop) (I : S → Prop).

Lemma invariant_rtc s0 s :
  (∀ s1 s2, step s1 s2 → I s1 → I s2) → rtc step s0 s → I s0 → I s.
Proof. intros Hstep. induction 1; eauto. Qed.
End invariants.

(** ** Lists *)

(** Distinct keys of a map are at most as many as its entries. *)
Lemma NoDup_keys_size {K V} `{Countable K} (l : list K) (m : gmap K V) :
  NoDup l → (∀ x, x ∈ l → is_Some (m !! x)) → (length l ≤ size m)%nat.
Proof.
  intros Hl Hm. rewrite <-size_dom. unfold size, set_size.
  apply submseteq_length. apply NoDup_submseteq; [done|].
  intros x Hx. by apply elem_of_elements, elem_of_dom, Hm.
Qed.

(** For a pair whose second component is costly to compare. *)
Lemma snd_pair {A B} (a : A) (b : B) : (a, b).2 = b.
Proof. done. Qed.

Lemma NoDup_fmap_eq {A B} (f : A → B) (l : list A) x y : NoDup (f <$> l) → x ∈ l → y ∈ l → f x = f y → x = y.
Proof.
  intros Hnd [i Hi]%list_elem_of_lookup [j Hj]%list_elem_of_lookup E.
  assert (i = j) as ->; [|congruence].
  apply (NoDup_lookup (f <$> l) i j (f x)); [done|by rewrite list_lookup_fmap, Hi|by rewrite list_lookup_fmap, Hj, E].
Qed.

Lemma NoDup_perm_cons {A} (x : A) l l' : l ≡ₚ (x :: l') → NoDup l → x ∉ l' ∧ NoDup l'.
Proof. intros -> ?%NoDup_cons. done. Qed.

(** Replacing one element of a list, up to the order. *)
Lemma replace_perm {A} (l : list A) i x y :
  l !! i = Some x → ∃ rest, l ≡ₚ (x :: rest) ∧ <[i := y]> l ≡ₚ (y :: rest).
Proof.
  intros Hi. pose proof (lookup_lt_Some _ _ _ Hi). exists (take i l ++ drop (S i) l). split.
  - rewrite <-(take_drop_middle l i x) at 1 by done. by rewrite <-Permutation_middle.
  - rewrite insert_take_drop by done. by rewrite <-Permutation_middle.
Qed.

Lemma sum_list_with_zero {A} (f : A → nat) l :
  (∀ x, x ∈ l → f x = 0%nat) → sum_list_with f l = 0%nat.
Proof.
  induction l as [|x l IH]; simpl; intros Hl; [done|].
  rewrite (Hl x) by by left. apply IH. intros y ?. apply Hl. by right.
Qed.

Lemma omap_cons {A B} (f : A → option B) x l :
  omap f (x :: l) = match f x with Some y => y :: omap f l | None => omap f l end.
Proof. done. Qed.

Lemma omap_agree {A B} (g g' : A → option B) (l : list A) : (∀ x, x ∈ l → g x = g' x) → omap g l = omap g' l.
Proof.
  induction l as [|x l IH]; intros Hg; [done|]. rewrite !omap_cons, Hg, IH; [done| |by left].
  intros y Hy. apply Hg. by right.
Qed.

(** Two elements at different places, up to the order of the list. *)
Lemma two_perm {A} (l : list A) i j x y :
  i ≠ j → l !! i = Some x → l !! j = Some y → ∃ rest, l ≡ₚ (x :: y :: rest).
Proof.
  intros Hij Hi Hj. destruct (replace_perm l i x y Hi) as (rest & E1 & E2).
  assert (y ∈ rest) as [rest' E]%elem_of_Permutation; [|exists rest'; by rewrite E1, E].
  assert (count_occ_perm : ∀ k, l !! k = Some y → k ≠ i → y ∈ take i l ++ drop (S i) l).
  { intros k Hk Hne. apply elem_of_app. destruct (decide (k < i)%nat).
    - left. apply list_elem_of_lookup. exists k. by rewrite lookup_take_lt.
    - right. apply list_elem_of_lookup. exists (k - S i)%nat. rewrite lookup_drop.
      by replace (S i + (k - S i))%nat with k by lia. }
  assert (rest ≡ₚ take i l ++ drop (S i) l) as ->.
  { apply (Permutation_cons_inv (a := x)). rewrite <-E1.
    rewrite <-(take_drop_middle l i x) at 1 by done. by rewrite <-Permutation_middle. }
  by eapply count_occ_perm.
Qed.
