(* ===== verification/GoStrings.v ===== *)
(** * Go's [strings], [strconv] and [path/filepath], as far as herd uses them

    A Go string is a sequence of bytes ([String.string]).  [ToLower] acts on ASCII
    letters; the only non-ASCII runes that lower to ASCII (U+212A and U+0130, to k
    and i) become letters that no string herd parses this way accepts.
    [ParseUint] is the base-10 loop of [strconv], with the cut-off test against
    uint64 overflow and the test against the requested width; [ParseInt] and [Atoi] are
    built on it.  [TrimSpace] and [Fields] know the white space of Unicode.  [Clean] and
    [FilepathJoin] are the Unix versions. *)
From Stdlib Require Export Ascii.
From stdpp Require Export pretty.
From stdpp Require Import options.
From S2P Require Import Prelude.

#[global] Arguments String.append !_ _ / : simpl nomatch.

Definition code (c : ascii) : Z := Z.of_N (Ascii.N_of_ascii c).

(** ** Characters *)

Definition is_digit (c : ascii) : bool := (48 <=? code c) && (code c <=? 57).
Definition digit_val (c : ascii) : Z := code c - 48.

Definition lower_char (c : ascii) : ascii :=
  if (65 <=? code c) && (code c <=? 90) then Ascii.ascii_of_N (Ascii.N_of_ascii c + 32) else c.

(** ** strings *)

Fixpoint ToLower (s : string) : string :=
  match s with
  | "" => ""
  | String c s => String (lower_char c) (ToLower s)
  end%string.

(** [strings.Split(s, sep)] for a one-byte separator: never empty, and the pieces
    joined with the separator give [s] back. *)
Fixpoint Split (sep : ascii) (s : string) : list string :=
  match s with
  | EmptyString => [EmptyString]
  | String c s =>
      if decide (c = sep) then EmptyString :: Split sep s
      else match Split sep s with
           | p :: ps => String c p :: ps
           | [] => [String c EmptyString]
           end
  end.

Fixpoint Join (sep : ascii) (ps : list string) : string :=
  match ps with
  | [] => EmptyString
  | [p] => p
  | p :: ps => p +:+ String sep (Join sep ps)
  end.

(** [strings.IndexByte(s, c) >= 0]. *)
Fixpoint contains_byte (c : ascii) (s : string) : bool :=
  match s with
  | EmptyString => false
  | String c' s => bool_decide (c = c') || contains_byte c s
  end.

Fixpoint all_bytes (f : ascii → bool) (s : string) : bool :=
  match s with EmptyString => true | String c s => f c && all_bytes f s end.

Definition HasPrefix (s p : string) : bool := String.prefix p s.

(** The suffix of [s] after its first [n] bytes, [s[n:]]. *)
Fixpoint drop_bytes (n : nat) (s : string) : string :=
  match n, s with
  | O, _ => s
  | S n, String _ s => drop_bytes n s
  | S _, EmptyString => EmptyString
  end.

Definition TrimPrefix (s p : string) : string :=
  if HasPrefix s p then drop_bytes (String.length p) s else s.

(** [strings.TrimSuffix]. *)
Fixpoint TrimSuffix (s p : string) : string :=
  if decide (s = p) then EmptyString
  else match s with String c s' => String c (TrimSuffix s' p) | EmptyString => EmptyString end.

(** The white space of ASCII. *)
Definition is_space (c : ascii) : bool := ((9 <=? code c) && (code c <=? 13)) || (code c =? 32).

(** The rest of [unicode.IsSpace], as UTF-8: U+0085 and U+00A0 of two bytes; U+1680, U+2000
    to U+200A, U+2028, U+2029, U+202F, U+205F and U+3000 of three. *)
Definition wide2 (c d : ascii) : bool := (code c =? 194) && ((code d =? 133) || (code d =? 160)).
Definition wide3 (c d e : ascii) : bool :=
  ((code c =? 225) && (code d =? 154) && (code e =? 128)) ||
  ((code c =? 226) && (code d =? 128) &&
    (((128 <=? code e) && (code e <=? 138)) || (code e =? 168) || (code e =? 169) || (code e =? 175))) ||
  ((code c =? 226) && (code d =? 129) && (code e =? 159)) ||
  ((code c =? 227) && (code d =? 128) && (code e =? 128)).

(** The text with a blank for each of these. *)
Fixpoint narrow (s : string) : string :=
  match s with
  | EmptyString => EmptyString
  | String c s1 =>
      match s1 with
      | EmptyString => s
      | String d s2 =>
          if wide2 c d then String " " (narrow s2) else
          match s2 with
          | EmptyString => String c (narrow s1)
          | String e s3 => if wide3 c d e then String " " (narrow s3) else String c (narrow s1)
          end
      end
  end.

Fixpoint fields_go (s : string) : string * list string :=
  match s with
  | EmptyString => (EmptyString, [])
  | String c s =>
      let '(w, ws) := fields_go s in
      if is_space c then (EmptyString, if decide (w = EmptyString) then ws else w :: ws)
      else (String c w, ws)
  end.

(** [strings.Fields]. *)
Definition Fields (s : string) : list string :=
  let '(w, ws) := fields_go (narrow s) in if decide (w = EmptyString) then ws else w :: ws.

(** Text of ASCII without white space. *)
Definition solid (c : ascii) : bool := (code c <? 128) && negb (is_space c).
Fixpoint no_space (s : string) : bool :=
  match s with EmptyString => true | String c s => solid c && no_space s end.

(** The strings before and after the last [sep]. *)
Fixpoint CutLast (sep : ascii) (s : string) : option (string * string) :=
  match s with
  | EmptyString => None
  | String c s =>
      match CutLast sep s with
      | Some (a, b) => Some (String c a, b)
      | None => if decide (c = sep) then Some (EmptyString, s) else None
      end
  end.

(** [strings.TrimSpace]: white space is cut at both ends. *)
Fixpoint trim_left (s : string) : string :=
  match s with
  | EmptyString => EmptyString
  | String c s1 =>
      if is_space c then trim_left s1 else
      match s1 with
      | EmptyString => s
      | String d s2 =>
          if wide2 c d then trim_left s2 else
          match s2 with
          | EmptyString => s
          | String e s3 => if wide3 c d e then trim_left s3 else s
          end
      end
  end.

Definition all_space (s : string) : bool := bool_decide (Fields s = []).

Fixpoint trim_right (s : string) : string :=
  if all_space s then EmptyString else
  match s with EmptyString => EmptyString | String c s => String c (trim_right s) end.

Definition TrimSpace (s : string) : string := trim_right (trim_left s).

(** [strings.Contains]. *)
Fixpoint Contains (s sub : string) : bool :=
  HasPrefix s sub || match s with EmptyString => false | String _ s' => Contains s' sub end.

(** ** path/filepath *)

(** One step of [filepath.Clean]: [st] holds the elements kept so far, the last first. *)
Definition clean_step (rooted : bool) (st : list string) (e : string) : list string :=
  if decide (e = "" ∨ e = ".")%string then st
  else if decide (e = "..")%string then
    match st with
    | [] => if rooted then [] else [e]
    | top :: st' => if decide (top = "..")%string then e :: st else st'
    end
  else e :: st.

Definition Clean (path : string) : string :=
  let rooted := HasPrefix path "/" in
  let body := Join "/" (rev (foldl (clean_step rooted) [] (Split "/" path))) in
  if rooted then String "/" body else if decide (body = EmptyString) then "."%string else body.

(** [filepath.Join]: elements before the first non-empty one are dropped. *)
Fixpoint FilepathJoin (elem : list string) : string :=
  match elem with
  | [] => EmptyString
  | e :: rest => if decide (e = EmptyString) then FilepathJoin rest else Clean (Join "/" (e :: rest))
  end.

(** [filepath.Dir]. *)
Definition Dir (path : string) : string :=
  match CutLast "/" path with
  | Some (a, _) => Clean (a +:+ "/")
  | None => "."
  end.

(** ** strconv *)

Inductive num_error := ErrSyntax | ErrRange.

#[export] Instance num_error_eq_dec : EqDecision num_error.
Proof. solve_decision. Defined.

Definition maxUint64 : Z := 2 ^ 64 - 1.
Definition cutoff10 : Z := maxUint64 `div` 10 + 1.

(** The loop of [ParseUint(s, 10, bitSize)] with accumulator [n].  When [n] is
    below the cut-off, [n*10] fits in a uint64, and [n1 < n] (the sum wrapped)
    holds exactly when the mathematical sum exceeds [maxUint64 >= maxVal]. *)
Fixpoint parse_uint_loop (maxVal n : Z) (s : string) : result num_error Z :=
  match s with
  | EmptyString => Ok n
  | String c s =>
      if negb (is_digit c) then Err ErrSyntax else
      if cutoff10 <=? n then Err ErrRange else
      let n1 := n * 10 + digit_val c in
      if maxVal <? n1 then Err ErrRange else parse_uint_loop maxVal n1 s
  end.

Definition ParseUint (s : string) (bitSize : Z) : result num_error Z :=
  if decide (s = EmptyString) then Err ErrSyntax
  else parse_uint_loop (2 ^ bitSize - 1) 0 s.

(** [ParseInt(s, 10, 64)]: the value is also returned with a range error. *)
Definition ParseInt (s : string) : Z * option num_error :=
  let neg := HasPrefix s "-" in
  let s := if neg || HasPrefix s "+" then drop_bytes 1 s else s in
  match ParseUint s 64 with
  | Err ErrSyntax => (0, Some ErrSyntax)
  | Err ErrRange => (if neg then int64_min else int64_max, Some ErrRange)
  | Ok un =>
      if neg then if 2 ^ 63 <? un then (int64_min, Some ErrRange) else (- un, None)
      else if 2 ^ 63 <=? un then (int64_max, Some ErrRange) else (un, None)
  end.

(** [strconv.Atoi]; an [int] has 64 bits. *)
Definition Atoi (s : string) : result num_error Z :=
  match ParseInt s with (n, None) => Ok n | (_, Some e) => Err e end.

(** The longest prefix of digits. *)
Fixpoint digits_prefix (s : string) : string :=
  match s with
  | EmptyString => EmptyString
  | String c s => if is_digit c then String c (digits_prefix s) else EmptyString
  end.

(** [fmt.Sscanf(s, "%d", &i)] of a string that starts with no space: a sign, then as many
    digits as there are; what follows them is ignored. *)
Definition Sscanf_d (s : string) : option Z :=
  let '(sign, rest) :=
    match s with
    | String c s' => if decide (c = "-"%char ∨ c = "+"%char) then (String c EmptyString, s') else (EmptyString, s)
    | EmptyString => (EmptyString, EmptyString)
    end in
  if decide (digits_prefix rest = EmptyString) then None
  else match ParseInt (sign +:+ digits_prefix rest) with (n, None) => Some n | (_, Some _) => None end.

(** [strconv.Itoa], and [%d] in a format. *)
Definition Itoa (z : Z) : string := pretty z.

(** ** The value of a digit string, as a reference *)

Fixpoint digits_value_from (n : Z) (s : string) : option Z :=
  match s with
  | EmptyString => Some n
  | String c s => if is_digit c then digits_value_from (n * 10 + digit_val c) s else None
  end.

Definition digits_value (s : string) : option Z :=
  if decide (s = EmptyString) then None else digits_value_from 0 s.

(** ** Lemmas *)

Lemma is_digit_val c : is_digit c = true → 0 ≤ digit_val c ≤ 9.
Proof. unfold is_digit, digit_val. rewrite andb_true_iff, !Z.leb_le. lia. Qed.

Lemma is_digit_pretty n :
  (n < 10)%N → is_digit (pretty_N_char n) = true ∧ digit_val (pretty_N_char n) = Z.of_N n.
Proof.
  intros Hn. assert (n = 0 ∨ n = 1 ∨ n = 2 ∨ n = 3 ∨ n = 4 ∨ n = 5 ∨ n = 6 ∨ n = 7 ∨ n = 8 ∨ n = 9)%N
    as Hcases by lia.
  by destruct_or!; subst.
Qed.

Lemma string_app_nil_r s : s +:+ "" = s.
Proof. induction s; simpl; congruence. Qed.

Lemma string_app_assoc s1 s2 s3 : (s1 +:+ s2) +:+ s3 = s1 +:+ (s2 +:+ s3).
Proof. induction s1; simpl; congruence. Qed.

Lemma contains_byte_app c s1 s2 :
  contains_byte c (s1 +:+ s2) = contains_byte c s1 || contains_byte c s2.
Proof. induction s1 as [|c' s1 IH]; simpl; [done|]. by rewrite IH, orb_assoc. Qed.

(** *** Split and Join *)

Lemma Split_nonempty sep s : Split sep s ≠ [].
Proof. destruct s; simpl; repeat case_match; done. Qed.

Lemma Join_cons sep p ps : ps ≠ [] → Join sep (p :: ps) = p +:+ String sep (Join sep ps).
Proof. by destruct ps. Qed.

Lemma Join_Split sep s : Join sep (Split sep s) = s.
Proof.
  induction s as [|c s IH]; [done|]. simpl. case_decide as Hc; subst.
  - rewrite Join_cons by apply Split_nonempty. simpl. by rewrite IH.
  - destruct (Split sep s) as [|p ps] eqn:E; [by destruct (Split_nonempty sep s)|].
    destruct ps; simpl in *; by rewrite <-IH.
Qed.

Lemma Split_no_sep sep s : Forall (λ p, contains_byte sep p = false) (Split sep s).
Proof.
  induction s as [|c s IH]; simpl; [by repeat constructor|].
  case_decide as Hc; [by constructor|].
  destruct (Split sep s) as [|p ps]; [repeat constructor|].
  - simpl. by rewrite bool_decide_eq_false_2.
  - apply Forall_cons in IH as [Hp Hps]. constructor; [|done]. simpl.
    by rewrite bool_decide_eq_false_2.
Qed.

Lemma Split_app sep p s :
  contains_byte sep p = false → Split sep (p +:+ String sep s) = p :: Split sep s.
Proof.
  induction p as [|c p IH]; simpl; [by rewrite decide_True|].
  intros [Hc Hp]%orb_false_iff. apply bool_decide_eq_false in Hc.
  rewrite decide_False by done. by rewrite IH.
Qed.

Lemma Split_one sep p : contains_byte sep p = false → Split sep p = [p].
Proof.
  induction p as [|c p IH]; simpl; [done|].
  intros [Hc Hp]%orb_false_iff. apply bool_decide_eq_false in Hc.
  rewrite decide_False by done. by rewrite IH.
Qed.

Lemma Split_Join sep ps :
  ps ≠ [] → Forall (λ p, contains_byte sep p = false) ps → Split sep (Join sep ps) = ps.
Proof.
  induction ps as [|p ps IH]; [done|]. intros _ [Hp Hps]%Forall_cons.
  destruct ps as [|p' ps]; [by apply Split_one|].
  rewrite Join_cons, Split_app by done. f_equal. by apply IH.
Qed.

(** *** Decimal numbers *)

Lemma digits_value_from_mono s n v : 0 ≤ n → digits_value_from n s = Some v → n ≤ v.
Proof.
  revert n. induction s as [|c s IH]; simpl; intros n Hn Hv; [by simplify_eq|].
  destruct (is_digit c) eqn:E; [|done]. apply is_digit_val in E.
  apply IH in Hv; lia.
Qed.

Lemma parse_uint_loop_spec maxVal n s v :
  0 ≤ n ≤ maxVal → maxVal ≤ maxUint64 →
  parse_uint_loop maxVal n s = Ok v ↔ digits_value_from n s = Some v ∧ v ≤ maxVal.
Proof.
  revert n. induction s as [|c s IH]; simpl; intros n Hn Hmax.
  { split; [intros ?; simplify_eq; split; [done|lia]|]. by intros [? _]; simplify_eq. }
  destruct (is_digit c) eqn:E; simpl; [|by split; [|intros [? _]]].
  pose proof (is_digit_val _ E) as Hd.
  assert (10 * cutoff10 > maxUint64) as Hcut by done.
  destruct (Z.leb_spec cutoff10 n); [|destruct (Z.ltb_spec maxVal (n * 10 + digit_val c))].
  - split; [done|]. intros [Hv Hle]. apply digits_value_from_mono in Hv; lia.
  - split; [done|]. intros [Hv Hle]. apply digits_value_from_mono in Hv; lia.
  - apply IH; lia.
Qed.

(** [ParseUint] accepts exactly the non-empty digit strings whose value fits. *)
Lemma ParseUint_spec s bits v :
  0 ≤ bits ≤ 64 →
  ParseUint s bits = Ok v ↔ digits_value s = Some v ∧ v ≤ 2 ^ bits - 1.
Proof.
  intros Hbits. unfold ParseUint, digits_value. case_decide; [by split; [|intros [? _]]|].
  assert (2 ^ bits ≤ 2 ^ 64) by (apply Z.pow_le_mono_r; lia).
  apply parse_uint_loop_spec; [|unfold maxUint64]; lia.
Qed.

Lemma digits_value_nonneg s v : digits_value s = Some v → 0 ≤ v.
Proof.
  unfold digits_value. case_decide; [done|]. intros Hv.
  by apply digits_value_from_mono in Hv.
Qed.

Lemma digits_value_from_pretty n s :
  digits_value_from 0 (pretty_N_go n s) = digits_value_from (Z.of_N n) s.
Proof.
  revert s. induction (N.lt_wf_0 n) as [n _ IH]; intros s.
  destruct (decide (n = 0%N)) as [->|Hn]; [by rewrite pretty_N_go_0|].
  rewrite pretty_N_go_step by lia. rewrite IH by (apply N.div_lt; lia). simpl.
  destruct (is_digit_pretty (n `mod` 10)%N) as [-> ->].
  { apply N.mod_lt. lia. }
  f_equal. rewrite N2Z.inj_div, N2Z.inj_mod.
  pose proof (Z.div_mod (Z.of_N n) 10 ltac:(lia)). lia.
Qed.

Lemma Itoa_pretty z : 0 ≤ z → Itoa z = pretty (Z.to_N z).
Proof. intros Hz. unfold Itoa. by destruct z. Qed.

Lemma Itoa_digits z : 0 ≤ z → digits_value (Itoa z) = Some z.
Proof.
  intros Hz. rewrite Itoa_pretty by done. unfold pretty, pretty_N, digits_value.
  destruct (decide (Z.to_N z = 0%N)) as [H0|H0]; [by replace z with 0 by lia|].
  case_decide as He.
  - pose proof (digits_value_from_pretty (Z.to_N z) "") as Hd.
    rewrite He in Hd. simpl in Hd. simplify_eq. lia.
  - rewrite digits_value_from_pretty. simpl. f_equal. lia.
Qed.

Lemma ParseUint_Itoa z bits : 0 ≤ bits ≤ 64 → 0 ≤ z ≤ 2 ^ bits - 1 → ParseUint (Itoa z) bits = Ok z.
Proof. intros ??. apply ParseUint_spec; [done|]. split; [apply Itoa_digits|]; lia. Qed.

Lemma Itoa_inj z1 z2 : 0 ≤ z1 → 0 ≤ z2 → Itoa z1 = Itoa z2 → z1 = z2.
Proof. intros H1 H2 E. pose proof (Itoa_digits z1 H1) as E1. rewrite E, Itoa_digits in E1 by done. by simplify_eq. Qed.

(** A digit string holds no other character, so no separator. *)
Lemma digits_value_from_no_byte c s n v :
  is_digit c = false → digits_value_from n s = Some v → contains_byte c s = false.
Proof.
  intros Hc. revert n. induction s as [|c' s IH]; simpl; intros n Hv; [done|].
  destruct (is_digit c') eqn:E; [|done].
  rewrite bool_decide_eq_false_2 by congruence. simpl. eauto.
Qed.

Lemma digits_value_no_byte c s v :
  is_digit c = false → digits_value s = Some v → contains_byte c s = false.
Proof. unfold digits_value. intros ?. case_decide; [done|]. by apply digits_value_from_no_byte. Qed.

Lemma Itoa_no_byte c z : is_digit c = false → 0 ≤ z → contains_byte c (Itoa z) = false.
Proof. intros ? Hz. by eapply digits_value_no_byte, Itoa_digits. Qed.

Lemma all_bytes_app f a b : all_bytes f (a +:+ b) = all_bytes f a && all_bytes f b.
Proof. induction a as [|c a IH]; [done|]. cbn [String.append all_bytes]. by rewrite IH, andb_assoc. Qed.

Lemma Itoa_bytes f z : (∀ c, is_digit c = true → f c = true) → 0 ≤ z → all_bytes f (Itoa z) = true.
Proof.
  intros Hf Hz. pose proof (Itoa_digits z Hz) as Hd. unfold digits_value in Hd. case_decide; [done|].
  revert Hd. generalize 0, (Itoa z). intros n s. revert n. induction s as [|c s IH]; intros n; [done|].
  cbn [digits_value_from all_bytes]. destruct (is_digit c) eqn:E; [|done]. intros Hd. by rewrite Hf, (IH _ Hd).
Qed.

(** *** Lower case *)

Lemma lower_char_digit c : is_digit c = true → lower_char c = c.
Proof.
  unfold is_digit, lower_char. intros [?%Z.leb_le ?%Z.leb_le]%andb_true_iff.
  destruct (Z.leb_spec 65 (code c)); [lia|done].
Qed.

Lemma ToLower_app s1 s2 : ToLower (s1 +:+ s2) = ToLower s1 +:+ ToLower s2.
Proof. induction s1; simpl; congruence. Qed.

Lemma ToLower_digits_from s n v : digits_value_from n s = Some v → ToLower s = s.
Proof.
  revert n. induction s as [|c s IH]; simpl; intros n Hv; [done|].
  destruct (is_digit c) eqn:E; [|done]. rewrite lower_char_digit by done. f_equal. eauto.
Qed.

Lemma ToLower_Itoa z : 0 ≤ z → ToLower (Itoa z) = Itoa z.
Proof.
  intros Hz. pose proof (Itoa_digits z Hz) as Hd. unfold digits_value in Hd.
  case_decide; [done|]. by eapply ToLower_digits_from.
Qed.

#[export] Hint Rewrite string_app_nil_r string_app_assoc contains_byte_app ToLower_app : herd.

Lemma HasPrefix_nil s : HasPrefix s EmptyString = true.
Proof. by destruct s. Qed.

Lemma contains_first c s : contains_byte c s = false → HasPrefix s (String c EmptyString) = false.
Proof.
  destruct s as [|c' s]; [done|]. simpl. intros [Hc _]%orb_false_iff. apply bool_decide_eq_false in Hc.
  unfold HasPrefix. cbn [String.prefix]. destruct (Ascii.ascii_dec c c') as [->|]; [by destruct Hc|done].
Qed.

Lemma digit_first s v : digits_value s = Some v → HasPrefix s "-" = false ∧ HasPrefix s "+" = false.
Proof. intros Hv. split; apply contains_first; eapply digits_value_no_byte; done. Qed.

Lemma ParseInt_Itoa z : 0 ≤ z ≤ int64_max → ParseInt (Itoa z) = (z, None).
Proof.
  unfold int64_max. intros Hz. destruct (digit_first (Itoa z) z) as [E1 E2]; [apply Itoa_digits; lia|].
  unfold ParseInt. rewrite E1, E2. cbn [orb]. rewrite ParseUint_Itoa by lia.
  by destruct (Z.leb_spec (2 ^ 63) z); [lia|].
Qed.

Lemma Atoi_Itoa z : 0 ≤ z ≤ int64_max → Atoi (Itoa z) = Ok z.
Proof. intros Hz. unfold Atoi. by rewrite ParseInt_Itoa. Qed.

Lemma ParseInt_range s : in_int64 (ParseInt s).1.
Proof.
  unfold ParseInt, in_int64, int64_min, int64_max. cbv zeta. match goal with |- context [ParseUint ?t 64] => set (s' := t) end.
  destruct (ParseUint s' 64) as [un|[]] eqn:E.
  - apply ParseUint_spec in E as [Hv Hle]; [|lia]. apply digits_value_nonneg in Hv.
    destruct (HasPrefix s "-").
    + destruct (Z.ltb_spec (2 ^ 63) un); simpl; lia.
    + destruct (Z.leb_spec (2 ^ 63) un); simpl; lia.
  - simpl. lia.
  - destruct (HasPrefix s "-"); simpl; lia.
Qed.

Lemma Clean_nonempty path : Clean path ≠ EmptyString.
Proof. unfold Clean. destruct (HasPrefix path "/"); [done|]. by case_decide. Qed.

Lemma FilepathJoin_nonempty elem : (∃ e, e ∈ elem ∧ e ≠ EmptyString) → FilepathJoin elem ≠ EmptyString.
Proof.
  intros (e & Hin & He). induction elem as [|x elem IH]; [by apply not_elem_of_nil in Hin|].
  cbn [FilepathJoin]. case_decide; [|apply Clean_nonempty]. apply IH.
  by apply elem_of_cons in Hin as [->|].
Qed.

Lemma no_space_app s1 s2 : no_space (s1 +:+ s2) = no_space s1 && no_space s2.
Proof. induction s1 as [|c s1 IH]; simpl; [done|]. by rewrite IH, andb_assoc. Qed.

Lemma narrow_char c s : code c < 128 → narrow (String c s) = String c (narrow s).
Proof.
  intros Hc. cbn [narrow]. destruct s as [|d s]; [done|].
  assert (wide2 c d = false) as -> by (unfold wide2; lia). destruct s as [|e s]; [done|].
  assert (wide3 c d e = false) as -> by (unfold wide3; lia). done.
Qed.

Lemma space_ascii c : is_space c = true → code c < 128.
Proof. unfold is_space. lia. Qed.

Lemma solid_ascii c : solid c = true → code c < 128 ∧ is_space c = false.
Proof. unfold solid. intros [? ?%negb_true_iff]%andb_true_iff. split; [lia|done]. Qed.

Lemma narrow_step x d s :
  wide2 x d = false → match s with EmptyString => True | String e _ => wide3 x d e = false end →
  narrow (String x (String d s)) = String x (narrow (String d s)).
Proof. intros H2 H3. destruct s as [|e s]; cbn [narrow]; rewrite H2, ?H3; reflexivity. Qed.

(** Behind ASCII the text starts anew. *)
Lemma narrow_app a c b : code c < 128 → narrow (a +:+ String c b) = narrow a +:+ String c (narrow b).
Proof.
  intros Hc. assert (∀ n a, (String.length a ≤ n)%nat → narrow (a +:+ String c b) = narrow a +:+ String c (narrow b)) as Hn;
    [|by apply (Hn (String.length a))].
  clear a. induction n as [|n IH]; intros a Ha.
  { destruct a; [|simpl in Ha; lia]. by apply narrow_char. }
  destruct a as [|x a]; [by apply narrow_char|].
  destruct a as [|y a].
  { cbn [String.append]. rewrite narrow_step by (destruct b; unfold wide2, wide3; lia || done). by rewrite narrow_char. }
  simpl in Ha. cbn [String.append]. destruct (wide2 x y) eqn:E2.
  { cbn [narrow]. rewrite E2. cbn [String.append]. f_equal. apply IH. lia. }
  destruct a as [|z a].
  - cbn [String.append]. rewrite (narrow_step x y (String c b)), (narrow_step x y EmptyString) by (done || unfold wide3; lia).
    cbn [String.append]. f_equal. apply (IH (String y "")). simpl. lia.
  - cbn [String.append]. destruct (wide3 x y z) eqn:E3.
    + cbn [narrow]. rewrite E2, E3. cbn [String.append]. f_equal. apply IH. simpl in Ha. lia.
    + specialize (IH (String y (String z a))). cbn [String.append] in IH.
      rewrite (narrow_step x y (String z (a +:+ String c b))), (narrow_step x y (String z a)), IH by (done || simpl in *; lia). done.
Qed.

Lemma narrow_word w s : no_space w = true → narrow (w +:+ s) = w +:+ narrow s.
Proof.
  induction w as [|c w IH]; [done|]. cbn [no_space String.append]. intros [[Hc _]%solid_ascii Hw]%andb_true_iff.
  by rewrite narrow_char, IH by done.
Qed.

Lemma fields_go_word w s :
  no_space w = true → fields_go (w +:+ s) = (w +:+ (fields_go s).1, (fields_go s).2).
Proof.
  induction w as [|c w IH]; simpl; [by destruct (fields_go s)|].
  intros [[_ Hc]%solid_ascii Hw]%andb_true_iff. by rewrite IH, Hc by done.
Qed.

Lemma Fields_space c s : is_space c = true → Fields (String c s) = Fields s.
Proof.
  intros Hc. unfold Fields. rewrite narrow_char by by apply space_ascii. simpl. rewrite Hc.
  destruct (fields_go _) as [w ws]. by repeat case_decide.
Qed.

(** A space separates fields. *)
Lemma Fields_app a c b : is_space c = true → Fields (a +:+ String c b) = Fields a ++ Fields b.
Proof.
  intros Hc. unfold Fields. rewrite narrow_app by by apply space_ascii.
  assert (∀ a, fields_go (a +:+ String c (narrow b)) = ((fields_go a).1, (fields_go a).2 ++ Fields b)) as H.
  { clear a. intros a. induction a as [|x a IH]; cbn [String.append fields_go].
    - unfold Fields. destruct (fields_go (narrow b)) as [w ws]. by rewrite Hc.
    - rewrite IH. destruct (fields_go a) as [w ws]. simpl. destruct (is_space x); [|done]. by case_decide. }
  rewrite H. destruct (fields_go (narrow a)) as [w ws]. simpl. by case_decide.
Qed.

Lemma Fields_last w : no_space w = true → w ≠ EmptyString → Fields w = [w].
Proof.
  intros Hw Hne. unfold Fields. rewrite <-(string_app_nil_r w) at 1. rewrite narrow_word, fields_go_word by done. simpl.
  rewrite string_app_nil_r. by rewrite decide_False.
Qed.

(** A word and a space are a field. *)
Lemma Fields_word w c s :
  no_space w = true → w ≠ EmptyString → is_space c = true → Fields (w +:+ String c s) = w :: Fields s.
Proof. intros Hw Hne Hc. by rewrite Fields_app, Fields_last. Qed.

Lemma Fields_Join ws :
  Forall (λ w, no_space w = true ∧ w ≠ EmptyString) ws → Fields (Join " " ws) = ws.
Proof.
  induction 1 as [|w ws [Hw Hne] Hws IH]; [done|]. destruct ws as [|w' ws]; [by apply Fields_last|].
  rewrite Join_cons by done. by rewrite Fields_word, IH.
Qed.

Lemma digits_no_space n s v : digits_value_from n s = Some v → no_space s = true.
Proof.
  revert n. induction s as [|c s IH]; simpl; intros n Hv; [done|].
  destruct (is_digit c) eqn:E; [|done]. rewrite (IH _ Hv), andb_true_r.
  unfold solid, is_digit, is_space in *. lia.
Qed.

Lemma Itoa_no_space z : 0 ≤ z → no_space (Itoa z) = true.
Proof.
  intros Hz. pose proof (Itoa_digits z Hz) as Hv. unfold digits_value in Hv. case_decide; [done|].
  by eapply digits_no_space.
Qed.

Lemma Itoa_not_empty z : 0 ≤ z → Itoa z ≠ EmptyString.
Proof. intros Hz E. pose proof (Itoa_digits z Hz) as Hv. by rewrite E in Hv. Qed.

Lemma CutLast_app sep p s : contains_byte sep s = false → CutLast sep (p +:+ String sep s) = Some (p, s).
Proof.
  intros Hs. assert (CutLast sep s = None) as Hn.
  { clear p. induction s as [|c s IH]; simpl in *; [done|]. apply orb_false_iff in Hs as [Hc Hs].
    rewrite IH by done. apply bool_decide_eq_false in Hc. by rewrite decide_False. }
  induction p as [|c p IH]; simpl; [by rewrite Hn, decide_True|]. by rewrite IH.
Qed.

(** *** Cleaned paths

    The elements of a cleaned path, the last first. *)
Fixpoint canonical (rooted : bool) (st : list string) : Prop :=
  match st with
  | [] => True
  | e :: st =>
      (e ≠ "" ∧ e ≠ "." ∧ contains_byte "/" e = false)%string ∧
      (e = ".."%string → rooted = false ∧ (st = [] ∨ head st = Some ".."%string)) ∧ canonical rooted st
  end.

Lemma clean_step_canonical rooted st e :
  contains_byte "/" e = false → canonical rooted st → canonical rooted (clean_step rooted st e).
Proof.
  intros He Hst. unfold clean_step. case_decide as H1; [done|].
  assert (e ≠ "" ∧ e ≠ ".")%string as [H1a H1b] by tauto. clear H1.
  case_decide as H2; [|by split_and!].
  destruct st as [|top st]; [destruct rooted; [done|simpl; by auto]|].
  case_decide as H3; [|by destruct Hst as (_ & _ & ?)]. subst. pose proof Hst as (_ & Hd & _).
  destruct (Hd eq_refl) as [-> _]. split_and!; try done. intros _. split; [done|by right].
Qed.

Lemma clean_fold_canonical rooted es :
  Forall (λ p, contains_byte "/" p = false) es → canonical rooted (foldl (clean_step rooted) [] es).
Proof.
  intros Hes. assert (canonical rooted []) as Hst by done. revert Hst. generalize (@nil string).
  induction Hes as [|e es He _ IH]; intros st Hst; [done|]. simpl. by apply IH, clean_step_canonical.
Qed.

(** Cleaning again keeps all the elements. *)
Lemma clean_fold_id rooted st : canonical rooted st → foldl (clean_step rooted) [] (rev st) = st.
Proof.
  induction st as [|e st IH]; [done|]. intros ((H1 & H2 & _) & Hd & Hst). simpl.
  rewrite foldl_app, IH by done. simpl. unfold clean_step.
  rewrite decide_False by (by intros [?|?]). case_decide as H3; [|done].
  destruct (Hd H3) as [-> [->|Ht]]; [done|]. destruct st as [|t st]; [done|]. simpl in Ht. simplify_eq.
  by rewrite decide_True.
Qed.

Lemma canonical_no_slash rooted st : canonical rooted st → Forall (λ p, contains_byte "/" p = false) st.
Proof. induction st as [|e st IH]; [done|]. intros ((_ & _ & H) & _ & Hst). constructor; [done|by apply IH]. Qed.

Lemma Join_snoc sep ps e : ps ≠ [] → Join sep (ps ++ [e]) = Join sep ps +:+ String sep e.
Proof.
  induction ps as [|p ps IH]; [done|]. intros _. destruct ps as [|p' ps]; [done|].
  rewrite <-app_comm_cons, !Join_cons, IH by (done || by destruct ps).
  by rewrite string_app_assoc.
Qed.

(** A cleaned absolute path but the root is its elements. *)
Lemma Clean_elements x :
  HasPrefix x "/" = true → Clean x ≠ "/"%string →
  ∃ st, st ≠ [] ∧ canonical true st ∧ Clean x = String "/" (Join "/" (rev st)) ∧
    Split "/" (Clean x) = EmptyString :: rev st.
Proof.
  intros Hp Hr. unfold Clean in *. rewrite Hp in *. set (st := foldl (clean_step true) [] (Split "/" x)) in *.
  assert (canonical true st) as Hst by apply clean_fold_canonical, Split_no_sep.
  assert (st ≠ []) as Hne by (intros E; by rewrite E in Hr).
  exists st. split_and!; [done..|]. simpl. rewrite Split_Join; [done| |].
  - intros E. by apply (f_equal (@rev string)) in E; rewrite rev_involutive in E.
  - apply Forall_rev. by eapply canonical_no_slash.
Qed.

Lemma Split_snoc sep s e : contains_byte sep e = false → Split sep (s +:+ String sep e) = Split sep s ++ [e].
Proof.
  intros He. induction s as [|c s IH]; simpl.
  - rewrite decide_True by done. by rewrite Split_one.
  - case_decide; [by rewrite IH|]. rewrite IH. by destruct (Split sep s) eqn:E; [apply Split_nonempty in E|].
Qed.

(** A name that can be an element of a path. *)
Definition plain (e : string) : Prop :=
  (e ≠ "" ∧ e ≠ "." ∧ e ≠ "..")%string ∧ contains_byte "/" e = false.

(** An absolute path as [Clean] leaves it, but for the root. *)
Definition clean_abs (p : string) : Prop := Clean p = p ∧ HasPrefix p "/" = true ∧ p ≠ "/"%string.

Lemma HasPrefix_slash_app p s : HasPrefix p "/" = true → HasPrefix (p +:+ s) "/" = true.
Proof.
  destruct p as [|c p]; [done|]. unfold HasPrefix. cbn [String.prefix String.append].
  destruct (Ascii.ascii_dec "/" c); [intros _; by destruct (p +:+ s)|done].
Qed.

Lemma Clean_abs x :
  HasPrefix x "/" = true →
  Clean x = String "/" (Join "/" (rev (foldl (clean_step true) [] (Split "/" x)))).
Proof. unfold Clean. by intros ->. Qed.

Lemma clean_abs_Clean x : HasPrefix x "/" = true → Clean x ≠ "/"%string → clean_abs (Clean x).
Proof.
  intros Hp Hr. destruct (Clean_elements x Hp Hr) as (st & Hne & Hst & E & Es).
  split_and!; [|rewrite E; simpl; apply HasPrefix_nil|done].
  rewrite Clean_abs by (rewrite E; simpl; apply HasPrefix_nil).
  rewrite Es. simpl. by rewrite clean_fold_id, E.
Qed.

Lemma Clean_snoc y e :
  HasPrefix y "/" = true → Clean y ≠ "/"%string → plain e →
  Clean (y +:+ String "/" e) = Clean y +:+ String "/" e.
Proof.
  intros Hp Hr ((H1 & H2 & H3) & H4). rewrite !Clean_abs by (done || by apply HasPrefix_slash_app).
  rewrite Split_snoc, foldl_app by done. set (st := foldl (clean_step true) [] (Split "/" y)). simpl.
  unfold clean_step. rewrite decide_False by (by intros [?|?]). rewrite decide_False by done. simpl.
  rewrite Join_snoc; [done|]. intros E'. rewrite Clean_abs in Hr by done. fold st in Hr. by rewrite E' in Hr.
Qed.

Lemma Clean_snoc_not_root y e :
  HasPrefix y "/" = true → plain e → Clean (y +:+ String "/" e) ≠ "/"%string.
Proof.
  intros Hp ((H1 & H2 & H3) & H4). rewrite Clean_abs by by apply HasPrefix_slash_app.
  rewrite Split_snoc, foldl_app by done. set (st := foldl (clean_step true) [] (Split "/" y)). simpl.
  unfold clean_step. rewrite decide_False by (by intros [?|?]). rewrite decide_False by done. simpl.
  destruct (decide (rev st = [])) as [->|Hne]; [by intros [=]|]. rewrite Join_snoc by done.
  by destruct (Join "/" (rev st)).
Qed.

Lemma clean_abs_child p e :
  clean_abs p → plain e → FilepathJoin [p; e] = p +:+ String "/" e ∧ clean_abs (p +:+ String "/" e).
Proof.
  intros (E & Hp & Hr) He. assert (Clean (p +:+ String "/" e) = p +:+ String "/" e) as Ec.
  { rewrite Clean_snoc by (done || by rewrite E). by rewrite E. }
  split.
  - cbn [FilepathJoin]. rewrite decide_False by by destruct p. exact Ec.
  - split_and!; [done|by apply HasPrefix_slash_app|]. destruct p as [|c [|c' p]]; [done| |done].
    intros E'. destruct He as ((H1 & _) & _). simpl in E'. simplify_eq.
Qed.

Lemma Dir_child p e : clean_abs p → plain e → Dir (p +:+ String "/" e) = p.
Proof.
  intros (E & Hp & Hr) (_ & He). unfold Dir. rewrite CutLast_app by done.
  rewrite Clean_abs by by apply HasPrefix_slash_app. change "/"%string with (String "/" "").
  rewrite Split_snoc by done. rewrite foldl_app. simpl. unfold clean_step at 1.
  rewrite decide_True by by left. by rewrite <-Clean_abs.
Qed.

Lemma length_app_string s1 s2 : String.length (s1 +:+ s2) = (String.length s1 + String.length s2)%nat.
Proof. induction s1 as [|c s1 IH]; simpl; [done|]. by rewrite IH. Qed.

Lemma Join_take_length sep ps k : (String.length (Join sep (take k ps)) ≤ String.length (Join sep ps))%nat.
Proof.
  revert k. induction ps as [|p ps IH]; intros [|k]; try (simpl; lia).
  cbn [take]. destruct ps as [|p' ps]; [by rewrite take_nil|]. specialize (IH k).
  rewrite (Join_cons _ p (p' :: ps)), length_app_string by done.
  destruct k as [|k]; [simpl; lia|]. rewrite Join_cons, length_app_string by done. simpl in *. lia.
Qed.

Lemma HasPrefix_self p s : HasPrefix (p +:+ s) p = true.
Proof.
  unfold HasPrefix. induction p as [|c p IH]; [by destruct s|]. cbn [String.prefix String.append].
  by destruct (Ascii.ascii_dec c c).
Qed.

Lemma HasPrefix_inv s p : HasPrefix s p = true → ∃ t, s = p +:+ t.
Proof.
  unfold HasPrefix. revert s. induction p as [|c p IH]; intros s; [by exists s|].
  destruct s as [|c' s]; [done|]. simpl. destruct (Ascii.ascii_dec c c') as [->|]; [|done].
  intros [t ->]%IH. by exists t.
Qed.

(** The first occurrence of a byte cuts a string in one way. *)
Lemma first_byte x a b s t :
  contains_byte x a = false → contains_byte x s = false → a +:+ String x b = s +:+ String x t → a = s ∧ b = t.
Proof.
  revert s. induction a as [|c a IH]; intros [|c' s]; simpl.
  - intros _ _ [= ->]. done.
  - intros _ Hx [= <- _]. by rewrite bool_decide_eq_true_2 in Hx.
  - intros Ha _ [= -> _]. by rewrite bool_decide_eq_true_2 in Ha.
  - intros [_ Ha]%orb_false_iff [_ Hx]%orb_false_iff [= -> E]. by destruct (IH s Ha Hx E) as [-> ->].
Qed.

Lemma last_byte c x y x' y' :
  contains_byte c y = false → contains_byte c y' = false →
  x +:+ String c y = x' +:+ String c y' → x = x' ∧ y = y'.
Proof.
  intros Hy Hy'. revert x'. induction x as [|a x IH]; intros [|a' x']; simpl.
  - by intros [= ->].
  - intros [= -> E2]. rewrite E2, contains_byte_app in Hy. simpl in Hy. by rewrite bool_decide_eq_true_2, orb_true_r in Hy.
  - intros [= -> E2]. rewrite <-E2, contains_byte_app in Hy'. simpl in Hy'. by rewrite bool_decide_eq_true_2, orb_true_r in Hy'.
  - intros [= -> E2]. by destruct (IH x' E2) as [-> ->].
Qed.

Lemma Contains_app s t sub : HasPrefix t sub = true → Contains (s +:+ t) sub = true.
Proof.
  intros Ht. induction s as [|c s IH]; cbn [String.append Contains].
  - destruct t; cbn [Contains]; by rewrite Ht.
  - by rewrite IH, orb_true_r.
Qed.

(** *** TrimSpace *)

(** No white space at either end. *)
Definition trimmed (s : string) : Prop := TrimSpace s = s.

Lemma Fields_solid c s : solid c = true → Fields (String c s) ≠ [].
Proof.
  intros [Hc Hs]%solid_ascii. unfold Fields. rewrite narrow_char by done. cbn [fields_go].
  destruct (fields_go _) as [w ws]. by rewrite Hs.
Qed.

Lemma fields_go_solid a c b : solid c = true → fields_go (a +:+ String c b) ≠ ("", []).
Proof.
  intros [_ Hs]%solid_ascii. induction a as [|x a IH]; cbn [String.append fields_go].
  - destruct (fields_go b) as [w ws]. by rewrite Hs.
  - destruct (fields_go _) as [w ws]. destruct (is_space x); [|done]. case_decide; [|done]. by subst.
Qed.

(** A text with anything solid in it is no white space. *)
Lemma all_space_solid a c b : solid c = true → all_space (a +:+ String c b) = false.
Proof.
  intros Hs. pose proof (solid_ascii c Hs) as [Hc _]. apply bool_decide_eq_false. unfold Fields.
  rewrite narrow_app by done. pose proof (fields_go_solid (narrow a) c (narrow b) Hs) as H.
  destruct (fields_go _) as [w ws]. case_decide; [|done]. by subst; intros ->.
Qed.

Lemma all_space_snoc s c : is_space c = true → all_space (s +:+ String c EmptyString) = all_space s.
Proof. intros Hc. unfold all_space. by rewrite Fields_app, app_nil_r. Qed.

Lemma trim_right_app s c t :
  solid c = true → trim_right (s +:+ String c t) = s +:+ trim_right (String c t).
Proof.
  intros Hc. induction s as [|x s IH]; [done|]. cbn [String.append]. cbn [trim_right].
  pose proof (all_space_solid (String x s) c t Hc) as E. cbn [String.append] in E. by rewrite E, IH.
Qed.

Lemma trim_right_solid c t : solid c = true → trim_right (String c t) = String c (trim_right t).
Proof. intros Hc. cbn [trim_right]. by rewrite (all_space_solid "" c t Hc : all_space (String c t) = false). Qed.

Lemma trim_right_space s c : is_space c = true → trim_right (s +:+ String c EmptyString) = trim_right s.
Proof.
  intros Hc. induction s as [|x s IH].
  - cbn [String.append trim_right]. pose proof (all_space_snoc "" c Hc) as E. cbn [String.append] in E. by rewrite E.
  - cbn [String.append]. cbn [trim_right]. pose proof (all_space_snoc (String x s) c Hc) as E. cbn [String.append] in E.
    by rewrite E, IH.
Qed.

Lemma trim_right_word s : no_space s = true → trim_right s = s.
Proof.
  induction s as [|c s IH]; [done|]. cbn [no_space]. intros [Hc Hs]%andb_true_iff. by rewrite trim_right_solid, IH.
Qed.

Lemma trim_left_solid c t : solid c = true → trim_left (String c t) = String c t.
Proof.
  intros [Hc Hs]%solid_ascii. cbn [trim_left]. rewrite Hs. destruct t as [|d t]; [done|].
  assert (wide2 c d = false) as -> by (unfold wide2; lia). destruct t as [|e t]; [done|].
  assert (wide3 c d e = false) as -> by (unfold wide3; lia). done.
Qed.

Lemma trim_left_word s t : no_space s = true → s ≠ EmptyString → trim_left (s +:+ t) = s +:+ t.
Proof. destruct s as [|c s]; [done|]. cbn [no_space]. intros [Hc _]%andb_true_iff _. by apply trim_left_solid. Qed.

(** A word, with spaces behind it. *)
Lemma TrimSpace_line s c : no_space s = true → is_space c = true → TrimSpace (s +:+ String c EmptyString) = s.
Proof.
  intros Hs Hc. destruct (decide (s = EmptyString)) as [->|Hne]; unfold TrimSpace.
  - cbn [String.append trim_left]. by rewrite Hc.
  - rewrite trim_left_word by done. rewrite trim_right_space by done. by apply trim_right_word.
Qed.

Lemma TrimSpace_word s : no_space s = true → TrimSpace s = s.
Proof.
  intros Hs. destruct (decide (s = EmptyString)) as [->|Hne]; [done|]. unfold TrimSpace.
  rewrite <-(string_app_nil_r s) at 1. rewrite trim_left_word by done. rewrite string_app_nil_r.
  by apply trim_right_word.
Qed.

(** A space at the end is no part of the trimmed text. *)
Lemma trim_left_snoc s c :
  is_space c = true → trim_left (s +:+ String c EmptyString) =
    if decide (trim_left s = EmptyString) then EmptyString else trim_left s +:+ String c EmptyString.
Proof.
  intros Hc. assert (code c < 128) as Hlt by by apply space_ascii.
  assert (∀ n s, (String.length s ≤ n)%nat → trim_left (s +:+ String c EmptyString) =
    if decide (trim_left s = EmptyString) then EmptyString else trim_left s +:+ String c EmptyString) as Hn;
    [|by apply (Hn (String.length s))].
  clear s. induction n as [|n IH]; intros s Hl.
  { destruct s; [|simpl in Hl; lia]. cbn [String.append trim_left]. by rewrite Hc. }
  destruct s as [|x s]; [cbn [String.append trim_left]; by rewrite Hc|]. simpl in Hl.
  cbn [String.append]. cbn [trim_left]. destruct (is_space x); [apply IH; lia|].
  destruct s as [|y s]; [cbn [String.append]; by assert (wide2 x c = false) as -> by (unfold wide2; lia)|].
  cbn [String.append]. destruct (wide2 x y); [apply IH; simpl in Hl; lia|].
  destruct s as [|z s]; [cbn [String.append]; by assert (wide3 x y c = false) as -> by (unfold wide3; lia)|].
  cbn [String.append]. destruct (wide3 x y z); [apply IH; simpl in Hl; lia|]. by rewrite decide_False.
Qed.

Lemma TrimSpace_snoc s c : is_space c = true → TrimSpace (s +:+ String c EmptyString) = TrimSpace s.
Proof.
  intros Hc. unfold TrimSpace. rewrite trim_left_snoc by done.
  case_decide as E; [by rewrite E|]. by apply trim_right_space.
Qed.

(** A line of one no-break space is blank. *)
Example TrimSpace_wide :
  let nbsp := String "194" (String "160" "") in
  TrimSpace (" " +:+ nbsp +:+ "a" +:+ nbsp +:+ "b " +:+ nbsp) = "a" +:+ nbsp +:+ "b" ∧ TrimSpace nbsp = "" ∧
  Fields ("a" +:+ nbsp +:+ "b") = ["a"; "b"]%string.
Proof. by vm_compute. Qed.

Lemma digits_prefix_all s v : digits_value_from v s ≠ None → digits_prefix s = s.
Proof.
  revert v. induction s as [|c s IH]; intros v Hv; [done|]. simpl in *. destruct (is_digit c); [|done].
  f_equal. by eapply IH.
Qed.

Lemma clean_examples :
  Clean "/srv//jailer/./x/../y/" = "/srv/jailer/y"%string ∧ Clean "a/../.." = ".."%string ∧
  Clean "/.." = "/"%string ∧ FilepathJoin [""; "a"; "b"] = "a/b"%string ∧
  Fields "  cpu 1   2 " = ["cpu"; "1"; "2"]%string.
Proof. done. Qed.
