(* ===== verification/GoNet.v ===== *)
(** * Go's [net] and [net/netip], as far as herd uses them

    An IP address is the list of its 4 or 16 bytes, as [net.IP].  Parsing follows
    [netip.ParseAddr] (with its IPv4 and IPv6 loops); a parse error carries no
    information herd looks at, so it is [None].  Printing follows [IP.String]. *)
From stdpp Require Import options.
From S2P Require Import Prelude GoStrings.
#[local] Open Scope Z_scope.

(** ** Parsing *)

Inductive Addr :=
  | V4 (b : list Z)
  | V6 (b : list Z) (zone : string).

(** [parseIPv4Fields]: [prev] is [s[i-1]], [fields] the octets written so far
    ([pos] is their number), [val] and [digLen] the current octet. *)
Fixpoint v4_loop (prev : option ascii) (val digLen : Z) (fields : list Z) (s : string)
    : option (list Z) :=
  match s with
  | EmptyString =>
      if decide (length fields < 3)%nat then None else Some (fields ++ [val])
  | String c rest =>
      if is_digit c then
        if decide (digLen = 1 ∧ val = 0) then None else
        let val := val * 10 + digit_val c in
        if 255 <? val then None else v4_loop (Some c) val (digLen + 1) fields rest
      else if decide (c = "."%char) then
        if decide (prev = None ∨ rest = EmptyString ∨ prev = Some "."%char) then None else
        if decide (length fields = 3%nat) then None else
        v4_loop (Some c) 0 0 (fields ++ [val]) rest
      else None
  end.

Definition parseIPv4 (s : string) : option (list Z) := v4_loop None 0 0 [] s.

Definition hex_val (c : ascii) : option Z :=
  if is_digit c then Some (digit_val c)
  else if (97 <=? code c) && (code c <=? 102) then Some (code c - 97 + 10)
  else if (65 <=? code c) && (code c <=? 70) then Some (code c - 65 + 10)
  else None.

(** One group of hex digits: its length, its value and what follows. *)
Fixpoint hex_group (off acc : Z) (s : string) : option (Z * Z * string) :=
  match s with
  | EmptyString => Some (off, acc, s)
  | String c rest =>
      match hex_val c with
      | None => Some (off, acc, s)
      | Some d =>
          let acc := acc * 16 + d in
          if 3 <? off then None else
          if 65535 <? acc then None else hex_group (off + 1) acc rest
      end
  end.

(** The loop of [parseIPv6].  [ip] holds the bytes written so far, so [i] is its
    length; each round writes two bytes, so 8 rounds are enough.  The result is
    the bytes, the position of the ellipsis and the unread rest. *)
Fixpoint v6_loop (fuel : nat) (ellipsis : option nat) (ip : list Z) (s : string)
    : option (list Z * option nat * string) :=
  match fuel with
  | O => Some (ip, ellipsis, s)
  | S fuel =>
      '(off, acc, rest) ← hex_group 0 0 s;
      if decide (off = 0) then None else
      match rest with
      | String "." _ =>
          if decide (ellipsis = None ∧ length ip ≠ 12%nat) then None else
          if decide (16 < length ip + 4)%nat then None else
          v4 ← parseIPv4 s; Some (ip ++ v4, ellipsis, EmptyString)
      | _ =>
          let ip := ip ++ [acc `div` 256; acc `mod` 256] in
          match rest with
          | EmptyString => Some (ip, ellipsis, EmptyString)
          | String ":" EmptyString => None
          | String ":" (String ":" rest') =>
              if decide (ellipsis ≠ None) then None else
              if decide (rest' = EmptyString) then Some (ip, Some (length ip), EmptyString)
              else v6_loop fuel (Some (length ip)) ip rest'
          | String ":" rest' => v6_loop fuel ellipsis ip rest'
          | _ => None
          end
      end
  end.

(** [strings.Cut] at a one-byte separator. *)
Fixpoint Cut (sep : ascii) (s : string) : option (string * string) :=
  match s with
  | EmptyString => None
  | String c s =>
      if decide (c = sep) then Some (EmptyString, s)
      else '(a, b) ← Cut sep s; Some (String c a, b)
  end.

Inductive addr_error := missingPort | tooManyColons | missingBracket | unexpectedBracket.

(** [net.SplitHostPort]. *)
Definition SplitHostPort (hostport : string) : result addr_error (string * string) :=
  match CutLast ":" hostport with
  | None => Err missingPort
  | Some (before, port) =>
      if HasPrefix hostport "[" then
        match Cut "]" hostport with
        | None => Err missingBracket
        | Some (open_host, after) =>
            if decide (after = String ":" port) then
              if contains_byte "[" (drop_bytes 1 hostport) || contains_byte "]" after
              then Err unexpectedBracket else Ok (drop_bytes 1 open_host, port)
            else if HasPrefix after ":" then Err tooManyColons else Err missingPort
        end
      else if contains_byte ":" before then Err tooManyColons
      else if contains_byte "[" hostport || contains_byte "]" hostport then Err unexpectedBracket
      else Ok (before, port)
  end.

Definition expand (ip : list Z) (e : nat) : list Z :=
  take e ip ++ replicate (16 - length ip) 0 ++ drop e ip.

Definition parseIPv6_body (s : string) : option (list Z) :=
  if decide (s = "::") then Some (replicate 16 0) else
  '(ip, ellipsis, rest) ←
    (if HasPrefix s "::" then v6_loop 8 (Some O) [] (drop_bytes 2 s) else v6_loop 8 None [] s);
  if decide (rest ≠ EmptyString) then None else
  match ellipsis with
  | None => if decide (length ip < 16)%nat then None else Some ip
  | Some e => if decide (length ip < 16)%nat then Some (expand ip e) else None
  end.

Definition parseIPv6 (s : string) : option Addr :=
  match Cut "%" s with
  | Some (_, EmptyString) => None
  | Some (s, zone) => b ← parseIPv6_body s; Some (V6 b zone)
  | None => b ← parseIPv6_body s; Some (V6 b EmptyString)
  end.

(** The first of '.', ':' and '%' decides. *)
Fixpoint parse_scan (whole s : string) : option Addr :=
  match s with
  | EmptyString => None
  | String c rest =>
      if decide (c = "."%char) then b ← parseIPv4 whole; Some (V4 b)
      else if decide (c = ":"%char) then parseIPv6 whole
      else if decide (c = "%"%char) then None
      else parse_scan whole rest
  end.

Definition ParseAddr (s : string) : option Addr := parse_scan s s.

Definition v4InV6Prefix : list Z := replicate 10 0 ++ [255; 255].

(** [net.ParseIP]: always 16 bytes, no zone. *)
Definition ParseIP (s : string) : option (list Z) :=
  a ← ParseAddr s;
  match a with
  | V4 b => Some (v4InV6Prefix ++ b)
  | V6 b EmptyString => Some b
  | V6 _ _ => None
  end.

(** ** [net.IP] and [net.IPNet] *)

Definition To4 (ip : list Z) : option (list Z) :=
  if decide (length ip = 4%nat) then Some ip else
  if decide (length ip = 16%nat ∧ take 12 ip = v4InV6Prefix) then Some (drop 12 ip) else None.

Definition IPv6loopback : list Z := replicate 15 0 ++ [1].

Definition IsLoopback (ip : list Z) : bool :=
  match To4 ip with
  | Some ip4 => bool_decide (ip4 !! O = Some 127)
  | None => bool_decide (ip = IPv6loopback)
  end.

Record IPNet := mkIPNet { net_IP : list Z; net_Mask : list Z }.

Definition networkNumberAndMask (n : IPNet) : option (list Z * list Z) :=
  let m := net_Mask n in
  ip ← (match To4 (net_IP n) with
        | Some ip => Some ip
        | None => if decide (length (net_IP n) = 16%nat) then Some (net_IP n) else None
        end);
  if decide (length m = 4%nat) then if decide (length ip = 4%nat) then Some (ip, m) else None
  else if decide (length m = 16%nat) then
    Some (ip, if decide (length ip = 4%nat) then drop 12 m else m)
  else None.

Definition and_mask (ip m : list Z) : list Z := zip_with Z.land ip m.

Definition Contains (n : IPNet) (ip : list Z) : bool :=
  let '(nn, m) := default ([], []) (networkNumberAndMask n) in
  let ip := default ip (To4 ip) in
  bool_decide (length ip = length nn) && bool_decide (and_mask nn m = and_mask ip m).

Definition IP_Equal (a b : list Z) : bool :=
  if decide (length a = length b) then bool_decide (a = b)
  else if decide (length a = 4 ∧ length b = 16)%nat then bool_decide (v4InV6Prefix ++ a = b)
  else if decide (length a = 16 ∧ length b = 4)%nat then bool_decide (a = v4InV6Prefix ++ b)
  else false.

(** [CIDRMask(ones, bits)], [bits = 8 * l]. *)
Fixpoint CIDRMask (l : nat) (ones : Z) : list Z :=
  match l with
  | O => []
  | S l => if 8 <=? ones then 255 :: CIDRMask l (ones - 8)
           else (255 - Z.shiftr 255 ones) :: CIDRMask l 0
  end.

(** [IP.Mask] for an address already of the mask's length. *)
Definition ParseCIDR (s : string) : option (list Z * IPNet) :=
  '(addr, mask) ← Cut "/" s;
  a ← ParseAddr addr;
  b ← (match a with V4 b => Some b | V6 b EmptyString => Some b | V6 _ _ => None end);
  n ← digits_value mask;
  if decide (Z.of_nat (8 * length b) < n) then None else
  let m := CIDRMask (length b) n in
  Some (match a with V4 b => v4InV6Prefix ++ b | V6 b _ => b end, mkIPNet (and_mask b m) m).

(** ** Printing *)

Definition dotted (a b c d : Z) : string :=
  Itoa a +:+ "." +:+ Itoa b +:+ "." +:+ Itoa c +:+ "." +:+ Itoa d.

Definition hex_digit (d : Z) : ascii :=
  Ascii.ascii_of_N (Z.to_N (if d <? 10 then 48 + d else 87 + d)).

(** [appendHex]: no leading zeros, one digit at least. *)
Definition hex16 (x : Z) : string :=
  let ds := [x `div` 4096; (x `div` 256) `mod` 16; (x `div` 16) `mod` 16; x `mod` 16] in
  let keep := if decide (4096 ≤ x) then 0%nat else if decide (256 ≤ x) then 1%nat
              else if decide (16 ≤ x) then 2%nat else 3%nat in
  foldr (λ d s, String (hex_digit d) s) EmptyString (drop keep ds).

Fixpoint groups (b : list Z) : list Z :=
  match b with
  | h :: l :: b => h * 256 + l :: groups b
  | _ => []
  end.

Fixpoint zero_run (g : list Z) : nat :=
  match g with
  | 0 :: g => S (zero_run g)
  | _ => O
  end.

(** The first longest run of at least two zero groups: its start and end. *)
Definition zero_span (g : list Z) : option (nat * nat) :=
  foldl (λ best i,
    let l := zero_run (drop i g) in
    let bl := match best with Some (a, b) => (b - a)%nat | None => 0%nat end in
    if decide (2 ≤ l ∧ bl < l)%nat then Some (i, (i + l)%nat) else best) None (seq 0 8).

Definition colon_join (g : list Z) : string :=
  foldr (λ s acc, if decide (acc = EmptyString) then s else s +:+ ":" +:+ acc) EmptyString
    (hex16 <$> g).

Definition string6 (b : list Z) : string :=
  let g := groups b in
  match zero_span g with
  | None => colon_join g
  | Some (a, e) => colon_join (take a g) +:+ "::" +:+ colon_join (drop e g)
  end.

Definition IP_String (ip : list Z) : string :=
  match To4 ip with
  | Some [a; b; c; d] => dotted a b c d
  | _ => string6 ip
  end.
(** ** Lemmas on IPv4 addresses *)

(** Reading a printed octet from the start of a field. *)
Lemma v4_loop_octet n prev fields s :
  is_byte n →
  v4_loop prev 0 0 fields (Itoa n +:+ s) =
  v4_loop (Some (pretty_N_char (Z.to_N (n `mod` 10)))) n
    (if decide (n < 10) then 1 else if decide (n < 100) then 2 else 3) fields s.
Proof.
  intros Hn. assert (n ∈ seqZ 0 256) as Hin by (apply elem_of_seqZ; unfold is_byte in Hn; lia).
  clear Hn. revert n Hin. apply Forall_forall.
  let l := eval vm_compute in (seqZ 0 256) in change (seqZ 0 256) with l.
  repeat (apply Forall_cons; split; [reflexivity|]). by apply Forall_nil.
Qed.

(** A dot after a digit closes the field. *)
Lemma v4_loop_dot c val digLen fields s :
  is_digit c = true → s ≠ EmptyString → (length fields < 3)%nat →
  v4_loop (Some c) val digLen fields (String "." s) =
  v4_loop (Some "."%char) 0 0 (fields ++ [val]) s.
Proof.
  intros Hc Hs Hf. simpl. rewrite decide_False by (destruct s; naive_solver).
  by rewrite decide_False by lia.
Qed.

Lemma Itoa_nonempty z s : 0 ≤ z → Itoa z +:+ s ≠ EmptyString.
Proof.
  intros Hz E. pose proof (Itoa_digits z Hz) as Hd. destruct (Itoa z); [|done].
  by vm_compute in Hd.
Qed.

Lemma octet_last_digit n : is_byte n → is_digit (pretty_N_char (Z.to_N (n `mod` 10))) = true.
Proof. intros [? _]. apply is_digit_pretty. pose proof (Z.mod_pos_bound n 10). lia. Qed.

Lemma v4_loop_field n prev fields s :
  is_byte n → s ≠ EmptyString → (length fields < 3)%nat →
  v4_loop prev 0 0 fields (Itoa n +:+ String "." s) =
  v4_loop (Some "."%char) 0 0 (fields ++ [n]) s.
Proof. intros. rewrite v4_loop_octet by done. apply v4_loop_dot; [by apply octet_last_digit|done..]. Qed.

(** Printing and parsing an IPv4 address. *)
Lemma parseIPv4_dotted a b c d :
  is_byte a → is_byte b → is_byte c → is_byte d →
  parseIPv4 (dotted a b c d) = Some [a; b; c; d].
Proof.
  intros Ha Hb Hc Hd. unfold parseIPv4, dotted. simpl.
  rewrite v4_loop_field; [|done| |simpl; lia].
  2:{ apply Itoa_nonempty. apply Hb. }
  rewrite v4_loop_field; [|done| |simpl; lia].
  2:{ apply Itoa_nonempty. apply Hc. }
  rewrite v4_loop_field; [|done| |simpl; lia].
  2:{ rewrite <-(string_app_nil_r (Itoa d)). apply Itoa_nonempty. apply Hd. }
  rewrite <-(string_app_nil_r (Itoa d)), v4_loop_octet by done. done.
Qed.

Lemma dotted_inj a b c d a' b' c' d' :
  is_byte a → is_byte b → is_byte c → is_byte d →
  is_byte a' → is_byte b' → is_byte c' → is_byte d' →
  dotted a b c d = dotted a' b' c' d' → [a; b; c; d] = [a'; b'; c'; d'].
Proof.
  intros Ha Hb Hc Hd Ha' Hb' Hc' Hd' E.
  pose proof (parseIPv4_dotted a b c d Ha Hb Hc Hd) as E1.
  rewrite E, parseIPv4_dotted in E1 by done. by simplify_eq.
Qed.

(** The scan of a string of digits and then a dot picks the IPv4 parser. *)
Lemma parse_scan_dotted whole s r :
  (∃ v, digits_value s = Some v) →
  parse_scan whole (s +:+ String "." r) = b ← parseIPv4 whole; Some (V4 b).
Proof.
  intros [v Hv]. unfold digits_value in Hv. case_decide as He; [done|]. clear He.
  revert Hv. generalize 0. induction s as [|c s IH]; intros n Hv; [done|].
  simpl in *. destruct (is_digit c) eqn:E; [|done].
  rewrite !decide_False by (intros ->; done). by eapply IH.
Qed.

Lemma ParseAddr_dotted a b c d :
  is_byte a → is_byte b → is_byte c → is_byte d →
  ParseAddr (dotted a b c d) = Some (V4 [a; b; c; d]).
Proof.
  intros Ha Hb Hc Hd. unfold ParseAddr.
  assert (dotted a b c d = Itoa a +:+ String "." (Itoa b +:+ "." +:+ Itoa c +:+ "." +:+ Itoa d))
    as E by done.
  rewrite E at 2. rewrite parse_scan_dotted by (eexists; apply Itoa_digits, Ha).
  by rewrite parseIPv4_dotted.
Qed.

Lemma IP_String_dotted a b c d : IP_String [a; b; c; d] = dotted a b c d.
Proof. done. Qed.

Lemma dotted_no_byte x a b c d :
  is_digit x = false → x ≠ "."%char → is_byte a → is_byte b → is_byte c → is_byte d →
  contains_byte x (dotted a b c d) = false.
Proof.
  unfold is_byte, dotted. intros Hx Hdot Ha Hb Hc Hd.
  assert (contains_byte x "." = false) as Hd1 by (simpl; by rewrite bool_decide_eq_false_2).
  by rewrite !contains_byte_app, Hd1, !Itoa_no_byte by (done || lia).
Qed.

Lemma Cut_app sep p s : contains_byte sep p = false → Cut sep (p +:+ String sep s) = Some (p, s).
Proof.
  induction p as [|c p IH]; simpl; [by rewrite decide_True|].
  intros [Hc Hp]%orb_false_iff. apply bool_decide_eq_false in Hc.
  rewrite decide_False by done. by rewrite IH.
Qed.

(** The octets [parseIPv4] returns are four bytes. *)
Lemma v4_loop_bytes prev val digLen fields s b :
  Forall is_byte fields → (length fields ≤ 3)%nat → is_byte val →
  v4_loop prev val digLen fields s = Some b → length b = 4%nat ∧ Forall is_byte b.
Proof.
  revert prev val digLen fields. induction s as [|c s IH]; intros prev val digLen fields Hf Hl Hv E.
  - simpl in E. case_decide; [done|]. simplify_eq. rewrite length_app. simpl. split; [lia|].
    apply Forall_app. split; [done|by apply Forall_singleton].
  - simpl in E. destruct (is_digit c) eqn:Ed.
    + apply is_digit_val in Ed. case_decide; [done|].
      destruct (Z.ltb_spec 255 (val * 10 + digit_val c)); [done|].
      eapply IH, E; [done..|]. unfold is_byte in *. lia.
    + repeat (case_decide; [try done|]; try done).
      eapply IH, E; [|rewrite length_app; simpl; lia|done].
      apply Forall_app. split; [done|by apply Forall_singleton].
Qed.

Lemma parseIPv4_bytes s b : parseIPv4 s = Some b → length b = 4%nat ∧ Forall is_byte b.
Proof. apply v4_loop_bytes; [done|simpl; lia|done]. Qed.

(** An IPv4 text is made of digits and dots. *)
Lemma v4_loop_no_byte x prev val digLen fields s b :
  is_digit x = false → x ≠ "."%char →
  v4_loop prev val digLen fields s = Some b → contains_byte x s = false.
Proof.
  intros Hx Hdot. revert prev val digLen fields.
  induction s as [|c s IH]; intros prev val digLen fields E; [done|]. simpl in E |- *.
  destruct (is_digit c) eqn:Ed.
  - rewrite bool_decide_eq_false_2 by congruence. case_decide; [done|].
    destruct (255 <? _); [done|]. by eapply IH.
  - destruct (decide (c = "."%char)) as [->|]; [|done].
    rewrite bool_decide_eq_false_2 by done. repeat (case_decide; [done|]). by eapply IH.
Qed.

Lemma parse_scan_V4 whole s b : parse_scan whole s = Some (V4 b) → parseIPv4 whole = Some b.
Proof.
  induction s as [|c s IH]; simpl; [done|]. repeat case_decide; [| |done|done].
  - by destruct (parseIPv4 whole); intros; simplify_eq/=.
  - unfold parseIPv6. intros E. by repeat (case_match; simplify_option_eq).
Qed.

Lemma ParseAddr_V4 s b :
  ParseAddr s = Some (V4 b) →
  length b = 4%nat ∧ Forall is_byte b ∧
  ∀ x, is_digit x = false → x ≠ "."%char → contains_byte x s = false.
Proof.
  intros E%parse_scan_V4. destruct (parseIPv4_bytes _ _ E). split_and!; [done..|].
  intros x Hx Hdot. by eapply v4_loop_no_byte.
Qed.

(** ** Unit tests of the parser and the printer *)

Example parse_loopback6 : ParseAddr "::1" = Some (V6 IPv6loopback "").
Proof. vm_compute. reflexivity. Qed.
Example print_v6 :
  IP_String <$> ParseIP "2001:db8::8:800:200c:417a" = Some "2001:db8::8:800:200c:417a".
Proof. vm_compute. reflexivity. Qed.
Example print_mapped : IP_String <$> ParseIP "::ffff:127.0.0.1" = Some "127.0.0.1".
Proof. vm_compute. reflexivity. Qed.
Example parse_subnet :
  ParseCIDR "10.200.0.0/16" =
  Some (v4InV6Prefix ++ [10; 200; 0; 0], mkIPNet [10; 200; 0; 0] [255; 255; 0; 0]).
Proof. vm_compute. reflexivity. Qed.
Example parse_rejected :
  ParseIP <$> ["1.2.3.04"; "1.2.3"; "1.2.3.256"; "1::2::3"; "1:2:3:4:5:6:7:8:9"] =
  [None; None; None; None; None].
Proof. vm_compute. reflexivity. Qed.

(** A host without colons and brackets, and a port. *)
Lemma SplitHostPort_plain host port :
  contains_byte ":" host = false → contains_byte "[" host = false → contains_byte "]" host = false →
  contains_byte ":" port = false → contains_byte "[" port = false → contains_byte "]" port = false →
  SplitHostPort (host +:+ String ":" port) = Ok (host, port).
Proof.
  intros H1 H2 H3 H4 H5 H6. unfold SplitHostPort. rewrite CutLast_app by done.
  rewrite contains_first by (rewrite contains_byte_app, H2; simpl; by rewrite H5).
  rewrite H1, !contains_byte_app, H2, H3. simpl. by rewrite H5, H6.
Qed.

Lemma ParseIP_dotted a b c d :
  is_byte a → is_byte b → is_byte c → is_byte d →
  ParseIP (dotted a b c d) = Some (v4InV6Prefix ++ [a; b; c; d]).
Proof. intros. unfold ParseIP. by rewrite ParseAddr_dotted. Qed.

Lemma dotted_no_space a b c d :
  is_byte a → is_byte b → is_byte c → is_byte d → no_space (dotted a b c d) = true.
Proof.
  unfold is_byte, dotted. intros. rewrite !no_space_app, !Itoa_no_space by lia. done.
Qed.

Lemma dotted_nonempty a b c d : is_byte a → dotted a b c d ≠ EmptyString.
Proof. unfold is_byte. intros. apply Itoa_nonempty. lia. Qed.
