(* ===== verification/GoJson.v ===== *)
(** * Go's [encoding/json], as far as herd uses it

    Strings and lists of strings are printed as [json.Marshal] does, which escapes quotes,
    control characters, HTML and the line separators U+2028 and U+2029, and replaces what
    is no UTF-8.  The reader takes any JSON value from the front of a text, as
    [json.Decoder] does; it takes fuel, and three times the length of the text is
    enough ([read_json_fuel]).  The limit of 10000 levels is left out. *)
From stdpp Require Import options.
From S2P Require Import Prelude GoStrings GoNet.
#[local] Open Scope Z_scope.

Definition quote : ascii := "034".
Definition backslash : ascii := "092".
Definition byte (z : Z) : ascii := Ascii.ascii_of_N (Z.to_N z).

(** ** UTF-8 *)

Definition between (lo hi : Z) (c : ascii) : bool := (lo <=? code c) && (code c <=? hi).
Definition cont (c : ascii) : bool := between 128 191 c.

(** The number of bytes of the rune at the front, 0 if there is none. *)
Definition utf8_size (s : string) : nat :=
  match s with
  | String a s1 =>
      if code a <? 128 then 1%nat
      else match s1 with
           | String b s2 =>
               if between 194 223 a then if cont b then 2%nat else 0%nat
               else match s2 with
                    | String c s3 =>
                        if between 224 239 a then
                          if between (if code a =? 224 then 160 else 128) (if code a =? 237 then 159 else 191) b
                             && cont c then 3%nat else 0%nat
                        else match s3 with
                             | String d _ =>
                                 if between 240 244 a &&
                                    between (if code a =? 240 then 144 else 128) (if code a =? 244 then 143 else 191) b
                                    && cont c && cont d then 4%nat else 0%nat
                             | EmptyString => 0%nat
                             end
                    | EmptyString => 0%nat
                    end
           | EmptyString => 0%nat
           end
  | EmptyString => 0%nat
  end.

(** [skip] bytes of a rune are still to come. *)
Fixpoint valid_from (skip : nat) (s : string) : bool :=
  match s with
  | EmptyString => bool_decide (skip = O)
  | String _ s' =>
      match skip with
      | S k => valid_from k s'
      | O => match utf8_size s with O => false | S k => valid_from k s' end
      end
  end.

Definition valid_utf8 (s : string) : bool := valid_from 0 s.

Definition encode_rune (x : Z) : string :=
  if x <? 128 then String (byte x) ""
  else if x <? 2048 then String (byte (192 + x `div` 64)) (String (byte (128 + x `mod` 64)) "")
  else if x <? 65536 then
    String (byte (224 + x `div` 4096)) (String (byte (128 + (x `div` 64) `mod` 64)) (String (byte (128 + x `mod` 64)) ""))
  else
    String (byte (240 + x `div` 262144)) (String (byte (128 + (x `div` 4096) `mod` 64))
      (String (byte (128 + (x `div` 64) `mod` 64)) (String (byte (128 + x `mod` 64)) ""))).

Definition RuneError : string := encode_rune 65533.

(** ** Printing *)

Definition html_safe (c : ascii) : bool :=
  (32 <=? code c) && negb (bool_decide (c ∈ [quote; backslash; "<"; ">"; "&"]%char)).

Definition escape (c : ascii) : string :=
  if html_safe c then String c ""
  else if decide (c = quote ∨ c = backslash) then String backslash (String c "")
  else if code c =? 8 then String backslash "b"
  else if code c =? 12 then String backslash "f"
  else if code c =? 10 then String backslash "n"
  else if code c =? 13 then String backslash "r"
  else if code c =? 9 then String backslash "t"
  else String backslash ("u00" +:+ String (hex_digit (code c `div` 16)) (String (hex_digit (code c `mod` 16)) "")).

(** The last digit of the separator at the front, U+2028 or U+2029. *)
Definition line_separator (s : string) : option ascii :=
  match s with
  | String a (String b (String c _)) =>
      if decide (code a = 226 ∧ code b = 128 ∧ (code c = 168 ∨ code c = 169)) then
        Some (if code c =? 168 then "8"%char else "9"%char)
      else None
  | _ => None
  end.

(** [copy] bytes of a rune are still to be copied, [drop] to be dropped. *)
Fixpoint string_body (copy drop : nat) (s : string) : string :=
  match s with
  | EmptyString => ""
  | String c s' =>
      match copy, drop with
      | S k, _ => String c (string_body k drop s')
      | O, S k => string_body O k s'
      | O, O =>
          if code c <? 128 then escape c +:+ string_body 0 0 s'
          else match line_separator s with
               | Some d => String backslash ("u202" +:+ String d (string_body 0 2 s'))
               | None =>
                   match utf8_size s with
                   | O => String backslash ("ufffd" +:+ string_body 0 0 s')
                   | S k => String c (string_body k 0 s')
                   end
               end
      end
  end.

Definition print_string (s : string) : string := String quote (string_body 0 0 s +:+ String quote "").

Fixpoint separated (ps : list string) : string :=
  match ps with
  | [] => ""
  | [p] => p
  | p :: ps => p +:+ "," +:+ separated ps
  end.

(** A [[]string]; [None] is the nil slice. *)
Definition print_strings (l : option (list string)) : string :=
  match l with
  | None => "null"
  | Some l => "[" +:+ separated (print_string <$> l) +:+ "]"
  end.

(** ** Reading *)

Inductive json :=
  | JNull
  | JBool (b : bool)
  | JNumber (literal : string)
  | JString (s : string)
  | JArray (l : list json)
  | JObject (l : list (string * json)).

Definition json_space (c : ascii) : bool := bool_decide (c ∈ [" "; "009"; "010"; "013"]%char).

Fixpoint skip_space (s : string) : string :=
  match s with
  | String c s' => if json_space c then skip_space s' else s
  | EmptyString => ""
  end.

Definition hex_value (c : ascii) : option Z :=
  if is_digit c then Some (digit_val c)
  else if between 97 102 c then Some (code c - 87)
  else if between 65 70 c then Some (code c - 55)
  else None.

Definition hex4 (a b c d : ascii) : option Z :=
  match hex_value a, hex_value b, hex_value c, hex_value d with
  | Some a, Some b, Some c, Some d => Some (((a * 16 + b) * 16 + c) * 16 + d)
  | _, _, _, _ => None
  end.

Definition simple_escape (c : ascii) : option ascii :=
  if decide (c = quote ∨ c = backslash ∨ c = "/"%char) then Some c
  else if decide (c = "b"%char) then Some (byte 8)
  else if decide (c = "f"%char) then Some (byte 12)
  else if decide (c = "n"%char) then Some (byte 10)
  else if decide (c = "r"%char) then Some (byte 13)
  else if decide (c = "t"%char) then Some (byte 9)
  else None.

Definition prepend (p : string) (r : option (string * string)) : option (string * string) :=
  match r with Some (a, rest) => Some (p +:+ a, rest) | None => None end.

Definition high_surrogate (x : Z) : bool := (55296 <=? x) && (x <? 56320).
Definition low_surrogate (x : Z) : bool := (56320 <=? x) && (x <? 57344).

(** The string up to the closing quote, and the text behind it. *)
Fixpoint read_string (copy : nat) (s : string) : option (string * string) :=
  match s with
  | EmptyString => None
  | String c s' =>
      match copy with
      | S k => prepend (String c "") (read_string k s')
      | O =>
          if decide (c = quote) then Some ("", s')
          else if decide (c = backslash) then
            match s' with
            | String e s2 =>
                if decide (e = "u"%char) then
                  match s2 with
                  | String h1 (String h2 (String h3 (String h4 r))) =>
                      match hex4 h1 h2 h3 h4 with
                      | None => None
                      | Some x =>
                          match r with
                          | String b (String u (String k1 (String k2 (String k3 (String k4 r'))))) =>
                              match (if decide (b = backslash ∧ u = "u"%char) then hex4 k1 k2 k3 k4 else None) with
                              | Some y =>
                                  if high_surrogate x && low_surrogate y then
                                    prepend (encode_rune ((x - 55296) * 1024 + (y - 56320) + 65536)) (read_string 0 r')
                                  else prepend (if high_surrogate x || low_surrogate x then RuneError else encode_rune x)
                                         (read_string 0 r)
                              | None => prepend (if high_surrogate x || low_surrogate x then RuneError else encode_rune x)
                                          (read_string 0 r)
                              end
                          | _ => prepend (if high_surrogate x || low_surrogate x then RuneError else encode_rune x)
                                   (read_string 0 r)
                          end
                      end
                  | _ => None
                  end
                else match simple_escape e with
                     | Some ch => prepend (String ch "") (read_string 0 s2)
                     | None => None
                     end
            | EmptyString => None
            end
          else if code c <? 32 then None
          else if code c <? 128 then prepend (String c "") (read_string 0 s')
          else match utf8_size s with
               | O => prepend RuneError (read_string 0 s')
               | S k => prepend (String c "") (read_string k s')
               end
      end
  end.

Definition starts (p s : string) : option string :=
  if HasPrefix s p then Some (drop_bytes (String.length p) s) else None.

(** The literal of a number, and the text behind it. *)
Definition read_digits (s : string) : string * string :=
  (digits_prefix s, drop_bytes (String.length (digits_prefix s)) s).

Definition read_number (s : string) : option (string * string) :=
  let '(sign, s) := match starts "-" s with Some r => ("-", r) | None => ("", s) end in
  let '(int, s) :=
    match starts "0" s with Some r => ("0", r) | None => read_digits s end in
  if decide (int = "") then None else
  let frac :=
    match starts "." s with
    | Some r => let '(ds, r) := read_digits r in if decide (ds = "") then None else Some ("." +:+ ds, r)
    | None => Some ("", s)
    end in
  match frac with
  | None => None
  | Some (frac, s) =>
      match s with
      | String e r =>
          if decide (e = "e"%char ∨ e = "E"%char) then
            let '(sg, r) := match starts "+" r, starts "-" r with
                            | Some r, _ => ("+", r) | None, Some r => ("-", r) | None, None => ("", r) end in
            let '(ds, r) := read_digits r in
            if decide (ds = "") then None
            else Some (sign +:+ int +:+ frac +:+ String e (sg +:+ ds), r)
          else Some (sign +:+ int +:+ frac, s)
      | EmptyString => Some (sign +:+ int +:+ frac, s)
      end
  end.

(** The value at the front, and the text behind it. *)
Fixpoint read_value (fuel : nat) (s : string) : option (json * string) :=
  match fuel with
  | O => None
  | S fuel =>
      match skip_space s with
      | EmptyString => None
      | String c r =>
          if decide (c = quote) then
            match read_string 0 r with Some (v, r) => Some (JString v, r) | None => None end
          else if decide (c = "["%char) then
            match skip_space r with
            | String c' r' => if decide (c' = "]"%char) then Some (JArray [], r') else read_elements fuel r
            | EmptyString => None
            end
          else if decide (c = "{"%char) then
            match skip_space r with
            | String c' r' => if decide (c' = "}"%char) then Some (JObject [], r') else read_members fuel r
            | EmptyString => None
            end
          else match starts "null" (String c r), starts "true" (String c r), starts "false" (String c r) with
               | Some r, _, _ => Some (JNull, r)
               | None, Some r, _ => Some (JBool true, r)
               | None, None, Some r => Some (JBool false, r)
               | None, None, None =>
                   match read_number (String c r) with Some (v, r) => Some (JNumber v, r) | None => None end
               end
      end
  end
with read_elements (fuel : nat) (s : string) : option (json * string) :=
  match fuel with
  | O => None
  | S fuel =>
      match read_value fuel s with
      | None => None
      | Some (v, r) =>
          match skip_space r with
          | String c r =>
              if decide (c = "]"%char) then Some (JArray [v], r)
              else if decide (c = ","%char) then
                match read_elements fuel r with
                | Some (JArray vs, r) => Some (JArray (v :: vs), r)
                | _ => None
                end
              else None
          | EmptyString => None
          end
      end
  end
with read_members (fuel : nat) (s : string) : option (json * string) :=
  match fuel with
  | O => None
  | S fuel =>
      match skip_space s with
      | String q r =>
          if decide (q = quote) then
            match read_string 0 r with
            | Some (key, r) =>
                match skip_space r with
                | String c r =>
                    if decide (c = ":"%char) then
                      match read_value fuel r with
                      | None => None
                      | Some (v, r) =>
                          match skip_space r with
                          | String c r =>
                              if decide (c = "}"%char) then Some (JObject [(key, v)], r)
                              else if decide (c = ","%char) then
                                match read_members fuel r with
                                | Some (JObject vs, r) => Some (JObject ((key, v) :: vs), r)
                                | _ => None
                                end
                              else None
                          | EmptyString => None
                          end
                      end
                    else None
                | EmptyString => None
                end
            | None => None
            end
          else None
      | EmptyString => None
      end
  end.

(** [Decode] of a [json.Decoder], without the conversion: behind a value that is neither an
    object nor an array there must be space or nothing.  The fuel is always enough, since
    every level and every element takes a byte. *)
Definition read_json (s : string) : option (json * string) :=
  match read_value (S (3 * String.length s)) s with
  | Some (JObject l, r) => Some (JObject l, r)
  | Some (JArray l, r) => Some (JArray l, r)
  | Some (v, EmptyString) => Some (v, "")
  | Some (v, String c r) => if json_space c then Some (v, String c r) else None
  | None => None
  end.

(** A field of a struct that is a [[]string]: what it held, and the value that is stored.  A
    null element keeps the old one at its index, if there is one. *)
Fixpoint read_items (old : list string) (l : list json) : option (list string) :=
  match l with
  | [] => Some []
  | v :: l =>
      match v, read_items (tail old) l with
      | JString s, Some rest => Some (s :: rest)
      | JNull, Some rest => Some (default "" (head old) :: rest)
      | _, _ => None
      end
  end.

Definition read_strings (old : option (list string)) (v : json) : option (option (list string)) :=
  match v with
  | JNull => Some None
  | JArray l => Some <$> read_items (default [] old) l
  | _ => None
  end.

(** ** Lemmas *)

Lemma code_inj a b : code a = code b → a = b.
Proof.
  unfold code. intros E. rewrite <-(ascii_N_embedding a), <-(ascii_N_embedding b). f_equal. lia.
Qed.

Lemma code_byte z : 0 ≤ z < 256 → code (byte z) = z.
Proof. intros Hz. unfold code, byte. rewrite N_ascii_embedding; lia. Qed.

(** Reading a rune back, by the way it is printed. *)
Lemma read_rune a k r :
  (code a <? 128) = false → utf8_size (String a r) = S k →
  read_string 0 (String a r) = prepend (String a "") (read_string k r).
Proof.
  intros Ha Hk. cbn [read_string]. rewrite decide_False by by intros ->.
  rewrite decide_False by by intros ->. apply Z.ltb_ge in Ha as Ha'.
  replace (code a <? 32) with false by (symmetry; apply Z.ltb_ge; lia). by rewrite Ha, Hk.
Qed.

Lemma read_u h1 h2 h3 h4 x r :
  hex4 h1 h2 h3 h4 = Some x → high_surrogate x = false → low_surrogate x = false →
  read_string 0 (String backslash (String "u" (String h1 (String h2 (String h3 (String h4 r)))))) =
    prepend (encode_rune x) (read_string 0 r).
Proof.
  intros Hx Hh Hl. cbn [read_string]. rewrite decide_False by done. rewrite !decide_True by done.
  rewrite Hx, Hh, Hl. cbn [andb orb]. by repeat case_match.
Qed.

Lemma read_escape c t :
  (code c <? 128) = true → read_string 0 (escape c +:+ t) = prepend (String c "") (read_string 0 t).
Proof.
  destruct c as [[] [] [] [] [] [] [] []]; intros E; first
    [ reflexivity
    | vm_compute in E; discriminate E
    | match goal with |- context [escape ?c] =>
        let e := eval vm_compute in (escape c) in change (escape c) with e;
        cbn [String.append]; rewrite (read_u _ _ _ _ (code c)) by reflexivity; reflexivity
      end ].
Qed.

Lemma line_separator_eq a b c s d :
  line_separator (String a (String b (String c s))) = Some d →
  hex4 "2" "0" "2" d = Some (8192 + 40 + (code c - 168)) ∧
  encode_rune (8192 + 40 + (code c - 168)) = String a (String b (String c "")) ∧
  168 ≤ code c ≤ 169.
Proof.
  cbn [line_separator]. case_decide as Hd; [|done]. destruct Hd as (Ha & Hb & Hc).
  rewrite (code_inj a (byte 226)), (code_inj b (byte 128)) by (rewrite code_byte; lia).
  destruct Hc as [Hc|Hc]; rewrite Hc; intros E; simplify_eq/=.
  - rewrite (code_inj c (byte 168)) by (rewrite code_byte; lia). split_and!; [done..|lia|lia].
  - rewrite (code_inj c (byte 169)) by (rewrite code_byte; lia). split_and!; [done..|lia|lia].
Qed.

(** The bytes of a rune, and that it is one whatever follows. *)
Lemma utf8_bytes a s k :
  (code a <? 128) = false → utf8_size (String a s) = S k →
  ∃ p r, s = p +:+ r ∧ String.length p = k ∧ ∀ r', utf8_size (String a (p +:+ r')) = S k.
Proof.
  intros Ha. unfold utf8_size. rewrite Ha. destruct s as [|b s]; [done|].
  destruct (between 194 223 a) eqn:E2.
  - destruct (cont b) eqn:Eb; [|done]. intros [= <-]. exists (String b ""), s.
    split_and!; [done..|]. intros r'. simpl. by rewrite Eb.
  - destruct s as [|c s]; [done|]. destruct (between 224 239 a) eqn:E3.
    + destruct (_ && cont c) eqn:Ec; [|done]. intros [= <-]. exists (String b (String c "")), s.
      split_and!; [done..|]. intros r'. simpl. by rewrite Ec.
    + destruct s as [|d s]; [done|]. destruct (_ && cont d) eqn:Ed; [|done]. intros [= <-].
      exists (String b (String c (String d ""))), s. split_and!; [done..|]. intros r'. simpl. by rewrite Ed.
Qed.

Lemma valid_from_app p s : valid_from (String.length p) (p +:+ s) = valid_from 0 s.
Proof. induction p as [|c p IH]; [done|]. cbn [valid_from String.length String.append]. apply IH. Qed.

Lemma body_copy p s : string_body (String.length p) 0 (p +:+ s) = p +:+ string_body 0 0 s.
Proof. induction p as [|c p IH]; [done|]. cbn [string_body String.length String.append]. by rewrite IH. Qed.

Lemma read_copy p s : read_string (String.length p) (p +:+ s) = prepend p (read_string 0 s).
Proof.
  induction p as [|c p IH]; cbn [read_string String.length String.append].
  - by destruct (read_string 0 s) as [[? ?]|].
  - rewrite IH. by destruct (read_string 0 s) as [[? ?]|].
Qed.

Lemma prepend_some p a r : prepend p (Some (a, r)) = Some (p +:+ a, r).
Proof. done. Qed.

Lemma read_body s t : valid_utf8 s = true → read_string 0 (string_body 0 0 s +:+ String quote t) = Some (s, t).
Proof.
  unfold valid_utf8. remember (String.length s) as n eqn:En. revert s En.
  induction (lt_wf n) as [n _ IH]. intros s -> Hv. destruct s as [|a s]; [done|].
  cbn [string_body valid_from] in *. destruct (code a <? 128) eqn:Ea.
  - rewrite string_app_assoc, read_escape by done. cbn [utf8_size] in Hv. rewrite Ea in Hv.
    by rewrite (IH (String.length s)) by (done || simpl; lia).
  - destruct (utf8_size (String a s)) as [|k] eqn:Ek; [done|].
    destruct (utf8_bytes a s k Ea Ek) as (p & r & -> & <- & Hp). rewrite valid_from_app in Hv.
    destruct (line_separator (String a (p +:+ r))) as [d|] eqn:El.
    + assert (∃ b c, p = String b (String c "")) as (b & c & ->).
      { destruct p as [|b [|c [|? ?]]]; cbn in El; cbn [utf8_size] in Ek; rewrite Ea in Ek.
        - destruct r as [|b r]; [done|]. repeat case_match; simplify_eq.
        - destruct r as [|c r]; [by repeat case_match|]. case_decide; [|done].
          replace (between 194 223 a) with false in Ek by (symmetry; unfold between; lia).
          cbn [String.append] in Ek. replace (between 224 239 a) with true in Ek by (symmetry; unfold between; lia).
          repeat case_match; simplify_eq.
        - by eexists _, _.
        - case_decide; [|done]. cbn [String.append] in Ek.
          replace (between 194 223 a) with false in Ek by (symmetry; unfold between; lia).
          replace (between 224 239 a) with true in Ek by (symmetry; unfold between; lia).
          repeat case_match; simplify_eq. }
      apply line_separator_eq in El as (Hx & He & Hc). cbn [String.append string_body].
      rewrite (read_u "2" "0" "2" d _ _ Hx) by (unfold high_surrogate, low_surrogate; lia).
      rewrite He. rewrite (IH (String.length r)) by (done || rewrite ?length_app_string; simpl; lia). done.
    + rewrite body_copy. cbn [String.append]. rewrite string_app_assoc.
      rewrite (read_rune _ (String.length p)) by (done || apply Hp). rewrite read_copy.
      rewrite (IH (String.length r)) by (done || simpl; rewrite ?length_app_string; lia). done.
Qed.

Lemma read_print_string s t :
  valid_utf8 s = true → ∃ r, print_string s +:+ t = String quote r ∧ read_string 0 r = Some (s, t).
Proof.
  intros Hs. unfold print_string. eexists. split; [done|].
  rewrite string_app_assoc. by apply read_body.
Qed.

Lemma skip_nonspace c s : json_space c = false → skip_space (String c s) = String c s.
Proof. intros E. cbn [skip_space]. by rewrite E. Qed.

Lemma read_value_string fuel s t :
  (0 < fuel)%nat → valid_utf8 s = true → read_value fuel (print_string s +:+ t) = Some (JString s, t).
Proof.
  intros Hf Hs. destruct fuel as [|fuel]; [lia|]. destruct (read_print_string s t Hs) as (r & -> & Hr). cbn [read_value].
  rewrite skip_nonspace by done. rewrite decide_True by done. by rewrite Hr.
Qed.

Lemma read_elements_print l fuel t :
  l ≠ [] → Forall (λ s, valid_utf8 s = true) l → (length l < fuel)%nat →
  read_elements fuel (separated (print_string <$> l) +:+ String "]" t) = Some (JArray (JString <$> l), t).
Proof.
  revert fuel. induction l as [|s l IH]; [done|]. intros fuel _ [Hs Hl]%Forall_cons Hf.
  destruct fuel as [|fuel]; [simpl in Hf; lia|]. simpl in Hf. destruct l as [|s' l].
  - cbn [fmap list_fmap separated]. cbn [read_elements]. rewrite read_value_string by (done || lia).
    rewrite skip_nonspace by done. by rewrite decide_True.
  - assert (separated (print_string <$> s :: s' :: l) +:+ String "]" t =
      print_string s +:+ String "," (separated (print_string <$> s' :: l) +:+ String "]" t)) as ->.
    { cbn [fmap list_fmap separated]. by rewrite !string_app_assoc. }
    cbn [read_elements]. rewrite read_value_string by (done || lia). rewrite skip_nonspace by done.
    rewrite decide_False by done. rewrite decide_True by done.
    rewrite (IH fuel); [done|done|done|simpl in *; lia].
Qed.

Lemma starts_self p s : starts p (p +:+ s) = Some s.
Proof. unfold starts. rewrite HasPrefix_self. f_equal. by induction p. Qed.

Lemma read_value_strings o fuel t :
  Forall (λ s, valid_utf8 s = true) (default [] o) → (S (length (default [] o)) < fuel)%nat →
  ∃ v, read_value fuel (print_strings o +:+ t) = Some (v, t) ∧ ∀ old, read_strings old v = Some o.
Proof.
  intros Hv Hf. destruct fuel as [|fuel]; [lia|]. destruct o as [l|].
  2: { exists JNull. split; [|done]. pose proof (starts_self "null" t) as E. cbn [String.append] in E.
       unfold print_strings. cbn [read_value String.append]. rewrite skip_nonspace by done.
       rewrite !decide_False by done. by rewrite E. }
  simpl in Hv, Hf. exists (JArray (JString <$> l)). split.
  - unfold print_strings. rewrite !string_app_assoc. cbn [String.append read_value].
    rewrite skip_nonspace by done. rewrite decide_False by done. rewrite decide_True by done.
    destruct l as [|s l]; [done|].
    assert (∃ r, separated (print_string <$> s :: l) +:+ String "]" t = String quote r) as [r Er].
    { destruct l; cbn [fmap list_fmap separated]; unfold print_string; by eexists. }
    rewrite Er, skip_nonspace by done. rewrite decide_False by done. rewrite <-Er.
    apply read_elements_print; [done|done|lia].
  - intros old. cbn [read_strings]. generalize (default [] old). clear. intros old. revert old.
    induction l as [|s l IH]; intros old; [done|]. cbn [fmap list_fmap read_items].
    specialize (IH (tail old)). destruct (read_items (tail old) (JString <$> l)); by simplify_eq/=.
Qed.

Lemma separated_length l : (length l ≤ String.length (separated (print_string <$> l)))%nat.
Proof.
  induction l as [|s l IH]; [done|]. destruct l as [|s' l]; cbn [fmap list_fmap separated] in *.
  - unfold print_string. simpl. lia.
  - rewrite !length_app_string. simpl in *. lia.
Qed.

Lemma print_strings_length o : (length (default [] o) < String.length (print_strings o))%nat.
Proof.
  destruct o as [l|]; simpl; [|lia]. rewrite length_app_string. pose proof (separated_length l). simpl. lia.
Qed.

(** ** The fuel

    A reader takes at least one byte, so twice the length of the text is enough fuel: with
    more nothing changes. *)
Lemma prepend_inv p o a r : prepend p o = Some (a, r) → ∃ a', o = Some (a', r).
Proof. destruct o as [[a' r']|]; [|done]. intros [= _ <-]. by eexists. Qed.

Lemma read_string_shorter n copy s v r :
  (String.length s ≤ n)%nat → read_string copy s = Some (v, r) → (String.length r < String.length s)%nat.
Proof.
  revert copy s v r. induction n as [|n IH]; intros copy s v r Hn Hs; (destruct s as [|c s]; [done|]); simpl in Hn; [lia|].
  assert (∀ k p t, (String.length t ≤ String.length s)%nat → prepend p (read_string k t) = Some (v, r) →
    (String.length r < S (String.length s))%nat) as Hrec.
  { intros k p t Ht (a & Ha)%prepend_inv. specialize (IH k t a r ltac:(lia) Ha). lia. }
  cbn [read_string String.length] in *. destruct copy as [|k]; [|by eapply (Hrec k _ s)].
  destruct (decide (c = quote)) as [Hq|Hq]; [injection Hs as _ <-; lia|].
  destruct (decide (c = backslash)) as [Hb|Hb].
  - destruct s as [|e s]; [done|]. destruct (decide (e = "u"%char)) as [He|He].
    + destruct s as [|h1 [|h2 [|h3 [|h4 t]]]]; try done. destruct (hex4 h1 h2 h3 h4) as [x|]; [|done].
      assert (∀ p, prepend p (read_string 0 t) = Some (v, r) →
        (String.length r < S (String.length (String e (String h1 (String h2 (String h3 (String h4 t)))))))%nat) as Ht.
      { intros p Hp. eapply (Hrec 0%nat p t); [simpl; lia|exact Hp]. }
      destruct t as [|b [|u [|k1 [|k2 [|k3 [|k4 t]]]]]]; try (by eapply Ht).
      destruct (if decide (b = backslash ∧ u = "u"%char) then _ else _) as [y|]; [|by eapply Ht].
      destruct (_ && _); [|by eapply Ht]. eapply (Hrec 0%nat _ t); [simpl; lia|exact Hs].
    + destruct (simple_escape e); [|done]. eapply (Hrec 0%nat _ s); [simpl; lia|exact Hs].
  - destruct (code c <? 32); [done|]. destruct (code c <? 128); [by eapply (Hrec 0%nat _ s)|].
    destruct (utf8_size _) as [|k]; by eapply (Hrec _ _ s).
Qed.

Lemma starts_shorter p s r : p ≠ EmptyString → starts p s = Some r → (String.length r < String.length s)%nat.
Proof.
  unfold starts. destruct (HasPrefix s p) eqn:E; [|done]. intros Hp [= <-].
  destruct p as [|c p]; [done|]. destruct s as [|c' s]; [done|]. simpl. clear E.
  assert (∀ n t, String.length (drop_bytes n t) ≤ String.length t)%nat as Hd.
  { intros n. induction n as [|n IH]; intros [|x t]; simpl; try lia. specialize (IH t). lia. }
  specialize (Hd (String.length p) s). lia.
Qed.

Lemma drop_bytes_length n s : String.length (drop_bytes n s) = (String.length s - n)%nat.
Proof. revert s. induction n as [|n IH]; intros [|c s]; simpl; try lia. apply IH. Qed.

Lemma read_digits_length s ds r :
  read_digits s = (ds, r) → String.length r = (String.length s - String.length ds)%nat.
Proof. unfold read_digits. intros [= <- <-]. apply drop_bytes_length. Qed.

Lemma skip_space_length s : (String.length (skip_space s) ≤ String.length s)%nat.
Proof. induction s as [|c s IH]; simpl; [lia|]. destruct (json_space c); simpl; lia. Qed.

Lemma read_digits_shorter s ds r : read_digits s = (ds, r) → ds ≠ EmptyString → (String.length r < String.length s ∨ s = EmptyString)%nat.
Proof.
  intros E Hd. apply read_digits_length in E as ->. destruct ds as [|c ds]; [done|].
  destruct s as [|x s]; [by right|left]. simpl. lia.
Qed.

Lemma read_number_shorter s v r : read_number s = Some (v, r) → (String.length r < String.length s)%nat.
Proof.
  unfold read_number.
  assert (∃ sign s1, (match starts "-" s with Some r => ("-"%string, r) | None => (""%string, s) end) = (sign, s1) ∧
    (String.length s1 ≤ String.length s)%nat) as (sign & s1 & -> & H1).
  { destruct (starts "-" s) as [t|] eqn:E; eexists _, _; (split; [done|]); [|lia]. apply starts_shorter in E; [lia|done]. }
  destruct (match starts "0" s1 with Some r => ("0"%string, r) | None => read_digits s1 end) as [int s2] eqn:E2.
  case_decide as Hint; [done|].
  assert (String.length s2 < String.length s)%nat as H2.
  { destruct (starts "0" s1) as [t|] eqn:E0; [injection E2 as _ <-; apply starts_shorter in E0; [lia|done]|].
    unfold read_digits in E2. injection E2 as <- <-. rewrite drop_bytes_length. destruct (digits_prefix s1) eqn:E; [done|].
    destruct s1; [done|]. simpl. simpl in H1. lia. }
  cbv zeta. destruct (match starts "." s2 with Some r => _ | None => _ end) as [[frac s3]|] eqn:E3; [|done].
  assert (String.length s3 ≤ String.length s2)%nat as H3.
  { destruct (starts "." s2) as [t|] eqn:E0; [|injection E3 as _ <-; lia]. apply starts_shorter in E0; [|done].
    unfold read_digits in E3. case_decide; [done|]. injection E3 as _ <-. rewrite drop_bytes_length. lia. }
  destruct s3 as [|e t]; [intros [= _ <-]; simpl in *; lia|]. case_decide; [|intros [= _ <-]; lia].
  destruct (match starts "+" t, starts "-" t with Some r, _ => _ | _, _ => _ end) as [sg t1] eqn:E4.
  assert (String.length t1 ≤ String.length t)%nat as H4.
  { destruct (starts "+" t) as [u|] eqn:Ep; [injection E4 as _ <-; apply starts_shorter in Ep; [lia|done]|].
    destruct (starts "-" t) as [u|] eqn:Em; injection E4 as _ <-; [apply starts_shorter in Em; [lia|done]|lia]. }
  unfold read_digits. case_decide; [done|]. intros [= _ <-]. rewrite drop_bytes_length. simpl in H3. lia.
Qed.

(** What every reader leaves is shorter. *)
Lemma readers_shorter fuel s v r :
  (read_value fuel s = Some (v, r) → (String.length r < String.length s)%nat) ∧
  (read_elements fuel s = Some (v, r) → (String.length r < String.length s)%nat) ∧
  (read_members fuel s = Some (v, r) → (String.length r < String.length s)%nat).
Proof.
  revert s v r. induction fuel as [|fuel IH]; intros s v r; [done|]. split_and!.
  - cbn [read_value]. pose proof (skip_space_length s) as Hl. destruct (skip_space s) as [|c t] eqn:Es; [done|].
    simpl in Hl. destruct (decide (c = quote)) as [Hq|Hq].
    { destruct (read_string 0 t) as [[w u]|] eqn:E; [|done]. intros [= _ <-].
      apply (read_string_shorter (String.length t)) in E; lia. }
    pose proof (skip_space_length t) as Ht.
    destruct (decide (c = "["%char)).
    { destruct (skip_space t) as [|c' t']; [done|]. simpl in Ht. case_decide; [intros [= _ <-]; lia|].
      intros Hr. apply IH in Hr. lia. }
    destruct (decide (c = "{"%char)).
    { destruct (skip_space t) as [|c' t']; [done|]. simpl in Ht. case_decide; [intros [= _ <-]; lia|].
      intros Hr. apply IH in Hr. lia. }
    destruct (starts "null" _) as [u|] eqn:E1; [intros [= _ <-]; apply starts_shorter in E1; [simpl in E1; lia|done]|].
    destruct (starts "true" _) as [u|] eqn:E2; [intros [= _ <-]; apply starts_shorter in E2; [simpl in E2; lia|done]|].
    destruct (starts "false" _) as [u|] eqn:E3; [intros [= _ <-]; apply starts_shorter in E3; [simpl in E3; lia|done]|].
    destruct (read_number _) as [[w u]|] eqn:E; [|done]. intros [= _ <-]. apply read_number_shorter in E. simpl in E. lia.
  - cbn [read_elements]. destruct (read_value fuel s) as [[w t]|] eqn:E; [|done]. apply IH in E.
    pose proof (skip_space_length t) as Ht. destruct (skip_space t) as [|c u]; [done|]. simpl in Ht.
    case_decide; [intros [= _ <-]; lia|]. case_decide; [|done].
    destruct (read_elements fuel u) as [[[] u']|] eqn:E'; try done. intros [= _ <-]. apply IH in E'. lia.
  - cbn [read_members]. pose proof (skip_space_length s) as Hl. destruct (skip_space s) as [|q t]; [done|]. simpl in Hl.
    case_decide; [|done]. destruct (read_string 0 t) as [[key t1]|] eqn:E; [|done].
    apply (read_string_shorter (String.length t)) in E; [|lia].
    pose proof (skip_space_length t1) as H1. destruct (skip_space t1) as [|c t2]; [done|]. simpl in H1.
    case_decide; [|done]. destruct (read_value fuel t2) as [[w t3]|] eqn:E3; [|done]. apply IH in E3.
    pose proof (skip_space_length t3) as H3. destruct (skip_space t3) as [|c' t4]; [done|]. simpl in H3.
    case_decide; [intros [= _ <-]; lia|]. case_decide; [|done].
    destruct (read_members fuel t4) as [[[] u']|] eqn:E'; try done. intros [= _ <-]. apply IH in E'. lia.
Qed.

Lemma read_fuel fuel fuel' s :
  ((2 * String.length s < fuel)%nat → (2 * String.length s < fuel')%nat → read_value fuel s = read_value fuel' s) ∧
  ((2 * String.length s + 1 < fuel)%nat → (2 * String.length s + 1 < fuel')%nat →
    read_elements fuel s = read_elements fuel' s ∧ read_members fuel s = read_members fuel' s).
Proof.
  revert fuel' s. induction fuel as [|fuel IH]; intros [|fuel'] s; try (split; intros; lia). split; [|split].
  - intros H1 H2. cbn [read_value]. pose proof (skip_space_length s) as Hl. destruct (skip_space s) as [|c t]; [done|].
    simpl in Hl. case_decide; [done|]. destruct (IH fuel' t) as [_ Hrec].
    destruct (Hrec ltac:(lia) ltac:(lia)) as [-> ->]. done.
  - cbn [read_elements]. destruct (IH fuel' s) as [-> _]; [|lia..].
    destruct (read_value fuel' s) as [[w t]|] eqn:E; [|done]. apply readers_shorter in E.
    pose proof (skip_space_length t) as Ht. destruct (skip_space t) as [|c u]; [done|]. simpl in Ht.
    destruct (IH fuel' u) as [_ Hrec]. destruct (Hrec ltac:(lia) ltac:(lia)) as [-> _]. done.
  - cbn [read_members]. pose proof (skip_space_length s) as Hl. destruct (skip_space s) as [|q t]; [done|]. simpl in Hl.
    case_decide; [|done]. destruct (read_string 0 t) as [[key t1]|] eqn:E; [|done].
    apply (read_string_shorter (String.length t)) in E; [|lia].
    pose proof (skip_space_length t1) as Ht1. destruct (skip_space t1) as [|c t2]; [done|]. simpl in Ht1.
    case_decide; [|done]. destruct (IH fuel' t2) as [-> _]; [|lia..].
    destruct (read_value fuel' t2) as [[w t3]|] eqn:E3; [|done]. apply readers_shorter in E3.
    pose proof (skip_space_length t3) as H3. destruct (skip_space t3) as [|c' t4]; [done|]. simpl in H3.
    destruct (IH fuel' t4) as [_ Hrec]. destruct (Hrec ltac:(lia) ltac:(lia)) as [_ ->]. done.
Qed.

(** [read_json] never runs out of fuel: with more it reads the same. *)
Lemma read_json_fuel s fuel : (2 * String.length s < fuel)%nat → read_value fuel s = read_value (S (3 * String.length s)) s.
Proof. intros Hf. apply read_fuel; lia. Qed.
