(* ===== verification/Json.v ===== *)
(** * JSON as text: printing, and reading what was printed

    [print] is [json.Marshal] of a tree, and [read_print] says that [GoJson]'s reader finds
    the tree again, whatever comes behind it. *)
From stdpp Require Import options.
From S2P Require Import Prelude GoStrings GoJson.
#[local] Open Scope Z_scope.

(** ** Printing *)

Fixpoint print (j : json) : string :=
  match j with
  | JNull => "null"
  | JBool true => "true"
  | JBool false => "false"
  | JNumber literal => literal
  | JString s => print_string s
  | JArray l => "[" +:+ separated (map print l) +:+ "]"
  | JObject l => "{" +:+ separated (map (λ kv, print_string kv.1 +:+ ":" +:+ print kv.2) l) +:+ "}"
  end.

(** Trees whose strings are UTF-8 and whose numbers are integers of 64 bits. *)
Fixpoint printable (j : json) : bool :=
  match j with
  | JNull | JBool _ => true
  | JNumber l => bool_decide (Itoa (ParseInt l).1 = l)
  | JString s => valid_utf8 s
  | JArray l => forallb printable l
  | JObject l => forallb (λ kv, valid_utf8 kv.1 && printable kv.2) l
  end.

Definition JInt (z : Z) : json := JNumber (Itoa z).

(** ** Induction on trees *)

Section induction.
Context (P : json → Prop) (Hnull : P JNull) (Hbool : ∀ b, P (JBool b)) (Hnumber : ∀ l, P (JNumber l))
  (Hstring : ∀ s, P (JString s)) (Harray : ∀ l, Forall P l → P (JArray l))
  (Hobject : ∀ l, Forall (λ kv, P kv.2) l → P (JObject l)).

Fixpoint json_tree_ind (j : json) : P j :=
  match j with
  | JNull => Hnull
  | JBool b => Hbool b
  | JNumber l => Hnumber l
  | JString s => Hstring s
  | JArray l => Harray l ((fix go l := match l return Forall P l with
      | [] => Forall_nil_2 _ | j :: l => Forall_cons_2 _ _ _ (json_tree_ind j) (go l) end) l)
  | JObject l => Hobject l ((fix go l := match l return Forall (λ kv, P kv.2) l with
      | [] => Forall_nil_2 _ | (k, j) :: l => Forall_cons_2 _ _ _ (json_tree_ind j : (λ kv, P kv.2) (k, j)) (go l) end) l)
  end.

End induction.

(** ** Integers *)

Lemma pretty_first n s : (0 < n)%N → ∃ c t, pretty.pretty_N_go n s = String c t ∧ is_digit c = true ∧ c ≠ "0"%char.
Proof.
  revert s. induction (N.lt_wf_0 n) as [n _ IH]; intros s Hn. rewrite pretty.pretty_N_go_step by done.
  pose proof (is_digit_pretty (n `mod` 10)%N ltac:(apply N.mod_lt; lia)) as [Hd Hv].
  destruct (decide (n `div` 10 = 0)%N) as [E|E].
  - rewrite E, pretty.pretty_N_go_0. eexists _, _. split_and!; [done|done|]. intros Ec. rewrite Ec in Hv.
    change (digit_val "0") with 0 in Hv. apply N.div_small_iff in E; [|done]. rewrite N.mod_small in Hv by done. lia.
  - apply IH; [apply N.div_lt; lia|by apply N.neq_0_lt_0].
Qed.

Lemma Itoa_first z : 0 < z → ∃ c t, Itoa z = String c t ∧ is_digit c = true ∧ c ≠ "0"%char.
Proof.
  intros Hz. rewrite Itoa_pretty by lia. unfold pretty, pretty.pretty_N. rewrite decide_False by lia.
  apply pretty_first. lia.
Qed.

Lemma Itoa_neg p : Itoa (Z.neg p) = "-" +:+ Itoa (Z.pos p).
Proof. done. Qed.

Lemma ParseInt_Itoa_neg z : int64_min ≤ z < 0 → ParseInt (Itoa z) = (z, None).
Proof.
  intros Hz. destruct z as [|p|p]; [lia..|]. unfold int64_min in Hz. rewrite Itoa_neg. unfold ParseInt.
  change (HasPrefix ("-" +:+ Itoa (Z.pos p)) "-") with (HasPrefix (String "-" (Itoa (Z.pos p))) "-").
  assert (HasPrefix (String "-" (Itoa (Z.pos p))) "-" = true) as -> by (by destruct (Itoa (Z.pos p))).
  cbn [orb String.append drop_bytes]. rewrite ParseUint_Itoa by lia.
  by destruct (Z.ltb_spec (2 ^ 63) (Z.pos p)); [lia|].
Qed.

Lemma ParseInt_print z : in_int64 z → ParseInt (Itoa z) = (z, None).
Proof.
  intros [H1 H2]. destruct (decide (z < 0)); [by apply ParseInt_Itoa_neg|]. apply ParseInt_Itoa. lia.
Qed.

Lemma printable_int z : in_int64 z → printable (JInt z) = true.
Proof. intros Hz. apply bool_decide_eq_true. by rewrite ParseInt_print. Qed.

(** What may stand behind a number. *)
Definition num_end (t : string) : bool :=
  match t with
  | EmptyString => true
  | String c _ => negb (is_digit c || bool_decide (c = ".") || bool_decide (c = "e") || bool_decide (c = "E"))%char
  end.

Lemma digits_prefix_app v s t : digits_value_from v s ≠ None → num_end t = true → digits_prefix (s +:+ t) = s.
Proof.
  revert v. induction s as [|c s IH]; intros v Hv Ht; cbn [String.append digits_prefix].
  - destruct t as [|c t]; [done|]. unfold num_end in Ht. simpl in *. by destruct (is_digit c).
  - simpl in Hv. destruct (is_digit c); [|done]. f_equal. by eapply IH.
Qed.

Lemma drop_app s t : drop_bytes (String.length s) (s +:+ t) = t.
Proof. induction s as [|c s IH]; [by destruct t|done]. Qed.

Lemma read_digits_Itoa z t : 0 ≤ z → num_end t = true → read_digits (Itoa z +:+ t) = (Itoa z, t).
Proof.
  intros Hz Ht. pose proof (Itoa_digits z Hz) as Hd. unfold digits_value in Hd. case_decide; [done|].
  unfold read_digits. rewrite (digits_prefix_app 0); [|congruence|done]. by rewrite drop_app.
Qed.

Lemma starts_first p q c s : c ≠ p → starts (String p q) (String c s) = None.
Proof.
  intros Hne. unfold starts, HasPrefix. cbn [String.prefix]. by destruct (Ascii.ascii_dec p c) as [->|].
Qed.

Lemma starts_one c s : starts (String c "") (String c s) = Some s.
Proof. apply (starts_self (String c "") s). Qed.

(** The tail of [read_number]: no fraction and no exponent. *)
Lemma number_end t : num_end t = true →
  starts "." t = None ∧ ∀ c r, t = String c r → ¬ (c = "e"%char ∨ c = "E"%char).
Proof.
  destruct t as [|c t]; [done|]. unfold num_end. intros Ht.
  apply negb_true_iff, orb_false_iff in Ht as [[[_ H1]%orb_false_iff H2]%orb_false_iff H3].
  apply bool_decide_eq_false in H1, H2, H3. split; [by apply starts_first|]. intros c' r [= <- _]. by intros [?|?].
Qed.

Lemma read_natural z t : 0 ≤ z → num_end t = true →
  match starts "0" (Itoa z +:+ t) with Some r => ("0", r) | None => read_digits (Itoa z +:+ t) end = (Itoa z, t) ∧
  starts "-" (Itoa z +:+ t) = None ∧ Itoa z ≠ "".
Proof.
  intros Hz Ht. split; [|split; [|by apply Itoa_not_empty]].
  - destruct (decide (z = 0)) as [->|Hne]; [change (Itoa 0) with "0"; cbn [String.append]; by rewrite starts_one|].
    pose proof (read_digits_Itoa z t Hz Ht) as Hr. destruct (Itoa_first z) as (c & s & E & _ & Hc); [lia|].
    rewrite E in Hr |- *. cbn [String.append] in Hr |- *. by rewrite (starts_first "0") by done.
  - pose proof (Itoa_no_byte "-" z eq_refl Hz) as Hm. pose proof (Itoa_not_empty z Hz). destruct (Itoa z) as [|c s]; [done|].
    cbn [String.append contains_byte] in *. apply orb_false_iff in Hm as [Hm%bool_decide_eq_false _]. by apply starts_first.
Qed.

Lemma read_number_int z t : num_end t = true → read_number (Itoa z +:+ t) = Some (Itoa z, t).
Proof.
  intros Ht. destruct (number_end t Ht) as [Hdot He].
  assert (∀ sign n s, 0 ≤ n → match starts "-" s with Some r => ("-", r) | None => ("", s) end = (sign, Itoa n +:+ t) →
    read_number s = Some (sign +:+ Itoa n, t)) as H.
  { intros sign n s Hn E. destruct (read_natural n t Hn Ht) as (Hr & _ & Hne). unfold read_number. rewrite E, Hr.
    rewrite decide_False by done. rewrite Hdot, string_app_nil_r. destruct t as [|c r]; [done|].
    rewrite decide_False by by eapply He. done. }
  destruct (decide (0 ≤ z)) as [Hz|Hz].
  - apply (H ""); [done|]. by destruct (read_natural z t Hz Ht) as (_ & -> & _).
  - destruct z as [|p|p]; [lia..|]. rewrite Itoa_neg. apply H; [lia|]. cbn [String.append]. by rewrite starts_one.
Qed.

(** ** Texts that are read as values *)

Definition ends (c : ascii) : Prop := c = ","%char ∨ c = "}"%char ∨ c = "]"%char.

(** In front of the next member, of the next element, or of the end of either. *)
Definition reads (t : string) (j : json) : Prop :=
  ∀ fuel c r, (2 * String.length t < fuel)%nat → ends c →
  read_value fuel (t +:+ String c r) = Some (j, String c r).

Definition printed_member (kv : string * string) : string := print_string kv.1 +:+ ":" +:+ kv.2.

Lemma ends_nonspace c : ends c → json_space c = false.
Proof. by intros [-> | [-> | ->]]. Qed.

Lemma read_first_member fuel k t j c r :
  valid_utf8 k = true → reads t j → (2 * String.length t < fuel)%nat → c = ","%char ∨ c = "}"%char →
  read_members (S fuel) (printed_member (k, t) +:+ String c r) =
    if decide (c = "}"%char) then Some (JObject [(k, j)], r)
    else match read_members fuel r with Some (JObject vs, r') => Some (JObject ((k, j) :: vs), r') | _ => None end.
Proof.
  intros Hk Ht Hf Hc. unfold printed_member. cbn [fst snd]. rewrite !string_app_assoc.
  destruct (read_print_string k (":" +:+ t +:+ String c r) Hk) as (u & -> & Hs).
  cbn [read_members]. rewrite skip_nonspace by done. rewrite decide_True by done. rewrite Hs.
  cbn [String.append]. rewrite skip_nonspace by done. rewrite decide_True by done.
  rewrite Ht by (done || by destruct Hc; [left|right; left]). by destruct Hc as [-> | ->].
Qed.

Lemma printed_member_length k t : (String.length t + 2 < String.length (printed_member (k, t)))%nat.
Proof. unfold printed_member, print_string. cbn [fst snd]. rewrite !length_app_string. cbn [String.length]. rewrite length_app_string. simpl. lia. Qed.

Lemma read_members_print kvs js fuel r :
  kvs ≠ [] → Forall2 (λ kv j, valid_utf8 kv.1 = true ∧ reads kv.2 j) kvs js →
  (2 * String.length (separated (printed_member <$> kvs)) < fuel)%nat →
  read_members fuel (separated (printed_member <$> kvs) +:+ String "}" r) = Some (JObject (zip kvs.*1 js), r).
Proof.
  intros Hne Hall. revert fuel Hne. induction Hall as [|[k t] j kvs js [Hk Ht] Hall IH]; [done|].
  intros fuel _ Hf. destruct fuel as [|fuel]; [lia|]. pose proof (printed_member_length k t) as Hlen.
  destruct kvs as [|kv kvs].
  - apply Forall2_nil_inv_l in Hall as ->. cbn [fmap list_fmap separated] in Hf |- *.
    rewrite (read_first_member fuel k t j) by (done || lia || by right). done.
  - assert (separated (printed_member <$> (k, t) :: kv :: kvs) =
      printed_member (k, t) +:+ String "," (separated (printed_member <$> kv :: kvs))) as E by done.
    rewrite E, length_app_string in Hf. rewrite E, string_app_assoc. cbn [String.append String.length] in Hf |- *.
    rewrite (read_first_member fuel k t j) by (done || lia || by left). rewrite decide_False by done.
    by rewrite IH by (done || lia).
Qed.

Lemma read_elements_print' ts js fuel r :
  ts ≠ [] → Forall2 reads ts js → (2 * String.length (separated ts) + 1 < fuel)%nat →
  read_elements fuel (separated ts +:+ String "]" r) = Some (JArray js, r).
Proof.
  intros Hne Hall. revert fuel Hne. induction Hall as [|t j ts js Ht Hall IH]; [done|].
  intros fuel _ Hf. destruct fuel as [|fuel]; [lia|]. cbn [read_elements]. destruct ts as [|t' ts].
  - apply Forall2_nil_inv_l in Hall as ->. cbn [separated] in Hf |- *.
    rewrite Ht by (lia || by right; right). by rewrite skip_nonspace.
  - assert (separated (t :: t' :: ts) = t +:+ String "," (separated (t' :: ts))) as E by done.
    rewrite E, length_app_string in Hf. rewrite E, string_app_assoc. cbn [String.append String.length] in Hf |- *.
    rewrite Ht by (lia || by left). rewrite skip_nonspace by done. rewrite decide_False by done.
    rewrite decide_True by done. by rewrite IH by (done || lia).
Qed.

Lemma read_object fuel s x : s = String quote x → read_value (S fuel) (String "{" s) = read_members fuel s.
Proof. by intros ->. Qed.

(** ** What is printed is read *)

Definition follows (j : json) (t : string) : bool := match j with JNumber _ => num_end t | _ => true end.

Lemma digit_not_space c : is_digit c = true → json_space c = false ∧ c ≠ "]"%char ∧ c ≠ quote ∧ c ≠ "["%char ∧ c ≠ "{"%char ∧ c ≠ "n"%char ∧ c ≠ "t"%char ∧ c ≠ "f"%char.
Proof.
  intros Hd. split; [|by split_and!; intros ->]. apply bool_decide_eq_false. intros Hin.
  rewrite !elem_of_cons in Hin. destruct Hin as [-> | [-> | [-> | [-> | ?%not_elem_of_nil]]]]; done.
Qed.

(** The first byte of an integer. *)
Lemma int_first z : ∃ c t, Itoa z = String c t ∧ (is_digit c = true ∨ c = "-"%char).
Proof.
  destruct z as [|p|p].
  - exists "0"%char, "". split; [done|by left].
  - destruct (Itoa_first (Z.pos p)) as (c & t & E & Hc & _); [done|]. exists c, t. split; [done|by left].
  - rewrite Itoa_neg. eexists _, _. split; [done|by right].
Qed.

Lemma print_first j : printable j = true → ∃ c t, print j = String c t ∧ json_space c = false ∧ c ≠ "]"%char.
Proof.
  destruct j as [|[]|l|s|l|l]; cbn [printable print].
  - by eexists _, _.
  - by eexists _, _.
  - by eexists _, _.
  - intros <-%bool_decide_eq_true. destruct (int_first (ParseInt l).1) as (c & t & -> & [Hc| ->]); eexists _, _; [|done].
    split; [done|]. by destruct (digit_not_space c Hc) as (? & ? & _).
  - by eexists _, _.
  - by eexists _, _.
  - by eexists _, _.
Qed.

Lemma read_int fuel z t : num_end t = true → read_value (S fuel) (Itoa z +:+ t) = Some (JNumber (Itoa z), t).
Proof.
  intros Ht. pose proof (read_number_int z t Ht) as Hr. destruct (int_first z) as (c & s & E & Hc). rewrite E in *.
  cbn [String.append read_value] in *.
  assert (json_space c = false ∧ c ≠ quote ∧ c ≠ "["%char ∧ c ≠ "{"%char ∧ c ≠ "n"%char ∧ c ≠ "t"%char ∧ c ≠ "f"%char)
    as (H1 & H2 & H3 & H4 & H5 & H6 & H7) by (destruct Hc as [Hc| ->]; [by apply digit_not_space in Hc; naive_solver|done]).
  rewrite skip_nonspace by done. rewrite !decide_False by done.
  by rewrite !starts_first, Hr.
Qed.

(** A text that is read whatever follows is read in front of a separator. *)
Lemma reads_of t j :
  (∀ fuel r, (2 * String.length t < fuel)%nat → follows j r = true → read_value fuel (t +:+ r) = Some (j, r)) → reads t j.
Proof.
  intros H fuel c r Hf Hc. apply H; [done|]. destruct j; try done. by destruct Hc as [-> | [-> | ->]].
Qed.

Lemma separated_first t ts c s : t = String c s → ∃ s', separated (t :: ts) = String c s'.
Proof. intros ->. destruct ts; by eexists. Qed.

(** The words, which start like no other value. *)
Lemma read_word fuel s r :
  (∃ c u, s = String c u ∧ json_space c = false ∧ c ≠ quote ∧ c ≠ "["%char ∧ c ≠ "{"%char) →
  match starts "null" s, starts "true" s, starts "false" s with
  | Some r, _, _ => Some (JNull, r)
  | None, Some r, _ => Some (JBool true, r)
  | None, None, Some r => Some (JBool false, r)
  | None, None, None => match read_number s with Some (v, r) => Some (JNumber v, r) | None => None end
  end = r → read_value (S fuel) s = r.
Proof.
  intros (c & u & -> & H1 & H2 & H3 & H4) <-. cbn [read_value]. rewrite skip_nonspace by done. by rewrite !decide_False by done.
Qed.

Lemma read_print_all j fuel t :
  printable j = true → (2 * String.length (print j) < fuel)%nat → follows j t = true →
  read_value fuel (print j +:+ t) = Some (j, t).
Proof.
  revert fuel t. induction j as [|b|l|s|l IH|l IH] using json_tree_ind; intros fuel t Hp Hf Ht;
    (destruct fuel as [|fuel]; [lia|]); cbn [printable print] in Hp, Hf |- *.
  - apply read_word; [by eexists _, _|]. pose proof (starts_self "null" t) as E. cbn [String.append] in E |- *. by rewrite E.
  - destruct b; (apply read_word; [by eexists _, _|]); cbn [String.append]; rewrite (starts_first "n") by done.
    + pose proof (starts_self "true" t) as E. cbn [String.append] in E. by rewrite E.
    + rewrite (starts_first "t") by done. pose proof (starts_self "false" t) as E. cbn [String.append] in E. by rewrite E.
  - apply bool_decide_eq_true in Hp. rewrite <-Hp at 1. rewrite read_int by done. by rewrite Hp.
  - by apply read_value_string; [lia|].
  - assert (Forall2 reads (map print l) l) as Hr.
    { clear -IH Hp. induction IH as [|j l Hj _ IH]; [constructor|]. cbn [forallb] in Hp.
      apply andb_true_iff in Hp as [H1 H2]. constructor; [apply reads_of; intros; by apply Hj|by apply IH]. }
    destruct l as [|j l]; [done|]. cbn [forallb] in Hp. apply andb_true_iff in Hp as [Hj _].
    destruct (print_first j Hj) as (c & u & E & Hs & Hc).
    assert (∃ s', separated (map print (j :: l)) = String c s') as [s' E'] by by eapply separated_first.
    assert (separated (map print (j :: l)) ≠ "") as Hne by by rewrite E'.
    rewrite !length_app_string in Hf. cbn [String.length] in Hf.
    rewrite !string_app_assoc. cbn [String.append read_value]. rewrite skip_nonspace by done. rewrite decide_False by done.
    rewrite decide_True by done. rewrite E' at 1. cbn [String.append]. rewrite skip_nonspace by done. rewrite decide_False by done.
    apply read_elements_print'; [done|done|lia].
  - assert (Forall2 (λ kv j, valid_utf8 kv.1 = true ∧ reads kv.2 j) ((λ kv, (kv.1, print kv.2)) <$> l) (snd <$> l)) as Hr.
    { clear -IH Hp. induction IH as [|[k j] l Hj _ IH]; [constructor|]. cbn [forallb] in Hp.
      apply andb_true_iff in Hp as [[H1 H2]%andb_true_iff H3].
      constructor; [split; [done|]; apply reads_of; intros; by apply Hj|by apply IH]. }
    set (kvs := (λ kv, (kv.1, print kv.2)) <$> l) in Hr.
    assert (map (λ kv, print_string kv.1 +:+ ":" +:+ print kv.2) l = printed_member <$> kvs) as E
      by (unfold kvs; by rewrite <-list_fmap_compose).
    rewrite E in Hf |- *. destruct l as [|[k j] l]; [done|].
    assert (∃ s', separated (printed_member <$> kvs) = String quote s') as [s' E']
      by (eapply separated_first; unfold printed_member, print_string; done).
    rewrite !length_app_string in Hf. cbn [String.length] in Hf. rewrite !string_app_assoc. cbn [String.append].
    rewrite (read_object _ _ (s' +:+ String "}" t)) by by rewrite E'.
    rewrite (read_members_print kvs (snd <$> (k, j) :: l)); [|done|done|lia]. do 3 f_equal.
    unfold kvs. rewrite <-list_fmap_compose. clear. induction ((k, j) :: l) as [|[k' j'] l' IH]; [done|].
    cbn [fmap list_fmap zip zip_with]. by rewrite IH.
Qed.

(** What a decoder of [GoJson] makes of a printed object or array, whatever follows. *)
Lemma read_json_print j t :
  printable j = true → match j with JObject _ | JArray _ => True | _ => False end →
  read_json (print j +:+ t) = Some (j, t).
Proof.
  intros Hp Hj. unfold read_json. rewrite read_print_all; [by destruct j|done| |by destruct j].
  rewrite length_app_string. lia.
Qed.

(** ** Texts with line breaks and tabs *)

Fixpoint tabs (n : nat) : string := match n with O => "" | S n => String (byte 9) (tabs n) end.

Definition newline (d : nat) : string := String (byte 10) (tabs d).

(** [json.MarshalIndent] with tabs, behind [d] tabs. *)
Fixpoint print_indent (d : nat) (j : json) : string :=
  match j with
  | JArray ((_ :: _) as l) => "[" +:+ separated (map (λ j, newline (S d) +:+ print_indent (S d) j) l) +:+ newline d +:+ "]"
  | JObject ((_ :: _) as l) =>
      "{" +:+ separated (map (λ kv, newline (S d) +:+ print_string kv.1 +:+ ": " +:+ print_indent (S d) kv.2) l) +:+
      newline d +:+ "}"
  | _ => print j
  end.

Lemma skip_newline d s : skip_space (newline d +:+ s) = skip_space s.
Proof.
  unfold newline. cbn [String.append skip_space]. change (json_space (byte 10)) with true. cbn [negb].
  induction d as [|d IH]; [done|]. cbn [tabs String.append skip_space]. exact IH.
Qed.

Lemma read_value_newline fuel d s : read_value fuel (newline d +:+ s) = read_value fuel s.
Proof. destruct fuel as [|fuel]; [done|]. cbn [read_value]. by rewrite skip_newline. Qed.

Lemma newline_ends d s j : follows j (newline d +:+ s) = true.
Proof. by destruct j. Qed.

(** A text that is read whatever follows. *)
Definition reads_all (t : string) (j : json) : Prop :=
  ∀ fuel r, (2 * String.length t < fuel)%nat → follows j r = true → read_value fuel (t +:+ r) = Some (j, r).

Definition member_line (d : nat) (kv : string * string) : string := newline d +:+ print_string kv.1 +:+ ": " +:+ kv.2.

Lemma read_member_line fuel d k t j s c r :
  valid_utf8 k = true → reads_all t j → (2 * String.length t < fuel)%nat → follows j s = true →
  skip_space s = String c r → c = ","%char ∨ c = "}"%char →
  read_members (S fuel) (member_line d (k, t) +:+ s) =
    if decide (c = "}"%char) then Some (JObject [(k, j)], r)
    else match read_members fuel r with Some (JObject vs, r') => Some (JObject ((k, j) :: vs), r') | _ => None end.
Proof.
  intros Hk Ht Hf Hj Hs Hc. unfold member_line. cbn [fst snd]. rewrite !string_app_assoc.
  destruct (read_print_string k (": " +:+ t +:+ s) Hk) as (u & E & Hr). rewrite E.
  cbn [read_members]. rewrite skip_newline, skip_nonspace by done. rewrite decide_True by done. rewrite Hr.
  cbn [String.append]. rewrite skip_nonspace by done. rewrite decide_True by done.
  assert (read_value fuel (String " " (t +:+ s)) = read_value fuel (t +:+ s)) as -> by (destruct fuel; done).
  rewrite Ht by done. rewrite Hs. by destruct Hc as [-> | ->].
Qed.

Lemma member_line_length d k t : (String.length t + 3 < String.length (member_line d (k, t)))%nat.
Proof.
  unfold member_line, newline, print_string. cbn [fst snd]. rewrite !length_app_string. cbn [String.length].
  rewrite !length_app_string. simpl. lia.
Qed.

Lemma read_members_indent d e kvs js fuel r :
  kvs ≠ [] → Forall2 (λ kv j, valid_utf8 kv.1 = true ∧ reads_all kv.2 j) kvs js →
  (2 * String.length (separated (member_line d <$> kvs)) < fuel)%nat →
  read_members fuel (separated (member_line d <$> kvs) +:+ newline e +:+ String "}" r) = Some (JObject (zip kvs.*1 js), r).
Proof.
  intros Hne Hall. revert fuel Hne. induction Hall as [|[k t] j kvs js [Hk Ht] Hall IH]; [done|].
  intros fuel _ Hf. destruct fuel as [|fuel]; [lia|]. pose proof (member_line_length d k t) as Hlen.
  destruct kvs as [|kv kvs].
  - apply Forall2_nil_inv_l in Hall as ->. cbn [fmap list_fmap separated] in Hf |- *.
    rewrite (read_member_line fuel d k t j _ "}" r); [done|done|done|lia|apply newline_ends|by rewrite skip_newline, skip_nonspace|by right].
  - assert (separated (member_line d <$> (k, t) :: kv :: kvs) =
      member_line d (k, t) +:+ String "," (separated (member_line d <$> kv :: kvs))) as E by done.
    rewrite E, length_app_string in Hf. rewrite E, string_app_assoc. cbn [String.append String.length] in Hf |- *.
    rewrite (read_member_line fuel d k t j _ ","
      (separated (member_line d <$> kv :: kvs) +:+ newline e +:+ String "}" r));
      [|done|done|lia|by destruct j|by rewrite skip_nonspace|by left].
    rewrite decide_False by done. by rewrite IH by (done || lia).
Qed.

Lemma read_elements_indent d e ts js fuel r :
  ts ≠ [] → Forall2 reads_all ts js → (2 * String.length (separated ((λ t, newline d +:+ t) <$> ts)) < fuel)%nat →
  read_elements fuel (separated ((λ t, newline d +:+ t) <$> ts) +:+ newline e +:+ String "]" r) = Some (JArray js, r).
Proof.
  intros Hne Hall. revert fuel Hne. induction Hall as [|t j ts js Ht Hall IH]; [done|].
  intros fuel _ Hf. destruct fuel as [|fuel]; [lia|]. cbn [read_elements]. destruct ts as [|t' ts].
  - apply Forall2_nil_inv_l in Hall as ->. cbn [fmap list_fmap separated] in Hf |- *.
    rewrite length_app_string in Hf. cbn [newline String.length] in Hf. rewrite string_app_assoc, read_value_newline.
    rewrite Ht; [|lia|apply newline_ends]. by rewrite skip_newline, skip_nonspace.
  - set (rest := separated ((λ t, newline d +:+ t) <$> t' :: ts)) in *.
    assert (separated ((λ t, newline d +:+ t) <$> t :: t' :: ts) = newline d +:+ t +:+ String "," rest) as E
      by (unfold rest; cbn [fmap list_fmap separated]; rewrite string_app_assoc; reflexivity).
    rewrite E, !length_app_string in Hf. rewrite E, !string_app_assoc, read_value_newline.
    cbn [newline String.append String.length] in Hf |- *.
    rewrite Ht; [|lia|by destruct j]. rewrite skip_nonspace by done. rewrite decide_False by done.
    rewrite decide_True by done. by rewrite IH by (done || lia).
Qed.

Lemma print_indent_read j d : printable j = true → reads_all (print_indent d j) j.
Proof.
  revert d. induction j as [|b|l|s|l IH|l IH] using json_tree_ind; intros d Hp;
    try (intros fuel r; by apply read_print_all).
  - destruct l as [|j l]; [intros fuel r; by apply read_print_all|]. intros fuel r Hf _.
    assert (Forall2 reads_all (print_indent (S d) <$> j :: l) (j :: l)) as Hr.
    { revert Hp. clear -IH. cbn [printable]. induction IH as [|j' l' Hj _ IH]; [constructor|]. cbn [forallb].
      intros [H1 H2]%andb_true_iff. constructor; [by apply Hj|by apply IH]. }
    assert (map (λ j, newline (S d) +:+ print_indent (S d) j) (j :: l) = (λ t, newline (S d) +:+ t) <$> (print_indent (S d) <$> j :: l)) as E
      by by rewrite <-list_fmap_compose.
    cbn [print_indent] in Hf |- *. rewrite E in Hf |- *. destruct fuel as [|fuel]; [lia|].
    rewrite !length_app_string in Hf. cbn [String.length] in Hf. rewrite !string_app_assoc. cbn [String.append read_value].
    rewrite skip_nonspace by done. rewrite decide_False by done. rewrite decide_True by done.
    assert (∃ c s, skip_space (separated ((λ t, newline (S d) +:+ t) <$> (print_indent (S d) <$> j :: l)) +:+ newline d +:+ String "]" r) = String c s ∧ c ≠ "]"%char)
      as (c & s & -> & Hc).
    { cbn [printable forallb] in Hp. apply andb_true_iff in Hp as [Hj _].
      destruct (print_first j Hj) as (c & u & Ep & Hs & Hc).
      assert (∃ u', print_indent (S d) j = String c u') as [u' E'] by (destruct j as [| | | |[]|[]]; cbn in Ep |- *; simplify_eq; by eexists).
      cbn [fmap list_fmap]. rewrite E'. destruct l; cbn [fmap list_fmap separated]; rewrite !string_app_assoc, skip_newline;
        cbn [String.append]; rewrite skip_nonspace by done; by eexists _, _. }
    rewrite decide_False by done. apply read_elements_indent; [done|done|lia].
  - destruct l as [|kj l]; [intros fuel r; by apply read_print_all|]. intros fuel r Hf _.
    set (kvs := (λ kv, (kv.1, print_indent (S d) kv.2)) <$> kj :: l).
    assert (Forall2 (λ kv j, valid_utf8 kv.1 = true ∧ reads_all kv.2 j) kvs (snd <$> kj :: l)) as Hr.
    { revert Hp. unfold kvs. clear -IH. cbn [printable]. induction IH as [|[k j] l' Hj _ IH]; [constructor|]. cbn [forallb].
      intros [[H1 H2]%andb_true_iff H3]%andb_true_iff. constructor; [split; [done|by apply Hj]|by apply IH]. }
    assert (map (λ kv, newline (S d) +:+ print_string kv.1 +:+ ": " +:+ print_indent (S d) kv.2) (kj :: l) = member_line (S d) <$> kvs) as E
      by (unfold kvs; by rewrite <-list_fmap_compose).
    cbn [print_indent] in Hf |- *. rewrite E in Hf |- *. destruct fuel as [|fuel]; [lia|].
    rewrite !length_app_string in Hf. cbn [String.length] in Hf. rewrite !string_app_assoc. cbn [String.append read_value].
    rewrite skip_nonspace by done. rewrite decide_False by done. rewrite decide_False by done. rewrite decide_True by done.
    assert (∃ s, skip_space (separated (member_line (S d) <$> kvs) +:+ newline d +:+ String "}" r) = String quote s) as [s ->].
    { unfold kvs. cbn [fmap list_fmap]. unfold member_line at 1. cbn [fst snd].
      destruct l; cbn [fmap list_fmap separated]; rewrite !string_app_assoc, skip_newline; by eexists. }
    rewrite decide_False by done. rewrite (read_members_indent _ _ kvs (snd <$> kj :: l)); [|done|done|lia]. do 3 f_equal.
    unfold kvs. rewrite <-list_fmap_compose. clear. induction (kj :: l) as [|[k' j'] l' IH]; [done|].
    cbn [fmap list_fmap zip zip_with]. by rewrite IH.
Qed.

Lemma read_indent_json d j :
  printable j = true → match j with JObject _ | JArray _ => True | _ => False end →
  read_json (print_indent d j) = Some (j, "").
Proof.
  intros Hp Hj. unfold read_json. rewrite <-(string_app_nil_r (print_indent d j)) at 2.
  rewrite print_indent_read; [by destruct j|done|lia|by destruct j].
Qed.
