(* ===== verification/GoFs.v ===== *)
(** * The file system, as far as herd's operations see it

    A map from cleaned paths to what is there and who owns it, with the directories a
    path needs ([os.MkdirAll]) and the paths below one ([os.RemoveAll]). *)
From stdpp Require Import options.
From S2P Require Import Prelude GoStrings.

(** What a path is: of a regular file the contents are kept where a theorem needs them, as
    text or as a sparse file of zeros. *)
Inductive file :=
  | IsDir
  | HardLink (target : string)
  | BlockDev (rdev : Z)
  | Socket
  | Regular
  | Text (contents : string)
  | Sparse (size : Z).

Record entry := mkEntry { e_file : file; e_owner : Z }.

#[export] Instance file_eq_dec : EqDecision file.
Proof. solve_decision. Defined.
#[export] Instance entry_eq_dec : EqDecision entry.
Proof. solve_decision. Defined.

(** [p] is [d] or a path below it. *)
Definition under (d p : string) : bool := bool_decide (p = d) || HasPrefix p (d +:+ "/").

(** The directories on the way to [path], itself included. *)
Definition ancestors (path : string) : list string :=
  let parts := Split "/" path in
  filter (.≠ "") ((λ k, Join "/" (take k parts)) <$> seq 1 (length parts)).

Definition make_missing (fs : gmap string entry) (dir : string) : gmap string entry :=
  match fs !! dir with
  | Some _ => fs
  | None => <[dir := mkEntry IsDir 0]> fs
  end.

Definition not_dir (fs : gmap string entry) (dir : string) : bool :=
  match fs !! dir with
  | Some (mkEntry IsDir _) | None => false
  | Some _ => true
  end.

Definition set_owner (uid : Z) (e : entry) : entry := mkEntry (e_file e) uid.

(** [os.RemoveAll]. *)
Definition remove_all (path : string) (fs : gmap string entry) : gmap string entry :=
  filter (λ kv, under path kv.1 = false) fs.

(** ** Lemmas *)

Lemma under_self d : under d d = true.
Proof. unfold under. by rewrite bool_decide_eq_true_2. Qed.

Lemma under_child d s : under d (d +:+ String "/" s) = true.
Proof.
  unfold under. apply orb_true_iff. right. replace (d +:+ String "/" s) with ((d +:+ "/") +:+ s).
  - apply HasPrefix_self.
  - by rewrite string_app_assoc.
Qed.

Lemma ancestors_length a path : a ∈ ancestors path → (String.length a ≤ String.length path)%nat.
Proof.
  unfold ancestors. intros [_ (k & -> & _)%list_elem_of_fmap]%list_elem_of_filter.
  rewrite <-(Join_Split "/" path) at 2. apply Join_take_length.
Qed.

(** Making missing directories adds no other file. *)
Lemma missing_elsewhere fs dirs p : p ∉ dirs → foldl make_missing fs dirs !! p = fs !! p.
Proof.
  revert fs. induction dirs as [|d dirs IH]; intros fs Hp; [done|]. simpl.
  rewrite IH by set_solver. unfold make_missing. destruct (fs !! d); [done|].
  rewrite lookup_insert_ne; set_solver.
Qed.

Lemma prefix_length d p : HasPrefix p d = true → (String.length d ≤ String.length p)%nat.
Proof.
  unfold HasPrefix. revert p. induction d as [|c d IH]; intros [|c' p]; simpl; try done; [lia|].
  destruct (Ascii.ascii_dec c c'); [|done]. intros ?%IH. lia.
Qed.

Lemma under_length d p : under d p = true → (String.length d ≤ String.length p)%nat.
Proof.
  unfold under. intros [->%bool_decide_eq_true|Hp%prefix_length]%orb_true_iff; [done|].
  rewrite length_app_string in Hp. lia.
Qed.

Lemma insert_same {A} (m m' : gmap string A) k x p : m !! p = m' !! p → <[k := x]> m !! p = <[k := x]> m' !! p.
Proof. intros E. destruct (decide (k = p)) as [->|]; by rewrite ?lookup_insert_eq, ?lookup_insert_ne. Qed.

(** *** The directories of a path *)

Lemma ancestors_self p : p ≠ "" → p ∈ ancestors p.
Proof.
  intros Hp. apply list_elem_of_filter. split; [done|]. apply list_elem_of_fmap.
  exists (length (Split "/" p)). split; [by rewrite take_ge, Join_Split by done|].
  apply elem_of_seq. destruct (Split "/" p) eqn:E; [by apply Split_nonempty in E|]. simpl. lia.
Qed.

Lemma ancestors_child p e :
  contains_byte "/" e = false → ancestors (p +:+ String "/" e) = ancestors p ++ [p +:+ String "/" e].
Proof.
  intros He. unfold ancestors. rewrite Split_snoc by done. rewrite length_app, Nat.add_1_r, seq_S.
  rewrite fmap_app, filter_app. f_equal.
  - f_equal. apply list_fmap_ext. intros i k Hk. apply list_elem_of_lookup_2, elem_of_seq in Hk.
    by rewrite take_app_le by lia.
  - simpl. rewrite take_ge by (rewrite length_app; simpl; lia). rewrite Join_snoc by apply Split_nonempty.
    rewrite Join_Split. by destruct p.
Qed.

Lemma missing_lookup fs dirs p :
  foldl make_missing fs dirs !! p =
  match fs !! p with
  | Some x => Some x
  | None => if decide (p ∈ dirs) then Some (mkEntry IsDir 0) else None
  end.
Proof.
  revert fs. induction dirs as [|d dirs IH]; intros fs; simpl; [by destruct (fs !! p)|].
  rewrite IH. unfold make_missing. destruct (fs !! d) as [x|] eqn:E.
  - destruct (fs !! p) eqn:Ep; [done|]. assert (p ≠ d) by congruence. repeat case_decide; set_solver.
  - destruct (decide (p = d)) as [->|Hne].
    + rewrite lookup_insert_eq, E. rewrite decide_True; [done|by left].
    + rewrite lookup_insert_ne by done. destruct (fs !! p); [done|]. repeat case_decide; set_solver.
Qed.

Lemma remove_all_lookup d fs p : remove_all d fs !! p = if under d p then None else fs !! p.
Proof.
  unfold remove_all. destruct (under d p) eqn:E.
  - apply map_lookup_filter_None_2. right. intros ? _. simpl. by rewrite E.
  - destruct (fs !! p) eqn:Ep; [by apply map_lookup_filter_Some_2|]. apply map_lookup_filter_None_2. by left.
Qed.
