(* ===== verification/Rollback.v ===== *)
(** * Steps that may fail, and what they register to be undone

    Several operations of herd take resources one after the other and push, for each, an
    action that gives it back; if a later step fails a deferred function runs the actions
    from the last to the first.  A step is a function on the world and the stack of the
    actions pushed so far, the last first; an action is data, so a rollback is a fold. *)
From stdpp Require Import options.
From S2P Require Import Prelude.

Section rollback.
Context {W U E : Type}.

Definition M (A : Type) : Type := W * list U → result E A * (W * list U).

#[export] Instance M_ret : MRet M := λ A a s, (Ok a, s).
#[export] Instance M_bind : MBind M := λ A B k m s,
  match m s with
  | (Ok a, s) => k a s
  | (Err e, s) => (Err e, s)
  end.

Definition throw {A} (e : E) : M A := λ s, (Err e, s).
Definition push (u : U) : M unit := λ s, (Ok tt, (s.1, u :: s.2)).
Definition modify (f : W → W) : M unit := λ s, (Ok tt, (f s.1, s.2)).
Definition world : M W := λ s, (Ok s.1, s).

(** The deferred function. *)
Definition rollback (undo : W → U → W) (w : W) (stack : list U) : W := foldl undo w stack.

(** A step that succeeded is its parts that did. *)
Lemma bind_ok {A B} (m : M A) (k : A → M B) s b (s' : W * list U) :
  (m ≫= k) s = (Ok b, s') → ∃ a s1, m s = (Ok a, s1) ∧ k a s1 = (Ok b, s').
Proof. unfold mbind, M_bind. destruct (m s) as [[a|e] s1] eqn:Em; intros Hk; [by exists a, s1|done]. Qed.

(** ** Invariants of a step

    [I] relates the world to the actions pending while the steps succeed; [J e] does once
    one has failed with [e]. *)
Section triples.
Context (I : W → list U → Prop) (J : E → W → list U → Prop).

Definition triple {A} (st : list U) (m : M A) (Q : A → list U → Prop) : Prop :=
  ∀ w r w' st', I w st → m (w, st) = (r, (w', st')) →
  match r with
  | Ok a => I w' st' ∧ Q a st'
  | Err e => J e w' st'
  end.

Lemma triple_bind {A B} st (m : M A) (k : A → M B) Q Q' :
  triple st m Q → (∀ a st1, Q a st1 → triple st1 (k a) Q') → triple st (m ≫= k) Q'.
Proof.
  intros Hm Hk w r w' st' Hinv E'. unfold mbind, M_bind in E'.
  destruct (m (w, st)) as [[a|e] [w1 st1]] eqn:Em.
  - destruct (Hm _ _ _ _ Hinv Em) as [Hinv1 HQ]. by eapply (Hk a st1 HQ).
  - simplify_eq. by apply (Hm _ _ _ _ Hinv Em).
Qed.

Lemma triple_ret {A} st (a : A) (Q : A → list U → Prop) : Q a st → triple st (mret a) Q.
Proof. intros HQ w r w' st' Hinv E'. unfold mret, M_ret in E'. by simplify_eq. Qed.

Lemma triple_throw {A} st e (Q : A → list U → Prop) :
  (∀ w, I w st → J e w st) → triple st (throw e) Q.
Proof. intros HJ w r w' st' Hinv E'. unfold throw in E'. simplify_eq. by apply HJ. Qed.

(** One action after the other, the invariant is kept by a rollback. *)
Lemma rollback_inv (undo : W → U → W) (K : W → list U → Prop) w stack :
  (∀ w u st, K w (u :: st) → K (undo w u) st) → K w stack → K (rollback undo w stack) [].
Proof.
  intros Hu. unfold rollback. revert w. induction stack as [|u st IH]; intros w Hw; simpl; [done|].
  by apply IH, Hu.
Qed.

End triples.
End rollback.

(** ** What is pending

    A map, and a set, that differ from an old one at the pending keys only, where the old
    one had nothing. *)
Definition agree {K V} `{Countable K} (pend : list K) (m m0 : gmap K V) : Prop :=
  (∀ k, k ∉ pend → m !! k = m0 !! k) ∧ (∀ k, k ∈ pend → m0 !! k = None).
Definition agree_set (pend : list string) (X X0 : gset string) : Prop :=
  (∀ x, x ∉ pend → x ∈ X ↔ x ∈ X0) ∧ (∀ x, x ∈ pend → x ∉ X0).

Lemma agree_nil {K V} `{Countable K} (m m0 : gmap K V) : agree [] m m0 → m = m0.
Proof. intros [Ha _]. apply map_eq. intros k. apply Ha, not_elem_of_nil. Qed.

Lemma agree_refl {K V} `{Countable K} (m : gmap K V) : agree [] m m.
Proof. split; [done|]. by intros k ?%not_elem_of_nil. Qed.

Lemma agree_pop {K V} `{Countable K} k pend (m m0 : gmap K V) :
  agree (k :: pend) m m0 → agree pend (delete k m) m0.
Proof.
  intros [Ha Hn]. split; [|intros x Hx; apply Hn; by right].
  intros x Hx. destruct (decide (x = k)) as [->|].
  - rewrite lookup_delete_eq. symmetry. apply Hn. by left.
  - rewrite lookup_delete_ne by done. apply Ha. by intros [?|?]%elem_of_cons.
Qed.

Lemma agree_push {K V} `{Countable K} k v pend (m m0 : gmap K V) :
  m0 !! k = None → agree pend m m0 → agree (k :: pend) (<[k := v]> m) m0.
Proof.
  intros Hk [Ha Hn]. split; [|by intros x [->|?]%elem_of_cons; [|apply Hn]].
  intros x [? ?]%not_elem_of_cons. rewrite lookup_insert_ne by done. by apply Ha.
Qed.

Lemma agree_weaken {K V} `{Countable K} k pend (m m0 : gmap K V) :
  m0 !! k = None → agree pend m m0 → agree (k :: pend) m m0.
Proof.
  intros Hk [Ha Hn]. split; [|by intros x [->|?]%elem_of_cons; [|apply Hn]].
  intros x [? ?]%not_elem_of_cons. by apply Ha.
Qed.

Lemma agree_fresh {K V} `{Countable K} pend (m m0 : gmap K V) k :
  agree pend m m0 → m !! k = None → m0 !! k = None.
Proof.
  intros [Ha Hn] Hk. destruct (decide (k ∈ pend)) as [|Hnp]; [by apply Hn|]. by rewrite <-Ha.
Qed.

Lemma agree_set_nil X X0 : agree_set [] X X0 → X = X0.
Proof. intros [Ha _]. apply set_eq. intros x. apply Ha, not_elem_of_nil. Qed.

Lemma agree_set_refl X : agree_set [] X X.
Proof. split; [done|]. by intros k ?%not_elem_of_nil. Qed.

Lemma agree_set_pop x pend X X0 : agree_set (x :: pend) X X0 → agree_set pend (X ∖ {[x]}) X0.
Proof.
  intros [Ha Hn]. split; [|intros y Hy; apply Hn; by right].
  intros y Hy. destruct (decide (y = x)) as [->|].
  - assert (x ∉ X0) by (apply Hn; by left). set_solver.
  - rewrite <-Ha by (by intros [?|?]%elem_of_cons). set_solver.
Qed.

Lemma agree_set_push x pend X X0 : x ∉ X0 → agree_set pend X X0 → agree_set (x :: pend) ({[x]} ∪ X) X0.
Proof.
  intros Hx [Ha Hn]. split; [|by intros y [->|?]%elem_of_cons; [|apply Hn]].
  intros y [? ?]%not_elem_of_cons. rewrite <-Ha by done. set_solver.
Qed.

Lemma agree_set_del x pend X X0 : x ∉ X0 → agree_set pend X X0 → agree_set pend (X ∖ {[x]}) X0.
Proof.
  intros Hx [Ha Hn]. split; [|done]. intros y Hy. rewrite <-Ha by done.
  destruct (decide (y = x)) as [->|]; [|set_solver]. split; [set_solver|]. intros ?%Ha; done.
Qed.

Lemma agree_set_add x pend X X0 : x ∈ pend → agree_set pend X X0 → agree_set pend ({[x]} ∪ X) X0.
Proof.
  intros Hx [Ha Hn]. split; [|done]. intros y Hy. rewrite <-Ha by done.
  assert (y ≠ x) by (by intros ->). set_solver.
Qed.

Lemma agree_set_ext pend pend' X X0 :
  (∀ x, x ∈ pend ↔ x ∈ pend') → agree_set pend X X0 → agree_set pend' X X0.
Proof. intros E [Ha Hn]. split; intros x Hx; [apply Ha|apply Hn]; by rewrite E. Qed.

Lemma agree_set_weaken x pend X X0 : x ∉ X0 → agree_set pend X X0 → agree_set (x :: pend) X X0.
Proof.
  intros Hx [Ha Hn]. split; [|by intros y [->|?]%elem_of_cons; [|apply Hn]].
  intros y [_ ?]%not_elem_of_cons. by apply Ha.
Qed.

Lemma agree_set_perm pend pend' X X0 : pend ≡ₚ pend' → agree_set pend X X0 → agree_set pend' X X0.
Proof.
  intros E [Ha Hn]. split; intros x Hx; [apply Ha|apply Hn]; by rewrite E.
Qed.

Lemma agree_perm {K V} `{Countable K} (p p' : list K) (m m0 : gmap K V) :
  p ≡ₚ p' → agree p m m0 → agree p' m m0.
Proof. intros E [Ha Hn]. split; intros k Hk; [apply Ha|apply Hn]; by rewrite E. Qed.
