(* ===== verification/UidPool.v ===== *)
(** * The UID pool ([internal/uid/pool.go])

    A pool of unprivileged UIDs kept in a buffered channel.  The channel is its
    queue of values together with its capacity; [Checkout] and [Return] are the
    non-blocking receive and send, each one atomic step. *)
From stdpp Require Import options.
From S2P Require Import Prelude.

Module UidPool.

Record Pool := mkPool {
  ch : list Z;        (* the values buffered in the channel, oldest first *)
  ch_cap : Z;         (* cap(p.ch) *)
  start : Z;
  end_ : Z            (* exclusive upper bound: start + size *)
}.

Inductive error :=
  | ErrStart (start : Z)
  | ErrSize (size : Z)
  | ErrPoolExhausted
  | ErrOutOfRange (uid start end_ : Z)
  | ErrFull (uid : Z).

#[export] Instance error_eq_dec : EqDecision error.
Proof. solve_decision. Defined.

(** The loop [for i := 0; i < size; i++ { ch <- start + i }], [n] rounds left. *)
Fixpoint fill (start i : Z) (n : nat) (c : list Z) : list Z :=
  match n with
  | O => c
  | S n => fill start (i + 1) n (c ++ [wrap64 (start + i)])
  end.

Definition NewPool (start size : Z) : result error Pool :=
  if decide (start ≤ 0) then Err (ErrStart start) else
  if decide (size < 1) then Err (ErrSize size) else
  Ok {| ch := fill start 0 (Z.to_nat size) [];
        ch_cap := size;
        start := start;
        end_ := wrap64 (start + size) |}.

Definition Checkout (p : Pool) : result error Z * Pool :=
  match ch p with
  | uid :: rest =>
      (Ok uid, {| ch := rest; ch_cap := ch_cap p; start := start p; end_ := end_ p |})
  | [] => (Err ErrPoolExhausted, p)
  end.

Definition Return (p : Pool) (uid : Z) : option error * Pool :=
  if decide (uid < start p ∨ end_ p ≤ uid) then
    (Some (ErrOutOfRange uid (start p) (end_ p)), p)
  else if decide (Z.of_nat (length (ch p)) < ch_cap p) then
    (None, {| ch := ch p ++ [uid]; ch_cap := ch_cap p; start := start p; end_ := end_ p |})
  else (Some (ErrFull uid), p).

Definition Available (p : Pool) : Z := Z.of_nat (length (ch p)).
Definition Capacity (p : Pool) : Z := ch_cap p.
Definition Start (p : Pool) : Z := start p.

(** ** Histories with their outstanding leases

    A state pairs the pool with the UIDs that are out.  Clients are disciplined:
    each leased UID is returned at most once, and only leased UIDs are. *)

Inductive lease_step : Pool * list Z → Pool * list Z → Prop :=
  | lease_checkout p p' u L :
      Checkout p = (Ok u, p') → lease_step (p, L) (p', u :: L)
  | lease_exhausted p p' e L :
      Checkout p = (Err e, p') → lease_step (p, L) (p', L)
  | lease_return p p' u e L L' :
      L ≡ₚ (u :: L') → Return p u = (e, p') → lease_step (p, L) (p', L').

(** [n] successful checkouts in a row. *)
Fixpoint checkouts (n : nat) (p : Pool) : option (list Z * Pool) :=
  match n with
  | O => Some ([], p)
  | S n => match Checkout p with
           | (Ok u, p') => '(us, p'') ← checkouts n p'; Some (u :: us, p'')
           | (Err _, _) => None
           end
  end.

(** The UIDs [start, start+size), in order. *)
Definition uid_range (start size : Z) : list Z := seqZ start size.

(** Free and leased UIDs together are exactly the range, each of them once. *)
Record pool_inv (start0 size0 : Z) (s : Pool * list Z) : Prop := {
  inv_start : start s.1 = start0;
  inv_end : end_ s.1 = start0 + size0;
  inv_cap : ch_cap s.1 = size0;
  inv_perm : ch s.1 ++ s.2 ≡ₚ uid_range start0 size0
}.

(** Concrete pools for the witnesses: three UIDs, all free, then one of them out. *)

Definition demo : Pool :=
  {| ch := [70000; 70001; 70002]; ch_cap := 3; start := 70000; end_ := 70003 |}.

Definition demo_out : Pool :=
  {| ch := [70001; 70002]; ch_cap := 3; start := 70000; end_ := 70003 |}.

(** ** Lemmas *)

Lemma fill_seqZ start i n c :
  0 ≤ i → 0 < start → start + i + Z.of_nat n ≤ int64_max →
  fill start i n c = c ++ seqZ (start + i) (Z.of_nat n).
Proof.
  revert i c. induction n as [|n IH]; intros i c Hi Hs Hmax; simpl.
  - by rewrite seqZ_nil, app_nil_r by lia.
  - rewrite IH by lia. rewrite wrap64_id by int_lia.
    rewrite <-app_assoc, (seqZ_cons _ (Z.of_nat (S n))) by lia.
    do 2 f_equal; simpl; f_equal; [lia|].
    f_equal; lia.
Qed.

Lemma NewPool_ok start0 size0 p :
  start0 + size0 ≤ int64_max → NewPool start0 size0 = Ok p →
  0 < start0 ∧ 1 ≤ size0 ∧
  p = {| ch := uid_range start0 size0; ch_cap := size0; start := start0; end_ := start0 + size0 |}.
Proof.
  unfold NewPool. intros Hmax ?. repeat case_decide; simplify_eq.
  split_and!; [lia..|]. rewrite fill_seqZ by lia. simpl.
  rewrite wrap64_id by int_lia. rewrite Z2Nat.id, Z.add_0_r by lia. done.
Qed.

Lemma NewPool_inv start0 size0 p :
  start0 + size0 ≤ int64_max → NewPool start0 size0 = Ok p → pool_inv start0 size0 (p, []).
Proof. intros ? (_ & _ & ->)%NewPool_ok; [|done]. split; simpl; by rewrite ?app_nil_r. Qed.

Lemma uid_range_length start0 size0 : 0 ≤ size0 → Z.of_nat (length (uid_range start0 size0)) = size0.
Proof. intros. unfold uid_range. rewrite length_seqZ. lia. Qed.

Lemma pool_inv_total start0 size0 s :
  0 ≤ size0 → pool_inv start0 size0 s →
  Z.of_nat (length (ch s.1)) + Z.of_nat (length s.2) = size0.
Proof.
  intros Hsz []. rewrite <-(uid_range_length start0 size0), <-inv_perm0 by done.
  rewrite length_app. lia.
Qed.

Lemma pool_inv_nodup start0 size0 s : pool_inv start0 size0 s → NoDup (ch s.1 ++ s.2).
Proof. intros []. rewrite inv_perm0. apply NoDup_seqZ. Qed.

Lemma pool_inv_elem start0 size0 s u :
  pool_inv start0 size0 s → u ∈ ch s.1 ++ s.2 → start0 ≤ u < start0 + size0.
Proof. intros []. rewrite inv_perm0. unfold uid_range. rewrite elem_of_seqZ. done. Qed.

Lemma Return_leased start0 size0 p L L' u :
  0 ≤ size0 → pool_inv start0 size0 (p, L) → L ≡ₚ (u :: L') →
  Return p u = (None, {| ch := ch p ++ [u]; ch_cap := ch_cap p; start := start p; end_ := end_ p |}).
Proof.
  intros Hsz Hinv HL. pose proof (pool_inv_total _ _ _ Hsz Hinv) as Htot.
  pose proof (pool_inv_elem _ _ _ u Hinv) as Hu.
  destruct Hinv as [Hs He Hc _]; simpl in *.
  rewrite HL in Htot, Hu. simpl in Htot. assert (start0 ≤ u < start0 + size0) by (apply Hu; set_solver).
  unfold Return. rewrite !decide_False, decide_True by lia. done.
Qed.

Lemma lease_step_inv start0 size0 s s' :
  0 ≤ size0 → lease_step s s' → pool_inv start0 size0 s → pool_inv start0 size0 s'.
Proof.
  intros Hsz Hstep Hinv. destruct Hstep as [p p' u L Hc|p p' e L Hc|p p' u e L L' HL Hr].
  - unfold Checkout in Hc. destruct Hinv as [Hs He Hc' Hp]; simpl in *.
    destruct (ch p) eqn:E; simplify_eq/=. split; simpl; [done..|].
    rewrite <-Hp. simpl. by rewrite Permutation_middle.
  - unfold Checkout in Hc. destruct (ch p) eqn:E; by simplify_eq/=.
  - rewrite (Return_leased start0 size0 p L L' u) in Hr by done.
    destruct Hinv as [Hs He Hc Hp]; simplify_eq/=. split; simpl; [done..|].
    rewrite <-Hp, HL, <-app_assoc. done.
Qed.

Lemma lease_reachable_inv start0 size0 p0 s :
  start0 + size0 ≤ int64_max → NewPool start0 size0 = Ok p0 →
  rtc lease_step (p0, []) s → 1 ≤ size0 ∧ 0 < start0 ∧ pool_inv start0 size0 s.
Proof.
  intros Hmax Hnew Hr. pose proof (NewPool_ok _ _ _ Hmax Hnew) as (? & ? & _).
  split_and!; [done..|]. eapply invariant_rtc; [|done|by apply NewPool_inv].
  intros; by eapply lease_step_inv; eauto with lia.
Qed.

Lemma checkouts_drain n p :
  n = length (ch p) →
  checkouts n p = Some (ch p, {| ch := []; ch_cap := ch_cap p; start := start p; end_ := end_ p |}).
Proof.
  intros ->. destruct p as [c k s e]. simpl. induction c as [|u c IH]; simpl; [done|]. by rewrite IH.
Qed.

(** ** Properties *)

(** two VMs that are up at the same time never hold the same UID.  In every
    history of checkouts and returns of leased UIDs, in any interleaving, the UIDs
    that are out are pairwise distinct, none of them is also free, and each lies
    in the configured range, so none is root's. *)
Theorem lease_exclusive start0 size0 p0 p L :
  start0 + size0 ≤ int64_max → NewPool start0 size0 = Ok p0 →
  rtc lease_step (p0, []) (p, L) →
  NoDup L ∧ (∀ u, u ∈ L → u ∉ ch p ∧ 0 < u ∧ start0 ≤ u < start0 + size0).
Proof.
  intros Hmax Hnew Hr. edestruct lease_reachable_inv as (? & ? & Hinv); [done..|].
  pose proof (pool_inv_nodup _ _ _ Hinv) as (_ & Hdisj & HL)%NoDup_app.
  split; [done|]. intros u Hu. simpl in *.
  pose proof (pool_inv_elem _ _ _ u Hinv ltac:(set_solver)). naive_solver lia.
Qed.

(** the pool neither loses nor invents UIDs.  In every such history a
    checkout is refused exactly when all [size] UIDs are out, and the return of a
    leased UID is never refused, so the full-channel error is only ever raised by
    a client that breaks the discipline. *)
Theorem lease_available start0 size0 p0 p L :
  start0 + size0 ≤ int64_max → NewPool start0 size0 = Ok p0 →
  rtc lease_step (p0, []) (p, L) →
  Available p + Z.of_nat (length L) = Capacity p ∧
  ((Checkout p).1 = Err ErrPoolExhausted ↔ Z.of_nat (length L) = size0) ∧
  (∀ u, u ∈ L → (Return p u).1 = None).
Proof.
  intros Hmax Hnew Hr. edestruct lease_reachable_inv as (Hsz & ? & Hinv); [done..|].
  pose proof (pool_inv_total start0 size0 _ ltac:(lia) Hinv) as Htot. simpl in Htot.
  split_and!.
  - unfold Available, Capacity. pose proof (inv_cap _ _ _ Hinv) as Hc. simpl in Hc. by rewrite Hc.
  - unfold Checkout. destruct (ch p); simpl in *; split; try done; intros; lia.
  - intros u [L1 [L2 ->]]%list_elem_of_split.
    rewrite (Return_leased start0 size0 p _ (L1 ++ L2) u ltac:(lia) Hinv); [done|].
    by rewrite Permutation_middle.
Qed.

(** a second return of the same UID is not caught while another UID is out:
    the call succeeds, and draining the pool then hands the UID out twice (the
    pool is first-in first-out, so it comes last, after every free UID). *)
Theorem double_return_undetected start0 size0 p0 p L u :
  start0 + size0 ≤ int64_max → NewPool start0 size0 = Ok p0 →
  rtc lease_step (p0, []) (p, L) →
  L ≠ [] → u ∈ ch p →
  ∃ p' p'', Return p u = (None, p') ∧
    checkouts (S (length (ch p))) p' = Some (ch p ++ [u], p'') ∧ ¬ NoDup (ch p ++ [u]).
Proof.
  intros Hmax Hnew Hr HL Hu. edestruct lease_reachable_inv as (Hsz & ? & Hinv); [done..|].
  pose proof (pool_inv_total start0 size0 _ ltac:(lia) Hinv) as Htot.
  pose proof (pool_inv_elem _ _ _ u Hinv ltac:(set_solver)) as Hrange.
  destruct Hinv as [Hs He Hc _]. destruct L as [|u' L]; [done|].
  simpl in Hs, He, Hc, Htot.
  exists (mkPool (ch p ++ [u]) (ch_cap p) (start p) (end_ p)),
    (mkPool [] (ch_cap p) (start p) (end_ p)).
  split; [|split].
  - unfold Return. by rewrite decide_False, decide_True by lia.
  - apply (checkouts_drain _ (mkPool _ _ _ _)). simpl. rewrite length_app. simpl. lia.
  - intros (_ & Hdisj & _)%NoDup_app. apply (Hdisj u); [done|]. by apply list_elem_of_singleton.
Qed.

(** ** Witnesses *)

Lemma demo_out_reachable : rtc lease_step (demo, []) (demo_out, [70000]).
Proof. apply rtc_once. by apply lease_checkout. Qed.

Lemma lease_exclusive_witness :
  NewPool 70000 3 = Ok demo ∧ NoDup [70000].
Proof.
  split; [by vm_compute|].
  refine (proj1 (lease_exclusive 70000 3 demo demo_out [70000] _ _ demo_out_reachable));
    [by vm_compute|by vm_compute].
Defined.

Lemma lease_available_witness : (Return demo_out 70000).1 = None.
Proof.
  refine (proj2 (proj2 (lease_available 70000 3 demo demo_out [70000] _ _ demo_out_reachable)) _ _);
    [by vm_compute|by vm_compute|by left].
Defined.

Lemma double_return_undetected_witness :
  ∃ p' p'', Return demo_out 70001 = (None, p') ∧
    checkouts 3 p' = Some ([70001; 70002; 70001], p'') ∧ ¬ NoDup [70001; 70002; 70001].
Proof.
  refine (double_return_undetected 70000 3 demo demo_out [70000] 70001 _ _ demo_out_reachable _ _);
    [by vm_compute|by vm_compute|done|by left].
Defined.

End UidPool.
