(* ===== verification/Ipam.v ===== *)
(** * Guest IP allocation ([internal/network/ipam.go])

    The allocator keeps the subnet, the set of addresses in use (keyed by their
    printed form, as the code's map) and a rotor [nextIP], a byte array that
    [inc] updates in place.  [Acquire] loops without a bound in the code; here it
    takes fuel, one more than the number of used addresses, and [Acquire_spec]
    shows that this fuel is never exhausted. *)
From stdpp Require Import options.
From S2P Require Import Prelude GoStrings GoNet.
#[local] Open Scope Z_scope.

Module Ipam.

Inductive error :=
  | ErrInvalidCIDR
  | ErrExhausted (n : IPNet).

Record IPAM := mkIPAM {
  subnet : IPNet;
  usedIPs : gmap string bool;
  nextIP : list Z
}.

(** [for j := len(ip)-1; j >= 0; j-- { ip[j]++; if ip[j] > 0 { break } }], with
    [j] one above the index. *)
Fixpoint inc_from (j : nat) (ip : list Z) : list Z :=
  match j with
  | O => ip
  | S j =>
      let b := wrap8 (ip !!! j + 1) in
      let ip := <[j := b]> ip in
      if 0 <? b then ip else inc_from j ip
  end.

Definition inc (ip : list Z) : list Z := inc_from (length ip) ip.

Fixpoint all_ones (ip mask : list Z) : bool :=
  match ip, mask with
  | a :: ip, m :: mask => if decide (Z.lor a m ≠ 255) then false else all_ones ip mask
  | _, _ => true
  end.

Definition isBroadcast (ip : list Z) (n : IPNet) : bool :=
  if decide (length ip ≠ length (net_Mask n)) then false else all_ones ip (net_Mask n).

Definition NewIPAM (cidr : string) : result error IPAM :=
  match ParseCIDR cidr with
  | None => Err ErrInvalidCIDR
  | Some (_, ipnet) =>
      Ok {| subnet := ipnet; usedIPs := ∅; nextIP := inc (inc (net_IP ipnet)) |}
  end.

(** One move of the rotor, with the wrap-around to the subnet's third address. *)
Definition advance (n : IPNet) (ip : list Z) : list Z :=
  let ip := inc ip in
  if negb (Contains n ip) || isBroadcast ip n then inc (inc (net_IP n)) else ip.

(** [i.usedIPs[ip]]: a missing key reads false. *)
Definition used (i : IPAM) (ip : string) : bool := default false (usedIPs i !! ip).

Fixpoint acquire_loop (fuel : nat) (startIP : list Z) (i : IPAM)
    : option (result error string * IPAM) :=
  match fuel with
  | O => None
  | S fuel =>
      let ipStr := IP_String (nextIP i) in
      let next := advance (subnet i) (nextIP i) in
      if negb (used i ipStr) then
        Some (Ok ipStr,
              {| subnet := subnet i; usedIPs := <[ipStr := true]> (usedIPs i); nextIP := next |})
      else
        let i := {| subnet := subnet i; usedIPs := usedIPs i; nextIP := next |} in
        if IP_Equal (nextIP i) startIP then Some (Err (ErrExhausted (subnet i)), i)
        else acquire_loop fuel startIP i
  end.

Definition Acquire (i : IPAM) : option (result error string * IPAM) :=
  acquire_loop (S (size (usedIPs i))) (nextIP i) i.

Definition Release (i : IPAM) (ip : string) : IPAM :=
  {| subnet := subnet i; usedIPs := delete ip (usedIPs i); nextIP := nextIP i |}.

(** ** Addresses as numbers *)

Definition addr_bytes (v : Z) : list Z :=
  [v `div` 2 ^ 24 `mod` 256; v `div` 2 ^ 16 `mod` 256; v `div` 2 ^ 8 `mod` 256; v `mod` 256].

Definition addr_val (b : list Z) : Z := foldl (λ acc x, acc * 256 + x) 0 b.

Definition addr_string (v : Z) : string := IP_String (addr_bytes v).

(** An IPv4 network with base address [base] and [k] host bits. *)
Definition net4 (base k : Z) : IPNet := mkIPNet (addr_bytes base) (addr_bytes (2 ^ 32 - 2 ^ k)).

Record net_ok (base k : Z) : Prop := {
  ok_k : 2 ≤ k ≤ 32;
  ok_base : 0 ≤ base < 2 ^ 32;
  ok_aligned : base `mod` 2 ^ k = 0
}.

(** The addresses the allocator hands out: not the network address, not the
    gateway that follows it, not the broadcast address. *)
Definition lo (base : Z) : Z := base + 2.
Definition hi (base k : Z) : Z := base + 2 ^ k - 2.
Definition usable (base k v : Z) : Prop := lo base ≤ v ≤ hi base k.
Definition count (k : Z) : Z := 2 ^ k - 3.

(** The [j]-th address from [v] in the rotor's cyclic order. *)
Definition nth_from (base k v j : Z) : Z := lo base + (v - lo base + j) `mod` count k.

(** ** The abstract allocator

    A rotor position and the set of addresses in use; an acquisition takes the
    first free address in cyclic order, and is refused when there is none. *)
Record alloc := mkAlloc { rotor : Z; taken : gset Z }.

Inductive alloc_acquire (base k : Z) : alloc → result error Z → alloc → Prop :=
  | alloc_first_free a j :
      0 ≤ j < count k →
      nth_from base k (rotor a) j ∉ taken a →
      (∀ j', 0 ≤ j' < j → nth_from base k (rotor a) j' ∈ taken a) →
      alloc_acquire base k a (Ok (nth_from base k (rotor a) j))
        (mkAlloc (nth_from base k (rotor a) (j + 1))
                 ({[nth_from base k (rotor a) j]} ∪ taken a))
  | alloc_full a :
      (∀ v, usable base k v → v ∈ taken a) →
      alloc_acquire base k a (Err (ErrExhausted (net4 base k))) a.

(** The allocator's state represents the abstract one. *)
Record represents (base k : Z) (i : IPAM) (a : alloc) : Prop := {
  rep_subnet : subnet i = net4 base k;
  rep_rotor : usable base k (rotor a) ∧ nextIP i = addr_bytes (rotor a);
  rep_taken : ∀ v, v ∈ taken a → usable base k v;
  rep_used : ∀ s b, usedIPs i !! s = Some b ↔ b = true ∧ ∃ v, v ∈ taken a ∧ s = addr_string v
}.

Definition printed (r : result error Z) : result error string :=
  match r with Ok v => Ok (addr_string v) | Err e => Err e end.

(** ** Histories with the addresses that are out *)

Inductive ip_step : IPAM * list string → IPAM * list string → Prop :=
  | ip_acquired i i' s L :
      Acquire i = Some (Ok s, i') → ip_step (i, L) (i', s :: L)
  | ip_refused i i' e L :
      Acquire i = Some (Err e, i') → ip_step (i, L) (i', L)
  | ip_released i s L L' :
      L ≡ₚ (s :: L') → ip_step (i, L) (Release i s, L').

Definition history_inv (base k : Z) (s : IPAM * list string) : Prop :=
  ∃ a, represents base k s.1 a ∧ s.2 ≡ₚ (addr_string <$> elements (taken a)).

(** The network address of a.b.c.d/n, as a number. *)
Definition network_of (a b c d n : Z) : Z :=
  (a * 2 ^ 24 + b * 2 ^ 16 + c * 2 ^ 8 + d) `div` 2 ^ (32 - n) * 2 ^ (32 - n).

Definition cidr (a b c d n : Z) : string := dotted a b c d +:+ String "/" (Itoa n).

(** The state [NewIPAM "10.200.0.0/16"] returns (the default of [herd init]), and the
    one it reaches after the first acquisition. *)
Definition default_ipam : IPAM :=
  {| subnet := mkIPNet [10; 200; 0; 0] [255; 255; 0; 0]; usedIPs := ∅; nextIP := [10; 200; 0; 2] |}.

Definition default_ipam' : IPAM :=
  {| subnet := mkIPNet [10; 200; 0; 0] [255; 255; 0; 0]; usedIPs := {["10.200.0.2" := true]};
     nextIP := [10; 200; 0; 3] |}.

#[local] Arguments addr_bytes : simpl never.
#[local] Arguments addr_string : simpl never.
#[local] Arguments nth_from : simpl never.
#[local] Arguments advance : simpl never.

(** ** Lemmas: bytes and numbers *)

Lemma addr_bytes_val a b c d :
  is_byte a → is_byte b → is_byte c → is_byte d →
  addr_bytes (a * 2 ^ 24 + b * 2 ^ 16 + c * 2 ^ 8 + d) = [a; b; c; d].
Proof. unfold is_byte, addr_bytes. intros. f_equal; [|f_equal; [|f_equal; [|f_equal]]]; pow_lia. Qed.

Lemma addr_bytes_byte v : Forall is_byte (addr_bytes v).
Proof. repeat (apply Forall_cons; split; [apply Z.mod_pos_bound; lia|]). by apply Forall_nil. Qed.

(** Every 32-bit number is made of four bytes. *)
Lemma four_bytes v :
  0 ≤ v < 2 ^ 32 →
  ∃ a b c d, is_byte a ∧ is_byte b ∧ is_byte c ∧ is_byte d ∧
    v = a * 2 ^ 24 + b * 2 ^ 16 + c * 2 ^ 8 + d ∧ addr_bytes v = [a; b; c; d].
Proof.
  intros Hv. exists (v `div` 2 ^ 24 `mod` 256), (v `div` 2 ^ 16 `mod` 256),
    (v `div` 2 ^ 8 `mod` 256), (v `mod` 256).
  unfold is_byte. split_and!; pow_lia || done.
Qed.

Lemma addr_bytes_eq a b c d v :
  is_byte a → is_byte b → is_byte c → is_byte d →
  v = a * 2 ^ 24 + b * 2 ^ 16 + c * 2 ^ 8 + d → [a; b; c; d] = addr_bytes v.
Proof. intros ???? ->. by rewrite addr_bytes_val. Qed.

Lemma wrap8_succ d : is_byte d → wrap8 (d + 1) = if decide (d = 255) then 0 else d + 1.
Proof. unfold is_byte, wrap8. intros. case_decide; pow_lia. Qed.

(** The carry of [inc] is addition modulo 2^32. *)
Lemma inc_bytes v : 0 ≤ v < 2 ^ 32 → inc (addr_bytes v) = addr_bytes ((v + 1) `mod` 2 ^ 32).
Proof.
  intros (a & b & c & d & Ha & Hb & Hc & Hd & -> & ->)%four_bytes.
  unfold inc. simpl. rewrite !wrap8_succ by done. unfold is_byte in *.
  repeat (case_decide || case_match; simpl); try lia.
  all: apply addr_bytes_eq; unfold is_byte; pow_lia.
Qed.

Lemma addr_string_inj v w :
  0 ≤ v < 2 ^ 32 → 0 ≤ w < 2 ^ 32 → addr_string v = addr_string w → v = w.
Proof.
  intros (a & b & c & d & ? & ? & ? & ? & -> & Ev)%four_bytes.
  intros (a' & b' & c' & d' & ? & ? & ? & ? & -> & Ew)%four_bytes.
  unfold addr_string. rewrite Ev, Ew, !IP_String_dotted.
  intros E%dotted_inj; [|done..]. by simplify_eq.
Qed.

(** Bitwise operations act byte by byte. *)
Lemma land_split x y :
  Z.land x y = Z.land (x `div` 2 ^ 8) (y `div` 2 ^ 8) * 2 ^ 8 + Z.land (x `mod` 2 ^ 8) (y `mod` 2 ^ 8).
Proof.
  rewrite (Z.div_mod (Z.land x y) (2 ^ 8)) at 1 by pow_lia.
  rewrite <-!Z.shiftr_div_pow2, Z.shiftr_land, <-!Z.land_ones by pow_lia.
  rewrite <-!Z.land_assoc, (Z.land_assoc (Z.ones 8)), (Z.land_comm (Z.ones 8) y),
    <-Z.land_assoc, Z.land_diag. lia.
Qed.

Lemma land_byte x y : is_byte x → is_byte y → is_byte (Z.land x y).
Proof.
  unfold is_byte. intros Hx Hy. split; [by apply Z.land_nonneg; lia|].
  pose proof (Z.land_ones (Z.land x y) 8 ltac:(lia)) as E.
  rewrite <-Z.land_assoc, Z.land_ones, (Z.mod_small y) in E by lia.
  rewrite E. apply Z.mod_pos_bound. lia.
Qed.

Lemma lor_land x y : Z.lor x y = x + y - Z.land x y.
Proof. pose proof (Z.sub_2lor_lxor x y). pose proof (Z.sub_lor_land x y). lia. Qed.

(** The conjunction of two numbers is the conjunction of their bytes. *)
Lemma land_val a b c d a' b' c' d' :
  is_byte a → is_byte b → is_byte c → is_byte d →
  is_byte a' → is_byte b' → is_byte c' → is_byte d' →
  Z.land (a * 2 ^ 24 + b * 2 ^ 16 + c * 2 ^ 8 + d) (a' * 2 ^ 24 + b' * 2 ^ 16 + c' * 2 ^ 8 + d') =
  Z.land a a' * 2 ^ 24 + Z.land b b' * 2 ^ 16 + Z.land c c' * 2 ^ 8 + Z.land d d'.
Proof.
  assert (∀ x y, is_byte y → (x * 2 ^ 8 + y) `div` 2 ^ 8 = x ∧ (x * 2 ^ 8 + y) `mod` 2 ^ 8 = y) as Hdm
    by (unfold is_byte; intros; pow_lia).
  assert (∀ x y x' y', is_byte y → is_byte y' →
    Z.land (x * 2 ^ 8 + y) (x' * 2 ^ 8 + y') = Z.land x x' * 2 ^ 8 + Z.land y y') as Hl.
  { intros x y x' y' Hy Hy'. rewrite land_split.
    destruct (Hdm x y Hy) as [-> ->]. by destruct (Hdm x' y' Hy') as [-> ->]. }
  intros. replace (a * 2 ^ 24 + b * 2 ^ 16 + c * 2 ^ 8 + d) with (((a * 2 ^ 8 + b) * 2 ^ 8 + c) * 2 ^ 8 + d) by lia.
  replace (a' * 2 ^ 24 + b' * 2 ^ 16 + c' * 2 ^ 8 + d') with (((a' * 2 ^ 8 + b') * 2 ^ 8 + c') * 2 ^ 8 + d') by lia.
  rewrite !Hl by done. lia.
Qed.

Lemma land_bytes v w :
  0 ≤ v < 2 ^ 32 → 0 ≤ w < 2 ^ 32 → and_mask (addr_bytes v) (addr_bytes w) = addr_bytes (Z.land v w).
Proof.
  intros (a & b & c & d & Ha & Hb & Hc & Hd & -> & ->)%four_bytes.
  intros (a' & b' & c' & d' & Ha' & Hb' & Hc' & Hd' & -> & ->)%four_bytes.
  apply addr_bytes_eq; [by apply land_byte..|]. by rewrite land_val.
Qed.

(** A byte is all ones exactly when the four bytes of the disjunction add up. *)
Lemma all_ones_bytes v w :
  0 ≤ v < 2 ^ 32 → 0 ≤ w < 2 ^ 32 →
  all_ones (addr_bytes v) (addr_bytes w) = bool_decide (Z.lor v w = 2 ^ 32 - 1).
Proof.
  intros (a & b & c & d & Ha & Hb & Hc & Hd & -> & ->)%four_bytes.
  intros (a' & b' & c' & d' & Ha' & Hb' & Hc' & Hd' & -> & ->)%four_bytes.
  assert (∀ x y, is_byte x → is_byte y → Z.lor x y ≤ 255) as Hlor.
  { intros x y Hx Hy. rewrite lor_land. unfold is_byte in *.
    assert (0 ≤ Z.land (255 - x) (255 - y)) by (apply Z.land_nonneg; lia).
    assert (Z.land x y = x + y - Z.lor x y) by (rewrite lor_land; lia).
    assert (0 ≤ Z.lor x y < 2 ^ 8).
    { split; [by apply Z.lor_nonneg; lia|]. destruct (decide (Z.lor x y = 0)) as [->|]; [lia|].
      apply Z.log2_lt_pow2; [pose proof (proj2 (Z.lor_nonneg x y)); lia|].
      rewrite Z.log2_lor by lia.
      pose proof (Z.log2_le_mono x 255 ltac:(lia)). pose proof (Z.log2_le_mono y 255 ltac:(lia)).
      change (Z.log2 255) with 7 in *. lia. }
    lia. }
  pose proof (Hlor a a' Ha Ha'). pose proof (Hlor b b' Hb Hb').
  pose proof (Hlor c c' Hc Hc'). pose proof (Hlor d d' Hd Hd').
  rewrite lor_land, land_val by done. rewrite !lor_land in *.
  unfold all_ones. rewrite !lor_land.
  repeat (case_decide; [symmetry; apply bool_decide_eq_false; pow_lia|]).
  symmetry. apply bool_decide_eq_true. pow_lia.
Qed.

(** ** Lemmas: masks *)

Lemma land_high v k : 0 ≤ v < 2 ^ 32 → 0 ≤ k ≤ 32 → Z.land v (2 ^ 32 - 2 ^ k) = v `div` 2 ^ k * 2 ^ k.
Proof.
  intros Hv Hk. rewrite <-Z.shiftr_div_pow2, <-Z.shiftl_mul_pow2 by lia.
  replace (2 ^ 32 - 2 ^ k) with (Z.shiftl (Z.ones (32 - k)) k).
  2:{ rewrite Z.shiftl_mul_pow2, Z.ones_equiv by lia.
      rewrite Z.mul_pred_l, <-Z.pow_add_r by lia. do 2 f_equal. lia. }
  apply Z.bits_inj'. intros n Hn. rewrite Z.land_spec, !Z.shiftl_spec by lia.
  destruct (decide (n < k)) as [|Hnk].
  { rewrite !(Z.testbit_neg_r _ (n - k)) by lia. apply andb_false_r. }
  rewrite Z.shiftr_spec by lia. replace (n - k + k) with n by lia.
  destruct (decide (n < 32)).
  - rewrite Z.ones_spec_low by lia. apply andb_true_r.
  - rewrite Z.ones_spec_high by lia. rewrite andb_false_r. symmetry.
    rewrite <-(Z.mod_small v (2 ^ 32)) by lia. by rewrite Z.mod_pow2_bits_high by lia.
Qed.

Lemma mask_range k : 0 ≤ k ≤ 32 → 0 ≤ 2 ^ 32 - 2 ^ k < 2 ^ 32.
Proof.
  intros. assert (0 < 2 ^ k ≤ 2 ^ 32) by (split; [lia|apply Z.pow_le_mono_r; lia]). lia.
Qed.

Lemma addr_bytes_inj v w : 0 ≤ v < 2 ^ 32 → 0 ≤ w < 2 ^ 32 → addr_bytes v = addr_bytes w → v = w.
Proof. intros ?? E. apply addr_string_inj; [done..|]. unfold addr_string. by rewrite E. Qed.

(** [Contains] compares the network bits. *)
Lemma Contains_net4 base k v :
  0 ≤ k ≤ 32 → 0 ≤ base < 2 ^ 32 → 0 ≤ v < 2 ^ 32 →
  Contains (net4 base k) (addr_bytes v) = bool_decide (v `div` 2 ^ k = base `div` 2 ^ k).
Proof.
  intros Hk Hb Hv. pose proof (mask_range k Hk). unfold Contains.
  change (networkNumberAndMask (net4 base k)) with
    (Some (addr_bytes base, addr_bytes (2 ^ 32 - 2 ^ k))).
  change (To4 (addr_bytes v)) with (Some (addr_bytes v)).
  change (default (addr_bytes v) (Some (addr_bytes v))) with (addr_bytes v).
  cbv beta iota zeta delta [default from_option id].
  rewrite (bool_decide_eq_true_2 (length _ = length _)) by done. rewrite andb_true_l.
  rewrite !land_bytes, !land_high by done.
  assert (∀ x, 0 ≤ x < 2 ^ 32 → 0 ≤ x `div` 2 ^ k * 2 ^ k < 2 ^ 32) as Hr.
  { intros x Hx. pose proof (Z.div_mod x (2 ^ k) ltac:(lia)).
    pose proof (Z.mod_pos_bound x (2 ^ k) ltac:(lia)).
    pose proof (Z.div_pos x (2 ^ k)). nia. }
  apply bool_decide_ext. split; [|by intros ->].
  intros E%addr_bytes_inj; [|by apply Hr..]. apply (Z.mul_cancel_r _ _ (2 ^ k)); lia.
Qed.

Lemma isBroadcast_net4 base k v :
  0 ≤ k ≤ 32 → 0 ≤ v < 2 ^ 32 →
  isBroadcast (addr_bytes v) (net4 base k) = bool_decide (v `mod` 2 ^ k = 2 ^ k - 1).
Proof.
  intros Hk Hv. pose proof (mask_range k Hk). unfold isBroadcast.
  rewrite decide_False by (intros Hl; by apply Hl). unfold net4. cbn [net_Mask].
  rewrite all_ones_bytes, lor_land, land_high by done.
  apply bool_decide_ext. pose proof (Z.div_mod v (2 ^ k) ltac:(lia)). lia.
Qed.

Section allocation.
Context (base k : Z) (Hok : net_ok base k).

Lemma pow_k : 4 ≤ 2 ^ k ∧ (2 ^ k | 2 ^ 32).
Proof using Hok.
  destruct Hok as [Hk _ _]. split.
  - change 4 with (2 ^ 2). apply Z.pow_le_mono_r; lia.
  - exists (2 ^ (32 - k)). rewrite <-Z.pow_add_r by lia. f_equal. lia.
Qed.

Lemma count_pos : 0 < count k.
Proof using Hok. unfold count. pose proof pow_k. lia. Qed.

(** The subnet's addresses are 32-bit numbers with the subnet's network bits. *)
Lemma in_net v :
  base ≤ v < base + 2 ^ k →
  0 ≤ v < 2 ^ 32 ∧ v `div` 2 ^ k = base `div` 2 ^ k ∧ v `mod` 2 ^ k = v - base.
Proof using Hok.
  intros Hv. pose proof pow_k as [Hp [m Hm]]. destruct Hok as [Hk Hb Ha].
  pose proof (Z.div_mod base (2 ^ k) ltac:(lia)) as Eb. rewrite Ha in Eb.
  set (q := base `div` 2 ^ k) in *.
  assert (q < m) by (apply (Zmult_lt_reg_r _ _ (2 ^ k)); lia).
  assert (base + 2 ^ k ≤ 2 ^ 32) by (rewrite Hm; nia).
  split; [lia|].
  assert (v = 2 ^ k * q + (v - base)) as Ev by lia.
  split; [symmetry|symmetry]; [eapply Z.div_unique|eapply Z.mod_unique]; eauto; lia.
Qed.

Lemma usable_32 v : usable base k v → 0 ≤ v < 2 ^ 32.
Proof using Hok. unfold usable, lo, hi. intros. apply in_net. lia. Qed.

Lemma advance_usable v :
  usable base k v →
  advance (net4 base k) (addr_bytes v) = addr_bytes (if decide (v = hi base k) then lo base else v + 1).
Proof using Hok.
  intros Hu. pose proof pow_k as [Hp _]. pose proof (usable_32 _ Hu) as Hv.
  unfold usable, lo, hi in *. destruct Hok as [Hk Hb _].
  destruct (in_net (v + 1)) as (H1 & H2 & H3); [lia|].
  destruct (in_net (base + 1)) as (Hb1 & _); [lia|]. destruct (in_net (base + 2)) as (Hb2 & _); [lia|].
  unfold advance. rewrite inc_bytes, Z.mod_small by lia. cbv zeta.
  rewrite Contains_net4, isBroadcast_net4, bool_decide_eq_true_2 by (done || lia). simpl negb.
  rewrite orb_false_l, H3. cbn [net_IP net4].
  rewrite !inc_bytes, !Z.mod_small by (rewrite ?Z.mod_small; lia).
  case_bool_decide; case_decide; try lia; f_equal; lia.
Qed.

(** *** The cyclic order *)

Lemma nth_from_usable v j : usable base k (nth_from base k v j).
Proof using Hok.
  pose proof count_pos. unfold usable, nth_from, hi, lo, count in *.
  pose proof (Z.mod_pos_bound (v - (base + 2) + j) (2 ^ k - 3)). lia.
Qed.

Lemma nth_from_0 v : usable base k v → nth_from base k v 0 = v.
Proof using Hok.
  unfold usable, nth_from, hi, lo, count. intros. rewrite Z.mod_small; lia.
Qed.

Lemma nth_from_succ v j :
  nth_from base k v (j + 1) =
  if decide (nth_from base k v j = hi base k) then lo base else nth_from base k v j + 1.
Proof using Hok.
  pose proof count_pos as Hc. unfold nth_from, hi, lo. fold (count k).
  replace (v - (base + 2) + (j + 1)) with (v - (base + 2) + j + 1) by lia.
  rewrite (mod_succ _ _ Hc). unfold count. repeat case_decide; lia.
Qed.

Lemma nth_from_inj v j j' :
  0 ≤ j < count k → 0 ≤ j' < count k → nth_from base k v j = nth_from base k v j' → j = j'.
Proof using Hok.
  intros Hj Hj' E. pose proof count_pos as Hc. unfold nth_from in E.
  set (x := v - lo base) in *.
  assert ((x + j) `mod` count k = (x + j') `mod` count k) as E' by lia.
  pose proof (Z.div_mod (x + j) (count k) ltac:(lia)). pose proof (Z.div_mod (x + j') (count k) ltac:(lia)).
  set (q := (x + j) `div` count k) in *. set (q' := (x + j') `div` count k) in *.
  assert (j - j' = count k * (q - q')) by lia.
  assert (q = q') as Hq; [|by rewrite Hq in *; lia].
  destruct (Z.lt_trichotomy q q') as [|[|]]; [nia|done|nia].
Qed.

Lemma nth_from_wrap v : usable base k v → nth_from base k v (count k) = v.
Proof using Hok.
  intros Hv. rewrite <-(nth_from_0 v Hv) at 2. pose proof count_pos.
  unfold nth_from. f_equal. rewrite <-(Z.mul_1_l (count k)) at 1. rewrite Z.mod_add by lia.
  f_equal. lia.
Qed.

(** Every usable address is met within one turn. *)
Lemma nth_from_surj v w :
  usable base k v → usable base k w → ∃ j, 0 ≤ j < count k ∧ nth_from base k v j = w.
Proof using Hok.
  intros Hv Hw. pose proof count_pos as Hc. exists ((w - v) `mod` count k).
  split; [by apply Z.mod_pos_bound|]. unfold nth_from. rewrite Zplus_mod_idemp_r.
  unfold usable, hi, lo, count in *. rewrite Z.mod_small; lia.
Qed.

(** *** The loop *)

Lemma used_taken i a v :
  represents base k i a → usable base k v → used i (addr_string v) = bool_decide (v ∈ taken a).
Proof using Hok.
  intros [_ _ Ht Hu] Hv. unfold used. case_bool_decide as Hin.
  - by rewrite (proj2 (Hu (addr_string v) true)) by eauto.
  - destruct (usedIPs i !! addr_string v) as [b|] eqn:E; [|done].
    apply Hu in E as (-> & w & Hw & E). apply addr_string_inj in E; [|by apply usable_32..|].
    + by subst.
    + apply usable_32. by apply Ht.
Qed.

(** A stretch of taken addresses is no longer than the map of used ones. *)
Lemma taken_stretch i a m :
  represents base k i a → 0 ≤ m ≤ count k →
  (∀ j, 0 ≤ j < m → nth_from base k (rotor a) j ∈ taken a) → m ≤ Z.of_nat (size (usedIPs i)).
Proof using Hok.
  intros [_ _ Ht Hu] Hm Hall.
  assert (length ((λ j, addr_string (nth_from base k (rotor a) j)) <$> seqZ 0 m)
          ≤ size (usedIPs i))%nat as Hlen.
  { apply NoDup_keys_size.
    - apply NoDup_fmap_2_strong; [|apply NoDup_seqZ].
      intros j j' Hj%elem_of_seqZ Hj'%elem_of_seqZ E.
      apply addr_string_inj in E; [|by apply usable_32, nth_from_usable..].
      eapply nth_from_inj, E; lia.
    - intros s (j & -> & Hj%elem_of_seqZ)%list_elem_of_fmap.
      exists true. apply Hu. split; [done|]. eexists. split; [|done]. apply Hall. lia. }
  rewrite length_fmap, length_seqZ in Hlen. lia.
Qed.

Lemma IP_Equal_bytes v w :
  usable base k v → usable base k w → IP_Equal (addr_bytes v) (addr_bytes w) = bool_decide (v = w).
Proof using Hok.
  intros Hv%usable_32 Hw%usable_32. unfold IP_Equal. rewrite decide_True by done.
  apply bool_decide_ext. split; [by apply addr_bytes_inj|by intros ->].
Qed.

Lemma acquire_loop_spec i a fuel m :
  represents base k i a → 0 ≤ m < count k →
  (∀ j, 0 ≤ j < m → nth_from base k (rotor a) j ∈ taken a) →
  Z.of_nat fuel + m = Z.of_nat (S (size (usedIPs i))) →
  ∃ r i' a',
    acquire_loop fuel (addr_bytes (rotor a))
      (mkIPAM (net4 base k) (usedIPs i) (addr_bytes (nth_from base k (rotor a) m))) =
      Some (printed r, i') ∧ alloc_acquire base k a r a' ∧ represents base k i' a'.
Proof using Hok.
  intros Hrep. pose proof Hrep as [Hs [Hrot Hn] Ht Hu]. revert m.
  induction fuel as [|fuel IH]; intros m Hm Hall Hfuel.
  { pose proof (taken_stretch i a m Hrep ltac:(lia) Hall). lia. }
  set (v := nth_from base k (rotor a) m).
  assert (usable base k v) as Hv by by apply nth_from_usable.
  cbn [acquire_loop subnet usedIPs nextIP]. fold v. fold (addr_string v).
  rewrite advance_usable by done.
  replace (if decide (v = hi base k) then lo base else v + 1)
    with (nth_from base k (rotor a) (m + 1)) by by apply nth_from_succ.
  pose proof (used_taken i a v Hrep Hv) as Hused. unfold used in *. simpl. rewrite Hused.
  case_bool_decide as Hin; simpl.
  - rewrite IP_Equal_bytes by (done || by apply nth_from_usable).
    assert (∀ j, 0 ≤ j < m + 1 → nth_from base k (rotor a) j ∈ taken a) as Hall'.
    { intros j Hj. destruct (decide (j = m)) as [->|]; [done|]. apply Hall. lia. }
    destruct (decide (m + 1 = count k)) as [E|E].
    + rewrite E, nth_from_wrap, bool_decide_eq_true_2 by done.
      exists (Err (ErrExhausted (net4 base k))), (mkIPAM (net4 base k) (usedIPs i) (addr_bytes (rotor a))), a.
      split_and!; [done| |by split].
      apply alloc_full. intros w Hw. destruct (nth_from_surj (rotor a) w) as (j & Hj & <-); [done..|].
      apply Hall'. lia.
    + rewrite bool_decide_eq_false_2; [apply IH; [lia|done|lia]|].
      rewrite <-(nth_from_0 (rotor a)) at 2 by done. intros Heq%nth_from_inj; lia.
  - eexists (Ok v), _, _. split_and!; [done|by apply (alloc_first_free base k a m)|].
    split; simpl; [done|split; [by apply nth_from_usable|done]| |].
    + intros w [->%elem_of_singleton|Hw]%elem_of_union; auto.
    + intros s b. fold v. destruct (decide (s = addr_string v)) as [->|Hne].
      * rewrite lookup_insert_eq. split; [intros; simplify_eq; set_solver|by intros [-> _]].
      * rewrite lookup_insert_ne, Hu by done. set_solver.
Qed.

Lemma Acquire_spec i a :
  represents base k i a →
  ∃ r i' a', Acquire i = Some (printed r, i') ∧ alloc_acquire base k a r a' ∧ represents base k i' a'.
Proof using Hok.
  intros Hrep. pose proof Hrep as [Hs [Hrot Hn] _ _].
  destruct (acquire_loop_spec i a (S (size (usedIPs i))) 0) as (r & i' & a' & Hl & Hrest);
    [done|pose proof count_pos; lia|lia|lia|].
  exists r, i', a'. split; [|done]. unfold Acquire. rewrite <-Hl, nth_from_0, Hn by done.
  destruct i as [n u x]. cbn in Hs, Hn |- *. by rewrite Hs, Hn.
Qed.

Lemma Release_spec i a v :
  represents base k i a → usable base k v →
  represents base k (Release i (addr_string v)) (mkAlloc (rotor a) (taken a ∖ {[v]})).
Proof using Hok.
  intros [Hs Hr Ht Hu] Hv. split; simpl; [done|done|set_solver|].
  intros s b. destruct (decide (s = addr_string v)) as [->|Hne].
  - rewrite lookup_delete_eq. split; [done|].
    intros (-> & w & [Hw Hne]%elem_of_difference & E).
    apply addr_string_inj in E; [set_solver|apply usable_32; auto..].
  - rewrite lookup_delete_ne, Hu by done. set_solver.
Qed.

End allocation.

(** ** Lemmas: the constructor *)

Lemma CIDRMask_net4 n : 0 ≤ n ≤ 32 → CIDRMask 4 n = addr_bytes (2 ^ 32 - 2 ^ (32 - n)).
Proof.
  intros Hn. assert (n ∈ seqZ 0 33) as Hin by (apply elem_of_seqZ; lia).
  clear Hn. revert n Hin. apply Forall_forall.
  let l := eval vm_compute in (seqZ 0 33) in change (seqZ 0 33) with l.
  repeat (apply Forall_cons; split; [vm_compute; reflexivity|]). by apply Forall_nil.
Qed.

Lemma network_of_range a b c d n :
  is_byte a → is_byte b → is_byte c → is_byte d → 0 ≤ n ≤ 32 →
  0 ≤ network_of a b c d n < 2 ^ 32 ∧ network_of a b c d n `mod` 2 ^ (32 - n) = 0.
Proof.
  intros Ha Hb Hc Hd Hn. unfold network_of. split; [|by apply Z.mod_mul; lia].
  set (v := _ + d). assert (0 ≤ v < 2 ^ 32) by (unfold v, is_byte in *; pow_lia).
  pose proof (Z.div_mod v (2 ^ (32 - n)) ltac:(lia)).
  pose proof (Z.mod_pos_bound v (2 ^ (32 - n)) ltac:(lia)).
  pose proof (Z.div_pos v (2 ^ (32 - n))). nia.
Qed.

Lemma NewIPAM_cidr a b c d n :
  is_byte a → is_byte b → is_byte c → is_byte d → 0 ≤ n ≤ 32 →
  let base := network_of a b c d n in
  NewIPAM (cidr a b c d n) =
  Ok (mkIPAM (net4 base (32 - n)) ∅ (inc (inc (addr_bytes base)))).
Proof.
  intros Ha Hb Hc Hd Hn. cbv zeta. unfold NewIPAM, ParseCIDR, cidr.
  rewrite Cut_app by by apply dotted_no_byte. cbn [mbind option_bind].
  rewrite ParseAddr_dotted by done. cbn [mbind option_bind].
  rewrite Itoa_digits by lia. cbn [mbind option_bind length Nat.mul Nat.add].
  rewrite decide_False by lia. cbv zeta.
  rewrite CIDRMask_net4 by done.
  assert (and_mask [a; b; c; d] (addr_bytes (2 ^ 32 - 2 ^ (32 - n))) =
          addr_bytes (network_of a b c d n)) as E.
  { erewrite (addr_bytes_eq a b c d) by done.
    assert (0 ≤ a * 2 ^ 24 + b * 2 ^ 16 + c * 2 ^ 8 + d < 2 ^ 32) by (unfold is_byte in *; pow_lia).
    rewrite land_bytes, land_high by (done || lia || apply mask_range; lia). done. }
  by rewrite E.
Qed.

Lemma net_ok_network a b c d n :
  is_byte a → is_byte b → is_byte c → is_byte d → 0 ≤ n ≤ 30 →
  net_ok (network_of a b c d n) (32 - n).
Proof. intros. destruct (network_of_range a b c d n); [done..|lia|]. split; [lia|done|done]. Qed.

Lemma NewIPAM_represents a b c d n i :
  is_byte a → is_byte b → is_byte c → is_byte d → 0 ≤ n ≤ 30 →
  NewIPAM (cidr a b c d n) = Ok i →
  represents (network_of a b c d n) (32 - n) i (mkAlloc (lo (network_of a b c d n)) ∅).
Proof.
  intros Ha Hb Hc Hd Hn. rewrite NewIPAM_cidr by (done || lia). intros ?. simplify_eq.
  pose proof (net_ok_network a b c d n Ha Hb Hc Hd Hn) as Hok.
  set (base := network_of a b c d n) in *. pose proof (pow_k base _ Hok) as [Hp _].
  destruct (in_net base _ Hok (base + 1)) as (H1 & _); [lia|].
  destruct (in_net base _ Hok (base + 2)) as (H2 & _); [lia|].
  destruct Hok as [_ Hb0 _].
  split; simpl; [done| |set_solver|].
  - split; [unfold usable, lo, hi; lia|].
    rewrite !inc_bytes, !Z.mod_small by (rewrite ?Z.mod_small; lia). unfold lo. f_equal. lia.
  - intros s v. rewrite lookup_empty. set_solver.
Qed.

(** ** Lemmas: histories *)

Section history.
Context (base k : Z) (Hok : net_ok base k).

Lemma ip_step_inv s s' : ip_step s s' → history_inv base k s → history_inv base k s'.
Proof using Hok.
  intros Hstep (a & Hrep & HL). destruct Hstep as [i i' s L HA|i i' e L HA|i s L L' Hs]; simpl in *.
  - destruct (Acquire_spec base k Hok i a Hrep) as (r & i2 & a' & HA' & Hacq & Hrep').
    rewrite HA in HA'. simplify_eq. exists a'. split; [done|].
    destruct Hacq as [a j Hj Hfree Hfirst|]; simplify_eq/=.
    by rewrite HL, elements_union_singleton.
  - destruct (Acquire_spec base k Hok i a Hrep) as (r & i2 & a' & HA' & Hacq & Hrep').
    rewrite HA in HA'. simplify_eq. exists a'. split; [done|]. by destruct Hacq; simplify_eq/=.
  - assert (s ∈ addr_string <$> elements (taken a)) as (v & -> & Hv)%list_elem_of_fmap.
    { rewrite <-HL, Hs. by left. }
    apply elem_of_elements in Hv.
    exists (mkAlloc (rotor a) (taken a ∖ {[v]})). split.
    { apply Release_spec; [done..|]. by apply (rep_taken _ _ _ _ Hrep). }
    simpl. apply (Permutation_cons_inv (a := addr_string v)). rewrite <-Hs, HL.
    rewrite (union_difference_singleton_L v (taken a)) at 1 by done.
    by rewrite elements_union_singleton by set_solver.
Qed.

Lemma history_exclusive i L :
  history_inv base k (i, L) →
  NoDup L ∧ ∀ s, s ∈ L → ∃ v, s = addr_string v ∧ usable base k v.
Proof using Hok.
  intros (a & Hrep & HL). simpl in *. pose proof (rep_taken _ _ _ _ Hrep) as Ht. split.
  - rewrite HL. apply NoDup_fmap_2_strong; [|apply NoDup_elements].
    intros v w Hv%elem_of_elements Hw%elem_of_elements. apply addr_string_inj; by eapply usable_32, Ht.
  - intros s. rewrite HL, list_elem_of_fmap. intros (v & -> & Hv%elem_of_elements). eauto.
Qed.

Lemma history_full i L :
  history_inv base k (i, L) →
  ∃ r i', Acquire i = Some (r, i') ∧ (is_ok r = false ↔ Z.of_nat (length L) = count k).
Proof using Hok.
  intros (a & Hrep & HL). simpl in *. pose proof (rep_taken _ _ _ _ Hrep) as Ht.
  destruct (Acquire_spec base k Hok i a Hrep) as (r & i' & a' & HA & Hacq & _).
  exists (printed r), i'. split; [done|].
  rewrite HL, length_fmap. change (length (elements (taken a))) with (size (taken a)).
  pose proof (count_pos base k Hok).
  set (U := list_to_set (seqZ (lo base) (count k)) : gset Z).
  assert (∀ w, w ∈ U ↔ usable base k w) as HU.
  { intros w. unfold U. rewrite elem_of_list_to_set, elem_of_seqZ.
    unfold usable, lo, hi, count. lia. }
  assert (Z.of_nat (size U) = count k) as HsU.
  { unfold U. rewrite size_list_to_set by apply NoDup_seqZ. rewrite length_seqZ. lia. }
  assert (taken a ⊆ U) as Hsub by (intros w Hw; by apply HU, Ht).
  destruct Hacq as [a j Hj Hfree _|a Hfull]; simpl.
  - split; [done|]. intros Hsz. destruct Hfree.
    rewrite (set_subseteq_size_eq (taken a) U) by (done || lia).
    by apply HU, nth_from_usable.
  - split; [intros _|done]. assert (U ⊆ taken a) by (intros w Hw; by apply Hfull, HU).
    apply subseteq_size in Hsub. apply (subseteq_size U) in H0. lia.
Qed.

End history.

(** ** Properties *)

(** [C36] [Acquire] and [Release] implement the abstract allocator, for every IPv4
    subnet with room for two hosts: an acquisition terminates (the fuel is never
    exhausted), takes the first free address in the rotor's cyclic order and moves the
    rotor past it, is refused exactly when every usable address is taken and then
    changes nothing; a release frees the address. *)
Theorem ipam_refines base k i a :
  net_ok base k → represents base k i a →
  (∃ r i' a',
    Acquire i = Some (printed r, i') ∧ alloc_acquire base k a r a' ∧ represents base k i' a') ∧
  (∀ v, usable base k v →
    represents base k (Release i (addr_string v)) (mkAlloc (rotor a) (taken a ∖ {[v]}))).
Proof. intros Hok Hrep. split; [by apply Acquire_spec|intros; by apply Release_spec]. Qed.

Lemma ipam_refines_witness :
  ∃ r i' a', Acquire default_ipam = Some (printed r, i') ∧
    alloc_acquire (network_of 10 200 0 0 16) 16
      (mkAlloc (lo (network_of 10 200 0 0 16)) ∅) r a' ∧
    represents (network_of 10 200 0 0 16) 16 i' a'.
Proof.
  refine (proj1 (ipam_refines (network_of 10 200 0 0 16) 16 default_ipam _ _ _)).
  - apply (net_ok_network 10 200 0 0 16); vm_compute; split; congruence.
  - apply (NewIPAM_represents 10 200 0 0 16); [vm_compute; split; congruence..|].
    vm_compute. reflexivity.
Defined.

(** In every history of acquisitions and releases of an allocator made for a
    subnet [a.b.c.d/n] with [n <= 30], no two guests hold the same address, every
    address held is one of the subnet's that is neither the network address, nor the
    gateway after it, nor the broadcast address, and the next acquisition is refused
    exactly when all [2^(32-n) - 3] of them are held. *)
Theorem ip_exclusive a b c d n i0 i L :
  is_byte a → is_byte b → is_byte c → is_byte d → 0 ≤ n ≤ 30 →
  NewIPAM (cidr a b c d n) = Ok i0 → rtc ip_step (i0, []) (i, L) →
  NoDup L ∧
  (∀ s, s ∈ L → ∃ v, s = addr_string v ∧
    network_of a b c d n + 1 < v < network_of a b c d n + 2 ^ (32 - n) - 1) ∧
  ∃ r i', Acquire i = Some (r, i') ∧
    (is_ok r = false ↔ Z.of_nat (length L) = 2 ^ (32 - n) - 3).
Proof.
  intros Ha Hb Hc Hd Hn Hnew Hrtc.
  pose proof (net_ok_network a b c d n Ha Hb Hc Hd Hn) as Hok.
  assert (history_inv (network_of a b c d n) (32 - n) (i, L)) as Hinv.
  { eapply (invariant_rtc ip_step _ (i0, [])); [|exact Hrtc|].
    - intros s1 s2. by apply ip_step_inv.
    - eexists. split; [by eapply NewIPAM_represents|done]. }
  destruct (history_exclusive _ _ Hok _ _ Hinv) as [Hnd Hus]. split_and!; [done| |].
  - intros s (v & -> & Hv)%Hus. exists v. split; [done|]. unfold usable, lo, hi in Hv. lia.
  - by apply (history_full _ _ Hok).
Qed.

Lemma ip_exclusive_witness :
  NoDup ["10.200.0.2"] ∧
  (∀ s, s ∈ ["10.200.0.2"] → ∃ v, s = addr_string v ∧
    network_of 10 200 0 0 16 + 1 < v < network_of 10 200 0 0 16 + 2 ^ (32 - 16) - 1) ∧
  ∃ r i', Acquire default_ipam' = Some (r, i') ∧
    (is_ok r = false ↔ Z.of_nat (length ["10.200.0.2"]) = 2 ^ (32 - 16) - 3).
Proof.
  refine (ip_exclusive 10 200 0 0 16 default_ipam default_ipam' ["10.200.0.2"] _ _ _ _ _ _ _).
  1-5: vm_compute; split; congruence.
  - vm_compute. reflexivity.
  - eapply rtc_l; [|apply rtc_refl]. apply ip_acquired. vm_compute. reflexivity.
Defined.

(** For a subnet of one or two addresses ([/31] and [/32]) the allocator hands
    out, as its first guest address, an address that is outside the subnet. *)
Theorem tiny_subnet_outside a b c d n :
  is_byte a → is_byte b → is_byte c → is_byte d → 31 ≤ n ≤ 32 →
  ∃ i i' s, NewIPAM (cidr a b c d n) = Ok i ∧ Acquire i = Some (Ok s, i') ∧
    s = IP_String (nextIP i) ∧ Contains (subnet i) (nextIP i) = false.
Proof.
  intros Ha Hb Hc Hd Hn. destruct (network_of_range a b c d n) as [Hr Hm]; [done..|lia|].
  rewrite NewIPAM_cidr by (done || lia). set (base := network_of a b c d n) in *.
  eexists _, _, _. split; [done|]. split; [unfold Acquire; cbn [usedIPs]; rewrite map_size_empty; reflexivity|].
  split; [done|]. cbn [subnet nextIP]. rewrite inc_bytes by done.
  assert (0 ≤ (base + 1) `mod` 2 ^ 32 < 2 ^ 32) by (by apply Z.mod_pos_bound).
  rewrite inc_bytes, Zplus_mod_idemp_l by done.
  rewrite Contains_net4 by (lia || by apply Z.mod_pos_bound).
  apply bool_decide_eq_false.
  assert (n = 31 ∨ n = 32) as [-> | ->] by lia.
  all: unfold base, network_of in *; pow_lia.
Qed.

Lemma tiny_subnet_outside_witness :
  ∃ i i' s, NewIPAM (cidr 10 0 0 4 31) = Ok i ∧ Acquire i = Some (Ok s, i') ∧
    s = IP_String (nextIP i) ∧ Contains (subnet i) (nextIP i) = false.
Proof. refine (tiny_subnet_outside 10 0 0 4 31 _ _ _ _ _); vm_compute; split; congruence. Defined.

End Ipam.
