(* ===== verification/PortMgr.v ===== *)
(** * Host ports ([internal/network/portmgr.go])

    The manager maps a port to the VM that holds it.  Whether the host lets a socket
    be bound is the operating system's answer, the interface [Host]; a call sees one
    host, and the host may differ from call to call.  The ephemeral scan is the code's
    [for] loop on a 64-bit counter, run with one unit of fuel per port of the range
    and one more; [Allocate_spec] shows that this suffices. *)
From stdpp Require Import options.
From S2P Require Import Prelude GoStrings.
#[local] Open Scope Z_scope.

(** What [net.Listen]/[net.ListenPacket] answer: [can_bind network address]. *)
Class Host := { can_bind : string → string → bool }.

Module PortMgr.

Inductive error :=
  | ErrNoEphemeral (start end_ : Z)
  | ErrInUse (port : Z) (owner : string)
  | ErrHostBusy (port : Z).

#[export] Instance error_eq_dec : EqDecision error.
Proof. solve_decision. Defined.

Record PortManager := mkPortManager {
  inUse : gmap Z string;
  ephemeralStart : Z;
  ephemeralEnd : Z
}.

Definition NewPortManager (start end_ : Z) : PortManager :=
  {| inUse := ∅; ephemeralStart := start; ephemeralEnd := end_ |}.

Definition claim (pm : PortManager) (p : Z) (vmID : string) : PortManager :=
  {| inUse := <[p := vmID]> (inUse pm);
     ephemeralStart := ephemeralStart pm; ephemeralEnd := ephemeralEnd pm |}.

Definition bind_addr (port : Z) (iface : string) : string :=
  let host := if decide (iface ≠ "" ∧ iface ≠ "0.0.0.0") then iface else "0.0.0.0" in
  host +:+ ":" +:+ Itoa port.

Definition isHostPortFree `{Host} (protocol : string) (port : Z) (iface : string) : bool :=
  if decide (protocol = "udp") then can_bind "udp" (bind_addr port iface)
  else can_bind "tcp" (bind_addr port iface).

(** [for p := start; p <= end; p++]; [None] when the fuel runs out. *)
Fixpoint scan `{Host} (fuel : nat) (p : Z) (protocol vmID : string) (pm : PortManager)
    : option (result error Z * PortManager) :=
  match fuel with
  | O => None
  | S fuel =>
      if decide (ephemeralEnd pm < p) then
        Some (Err (ErrNoEphemeral (ephemeralStart pm) (ephemeralEnd pm)), pm)
      else
        match inUse pm !! p with
        | None =>
            if isHostPortFree protocol p "" then Some (Ok p, claim pm p vmID)
            else scan fuel (wrap64 (p + 1)) protocol vmID pm
        | Some _ => scan fuel (wrap64 (p + 1)) protocol vmID pm
        end
  end.

Definition scan_fuel (pm : PortManager) : nat :=
  S (Z.to_nat (ephemeralEnd pm + 1 - ephemeralStart pm)).

Definition Allocate `{Host} (pm : PortManager) (requestedPort : Z) (protocol iface vmID : string)
    : option (result error Z * PortManager) :=
  if decide (requestedPort = 0) then
    scan (scan_fuel pm) (ephemeralStart pm) protocol vmID pm
  else
    match inUse pm !! requestedPort with
    | Some owner =>
        if decide (owner = vmID) then Some (Ok requestedPort, pm)
        else Some (Err (ErrInUse requestedPort owner), pm)
    | None =>
        if negb (isHostPortFree protocol requestedPort iface) then
          Some (Err (ErrHostBusy requestedPort), pm)
        else Some (Ok requestedPort, claim pm requestedPort vmID)
    end.

Definition Release (pm : PortManager) (port : Z) : PortManager :=
  {| inUse := delete port (inUse pm);
     ephemeralStart := ephemeralStart pm; ephemeralEnd := ephemeralEnd pm |}.

(** ** The contract of one allocation *)

(** A port the scan may hand out. *)
Definition available `{Host} (pm : PortManager) (protocol : string) (p : Z) : Prop :=
  inUse pm !! p = None ∧ isHostPortFree protocol p "" = true.

Inductive allocates `{Host} (pm : PortManager) (protocol iface vmID : string)
    : Z → result error Z → PortManager → Prop :=
  | alloc_least p :
      ephemeralStart pm ≤ p ≤ ephemeralEnd pm →
      available pm protocol p →
      (∀ q, ephemeralStart pm ≤ q < p → ¬ available pm protocol q) →
      allocates pm protocol iface vmID 0 (Ok p) (claim pm p vmID)
  | alloc_none :
      (∀ q, ephemeralStart pm ≤ q ≤ ephemeralEnd pm → ¬ available pm protocol q) →
      allocates pm protocol iface vmID 0
        (Err (ErrNoEphemeral (ephemeralStart pm) (ephemeralEnd pm))) pm
  | alloc_again p :
      p ≠ 0 → inUse pm !! p = Some vmID →
      allocates pm protocol iface vmID p (Ok p) pm
  | alloc_taken p owner :
      p ≠ 0 → inUse pm !! p = Some owner → owner ≠ vmID →
      allocates pm protocol iface vmID p (Err (ErrInUse p owner)) pm
  | alloc_busy p :
      p ≠ 0 → inUse pm !! p = None → isHostPortFree protocol p iface = false →
      allocates pm protocol iface vmID p (Err (ErrHostBusy p)) pm
  | alloc_explicit p :
      p ≠ 0 → inUse pm !! p = None → isHostPortFree protocol p iface = true →
      allocates pm protocol iface vmID p (Ok p) (claim pm p vmID).

(** ** Histories with the grants that are out

    A grant is a port and the VM it was granted to, once for each time that it was.  [Release]
    asks nothing: any port may be given back, by anyone, any number of times, and [Close]
    gives back a port once for each of its mappings. *)

Inductive port_event :=
  | Granted (p : Z) (vm : string)
  | Refused
  | Released (p : Z) (vm : string).

Fixpoint give_back (g : Z * string) (G : list (Z * string)) : list (Z * string) :=
  match G with [] => [] | x :: G => if decide (x = g) then G else x :: give_back g G end.

Inductive port_step : PortManager * list (Z * string) → port_event → PortManager * list (Z * string) → Prop :=
  | port_granted (host : Host) pm pm' req protocol iface vm p G :
      Allocate pm req protocol iface vm = Some (Ok p, pm') →
      port_step (pm, G) (Granted p vm) (pm', (p, vm) :: G)
  | port_refused (host : Host) pm pm' req protocol iface vm e G :
      Allocate pm req protocol iface vm = Some (Err e, pm') →
      port_step (pm, G) Refused (pm', G)
  | port_released pm p vm G :
      port_step (pm, G) (Released p vm) (Release pm p, give_back (p, vm) G).

Definition any_step (s s' : PortManager * list (Z * string)) : Prop := ∃ ev, port_step s ev s'.

(** A VM that maps no port twice, and gives back what it holds. *)
Definition careful_step (s s' : PortManager * list (Z * string)) : Prop :=
  ∃ ev, port_step s ev s' ∧
    match ev with Granted p vm => (p, vm) ∉ s.2 | Refused => True | Released p vm => (p, vm) ∈ s.2 end.

(** The manager's map is exactly the grants that are out. *)
Definition grants_ok (pm : PortManager) (G : list (Z * string)) : Prop :=
  ∀ p vm, inUse pm !! p = Some vm ↔ (p, vm) ∈ G.

Definition grants_inv (start end_ : Z) (s : PortManager * list (Z * string)) : Prop :=
  ephemeralStart s.1 = start ∧ ephemeralEnd s.1 = end_ ∧ grants_ok s.1 s.2 ∧ NoDup s.2.

(** A host where everything can be bound but TCP port 30000, and a manager for the
    daemon's ephemeral range with that port's successor taken. *)
Definition demo_host : Host :=
  {| can_bind network addr := bool_decide (¬ (network = "tcp" ∧ addr = "0.0.0.0:30000")) |}.

Definition demo_pm : PortManager :=
  {| inUse := {[30001 := "vm-a"]}; ephemeralStart := 30000; ephemeralEnd := 40000 |}.

(** ** Lemmas *)

Section allocate.
Context `{Host}.

Lemma scan_spec pm protocol iface vmID fuel p :
  in_int64 (ephemeralStart pm) → ephemeralEnd pm < int64_max →
  ephemeralStart pm ≤ p →
  (p ≤ ephemeralEnd pm + 1 ∨ p = ephemeralStart pm) →
  (∀ q, ephemeralStart pm ≤ q < p → ¬ available pm protocol q) →
  ephemeralEnd pm + 1 - p < Z.of_nat fuel →
  (1 ≤ fuel)%nat →
  ∃ r pm', scan fuel p protocol vmID pm = Some (r, pm') ∧
    allocates pm protocol iface vmID 0 r pm'.
Proof.
  intros Hs He. revert p. induction fuel as [|fuel IH]; [lia|]. intros p Hp Hle Hno Hf _.
  simpl. case_decide as Hend.
  { eexists _, _. split; [done|]. apply alloc_none. intros q Hq. apply Hno. lia. }
  assert (¬ available pm protocol p → ∃ r pm', scan fuel (wrap64 (p + 1)) protocol vmID pm = Some (r, pm') ∧
    allocates pm protocol iface vmID 0 r pm') as Hnext.
  { intros Hp'. rewrite wrap64_id by int_lia. apply IH; [lia|lia| |lia|lia].
    intros q Hq. destruct (decide (q = p)) as [->|]; [done|]. apply Hno. lia. }
  unfold available in Hnext. destruct (inUse pm !! p) as [o|] eqn:E; [by apply Hnext; intros [? _]|].
  destruct (isHostPortFree protocol p "") eqn:Ef; [|by apply Hnext; intros [_ ?]].
  eexists _, _. split; [done|]. apply alloc_least; [lia|done|done].
Qed.

Lemma Allocate_spec pm req protocol iface vmID :
  in_int64 (ephemeralStart pm) → ephemeralEnd pm < int64_max →
  ∃ r pm', Allocate pm req protocol iface vmID = Some (r, pm') ∧
    allocates pm protocol iface vmID req r pm'.
Proof.
  intros Hs He. unfold Allocate. case_decide as Hr; [subst|].
  - apply scan_spec; [done..|lia|by right|intros; lia|unfold scan_fuel; lia|unfold scan_fuel; lia].
  - destruct (inUse pm !! req) as [owner|] eqn:E; [case_decide; subst|destruct (isHostPortFree _ _ _) eqn:Ef];
      (eexists _, _; split; [done|]); by econstructor.
Qed.

Lemma allocates_det pm protocol iface vmID req r1 pm1 r2 pm2 :
  allocates pm protocol iface vmID req r1 pm1 → allocates pm protocol iface vmID req r2 pm2 →
  r1 = r2 ∧ pm1 = pm2.
Proof.
  intros H1 H2. inversion H1 as [p Hp Ha Hl|Hn| | | |]; inversion H2 as [q Hq Ha' Hl'|Hn'| | | |];
    subst; simplify_eq; try done; try congruence; try (by exfalso; naive_solver).
  destruct (Z.lt_trichotomy p q) as [|[->|]]; [|done|]; exfalso;
    [eapply (Hl' p)|eapply (Hl q)]; eauto; lia.
Qed.

End allocate.

Lemma grants_claim pm p vm G :
  inUse pm !! p = None → grants_ok pm G → grants_ok (claim pm p vm) ((p, vm) :: G).
Proof.
  intros Hp HG q v. simpl. rewrite lookup_insert_Some, elem_of_cons, <-(HG q v).
  destruct (decide (p = q)); naive_solver.
Qed.

Lemma give_back_held g G : g ∈ G → G ≡ₚ g :: give_back g G.
Proof.
  induction G as [|x G IH]; [by intros ?%not_elem_of_nil|]. intros Hin. cbn [give_back]. case_decide as Hx; [by subst|].
  apply elem_of_cons in Hin as [?|Hin]; [congruence|]. rewrite (IH Hin) at 1. apply Permutation_swap.
Qed.

Lemma grants_inv_step start end_ s s' :
  in_int64 start → end_ < int64_max →
  careful_step s s' → grants_inv start end_ s → grants_inv start end_ s'.
Proof.
  intros Hs He (ev & Hstep & Hc) (E1 & E2 & HG & Hnd).
  destruct Hstep as [host pm pm' req pr iface vm p G HA|host pm pm' req pr iface vm e G HA|pm p vm G]; simpl in *.
  - destruct (Allocate_spec pm req pr iface vm) as (r & pm2 & HA' & Hspec); [congruence..|].
    rewrite HA in HA'. simplify_eq. assert (NoDup ((p, vm) :: G)) by by constructor.
    inversion Hspec; simplify_eq/=; try (by destruct Hc; apply HG); unfold available in *; split_and!; try done;
      apply grants_claim; naive_solver.
  - destruct (Allocate_spec pm req pr iface vm) as (r & pm2 & HA' & Hspec); [congruence..|].
    rewrite HA in HA'. simplify_eq. by inversion Hspec; simplify_eq/=.
  - pose proof (give_back_held (p, vm) G Hc) as EG. rewrite EG in Hnd. apply NoDup_cons in Hnd as [Hno Hnd].
    split_and!; [done..| |done]. intros q v. simpl. rewrite lookup_delete_Some, (HG q v). split.
    + intros [Hne Hin]. rewrite EG in Hin. apply elem_of_cons in Hin as [?|?]; [congruence|done].
    + intros Hin. assert ((q, v) ∈ G) as HqG by (rewrite EG; by right). split; [|done]. intros ->.
      apply HG in HqG, Hc. simplify_eq. done.
Qed.

(** ** Properties *)

(** Every allocation terminates and does what the contract says, and only that:
    with request 0 it claims the least port of the ephemeral range that no VM holds and
    that the host can bind on all interfaces, and fails only when there is none; an
    explicit port is confirmed to the VM that already holds it, refused to any other,
    and otherwise claimed exactly when the host can bind it on the requested interface;
    a refusal changes nothing. *)
Theorem allocate_correct `{Host} pm req protocol iface vmID :
  in_int64 (ephemeralStart pm) → ephemeralEnd pm < int64_max →
  ∃ r pm', Allocate pm req protocol iface vmID = Some (r, pm') ∧
    allocates pm protocol iface vmID req r pm' ∧
    ∀ r2 pm2, allocates pm protocol iface vmID req r2 pm2 → r2 = r ∧ pm2 = pm'.
Proof.
  intros Hs He. destruct (Allocate_spec pm req protocol iface vmID Hs He) as (r & pm' & HA & Hspec).
  exists r, pm'. split_and!; [done..|]. intros r2 pm2 H2. by eapply allocates_det.
Qed.

Lemma allocate_correct_witness :
  @Allocate demo_host demo_pm 0 "tcp" "" "vm-b" =
    Some (Ok 30002, claim demo_pm 30002 "vm-b") ∧
  ∃ r pm', @Allocate demo_host demo_pm 0 "tcp" "" "vm-b" = Some (r, pm') ∧
    @allocates demo_host demo_pm "tcp" "" "vm-b" 0 r pm' ∧
    ∀ r2 pm2, @allocates demo_host demo_pm "tcp" "" "vm-b" 0 r2 pm2 → r2 = r ∧ pm2 = pm'.
Proof.
  split; [vm_compute; reflexivity|].
  refine (@allocate_correct demo_host demo_pm 0 "tcp" "" "vm-b" _ _);
    [vm_compute; split; congruence|vm_compute; reflexivity].
Defined.

(** [C37] In every history, on whatever hosts, in which a VM is granted a port at most once
    before it gives it back and only gives back ports that it holds, no port is granted to two
    VMs at once, whatever the protocols and interfaces they asked for, and the manager's map
    is exactly the set of grants that are out.  Without that it is not so: a VM that maps one
    port for TCP and for UDP gives it back twice ([second_release_breaks_isolation]). *)
Theorem port_isolation start end_ pm G :
  in_int64 start → end_ < int64_max →
  rtc careful_step (NewPortManager start end_, []) (pm, G) →
  NoDup G ∧ (∀ p vm vm', (p, vm) ∈ G → (p, vm') ∈ G → vm = vm') ∧
  (∀ p vm, inUse pm !! p = Some vm ↔ (p, vm) ∈ G).
Proof.
  intros Hs He Hrtc.
  destruct (invariant_rtc careful_step (grants_inv start end_) _ _ (λ s1 s2, grants_inv_step _ _ s1 s2 Hs He) Hrtc)
    as (_ & _ & HG & Hnd).
  { split_and!; [done..| |constructor]. intros p vm. simpl. rewrite lookup_empty. by split; [|intros ?%not_elem_of_nil]. }
  simpl in HG. split_and!; [done| |done]. intros p vm vm' H1%HG H2%HG. by simplify_eq.
Qed.

Lemma port_isolation_witness :
  NoDup [(30001, "vm-a")] ∧
  (∀ p vm vm', (p, vm) ∈ [(30001, "vm-a")] → (p, vm') ∈ [(30001, "vm-a")] → vm = vm') ∧
  (∀ p vm, inUse demo_pm !! p = Some vm ↔ (p, vm) ∈ [(30001, "vm-a")]).
Proof.
  refine (port_isolation 30000 40000 demo_pm [(30001, "vm-a")] _ _ _).
  - vm_compute; split; congruence.
  - vm_compute. reflexivity.
  - eapply rtc_l; [|apply rtc_refl]. exists (Granted 30001 "vm-a"). split; [|by intros ?%not_elem_of_nil].
    apply (port_granted demo_host _ _ 30001 "udp" "eth0"). vm_compute. reflexivity.
Defined.

(** One VM maps port 8080 for TCP and for UDP.  When it is closed it gives the port back for
    the first mapping; another VM takes it; the port is given back for the second mapping, and
    a third VM is granted what the second one holds. *)
Lemma second_release_breaks_isolation :
  ∃ pm G, rtc any_step (NewPortManager 30000 40000, []) (pm, G) ∧ (8080, "vm-b") ∈ G ∧ (8080, "vm-c") ∈ G.
Proof.
  assert (∀ s ev s1 s2, port_step s ev s1 → rtc any_step s1 s2 → rtc any_step s s2) as Hl
    by (intros s ev s1 s2 H1 H2; eapply rtc_l; [by exists ev|done]).
  eexists _, _. split; [|split; [right; by left|by left]].
  eapply Hl. { eapply (port_granted demo_host _ _ 8080 "tcp" "" "vm-a"). vm_compute. reflexivity. }
  eapply Hl. { eapply (port_granted demo_host _ _ 8080 "udp" "" "vm-a"). vm_compute. reflexivity. }
  eapply Hl; [eapply (port_released _ 8080 "vm-a")|].
  eapply Hl. { eapply (port_granted demo_host _ _ 8080 "tcp" "" "vm-b"). vm_compute. reflexivity. }
  eapply Hl; [eapply (port_released _ 8080 "vm-a")|].
  eapply Hl. { eapply (port_granted demo_host _ _ 8080 "tcp" "" "vm-c"). vm_compute. reflexivity. }
  apply rtc_refl.
Qed.

End PortMgr.
