(* ===== verification/Binding.v ===== *)
(** * Port bindings ([internal/network/utils.go])

    [SanitizeNetworkBindings] reads a binding text [[[ip:]host:]guest[/proto]] from the
    right, field by field, into a binding that starts with the defaults; on an error it
    returns the binding read so far with the error, as the code does. *)
From stdpp Require Import options.
From S2P Require Import Prelude GoStrings GoNet.
#[local] Open Scope Z_scope.

Module Binding.

Record PortBinding := mkPortBinding {
  IP : Addr;
  HostPort : Z;
  GuestPort : Z;
  Protocol : string
}.

Inductive error :=
  | ErrSlashes
  | ErrProtocol
  | ErrColons
  | ErrGuestPort
  | ErrHostPort
  | ErrInterfaceIP.

Definition default_binding : PortBinding :=
  {| IP := V4 [0; 0; 0; 0]; HostPort := 0; GuestPort := 0; Protocol := "tcp" |}.

Definition Is4 (a : Addr) : bool := match a with V4 _ => true | V6 _ _ => false end.

(** One round of the loop over the reversed fields: field [i] is [part]. *)
Definition parse_field (i : Z) (part : string) (output : PortBinding)
    : PortBinding * option error :=
  if decide (i = 0) then
    match ParseUint part 16 with
    | Err _ => (output, Some ErrGuestPort)
    | Ok guestPort =>
        if 65535 <? guestPort then (output, Some ErrGuestPort) else
        ({| IP := IP output; HostPort := HostPort output; GuestPort := guestPort;
            Protocol := Protocol output |}, None)
    end
  else if decide (i = 1) then
    if decide (part = "") then (output, None) else
    match ParseUint part 16 with
    | Err _ => (output, Some ErrHostPort)
    | Ok hostPort =>
        if 65535 <? hostPort then (output, Some ErrHostPort) else
        ({| IP := IP output; HostPort := hostPort; GuestPort := GuestPort output;
            Protocol := Protocol output |}, None)
    end
  else if decide (i = 2) then
    if decide (part = "") then (output, None) else
    match ParseAddr part with
    | None => (output, Some ErrInterfaceIP)
    | Some ipv4Addr =>
        if negb (Is4 ipv4Addr) then (output, Some ErrInterfaceIP) else
        ({| IP := ipv4Addr; HostPort := HostPort output; GuestPort := GuestPort output;
            Protocol := Protocol output |}, None)
    end
  else (output, None).

Fixpoint parse_fields (i : Z) (parts : list string) (output : PortBinding)
    : PortBinding * option error :=
  match parts with
  | [] => (output, None)
  | part :: parts =>
      match parse_field i part output with
      | (output, Some e) => (output, Some e)
      | (output, None) => parse_fields (i + 1) parts output
      end
  end.

Definition SanitizeNetworkBindings (input : string) : PortBinding * option error :=
  let output := default_binding in
  let input := ToLower input in
  let continue input output :=
    let colon_parts := Split ":" input in
    if decide (3 < length colon_parts ∨ length colon_parts = 0)%nat then
      (output, Some ErrColons)
    else parse_fields 0 (reverse colon_parts) output in
  match Split "/" input with
  | [p0; p1] =>
      if decide (p1 ∈ ["tcp"; "udp"]) then
        continue p0 {| IP := IP output; HostPort := HostPort output;
                       GuestPort := GuestPort output; Protocol := p1 |}
      else (output, Some ErrProtocol)
  | parts =>
      if decide (2 < length parts)%nat then (output, Some ErrSlashes)
      else continue input output
  end.

(** ** The address of an interface

    An interface's addresses are [*net.IPNet] or [*net.IPAddr] values, or of a type the
    switch does not know (which leaves [ip] nil).  The operating system is a parameter:
    looking an interface up and listing its addresses may fail. *)

Inductive net_addr :=
  | NetIPNet (ip : list Z)
  | NetIPAddr (ip : list Z)
  | NetOther.

Inductive iface_error (E : Type) :=
  | ErrInterfaceByName (e : E)
  | ErrAddrs (e : E)
  | ErrNoSuitable.
Arguments ErrInterfaceByName {E} e.
Arguments ErrAddrs {E} e.
Arguments ErrNoSuitable {E}.

Fixpoint first_ipv4 {E} (addrs : list net_addr) : result (iface_error E) string :=
  match addrs with
  | [] => Err ErrNoSuitable
  | addr :: addrs =>
      let ip := match addr with NetIPNet ip => ip | NetIPAddr ip => ip | NetOther => [] end in
      if decide (ip = []) then first_ipv4 addrs
      else if IsLoopback ip then first_ipv4 addrs
      else match To4 ip with
           | None => first_ipv4 addrs
           | Some ip => Ok (IP_String ip)
           end
  end.

Definition GetInterfaceIP {E} (InterfaceByName : string → result E (result E (list net_addr)))
    (name : string) : result (iface_error E) string :=
  match InterfaceByName name with
  | Err e => Err (ErrInterfaceByName e)
  | Ok (Err e) => Err (ErrAddrs e)
  | Ok (Ok addrs) => first_ipv4 addrs
  end.

(** ** The grammar of a binding *)

Definition port_text (s : string) (v : Z) : Prop := digits_value s = Some v ∧ v ≤ 65535.

Definition host_text (s : string) (v : Z) : Prop := s = "" ∧ v = 0 ∨ port_text s v.

Definition ip_text (s : string) (a : Addr) : Prop :=
  s = "" ∧ a = V4 [0; 0; 0; 0] ∨ ∃ b, a = V4 b ∧ ParseAddr s = Some a.

(** [[[ip:]host:]guest] *)
Inductive address_text : string → Addr → Z → Z → Prop :=
  | text_guest g gp :
      port_text g gp → address_text g (V4 [0; 0; 0; 0]) 0 gp
  | text_host h hp g gp :
      host_text h hp → port_text g gp →
      address_text (h +:+ String ":" g) (V4 [0; 0; 0; 0]) hp gp
  | text_ip i a h hp g gp :
      ip_text i a → host_text h hp → port_text g gp →
      address_text (i +:+ String ":" (h +:+ String ":" g)) a hp gp.

Inductive binding_text : string → PortBinding → Prop :=
  | text_default s a hp gp :
      address_text s a hp gp → binding_text s (mkPortBinding a hp gp "tcp")
  | text_protocol s a hp gp proto :
      address_text s a hp gp → proto ∈ ["tcp"; "udp"] →
      binding_text (s +:+ String "/" proto) (mkPortBinding a hp gp proto).

(** The full text of a binding with an IPv4 address. *)
Definition print_binding (a b c d host guest : Z) (proto : string) : string :=
  dotted a b c d +:+ String ":" (Itoa host +:+ String ":" (Itoa guest +:+ String "/" proto)).

(** ** Lemmas *)

Lemma ParseUint_port s v : ParseUint s 16 = Ok v ↔ port_text s v.
Proof. by rewrite ParseUint_spec by lia. Qed.

Lemma port_text_no_byte x s v : is_digit x = false → port_text s v → contains_byte x s = false.
Proof. intros Hx [Hv _]. by eapply digits_value_no_byte. Qed.

Lemma host_text_no_byte x s v : is_digit x = false → host_text s v → contains_byte x s = false.
Proof. intros Hx [[-> _]|H]; [done|by eapply port_text_no_byte]. Qed.

Lemma ip_text_no_byte x s a :
  is_digit x = false → x ≠ "."%char → ip_text s a → contains_byte x s = false.
Proof. intros Hx Hd [[-> _]|(b & -> & H)]; [done|]. by eapply ParseAddr_V4. Qed.

Lemma field0_ok part o o' :
  parse_field 0 part o = (o', None) ↔
  ∃ v, port_text part v ∧ o' = mkPortBinding (IP o) (HostPort o) v (Protocol o).
Proof.
  unfold parse_field. rewrite decide_True by done. destruct (ParseUint part 16) as [v|e] eqn:E.
  - apply ParseUint_port in E. destruct (Z.ltb_spec 65535 v); [destruct E; lia|].
    split; [intros; simplify_eq; eauto|]. intros (w & [Hw _] & ->). destruct E. by simplify_eq.
  - split; [done|]. intros (v & Hv%ParseUint_port & _). congruence.
Qed.

Lemma field1_ok part o o' :
  HostPort o = 0 →
  parse_field 1 part o = (o', None) ↔
  ∃ v, host_text part v ∧ o' = mkPortBinding (IP o) v (GuestPort o) (Protocol o).
Proof.
  intros Ho. unfold parse_field, host_text. rewrite decide_False, decide_True by done.
  case_decide as Hp; subst.
  { split.
    - intros; simplify_eq. exists 0. rewrite <-Ho. destruct o'. split; [by left|done].
    - intros (v & [[_ ->]|[Hv _]] & ->); [|done]. rewrite <-Ho. by destruct o. }
  destruct (ParseUint part 16) as [v|e] eqn:E.
  - apply ParseUint_port in E. destruct (Z.ltb_spec 65535 v); [destruct E; lia|].
    split; [intros; simplify_eq; eauto|]. intros (w & [[? _]|[Hw _]] & ->); [done|].
    destruct E. by simplify_eq.
  - split; [done|]. intros (v & [[? _]|Hv%ParseUint_port] & _); congruence.
Qed.

Lemma field2_ok part o o' :
  IP o = V4 [0; 0; 0; 0] →
  parse_field 2 part o = (o', None) ↔
  ∃ a, ip_text part a ∧ o' = mkPortBinding a (HostPort o) (GuestPort o) (Protocol o).
Proof.
  intros Ho. unfold parse_field, ip_text. rewrite !decide_False, decide_True by done.
  case_decide as Hp; subst.
  { split.
    - intros; simplify_eq. exists (IP o'). destruct o'. split; [by left|done].
    - intros (a & [[_ ->]|(b & -> & ?)] & ->); [|done]. rewrite <-Ho. by destruct o. }
  destruct (ParseAddr part) as [[b|b z]|] eqn:E; simpl; (split; [intros; simplify_eq; eauto 7|]);
    intros (a & [[? _]|(b' & -> & ?)] & ->); by simplify_eq.
Qed.

Lemma parse_fields_cons i part parts o b :
  parse_fields i (part :: parts) o = (b, None) ↔
  ∃ o', parse_field i part o = (o', None) ∧ parse_fields (i + 1) parts o' = (b, None).
Proof.
  simpl. destruct (parse_field i part o) as [o1 [e|]]; [|naive_solver].
  split; [done|]. by intros (o' & ? & _).
Qed.

Lemma parse_fields_nil i o b : parse_fields i [] o = (b, None) ↔ b = o.
Proof. simpl. naive_solver. Qed.

(** The fields of an address text, last first. *)
Lemma fields_text parts p b :
  (length parts ≤ 3)%nat → parts ≠ [] →
  parse_fields 0 (reverse parts) (mkPortBinding (V4 [0; 0; 0; 0]) 0 0 p) = (b, None) →
  ∃ a hp gp, address_text (Join ":" parts) a hp gp ∧ b = mkPortBinding a hp gp p.
Proof.
  intros Hl Hne. destruct parts as [|x [|y [|z [|]]]]; [done| | | |simpl in Hl; lia].
  - rewrite reverse_singleton, parse_fields_cons. intros (o & (v & Hv & ->)%field0_ok & ->%parse_fields_nil).
    simpl. eauto 8 using address_text.
  - change (reverse [x; y]) with [y; x]. rewrite parse_fields_cons. setoid_rewrite parse_fields_cons.
    intros (o & (v & Hv & ->)%field0_ok & o1 & (h & Hh & ->)%field1_ok & ->%parse_fields_nil); [|done].
    simpl. eauto 8 using address_text.
  - change (reverse [x; y; z]) with [z; y; x]. rewrite parse_fields_cons. do 2 setoid_rewrite parse_fields_cons.
    intros (o & (v & Hv & ->)%field0_ok & o1 & (h & Hh & ->)%field1_ok & o2 & (a & Ha & ->)%field2_ok
            & ->%parse_fields_nil); [|done..].
    simpl. eauto 8 using address_text.
Qed.

(** The pieces of an address text: at most three, none with a separator. *)
Lemma address_text_fields s a hp gp p :
  address_text s a hp gp →
  contains_byte "/" s = false ∧
  ∃ parts, Split ":" s = parts ∧ (1 ≤ length parts ≤ 3)%nat ∧
    parse_fields 0 (reverse parts) (mkPortBinding (V4 [0; 0; 0; 0]) 0 0 p) =
      (mkPortBinding a hp gp p, None).
Proof.
  assert (∀ x g gp, is_digit x = false → port_text g gp → contains_byte x g = false) as Hg
    by (intros; by eapply port_text_no_byte).
  assert (∀ x h hp, is_digit x = false → host_text h hp → contains_byte x h = false) as Hh
    by (intros; by eapply host_text_no_byte).
  assert (∀ x i a, is_digit x = false → x ≠ "."%char → ip_text i a → contains_byte x i = false) as Hi
    by (intros; by eapply ip_text_no_byte).
  destruct 1 as [g gp Hgp|h hp g gp Hhp Hgp|i a h hp g gp Hia Hhp Hgp].
  - split; [eauto|]. exists [g]. rewrite Split_one by eauto. split_and!; [done|simpl; lia..|].
    rewrite reverse_singleton, parse_fields_cons. eexists. rewrite field0_ok. eauto.
  - split; [rewrite contains_byte_app; simpl; by erewrite (Hh _ h), (Hg _ g) by eauto|].
    exists [h; g]. rewrite Split_app, Split_one by eauto. split_and!; [done|simpl; lia..|].
    change (reverse [h; g]) with [g; h]. rewrite parse_fields_cons. eexists. rewrite field0_ok.
    split; [by eauto|]. rewrite parse_fields_cons. eexists. rewrite field1_ok by done. eauto.
  - split.
    { rewrite contains_byte_app; simpl; rewrite contains_byte_app; simpl.
      by erewrite (Hi _ i), (Hh _ h), (Hg _ g) by eauto. }
    exists [i; h; g]. rewrite !Split_app, Split_one by eauto. split_and!; [done|simpl; lia..|].
    change (reverse [i; h; g]) with [g; h; i]. rewrite parse_fields_cons. eexists. rewrite field0_ok.
    split; [by eauto|]. rewrite parse_fields_cons. eexists. rewrite field1_ok by done.
    split; [by eauto|]. rewrite parse_fields_cons. eexists. rewrite field2_ok by done. eauto.
Qed.

Lemma continue_ok s p b :
  (if decide (3 < length (Split ":" s) ∨ length (Split ":" s) = 0)%nat
   then (mkPortBinding (V4 [0; 0; 0; 0]) 0 0 p, Some ErrColons)
   else parse_fields 0 (reverse (Split ":" s)) (mkPortBinding (V4 [0; 0; 0; 0]) 0 0 p)) = (b, None) ↔
  ∃ a hp gp, address_text s a hp gp ∧ b = mkPortBinding a hp gp p.
Proof.
  split.
  - case_decide as Hd; [done|]. intros H%fields_text; [by rewrite Join_Split in H|lia|].
    intros E. rewrite E in Hd. simpl in Hd. lia.
  - intros (a & hp & gp & H & ->). apply (address_text_fields _ _ _ _ p) in H as (_ & parts & -> & Hl & E).
    by rewrite decide_False by lia.
Qed.

Lemma protocol_no_slash proto : proto ∈ ["tcp"; "udp"] → contains_byte "/" proto = false.
Proof. set_unfold. by intros [->|[->|]]. Qed.

Lemma Sanitize_ok s b :
  SanitizeNetworkBindings s = (b, None) ↔ binding_text (ToLower s) b.
Proof.
  unfold SanitizeNetworkBindings, default_binding. cbv zeta. cbn [IP HostPort GuestPort Protocol].
  set (t := ToLower s). clearbody t. pose proof (Join_Split "/" t) as Ht. split.
  - destruct (Split "/" t) as [|p0 [|p1 [|p2 ps]]] eqn:E; simpl in Ht.
    + by destruct (Split_nonempty "/" t).
    + simpl. rewrite continue_ok. intros (a & hp & gp & Ha & ->). by apply text_default.
    + case_decide; [|done]. rewrite continue_ok. intros (a & hp & gp & Ha & ->).
      rewrite <-Ht. by apply text_protocol.
    + simpl. done.
  - intros H. destruct H as [t a hp gp Ha|t a hp gp proto Ha Hp].
    + destruct (address_text_fields _ _ _ _ "tcp" Ha) as [Hs _].
      rewrite Split_one by done. simpl. apply continue_ok. eauto 6.
    + destruct (address_text_fields _ _ _ _ proto Ha) as [Hs _].
      rewrite Split_app, Split_one by (done || by apply protocol_no_slash).
      rewrite decide_True by done. apply continue_ok. eauto 6.
Qed.

Lemma ToLower_dotted a b c d :
  0 ≤ a → 0 ≤ b → 0 ≤ c → 0 ≤ d → ToLower (dotted a b c d) = dotted a b c d.
Proof. intros. unfold dotted. by rewrite !ToLower_app, !ToLower_Itoa. Qed.

(** ** Properties *)

(** [C38] [SanitizeNetworkBindings] accepts exactly the texts of the documented grammar
    [[[ip:]host:]guest[/tcp|udp]], in any letter case, and returns the binding they
    denote: ports are decimal numbers up to 65535, an empty host port is 0, an empty
    interface is 0.0.0.0, the protocol defaults to tcp, and only IPv4 interfaces pass. *)
Theorem sanitize_grammar s b :
  SanitizeNetworkBindings s = (b, None) ↔ binding_text (ToLower s) b.
Proof. apply Sanitize_ok. Qed.

(** Printing a binding and parsing it gives the binding back, whatever the letter
    case of the protocol. *)
Theorem sanitize_roundtrip a b c d host guest proto :
  is_byte a → is_byte b → is_byte c → is_byte d →
  0 ≤ host ≤ 65535 → 0 ≤ guest ≤ 65535 → ToLower proto ∈ ["tcp"; "udp"] →
  SanitizeNetworkBindings (print_binding a b c d host guest proto) =
  (mkPortBinding (V4 [a; b; c; d]) host guest (ToLower proto), None).
Proof.
  intros Ha Hb Hc Hd Hh Hg Hp. apply Sanitize_ok. unfold print_binding. unfold is_byte in *.
  rewrite ToLower_app, ToLower_dotted by lia. simpl ToLower. rewrite ToLower_app. simpl ToLower.
  rewrite ToLower_app. simpl ToLower. rewrite !ToLower_Itoa by lia.
  change (lower_char ":") with ":"%char. change (lower_char "/") with "/"%char.
  assert (∀ z, 0 ≤ z ≤ 65535 → port_text (Itoa z) z) as Hport
    by (intros z Hz; split; [apply Itoa_digits|]; lia).
  assert (∀ x y z, x +:+ String ":" (y +:+ String ":" (z +:+ String "/" (ToLower proto))) =
    (x +:+ String ":" (y +:+ String ":" z)) +:+ String "/" (ToLower proto)) as ->.
  { intros. rewrite !string_app_assoc. simpl. by rewrite !string_app_assoc. }
  apply text_protocol; [|done]. apply text_ip; [|by right; apply Hport|by apply Hport].
  right. eexists. split; [done|]. by apply ParseAddr_dotted.
Qed.

Lemma sanitize_roundtrip_witness :
  SanitizeNetworkBindings "127.0.0.1:8080:80/UDP" =
  (mkPortBinding (V4 [127; 0; 0; 1]) 8080 80 "udp", None).
Proof.
  refine (sanitize_roundtrip 127 0 0 1 8080 80 "UDP" _ _ _ _ _ _ _);
    try (vm_compute; split; congruence).
  vm_compute. right. left.
Defined.

(** ** Unit tests of the parser, as [utils_test.go] has them *)

Example sanitize_errors :
  (λ s, (SanitizeNetworkBindings s).2) <$>
    ["80/icmp"; "1.2.3.4:80:80/tcp/udp"; "a:b:c:d"; "99999"; "x:80"; "::1:80"; "fe80:80:80"] =
  [Some ErrProtocol; Some ErrSlashes; Some ErrColons; Some ErrGuestPort; Some ErrHostPort;
   Some ErrColons; Some ErrInterfaceIP].
Proof. vm_compute. reflexivity. Qed.

End Binding.
