(* ===== verification/Registry.v ===== *)
(** * The session registry ([registry.go]) and the pool's vocabulary ([worker.go])

    [SessionRegistry] is the interface the pool is written against; [RegistryLaws] is
    what its contract promises when no operation fails, and the pool's invariants are
    proved against it.  [localRegistry] is the in-memory implementation and meets it. *)
From stdpp Require Import options.
From S2P Require Import Prelude.

(** A worker, as the pool sees it: the object a Go interface value points to, and the
    answer of its [ID()].  Several objects may answer the same ID. *)
Record Worker := mkWorker { w_obj : nat; w_ID : string }.

#[export] Instance Worker_eq_dec : EqDecision Worker.
Proof. solve_decision. Defined.

(** ** What a tenant asks for *)

Record PortMapping := mkPortMapping {
  HostInterface : string;
  HostPort : Z;
  GuestPort : Z;
  Protocol : string
}.

Record TenantConfig := mkTenantConfig {
  Image : string;
  Command : list string;
  Env : gmap string string;
  IdleTimeoutSeconds : Z;
  TTLSeconds : Z;
  HealthInterval : string;
  VCPUs : Z;
  MemoryMB : Z;
  PortMappings : list PortMapping
}.

#[export] Instance PortMapping_eq_dec : EqDecision PortMapping.
Proof. solve_decision. Defined.

(** An error is its message.  [Get] returns [(nil, nil)] for an unknown session. *)
Class SessionRegistry (R : Type) := {
  reg_Get : R → string → result string (option Worker);
  reg_Put : R → string → Worker → R * option string;
  reg_Delete : R → string → R * option string;
  reg_List : R → result string (gmap string Worker);
  reg_Len : R → nat
}.

Class RegistryLaws (R : Type) `{SessionRegistry R} := {
  reg_contents : R → gmap string Worker;
  reg_Get_ok r sid : reg_Get r sid = Ok (reg_contents r !! sid);
  reg_Put_ok r sid w :
    (reg_Put r sid w).2 = None ∧ reg_contents (reg_Put r sid w).1 = <[sid := w]> (reg_contents r);
  reg_Delete_ok r sid :
    (reg_Delete r sid).2 = None ∧ reg_contents (reg_Delete r sid).1 = delete sid (reg_contents r);
  reg_List_ok r : reg_List r = Ok (reg_contents r);
  reg_Len_ok r : reg_Len r = size (reg_contents r)
}.

Module Registry.

Record localRegistry := mkLocalRegistry { sessions : gmap string Worker }.

Definition NewLocalRegistry : localRegistry := {| sessions := ∅ |}.

Definition Get (r : localRegistry) (sessionID : string) : result string (option Worker) :=
  Ok (sessions r !! sessionID).

Definition Put (r : localRegistry) (sessionID : string) (w : Worker)
    : localRegistry * option string :=
  ({| sessions := <[sessionID := w]> (sessions r) |}, None).

Definition Delete (r : localRegistry) (sessionID : string) : localRegistry * option string :=
  ({| sessions := delete sessionID (sessions r) |}, None).

(** The loop copies every binding into a new map. *)
Definition List (r : localRegistry) : result string (gmap string Worker) :=
  Ok (map_fold (λ k v copyMap, <[k := v]> copyMap) ∅ (sessions r)).

Definition Len (r : localRegistry) : nat := size (sessions r).

#[export] Instance localRegistry_ops : SessionRegistry localRegistry := {|
  reg_Get := Get; reg_Put := Put; reg_Delete := Delete; reg_List := List; reg_Len := Len
|}.

Lemma copy_map (m : gmap string Worker) :
  map_fold (λ k v copyMap, <[k := v]> copyMap) ∅ m = m.
Proof. apply (map_fold_weak_ind (λ r m', r = m')); [done|]. by intros k v m' r _ ->. Qed.

#[export] Instance localRegistry_laws : RegistryLaws localRegistry.
Proof.
  refine {| reg_contents := sessions |}; try done.
  intros r. simpl. unfold List. by rewrite copy_map.
Defined.

End Registry.
#[export] Existing Instances Registry.localRegistry_ops Registry.localRegistry_laws.
