(* ===== verification/Pool.v ===== *)
(** * The worker pool ([pool.go], [options.go])

    Goroutines run the pool's operations concurrently.  A goroutine is a program
    counter [pc]; [step] runs it to its next scheduling point: one locked section, one
    channel operation, or one call into the factory or a worker, each atomic.  What the
    environment decides (a context is cancelled, what [Spawn] and [Close] return) is
    the [event] of the step; an operation that would block has no step.  Closing a
    closed channel is Go's panic, the pc [Panicked]. *)
From stdpp Require Import options.
From S2P Require Import Prelude Registry.
#[local] Open Scope nat_scope.

Module Pool.

Record Session := mkSession { s_ID : string; s_Worker : Worker }.

Inductive outcome :=
  | RetSession (s : Session)
  | RetNil
  | RetErr (msg : string).

(** Program counters, named after the operation and the call they are about to make. *)
Inductive pc :=
  (* Acquire *)
  | A_lock (sid : string)
  | A_wait (sid : string) (ch : nat)
  | A_ticket (sid : string) (ch : nat)
  | A_timeout_delete (sid : string) (ch : nat)
  | A_timeout_close (ch : nat)
  | A_spawn (sid : string) (ch : nat)
  | A_fail_ticket (sid : string) (ch : nat)
  | A_fail_delete (sid : string) (ch : nat)
  | A_fail_close (ch : nat)
  | A_wire (sid : string) (ch : nat) (w : Worker)
  | A_track (sid : string) (ch : nat) (w : Worker)
  | A_put (sid : string) (ch : nat) (w : Worker)
  | A_close (sid : string) (ch : nat) (w : Worker)
  | A_unpinned_close (ch : nat) (w : Worker)
  | A_unpinned_kill (w : Worker)
  | A_unpinned_remove (w : Worker)
  | A_unpinned_ticket
  (* GetSession *)
  | G_lock (sid : string)
  (* release *)
  | R_lock (s : Session)
  | R_close (w : Worker)
  | R_remove (w : Worker)
  | R_ticket
  (* KillWorker *)
  | K_lock (sid : string)
  | K_close (w : Worker)
  | K_remove (w : Worker)
  | K_ticket
  (* onCrash *)
  | C_lock (sid : string)
  | C_remove (w : Worker)
  | C_ticket
  (* Shutdown *)
  | S_done
  | S_lock
  | S_close (ws : list Worker)
  (* finished *)
  | Returned (o : outcome)
  | Panicked.

Inductive event :=
  | EvRun
  | EvCtxDone
  | EvSpawned (id : string)
  | EvSpawnErr (msg : string)
  | EvCloseErr (msg : string).

(** ** Configuration *)

Record config := mkConfig { cfg_max : Z }.

Definition defaultConfig : config := {| cfg_max := 10 |}.

(** [WithMaxWorkers]: [None] is the panic. *)
Definition WithMaxWorkers (max : Z) : option (config → config) :=
  if decide (max < 1)%Z then None else Some (λ _, {| cfg_max := max |}).

Section pool.
Context {R : Type} `{SessionRegistry R}.

(** The pool's fields, then the runtime state the operations act on: the closed
    channels, the channels made so far, the workers that run, those whose crash
    callback is set, and the worker objects made so far. *)
Record Pool := mkPool {
  registry : R;
  inflight : gmap string nat;
  workers : list Worker;
  tickets : nat;
  max : nat;
  done : bool;
  closed : gset nat;
  next_chan : nat;
  live : gset nat;
  wired : gset nat;
  next_obj : nat
}.

Definition set_registry (x : R) (p : Pool) : Pool :=
  mkPool x (inflight p) (workers p) (tickets p) (max p) (done p) (closed p) (next_chan p)
    (live p) (wired p) (next_obj p).
Definition set_inflight (x : gmap string nat) (p : Pool) : Pool :=
  mkPool (registry p) x (workers p) (tickets p) (max p) (done p) (closed p) (next_chan p)
    (live p) (wired p) (next_obj p).
Definition set_workers (x : list Worker) (p : Pool) : Pool :=
  mkPool (registry p) (inflight p) x (tickets p) (max p) (done p) (closed p) (next_chan p)
    (live p) (wired p) (next_obj p).
Definition set_tickets (x : nat) (p : Pool) : Pool :=
  mkPool (registry p) (inflight p) (workers p) x (max p) (done p) (closed p) (next_chan p)
    (live p) (wired p) (next_obj p).
Definition set_done (p : Pool) : Pool :=
  mkPool (registry p) (inflight p) (workers p) (tickets p) (max p) true (closed p) (next_chan p)
    (live p) (wired p) (next_obj p).
Definition set_closed (x : gset nat) (p : Pool) : Pool :=
  mkPool (registry p) (inflight p) (workers p) (tickets p) (max p) (done p) x (next_chan p)
    (live p) (wired p) (next_obj p).
Definition make_chan (p : Pool) : Pool :=
  mkPool (registry p) (inflight p) (workers p) (tickets p) (max p) (done p) (closed p)
    (S (next_chan p)) (live p) (wired p) (next_obj p).
Definition set_live (x : gset nat) (p : Pool) : Pool :=
  mkPool (registry p) (inflight p) (workers p) (tickets p) (max p) (done p) (closed p)
    (next_chan p) x (wired p) (next_obj p).
Definition set_wired (x : gset nat) (p : Pool) : Pool :=
  mkPool (registry p) (inflight p) (workers p) (tickets p) (max p) (done p) (closed p)
    (next_chan p) (live p) x (next_obj p).
Definition make_obj (p : Pool) : Pool :=
  mkPool (registry p) (inflight p) (workers p) (tickets p) (max p) (done p) (closed p)
    (next_chan p) (live p) (wired p) (S (next_obj p)).

(** [New]: the options are applied in order and the ticket channel is filled. *)
Definition New (reg : R) (opts : list (config → config)) : Pool :=
  let cfg := foldl (λ c apply_options, apply_options c) defaultConfig opts in
  let max := Z.to_nat (cfg_max cfg) in
  mkPool reg ∅ [] max max false ∅ 0 ∅ ∅ 0.

(** ** Channels and the worker list *)

Definition close_chan (ch : nat) (p : Pool) (k : pc) : Pool * pc :=
  if decide (ch ∈ closed p) then (p, Panicked) else (set_closed ({[ch]} ∪ closed p) p, k).

Definition recv_ticket (p : Pool) (k : pc) : option (Pool * pc) :=
  match tickets p with
  | O => None
  | S n => Some (set_tickets n p, k)
  end.

Definition send_ticket (p : Pool) (k : pc) : option (Pool * pc) :=
  if decide (tickets p < max p) then Some (set_tickets (S (tickets p)) p, k) else None.

Definition is_tracked (w : Worker) (ws : list Worker) : bool :=
  existsb (λ existing, bool_decide (w_ID existing = w_ID w)) ws.

Fixpoint remove_first (w : Worker) (ws : list Worker) : list Worker :=
  match ws with
  | [] => []
  | existing :: ws =>
      if decide (w_ID existing = w_ID w) then ws else existing :: remove_first w ws
  end.

Definition removeWorker (w : Worker) (p : Pool) : Pool :=
  set_workers (remove_first w (workers p)) p.

(** ** The locked sections *)

Definition acquire_section (sid : string) (p : Pool) : Pool * pc :=
  match reg_Get (registry p) sid with
  | Err e => (p, Returned (RetErr e))
  | Ok (Some w) => (p, Returned (RetSession (mkSession sid w)))
  | Ok None =>
      match inflight p !! sid with
      | Some ch => (p, A_wait sid ch)
      | None =>
          let ch := next_chan p in
          (set_inflight (<[sid := ch]> (inflight p)) (make_chan p), A_ticket sid ch)
      end
  end.

Definition put_section (sid : string) (ch : nat) (w : Worker) (p : Pool) : Pool * pc :=
  match reg_Put (registry p) sid w with
  | (reg, Some e) => (set_registry reg p, A_unpinned_close ch w)
  | (reg, None) =>
      (set_inflight (delete sid (inflight p)) (set_registry reg p), A_close sid ch w)
  end.

Definition get_section (sid : string) (p : Pool) : Pool * pc :=
  match reg_Get (registry p) sid with
  | Err e => (p, Returned (RetErr e))
  | Ok None => (p, Returned RetNil)
  | Ok (Some w) => (p, Returned (RetSession (mkSession sid w)))
  end.

Definition release_section (s : Session) (p : Pool) : Pool * pc :=
  let p := set_registry (reg_Delete (registry p) (s_ID s)).1 p in
  if is_tracked (s_Worker s) (workers p) then (p, R_close (s_Worker s)) else (p, Returned RetNil).

Definition kill_section (sid : string) (p : Pool) : Pool * pc :=
  match reg_Get (registry p) sid with
  | Err e => (p, Returned (RetErr e))
  | Ok None => (p, Returned RetNil)
  | Ok (Some w) => (set_registry (reg_Delete (registry p) sid).1 p, K_close w)
  end.

Definition crash_section (sid : string) (p : Pool) : Pool * pc :=
  let w := match reg_Get (registry p) sid with Ok w => w | Err _ => None end in
  let p := set_registry (reg_Delete (registry p) sid).1 p in
  let k := match w with Some w => C_remove w | None => Returned RetNil end in
  match inflight p !! sid with
  | Some ch => close_chan ch (set_inflight (delete sid (inflight p)) p) k
  | None => (p, k)
  end.

(** [Stats] without the node's own figures: workers, sessions, pending acquisitions. *)
Definition Stats (p : Pool) : nat * nat * nat :=
  (length (workers p), reg_Len (registry p), size (inflight p)).

Definition ListSessions (p : Pool) : result string (gmap string Worker) := reg_List (registry p).

(** [w.Close()]: on success the worker has stopped. *)
Definition close_worker (w : Worker) (p : Pool) : Pool := set_live (live p ∖ {[w_obj w]}) p.

(** ** One step of a goroutine *)

Definition step (p : Pool) (c : pc) (ev : event) : option (Pool * pc) :=
  match c, ev with
  (* Acquire *)
  | A_lock sid, EvRun => Some (acquire_section sid p)
  | A_wait sid ch, EvRun => if decide (ch ∈ closed p) then Some (p, A_lock sid) else None
  | A_wait sid ch, EvCtxDone => Some (p, Returned (RetErr "context cancelled while waiting for inflight"))
  | A_ticket sid ch, EvRun => recv_ticket p (A_spawn sid ch)
  | A_ticket sid ch, EvCtxDone => Some (p, A_timeout_delete sid ch)
  | A_timeout_delete sid ch, EvRun =>
      Some (set_inflight (delete sid (inflight p)) p, A_timeout_close ch)
  | A_timeout_close ch, EvRun =>
      Some (close_chan ch p (Returned (RetErr "timed out waiting for capacity")))
  | A_spawn sid ch, EvSpawned id =>
      let w := mkWorker (next_obj p) id in
      Some (set_live ({[w_obj w]} ∪ live p) (make_obj p), A_wire sid ch w)
  | A_spawn sid ch, EvSpawnErr _ => Some (p, A_fail_ticket sid ch)
  | A_fail_ticket sid ch, EvRun => send_ticket p (A_fail_delete sid ch)
  | A_fail_delete sid ch, EvRun =>
      Some (set_inflight (delete sid (inflight p)) p, A_fail_close ch)
  | A_fail_close ch, EvRun => Some (close_chan ch p (Returned (RetErr "failed to spawn")))
  | A_wire sid ch w, EvRun => Some (set_wired ({[w_obj w]} ∪ wired p) p, A_track sid ch w)
  | A_track sid ch w, EvRun => Some (set_workers (workers p ++ [w]) p, A_put sid ch w)
  | A_put sid ch w, EvRun => Some (put_section sid ch w p)
  | A_close sid ch w, EvRun =>
      Some (close_chan ch p (Returned (RetSession (mkSession sid w))))
  | A_unpinned_close ch w, EvRun => Some (close_chan ch p (A_unpinned_kill w))
  | A_unpinned_kill w, EvRun => Some (close_worker w p, A_unpinned_remove w)
  | A_unpinned_kill w, EvCloseErr _ => Some (p, A_unpinned_remove w)
  | A_unpinned_remove w, EvRun => Some (removeWorker w p, A_unpinned_ticket)
  | A_unpinned_ticket, EvRun => send_ticket p (Returned (RetErr "failed to pin session"))
  (* GetSession *)
  | G_lock sid, EvRun => Some (get_section sid p)
  (* release *)
  | R_lock s, EvRun => Some (release_section s p)
  | R_close w, EvRun => Some (close_worker w p, R_remove w)
  | R_close w, EvCloseErr _ => Some (p, R_remove w)
  | R_remove w, EvRun => Some (removeWorker w p, R_ticket)
  | R_ticket, EvRun => send_ticket p (Returned RetNil)
  (* KillWorker *)
  | K_lock sid, EvRun => Some (kill_section sid p)
  | K_close w, EvRun => Some (close_worker w p, K_remove w)
  | K_close w, EvCloseErr msg => Some (p, Returned (RetErr msg))
  | K_remove w, EvRun => Some (removeWorker w p, K_ticket)
  | K_ticket, EvRun => send_ticket p (Returned RetNil)
  (* onCrash *)
  | C_lock sid, EvRun => Some (crash_section sid p)
  | C_remove w, EvRun => Some (removeWorker w p, C_ticket)
  | C_ticket, EvRun => send_ticket p (Returned RetNil)
  (* Shutdown *)
  | S_done, EvRun => Some (if done p then (p, Panicked) else (set_done p, S_lock))
  | S_lock, EvRun => Some (p, S_close (workers p))
  | S_close [], EvRun => Some (p, Returned RetNil)
  | S_close (w :: ws), EvRun => Some (close_worker w p, S_close ws)
  | S_close (w :: ws), EvCloseErr msg => Some (p, Returned (RetErr msg))
  | _, _ => None
  end.

(** ** The system: the pool and its goroutines *)

Record Sys := mkSys { pool : Pool; threads : list pc }.

(** What can happen: a client calls an operation, the holder of a session handle
    releases it (once: the handle is used up), a worker that runs and has its callback
    set crashes, or a goroutine takes a step. *)
Inductive action :=
  | Acquire (sid : string)
  | GetSession (sid : string)
  | KillWorker (sid : string)
  | Shutdown
  | Release (tid : nat)
  | Crash (obj : nat) (sid : string)
  | Run (tid : nat) (ev : event).

Definition spawn_thread (s : Sys) (c : pc) : Sys := mkSys (pool s) (threads s ++ [c]).

Definition exec (s : Sys) (a : action) : option Sys :=
  match a with
  | Acquire sid => Some (spawn_thread s (A_lock sid))
  | GetSession sid => Some (spawn_thread s (G_lock sid))
  | KillWorker sid => Some (spawn_thread s (K_lock sid))
  | Shutdown => Some (spawn_thread s S_done)
  | Release tid =>
      match threads s !! tid with
      | Some (Returned (RetSession h)) => Some (mkSys (pool s) (<[tid := R_lock h]> (threads s)))
      | _ => None
      end
  | Crash obj sid =>
      if decide (obj ∈ live (pool s) ∧ obj ∈ wired (pool s)) then
        Some (mkSys (set_live (live (pool s) ∖ {[obj]}) (pool s)) (threads s ++ [C_lock sid]))
      else None
  | Run tid ev =>
      c ← threads s !! tid;
      '(p', c') ← step (pool s) c ev;
      Some (mkSys p' (<[tid := c']> (threads s)))
  end.

Fixpoint execs (s : Sys) (l : list action) : option Sys :=
  match l with
  | [] => Some s
  | a :: l => s' ← exec s a; execs s' l
  end.

Definition sys_step (s s' : Sys) : Prop := ∃ a, exec s a = Some s'.

Definition initial (reg : R) (opts : list (config → config)) : Sys := mkSys (New reg opts) [].

End pool.
End Pool.
