(* ===== verification/PoolInv.v ===== *)
(** * The invariants of the pool

    The daemon drives the pool with [Acquire], [GetSession] and [KillWorker]; its
    workers' [Close] never fails and its workers never call the crash callback
    ([firecracker_factory.go], [Close] and [OnCrash]).  For that fragment, and for any
    registry that meets [RegistryLaws], this file proves the invariants that hold
    between any two steps of any number of goroutines, and from them the guarantees of
    the package documentation: bounded concurrency, one flight per session, one worker
    per session, no panic, no lost wakeup, no deadlock.  Each invariant is a relation
    between the pool's fields and what the goroutines hold, read off their pcs. *)
From stdpp Require Import options.
From S2P Require Import Prelude Registry Pool.
Import Pool.Pool.
#[local] Open Scope nat_scope.
#[local] Set Default Proof Using "Type*".

Module PoolInv.

(** ** The daemon's fragment *)

Definition daemon_action (a : action) : bool :=
  match a with
  | Acquire _ | GetSession _ | KillWorker _ => true
  | Run _ (EvCloseErr _) => false
  | Run _ _ => true
  | Shutdown | Release _ | Crash _ _ => false
  end.

Definition daemon_pc (c : pc) : bool :=
  match c with
  | A_lock _ | A_wait _ _ | A_ticket _ _ | A_timeout_delete _ _ | A_timeout_close _
  | A_spawn _ _ | A_fail_ticket _ _ | A_fail_delete _ _ | A_fail_close _
  | A_wire _ _ _ | A_track _ _ _ | A_put _ _ _ | A_close _ _ _
  | G_lock _ | K_lock _ | K_close _ | K_remove _ | K_ticket | Returned _ => true
  | _ => false
  end.

(** ** What a goroutine holds *)

(** The session whose flight it owns, with the flight's channel. *)
Definition owner (c : pc) : option (string * nat) :=
  match c with
  | A_ticket sid ch | A_timeout_delete sid ch | A_spawn sid ch | A_fail_ticket sid ch
  | A_fail_delete sid ch | A_wire sid ch _ | A_track sid ch _ | A_put sid ch _ => Some (sid, ch)
  | _ => None
  end.

(** The channel it is about to close, the flight being over. *)
Definition closing (c : pc) : option nat :=
  match c with
  | A_timeout_close ch | A_fail_close ch | A_close _ ch _ => Some ch
  | _ => None
  end.

(** The channel it waits on. *)
Definition waiting (c : pc) : option nat :=
  match c with A_wait _ ch => Some ch | _ => None end.

(** A ticket taken and not given back. *)
Definition holds (c : pc) : nat :=
  match c with
  | A_spawn _ _ | A_fail_ticket _ _ | A_wire _ _ _ | A_track _ _ _ | A_put _ _ _
  | K_close _ | K_remove _ | K_ticket => 1
  | _ => 0
  end.

(** A running worker that no session is bound to. *)
Definition carries (c : pc) : option Worker :=
  match c with
  | A_wire _ _ w | A_track _ _ w | A_put _ _ w | K_close w => Some w
  | _ => None
  end.

(** A worker on the pool's list that no session is bound to. *)
Definition tracks (c : pc) : option Worker :=
  match c with
  | A_put _ _ w | K_close w | K_remove w => Some w
  | _ => None
  end.

Definition bound (m : gmap string Worker) : list Worker := (map_to_list m).*2.

(** ** The invariants *)

(** Flights: the pending map is exactly the flights owned, a session in flight is not
    bound, every channel that will be closed is open and will be closed once, and a
    waiter's channel is closed or will be. *)
Record sync (inf : gmap string nat) (cl : gset nat) (n : nat) (m : gmap string Worker)
    (O : list (string * nat)) (C W : list nat) : Prop := {
  sync_owned : O ≡ₚ map_to_list inf;
  sync_unbound : ∀ sid ch, (sid, ch) ∈ O → m !! sid = None;
  sync_once : NoDup (O.*2 ++ C);
  sync_open : ∀ ch, ch ∈ O.*2 ++ C → ch ∉ cl ∧ ch < n;
  sync_old : ∀ ch, ch ∈ cl → ch < n;
  sync_wakes : ∀ ch, ch ∈ W → ch ∈ cl ∨ ch ∈ O.*2 ++ C
}.

(** Running workers: each is bound to one session or carried by one goroutine, and
    the pool's list has the IDs of those that were put on it and not yet removed. *)
Record world (lv : gset nat) (n : nat) (ws : list Worker) (m : gmap string Worker)
    (H T : list Worker) : Prop := {
  world_live : elements lv ≡ₚ w_obj <$> (bound m ++ H);
  world_fresh : ∀ o, o ∈ lv → o < n;
  world_workers : w_ID <$> ws ≡ₚ w_ID <$> (bound m ++ T)
}.

Section invariant.
Context {R : Type} `{RegistryLaws R}.

Definition daemon_step (s s' : Sys (R := R)) : Prop :=
  ∃ a, daemon_action a = true ∧ exec s a = Some s'.

Definition sync_inv (p : Pool) (ts : list pc) : Prop :=
  sync (inflight p) (closed p) (next_chan p) (reg_contents (registry p))
    (omap owner ts) (omap closing ts) (omap waiting ts).

Definition ticket_inv (p : Pool) (ts : list pc) : Prop :=
  tickets p + size (reg_contents (registry p)) + sum_list_with holds ts = max p.

Definition world_inv (p : Pool) (ts : list pc) : Prop :=
  world (live p) (next_obj p) (workers p) (reg_contents (registry p))
    (omap carries ts) (omap tracks ts).

Record inv (max0 : nat) (p : Pool) (ts : list pc) : Prop := {
  inv_pcs : Forall (λ c, daemon_pc c = true) ts;
  inv_max : max p = max0;
  inv_sync : sync_inv p ts;
  inv_tickets : ticket_inv p ts;
  inv_world : world_inv p ts
}.

End invariant.

(** ** Progress: how far goroutines can run without new calls *)

(** Steps left to a goroutine that has passed, or has yet to pass, its first section. *)
Definition steps_left (c : pc) : nat :=
  match c with
  | A_lock _ | A_wait _ _ => 12
  | A_ticket _ _ => 10
  | A_spawn _ _ => 9
  | A_wire _ _ _ | K_lock _ => 4
  | A_fail_ticket _ _ | A_track _ _ _ | K_close _ => 3
  | A_timeout_delete _ _ | A_fail_delete _ _ | A_put _ _ _ | K_remove _ => 2
  | A_timeout_close _ | A_fail_close _ | A_close _ _ _ | G_lock _ | K_ticket => 1
  | _ => 0
  end.

(** Retries left to an [Acquire] that waits for another's flight. *)
Definition retries (cl : gset nat) (c : pc) : nat :=
  match c with
  | A_lock _ => 1
  | A_wait _ ch => if decide (ch ∈ cl) then 2 else 0
  | _ => 0
  end.

Definition at_rest (c : pc) : bool := match c with Returned _ => true | _ => false end.

Definition parked (c : pc) : bool :=
  match c with A_ticket _ _ | A_wait _ _ => true | _ => false end.

Section progress.
Context {R : Type} `{SessionRegistry R}.

Definition daemon_event (ev : event) : bool :=
  match ev with EvCloseErr _ => false | _ => true end.

(** A step of a goroutine, a cancelled context included. *)
Definition run_step (s s' : Sys (R := R)) : Prop :=
  ∃ tid ev, daemon_event ev = true ∧ exec s (Run tid ev) = Some s'.

Definition budget (s : Sys (R := R)) : nat :=
  sum_list_with steps_left (threads s) * (2 * length (threads s) + 1) +
  sum_list_with (retries (closed (pool s))) (threads s).

(** No goroutine can step, whatever the factory and the workers answer, unless a
    caller gives up. *)
Definition stuck (s : Sys (R := R)) : Prop :=
  ∀ tid ev, daemon_event ev = true → ev ≠ EvCtxDone → exec s (Run tid ev) = None.

End progress.

(** ** Lemmas: flights *)

Section sync.
Implicit Types (O : list (string * nat)) (C W : list nat).

Lemma bound_insert m sid w : m !! sid = None → bound (<[sid := w]> m) ≡ₚ w :: bound m.
Proof. intros Hn. unfold bound. by rewrite map_to_list_insert. Qed.

Lemma bound_delete m sid w : m !! sid = Some w → bound m ≡ₚ w :: bound (delete sid m).
Proof. intros Hs. unfold bound. by rewrite <-(map_to_list_delete m sid w) at 1. Qed.

Lemma sync_owned_lookup inf cl n m O C W sid ch :
  sync inf cl n m O C W → (sid, ch) ∈ O ↔ inf !! sid = Some ch.
Proof. intros [Ho _ _ _ _ _]. by rewrite Ho, elem_of_map_to_list. Qed.

Lemma sync_start inf cl n m O C W sid :
  inf !! sid = None → m !! sid = None → sync inf cl n m O C W →
  sync (<[sid := n]> inf) cl (S n) m ((sid, n) :: O) C W.
Proof.
  intros Hi Hm [Ho Hu Hd Hop Hold Hw]. split.
  - by rewrite map_to_list_insert, Ho.
  - intros sid' ch' [?|?]%elem_of_cons; simplify_eq; eauto.
  - simpl. constructor; [|done]. intros [_ ?]%Hop. lia.
  - simpl. intros ch [->|[? ?]%Hop]%elem_of_cons; [|by split; [|lia]].
    split; [intros ?%Hold; lia|lia].
  - intros ch ?%Hold. lia.
  - simpl. intros ch [?|?]%Hw; [by left|right]. by apply elem_of_cons; right.
Qed.

Lemma sync_wait inf cl n m O C W sid ch :
  inf !! sid = Some ch → sync inf cl n m O C W → sync inf cl n m O C (ch :: W).
Proof.
  intros Hi Hs. pose proof Hs as [Ho Hu Hd Hop Hold Hw]. split; try done.
  intros ch' [->|?]%elem_of_cons; [|by apply Hw]. right. apply elem_of_app. left.
  apply list_elem_of_fmap. exists (sid, ch). split; [done|]. by eapply sync_owned_lookup.
Qed.

Lemma sync_unwait inf cl n m O C W ch : sync inf cl n m O C (ch :: W) → sync inf cl n m O C W.
Proof. intros [Ho Hu Hd Hop Hold Hw]. split; try done. intros ch' ?. apply Hw. by right. Qed.

Lemma sync_end inf cl n m O C W sid ch :
  sync inf cl n m ((sid, ch) :: O) C W → sync (delete sid inf) cl n m O (ch :: C) W.
Proof.
  intros Hs. pose proof Hs as [Ho Hu Hd Hop Hold Hw].
  assert (inf !! sid = Some ch) as Hi by (eapply sync_owned_lookup; [done|by left]).
  assert (∀ x, x ∈ ((sid, ch) :: O).*2 ++ C ↔ x ∈ O.*2 ++ ch :: C) as Hsame
    by (intros x; simpl; rewrite elem_of_cons, !elem_of_app, elem_of_cons; tauto).
  split; try done.
  - apply (Permutation_cons_inv (a := (sid, ch))). by rewrite Ho, map_to_list_delete.
  - intros sid' ch' ?. eapply Hu. by right.
  - by rewrite <-Permutation_middle.
  - intros x. rewrite <-Hsame. apply Hop.
  - intros x. rewrite <-Hsame. apply Hw.
Qed.

Lemma sync_close inf cl n m O C W ch :
  sync inf cl n m O (ch :: C) W → ch ∉ cl ∧ sync inf ({[ch]} ∪ cl) n m O C W.
Proof.
  intros [Ho Hu Hd Hop Hold Hw].
  assert (ch ∉ cl ∧ ch < n) as [? ?] by (apply Hop; set_solver).
  rewrite <-Permutation_middle in Hd. apply NoDup_cons in Hd as [Hn Hd].
  split; [done|]. split; try done.
  - intros x Hx. destruct (Hop x); [set_solver|]. split; [set_solver|done].
  - set_solver.
  - intros x Hx. destruct (Hw x Hx); set_solver.
Qed.

Lemma sync_bind inf cl n m O C W sid ch w :
  sync inf cl n m ((sid, ch) :: O) C W →
  sync (delete sid inf) cl n (<[sid := w]> m) O (ch :: C) W.
Proof.
  intros Hs. pose proof (sync_owned _ _ _ _ _ _ _ Hs) as Ho.
  destruct (sync_end _ _ _ _ _ _ _ _ _ Hs) as [Ho' Hu Hd Hop Hold Hw]. split; try done.
  intros sid' ch' Hin. rewrite lookup_insert_ne; [by eapply Hu|]. intros <-.
  rewrite Ho', elem_of_map_to_list, lookup_delete_eq in Hin. done.
Qed.

Lemma sync_unbind inf cl n m O C W sid : sync inf cl n m O C W → sync inf cl n (delete sid m) O C W.
Proof.
  intros [Ho Hu Hd Hop Hold Hw]. split; try done. intros sid' ch' ?.
  apply lookup_delete_None. right. by eapply Hu.
Qed.

#[export] Instance sync_proper inf cl n m :
  Proper ((≡ₚ) ==> (≡ₚ) ==> (≡ₚ) ==> iff) (sync inf cl n m).
Proof.
  assert (∀ O O' C C' W W', O ≡ₚ O' → C ≡ₚ C' → W ≡ₚ W' → sync inf cl n m O C W →
    sync inf cl n m O' C' W') as Himp.
  { intros O O' C C' W W' HO HC HW [Ho Hu Hd Hop Hold Hw]. split.
    - by rewrite <-HO.
    - intros sid ch. rewrite <-HO. apply Hu.
    - by rewrite <-HO, <-HC.
    - intros ch. rewrite <-HO, <-HC. apply Hop.
    - done.
    - intros ch. rewrite <-HO, <-HC, <-HW. apply Hw. }
  intros O O' HO C C' HC W W' HW. split; by apply Himp.
Qed.

End sync.

(** ** Lemmas: running workers *)

Section world.
Implicit Types (H T : list Worker).

Lemma world_spawn lv n ws m H T id :
  world lv n ws m H T → world ({[n]} ∪ lv) (S n) ws m (mkWorker n id :: H) T.
Proof.
  intros [Hl Hf Hw]. split; [| |done].
  - rewrite elements_union_singleton by (intros ?%Hf; lia).
    rewrite <-Permutation_middle, fmap_cons. simpl. by rewrite Hl.
  - intros o [->%elem_of_singleton|?%Hf]%elem_of_union; lia.
Qed.

Lemma world_track lv n ws m H T w : world lv n ws m H T → world lv n (ws ++ [w]) m H (w :: T).
Proof.
  intros [Hl Hf Hw]. split; [done..|].
  rewrite <-!Permutation_middle, app_nil_r, !fmap_cons. by rewrite Hw.
Qed.

Lemma world_bind lv n ws m H T sid w :
  m !! sid = None → world lv n ws m (w :: H) (w :: T) → world lv n ws (<[sid := w]> m) H T.
Proof.
  intros Hm [Hl Hf Hw]. split; [|done|].
  - by rewrite bound_insert, Hl, <-Permutation_middle by done.
  - by rewrite bound_insert, Hw, <-Permutation_middle by done.
Qed.

Lemma world_unbind lv n ws m H T sid w :
  m !! sid = Some w → world lv n ws m H T → world lv n ws (delete sid m) (w :: H) (w :: T).
Proof.
  intros Hm [Hl Hf Hw]. split; [|done|].
  - by rewrite <-Permutation_middle, Hl, (bound_delete m sid w).
  - by rewrite <-Permutation_middle, Hw, (bound_delete m sid w).
Qed.

Lemma world_kill lv n ws m H T w : world lv n ws m (w :: H) T → world (lv ∖ {[w_obj w]}) n ws m H T.
Proof.
  intros [Hl Hf Hw]. split; [| |done].
  - rewrite <-Permutation_middle, fmap_cons in Hl.
    apply (Permutation_cons_inv (a := w_obj w)). rewrite <-Hl.
    rewrite (union_difference_singleton_L (w_obj w) lv) at 2.
    + by rewrite elements_union_singleton by set_solver.
    + apply elem_of_elements. rewrite Hl. by left.
  - intros o [? _]%elem_of_difference. auto.
Qed.

Lemma remove_first_ids w ws l : w_ID <$> ws ≡ₚ w_ID w :: l → w_ID <$> remove_first w ws ≡ₚ l.
Proof.
  revert l. induction ws as [|x ws IH]; simpl; intros l Hl.
  { by apply Permutation_nil_cons in Hl. }
  case_decide as Hx.
  - rewrite Hx in Hl. by apply Permutation_cons_inv in Hl.
  - assert (w_ID w ∈ w_ID <$> ws) as Hin.
    { assert (w_ID w ∈ w_ID x :: (w_ID <$> ws)) as Hin by (rewrite Hl; by left).
      apply elem_of_cons in Hin as [?|?]; congruence. }
    apply elem_of_Permutation in Hin as [k Hk]. simpl. rewrite (IH k Hk).
    apply (Permutation_cons_inv (a := w_ID w)). rewrite <-Hl, Hk. constructor.
Qed.

Lemma world_remove lv n ws m H T w :
  world lv n ws m H (w :: T) → world lv n (remove_first w ws) m H T.
Proof.
  intros [Hl Hf Hw]. split; [done..|]. apply remove_first_ids.
  by rewrite Hw, <-Permutation_middle.
Qed.

#[export] Instance world_proper lv n ws m : Proper ((≡ₚ) ==> (≡ₚ) ==> iff) (world lv n ws m).
Proof.
  assert (∀ H H' T T', H ≡ₚ H' → T ≡ₚ T' → world lv n ws m H T → world lv n ws m H' T') as Himp.
  { intros H H' T T' EH ET [Hl Hf Hw]. split; [by rewrite <-EH|done|by rewrite <-ET]. }
  intros H H' EH T T' ET. split; by apply Himp.
Qed.

End world.

(** ** Lemmas: one step preserves the invariants *)

#[local] Arguments acquire_section : simpl never.
#[local] Arguments put_section : simpl never.
#[local] Arguments get_section : simpl never.
#[local] Arguments kill_section : simpl never.
#[local] Arguments send_ticket : simpl never.
#[local] Arguments recv_ticket : simpl never.
#[local] Arguments close_chan : simpl never.

(** Case analysis on the goroutine's pc and the event, keeping the daemon's. *)
Ltac daemon_cases c ev :=
  destruct c; try done; destruct ev; try done; simpl in *; simplify_eq/=.

Section steps.
Context {R : Type} `{RegistryLaws R}.
Implicit Types (p : Pool (R := R)) (rest : list pc).

Lemma acquire_section_cases sid p p' c' :
  acquire_section sid p = (p', c') →
  (∃ w, reg_contents (registry p) !! sid = Some w ∧ p' = p ∧
     c' = Returned (RetSession (mkSession sid w))) ∨
  (reg_contents (registry p) !! sid = None ∧ ∃ ch, inflight p !! sid = Some ch ∧ p' = p ∧
     c' = A_wait sid ch) ∨
  (reg_contents (registry p) !! sid = None ∧ inflight p !! sid = None ∧
     p' = set_inflight (<[sid := next_chan p]> (inflight p)) (make_chan p) ∧
     c' = A_ticket sid (next_chan p)).
Proof.
  unfold acquire_section. rewrite reg_Get_ok. intros E.
  destruct (reg_contents _ !! sid) as [w|]; simplify_eq; [by left; eauto|].
  destruct (inflight p !! sid) as [ch|] eqn:Ei; simplify_eq; right; [left|right]; eauto 7.
Qed.

Lemma put_section_eq sid ch w p :
  put_section sid ch w p =
  (set_inflight (delete sid (inflight p)) (set_registry (reg_Put (registry p) sid w).1 p),
   A_close sid ch w).
Proof.
  unfold put_section. destruct (reg_Put_ok (registry p) sid w) as [E _].
  destruct (reg_Put (registry p) sid w) as [reg e]. simpl in *. by subst.
Qed.

Lemma get_section_cases sid p p' c' :
  get_section sid p = (p', c') → p' = p ∧ ∃ o, c' = Returned o.
Proof. unfold get_section. rewrite reg_Get_ok. intros E. repeat case_match; simplify_eq; eauto. Qed.

Lemma kill_section_cases sid p p' c' :
  kill_section sid p = (p', c') →
  (p' = p ∧ c' = Returned RetNil) ∨
  ∃ w, reg_contents (registry p) !! sid = Some w ∧ c' = K_close w ∧
    p' = set_registry (reg_Delete (registry p) sid).1 p.
Proof.
  unfold kill_section. rewrite reg_Get_ok. intros E.
  destruct (reg_contents _ !! sid) as [w|]; simplify_eq; [right|left]; eauto.
Qed.

Lemma send_ticket_cases p k p' c' :
  send_ticket p k = Some (p', c') → tickets p < max p ∧ p' = set_tickets (S (tickets p)) p ∧ c' = k.
Proof. unfold send_ticket. case_decide; intros; by simplify_eq. Qed.

Lemma recv_ticket_cases p k p' c' :
  recv_ticket p k = Some (p', c') → ∃ n, tickets p = S n ∧ p' = set_tickets n p ∧ c' = k.
Proof. unfold recv_ticket. case_match; intros; simplify_eq. eauto. Qed.

Lemma close_chan_open ch p k p' c' :
  ch ∉ closed p → close_chan ch p k = (p', c') → p' = set_closed ({[ch]} ∪ closed p) p ∧ c' = k.
Proof. unfold close_chan. intros. rewrite decide_False in * by done. by simplify_eq. Qed.

(** Every case of a step of the fragment, as equations on the pool and the pc. *)
Ltac step_cases :=
  repeat match goal with
  | E : acquire_section _ _ = _ |- _ => apply acquire_section_cases in E
  | E : put_section _ _ _ _ = _ |- _ => rewrite put_section_eq in E
  | E : get_section _ _ = _ |- _ => apply get_section_cases in E
  | E : kill_section _ _ = _ |- _ => apply kill_section_cases in E
  | E : send_ticket _ _ = _ |- _ => apply send_ticket_cases in E
  | E : recv_ticket _ _ = _ |- _ => apply recv_ticket_cases in E
  | E : (if decide ?P then _ else _) = Some _ |- _ => destruct (decide P); [|done]
  | E : _ ∧ _ |- _ => destruct E
  | E : _ ∨ _ |- _ => destruct E
  | E : ∃ _, _ |- _ => destruct E
  | _ => progress simplify_eq/=
  end.

Lemma sync_step p c ev p' c' rest :
  daemon_pc c = true → daemon_event ev = true → step p c ev = Some (p', c') →
  sync_inv p (c :: rest) → daemon_pc c' = true ∧ sync_inv p' (c' :: rest).
Proof.
  intros Hc Hev Hstep Hs. unfold sync_inv in *. daemon_cases c ev; step_cases;
    try (by split; eauto using sync_start, sync_wait, sync_unwait, sync_end).
  all: try (apply sync_close in Hs as [Hcl Hs];
    match goal with E : close_chan _ _ _ = _ |- _ => by apply close_chan_open in E as [-> ->] end).
  - rewrite (proj2 (reg_Put_ok _ _ _)). split; [done|]. by apply sync_bind.
  - rewrite (proj2 (reg_Delete_ok _ _)). split; [done|]. by apply sync_unbind.
Qed.

Lemma ticket_step p c ev p' c' rest :
  daemon_pc c = true → daemon_event ev = true → step p c ev = Some (p', c') →
  sync_inv p (c :: rest) → ticket_inv p (c :: rest) → max p' = max p ∧ ticket_inv p' (c' :: rest).
Proof.
  intros Hc Hev Hstep Hs Ht. unfold sync_inv, ticket_inv in *. daemon_cases c ev; step_cases;
    try (by split; [done|lia]).
  all: try (apply sync_close in Hs as [Hcl Hs];
    match goal with E : close_chan _ _ _ = _ |- _ => by apply close_chan_open in E as [-> ->] end).
  - rewrite (proj2 (reg_Put_ok _ _ _)), map_size_insert_None; [split; [done|lia]|].
    eapply (sync_unbound _ _ _ _ _ _ _ Hs). by left.
  - rewrite (proj2 (reg_Delete_ok _ _)), map_size_delete_Some by eauto.
    assert (size (reg_contents (registry p)) ≠ 0) 
      by (intros Hz%map_size_empty_inv;
        match goal with E : _ !! sid = Some _ |- _ => by rewrite Hz, lookup_empty in E end).
    split; [done|lia].
Qed.

Lemma world_step p c ev p' c' rest :
  daemon_pc c = true → daemon_event ev = true → step p c ev = Some (p', c') →
  sync_inv p (c :: rest) → world_inv p (c :: rest) → world_inv p' (c' :: rest).
Proof.
  intros Hc Hev Hstep Hs Hw. unfold sync_inv, world_inv in *. daemon_cases c ev; step_cases;
    try done; try (by eauto using world_spawn, world_track, world_kill, world_remove).
  all: try (apply sync_close in Hs as [Hcl Hs];
    match goal with E : close_chan _ _ _ = _ |- _ => by apply close_chan_open in E as [-> ->] end).
  - rewrite (proj2 (reg_Put_ok _ _ _)). apply world_bind; [|done].
    eapply (sync_unbound _ _ _ _ _ _ _ Hs). by left.
  - rewrite (proj2 (reg_Delete_ok _ _)). by apply world_unbind.
Qed.

(** Only pinning and killing touch the registry. *)
Lemma step_registry p c ev p' c' :
  daemon_event ev = true → daemon_pc c = true → step p c ev = Some (p', c') →
  reg_contents (registry p') = reg_contents (registry p) ∨
  (∃ sid ch w, c = A_put sid ch w ∧
    reg_contents (registry p') = <[sid := w]> (reg_contents (registry p))) ∨
  (∃ sid w, c = K_lock sid ∧ c' = K_close w ∧
    reg_contents (registry p') = delete sid (reg_contents (registry p))).
Proof.
  intros Hev Hc Hstep. daemon_cases c ev; step_cases; try by left.
  all: try (unfold close_chan in *; left; case_decide; by simplify_eq/=).
  - right. left. eexists _, _, _. split; [done|]. apply reg_Put_ok.
  - right. right. eexists _, _. split_and!; [done..|]. apply reg_Delete_ok.
Qed.

Lemma inv_step max0 p c ev p' c' rest :
  daemon_event ev = true → step p c ev = Some (p', c') → inv max0 p (c :: rest) →
  inv max0 p' (c' :: rest).
Proof.
  intros Hev Hstep [[Hc Hpcs]%Forall_cons Hm Hs Ht Hw].
  destruct (sync_step _ _ _ _ _ _ Hc Hev Hstep Hs) as [Hc' Hs'].
  destruct (ticket_step _ _ _ _ _ _ Hc Hev Hstep Hs Ht) as [Hm' Ht'].
  split; [by constructor|by rewrite Hm'|done|done|]. by apply (world_step p c ev).
Qed.

#[export] Instance inv_proper max0 p : Proper ((≡ₚ) ==> iff) (inv max0 p).
Proof.
  assert (∀ ts ts', ts ≡ₚ ts' → inv max0 p ts → inv max0 p ts') as Himp.
  { intros ts ts' E [Hpcs Hm Hs Ht Hw]. unfold sync_inv, ticket_inv, world_inv in *.
    split; unfold sync_inv, ticket_inv, world_inv; by rewrite <-?E. }
  intros ts ts' E. split; by apply Himp.
Qed.

Lemma inv_daemon_step max0 s s' :
  daemon_step s s' → inv max0 (pool s) (threads s) → inv max0 (pool s') (threads s').
Proof.
  intros (a & Ha & Hex) Hinv. destruct s as [p ts]. simpl in Hinv.
  destruct a as [sid|sid|sid| | | |tid ev]; try done; simpl in Hex; simplify_eq/=.
  1-3: rewrite <-Permutation_cons_append; destruct Hinv as [Hpcs Hm Hs Ht Hw];
    (split; [by constructor|done..]).
  destruct (ts !! tid) as [c|] eqn:Et; [|done]. simpl in Hex.
  destruct (step p c ev) as [[p' c']|] eqn:Estep; [|done]. simplify_eq/=.
  destruct (replace_perm ts tid c c' Et) as (rest & E1 & E2). rewrite E1 in Hinv. rewrite E2.
  eapply inv_step; [|done|done]. by destruct ev.
Qed.

Lemma inv_initial reg opts :
  reg_contents reg = ∅ → inv (max (New reg opts)) (New reg opts) [].
Proof.
  intros Hreg. split; [done|done| | |].
  - unfold sync_inv. simpl. rewrite Hreg. split; simpl; [by rewrite map_to_list_empty|set_solver|constructor|set_solver..].
  - unfold ticket_inv. simpl. rewrite Hreg, map_size_empty. lia.
  - unfold world_inv. simpl. rewrite Hreg. unfold bound.
    split; rewrite ?map_to_list_empty; [done|set_solver|done].
Qed.

Lemma inv_reachable reg opts s :
  reg_contents reg = ∅ → rtc daemon_step (initial reg opts) s →
  inv (max (New reg opts)) (pool s) (threads s).
Proof.
  intros Hreg Hrtc. apply (invariant_rtc daemon_step (λ s, inv (max (New reg opts)) (pool s) (threads s))
    (initial reg opts)); [|done|by apply inv_initial].
  intros s1 s2. apply inv_daemon_step.
Qed.

(** *** Progress *)

Lemma retries_bound cl ts : sum_list_with (retries cl) ts ≤ 2 * length ts.
Proof.
  induction ts as [|c ts IH]; simpl; [lia|].
  assert (retries cl c ≤ 2); [|lia]. destruct c; simpl; try lia. case_decide; lia.
Qed.

Lemma steps_left_bound ts : sum_list_with steps_left ts ≤ 12 * length ts.
Proof.
  induction ts as [|c ts IH]; simpl; [lia|].
  assert (steps_left c ≤ 12); [|lia]. destruct c; simpl; lia.
Qed.

(** A step shortens the goroutine, or uses one of its retries. *)
Lemma step_shortens p c ev p' c' rest :
  daemon_pc c = true → daemon_event ev = true → step p c ev = Some (p', c') →
  sync_inv p (c :: rest) →
  steps_left c' < steps_left c ∨
  steps_left c' = steps_left c ∧ closed p' = closed p ∧ retries (closed p) c' < retries (closed p) c.
Proof.
  intros Hc Hev Hstep Hs. unfold sync_inv in *. daemon_cases c ev; step_cases; try (left; lia).
  all: try (apply sync_close in Hs as [Hcl Hs];
    match goal with E : close_chan _ _ _ = _ |- _ => apply close_chan_open in E as [-> ->]; [|done] end;
    left; simpl; lia).
  - right. split_and!; [done..|]. rewrite decide_False; [lia|].
    eapply (sync_open _ _ _ _ _ _ _ Hs), elem_of_app. left. apply list_elem_of_fmap.
    eexists (_, _). split; [done|]. by eapply sync_owned_lookup.
  - right. split_and!; [done..|lia].
Qed.

Lemma run_step_budget max0 s s' :
  inv max0 (pool s) (threads s) → run_step s s' → budget s' < budget s.
Proof.
  intros [Hpcs _ Hs _ _] (tid & ev & Hev & Hex). destruct s as [p ts]. simpl in *.
  destruct (ts !! tid) as [c|] eqn:Et; [|done]. simpl in Hex.
  destruct (step p c ev) as [[p' c']|] eqn:Estep; [|done]. simplify_eq/=.
  destruct (replace_perm ts tid c c' Et) as (rest & E1 & E2). unfold sync_inv in Hs.
  rewrite E1 in Hpcs, Hs. apply Forall_cons in Hpcs as [Hc _].
  unfold budget. simpl. rewrite E2, E1. simpl.
  pose proof (retries_bound (closed p') (c' :: rest)) as Hr. simpl in Hr.
  destruct (step_shortens p c ev p' c' rest Hc Hev Estep Hs) as [|(E & -> & ?)]; [nia|].
  rewrite E. lia.
Qed.

Lemma run_step_inv max0 s s' :
  run_step s s' → inv max0 (pool s) (threads s) → inv max0 (pool s') (threads s').
Proof.
  intros (tid & ev & Hev & Hex). apply inv_daemon_step. exists (Run tid ev).
  split; [by destruct ev|done].
Qed.

Lemma run_steps_budget max0 k s s' :
  nsteps run_step k s s' → inv max0 (pool s) (threads s) → k + budget s' ≤ budget s.
Proof.
  induction 1 as [s|k s1 s2 s3 Hstep _ IH]; intros Hinv; [lia|].
  pose proof (run_step_budget _ _ _ Hinv Hstep).
  apply (run_step_inv _ _ _ Hstep) in Hinv. apply IH in Hinv. lia.
Qed.

(** A goroutine that is neither finished nor parked can step. *)
Lemma can_step p c rest :
  daemon_pc c = true → ticket_inv p (c :: rest) → at_rest c = false → parked c = false →
  ∃ ev p' c', daemon_event ev = true ∧ ev ≠ EvCtxDone ∧ step p c ev = Some (p', c').
Proof.
  intros Hc Ht Hr Hp. unfold ticket_inv in Ht.
  destruct c; try done; simpl in *.
  4: exists (EvSpawned ""); by eauto.
  all: exists EvRun; simpl.
  all: try (destruct (acquire_section sid p) as [? ?]; by eauto).
  all: try (destruct (get_section sid p) as [? ?]; by eauto).
  all: try (destruct (kill_section sid p) as [? ?]; by eauto).
  all: try (rewrite put_section_eq; by eauto).
  all: try (unfold close_chan; case_decide; by eauto).
  all: try by eauto.
  all: unfold send_ticket; rewrite decide_True by lia; by eauto.
Qed.

Lemma stuck_parked max0 s c :
  inv max0 (pool s) (threads s) → stuck s → c ∈ threads s → at_rest c = true ∨ parked c = true.
Proof.
  intros [Hpcs _ _ Ht _] Hst Hin. destruct (at_rest c) eqn:Er; [by left|].
  destruct (parked c) eqn:Ep; [by right|]. exfalso.
  apply list_elem_of_lookup in Hin as [tid Et].
  destruct (replace_perm (threads s) tid c c Et) as (rest & E1 & _).
  unfold ticket_inv in Ht. rewrite E1 in Hpcs, Ht. apply Forall_cons in Hpcs as [Hc _].
  destruct (can_step (pool s) c rest Hc Ht Er Ep) as (ev & p' & c' & Hev & Hne & Hstep).
  pose proof (Hst tid ev Hev Hne) as Hno. simpl in Hno. rewrite Et in Hno. simpl in Hno.
  by rewrite Hstep in Hno.
Qed.

(** A parked goroutine of a stuck system waits for a ticket, or for a flight whose
    owner does. *)
Lemma stuck_no_ticket max0 s c :
  inv max0 (pool s) (threads s) → stuck s → c ∈ threads s → parked c = true →
  tickets (pool s) = 0.
Proof.
  intros Hinv Hst.
  assert (∀ sid ch, A_ticket sid ch ∈ threads s → tickets (pool s) = 0) as Hticket.
  { intros sid ch [tid Et]%list_elem_of_lookup.
    pose proof (Hst tid EvRun eq_refl ltac:(done)) as Hno. simpl in Hno. rewrite Et in Hno.
    simpl in Hno. unfold recv_ticket in Hno. by destruct (tickets (pool s)). }
  intros Hin Hp. assert (∃ sid ch, c = A_ticket sid ch ∨ c = A_wait sid ch) as (sid & ch & [Hc|Hc])
    by (destruct c; try done; eauto); subst c; [by eapply Hticket|].
  pose proof Hin as Hin'. apply list_elem_of_lookup in Hin' as [tid Et].
  destruct (decide (ch ∈ closed (pool s))) as [Hcl|Hcl].
  { pose proof (Hst tid EvRun eq_refl ltac:(done)) as Hno. simpl in Hno. rewrite Et in Hno.
    simpl in Hno. by rewrite decide_True in Hno. }
  pose proof (inv_sync _ _ _ Hinv) as Hs. unfold sync_inv in Hs.
  destruct (sync_wakes _ _ _ _ _ _ _ Hs ch) as [?|Hch]; [|done|].
  { apply list_elem_of_omap. by exists (A_wait sid ch). }
  apply elem_of_app in Hch as [Hch|Hch].
  - apply list_elem_of_fmap in Hch as ([sid' ch'] & -> & Hch).
    apply list_elem_of_omap in Hch as (c & Hc & Hown).
    destruct (stuck_parked _ _ _ Hinv Hst Hc); destruct c; simplify_eq/=; by eapply Hticket.
  - apply list_elem_of_omap in Hch as (c & Hc & Hown).
    destruct (stuck_parked _ _ _ Hinv Hst Hc); destruct c; simplify_eq/=.
Qed.

Lemma stuck_full max0 s c :
  inv max0 (pool s) (threads s) → stuck s → c ∈ threads s → parked c = true →
  size (reg_contents (registry (pool s))) = max0.
Proof.
  intros Hinv Hst Hin Hp. pose proof (stuck_no_ticket _ _ _ Hinv Hst Hin Hp) as H0'.
  assert (sum_list_with holds (threads s) = 0) as Hh.
  { apply sum_list_with_zero. intros x Hx.
    destruct (stuck_parked _ _ _ Hinv Hst Hx); by destruct x. }
  destruct Hinv as [_ Hm _ Ht _]. unfold ticket_inv in Ht. lia.
Qed.

(** *** Counting *)

Lemma carries_holds ts : length (omap carries ts) ≤ sum_list_with holds ts.
Proof. induction ts as [|c ts IH]; [done|]. rewrite omap_cons. destruct c; simpl; lia. Qed.

Lemma tracks_holds ts : length (omap tracks ts) ≤ sum_list_with holds ts.
Proof. induction ts as [|c ts IH]; [done|]. rewrite omap_cons. destruct c; simpl; lia. Qed.

Lemma bound_length m : length (bound m) = size m.
Proof. unfold bound. by rewrite length_fmap, length_map_to_list. Qed.

Lemma inv_capacity max0 p ts :
  inv max0 p ts → size (live p) ≤ max0 ∧ length (workers p) ≤ max0 ∧ tickets p ≤ max0.
Proof.
  intros [_ Hm _ Ht [Hl _ Hw]]. unfold ticket_inv in Ht.
  apply Permutation_length in Hl. rewrite length_fmap, length_app, bound_length in Hl.
  apply Permutation_length in Hw. rewrite !length_fmap, length_app, bound_length in Hw.
  pose proof (carries_holds ts). pose proof (tracks_holds ts).
  change (size (live p)) with (length (elements (live p))). lia.
Qed.

End steps.

End PoolInv.
