(* ===== verification/PoolProps.v ===== *)
(** * What the pool guarantees, and where its guarantees end

    First the guarantees of the daemon's fragment ([PoolInv]), for any registry that
    meets [RegistryLaws].  Then runs of the full pool, with [Release], crashes, failing
    [Close] and failing registries, in which a guarantee of the documentation fails:
    each is a sequence of actions that the model executes. *)
From stdpp Require Import options.
From S2P Require Import Prelude Registry Pool PoolInv.
Import Pool.Pool PoolInv.PoolInv.
#[local] Open Scope nat_scope.
#[local] Set Default Proof Using "Type*".

Module PoolProps.

(** ** Concrete runs *)

(** [with_max n] is [New(factory, WithMaxWorkers(n))] over the local registry. *)
Definition with_max (n : Z) : Sys := initial Registry.NewLocalRegistry [λ _, {| cfg_max := n |}].

(** All the steps of an [Acquire] that spawns a worker, in goroutine [tid]. *)
Definition spawn_run (tid : nat) (id : string) : list action :=
  [Run tid EvRun; Run tid EvRun; Run tid (EvSpawned id); Run tid EvRun; Run tid EvRun;
   Run tid EvRun; Run tid EvRun].

Definition runs (tid n : nat) : list action := replicate n (Run tid EvRun).

(** Two sessions are bound, a second client of the first one has returned on the fast
    path, and a third session waits for a ticket. *)
Definition busy_actions : list action :=
  [Acquire "a"; Acquire "a"; Run 0 EvRun; Run 1 EvRun; Run 0 EvRun; Run 0 (EvSpawned "a")]
  ++ runs 0 4 ++ runs 1 2 ++ [Acquire "b"] ++ spawn_run 2 "b" ++ [Acquire "c"; Run 3 EvRun].

Definition busy : Sys := default (with_max 2) (execs (with_max 2) busy_actions).

(** Two clients hold handles on one session and release both at once; meanwhile the
    pool, which has room for two workers, comes to run three. *)
Definition double_release_actions : list action :=
  [Acquire "a"] ++ spawn_run 0 "a" ++ [Acquire "a"; Run 1 EvRun; Acquire "b"] ++ spawn_run 2 "b"
  ++ [Release 0; Release 1; Run 0 EvRun; Run 1 EvRun] ++ runs 0 3 ++ runs 1 3
  ++ [Acquire "c"] ++ spawn_run 3 "c" ++ [Acquire "d"] ++ spawn_run 4 "d".

(** The worker crashes after its callback is set and before the session is pinned. *)
Definition crash_actions : list action :=
  [Acquire "a"; Run 0 EvRun; Run 0 EvRun; Run 0 (EvSpawned "a"); Run 0 EvRun;
   Crash 0 "a"; Run 1 EvRun] ++ runs 0 3.

(** [Close] fails during [KillWorker]; a later session waits for its ticket. *)
Definition failed_close_actions : list action :=
  [Acquire "a"] ++ spawn_run 0 "a" ++ [KillWorker "a"; Run 1 EvRun; Run 1 (EvCloseErr "busy")]
  ++ [Acquire "b"; Run 2 EvRun].

(** A handle of a killed session is released after the session was created again, by a
    factory that names its workers after their sessions. *)
Definition stale_release_actions : list action :=
  [Acquire "a"] ++ spawn_run 0 "a" ++ [KillWorker "a"] ++ runs 1 4
  ++ [Acquire "a"] ++ spawn_run 2 "a" ++ [Release 0] ++ runs 0 4.

(** A spawn that fails, and a deadline that passes before a ticket is free. *)
Definition failed_spawn_run (msg : string) : list action :=
  [Run 0 EvRun; Run 0 EvRun; Run 0 (EvSpawnErr msg)] ++ runs 0 3.

Definition timeout_run : list action := [Run 0 EvRun; Run 0 EvCtxDone] ++ runs 0 2.

(** A registry whose store is down for writes. *)
Record brokenRegistry := mkBroken { reads : gmap string Worker }.

#[export] Instance brokenRegistry_ops : SessionRegistry brokenRegistry := {|
  reg_Get r sid := Ok (reads r !! sid);
  reg_Put r _ _ := (r, Some "store unavailable");
  reg_Delete r _ := (r, Some "store unavailable");
  reg_List r := Ok (reads r);
  reg_Len r := size (reads r)
|}.

Definition failed_put_actions : list action :=
  [Acquire "a"; Run 0 EvRun; Run 0 EvRun; Run 0 (EvSpawned "a")] ++ runs 0 7 ++ [Acquire "a"].

(** The slots of the pool: free tickets, bound sessions, and what goroutines hold. *)
Definition slots {R : Type} `{RegistryLaws R} (s : Sys (R := R)) : nat :=
  tickets (pool s) + size (reg_contents (registry (pool s))) + sum_list_with holds (threads s).

Definition binding {R : Type} `{RegistryLaws R} (s : Sys (R := R)) (sid : string) : option Worker :=
  reg_contents (registry (pool s)) !! sid.

(** ** Lemmas: runs *)

Section executions.
Context {R : Type} `{SessionRegistry R}.

Lemma execs_rtc (s s' : Sys (R := R)) l : execs s l = Some s' → rtc sys_step s s'.
Proof.
  revert s. induction l as [|a l IH]; simpl; intros s E; [by simplify_eq|].
  apply bind_Some in E as (s1 & E1 & E). eapply rtc_l; [by exists a|]. by apply IH.
Qed.

Lemma execs_daemon (s s' : Sys (R := R)) l :
  forallb daemon_action l = true → execs s l = Some s' → rtc daemon_step s s'.
Proof.
  revert s. induction l as [|a l IH]; simpl; intros s Hl E; [by simplify_eq|].
  apply andb_true_iff in Hl as [Ha Hl]. apply bind_Some in E as (s1 & E1 & E).
  eapply rtc_l; [by exists a|]. by apply IH.
Qed.

End executions.

Section runs.
Context {R : Type} `{RegistryLaws R}.

Lemma single_owner max0 (s : Sys (R := R)) t1 t2 c1 c2 sid ch1 ch2 :
  inv max0 (pool s) (threads s) →
  threads s !! t1 = Some c1 → threads s !! t2 = Some c2 →
  owner c1 = Some (sid, ch1) → owner c2 = Some (sid, ch2) → t1 = t2.
Proof.
  intros [_ _ Hs _ _] H1 H2 O1 O2. destruct (decide (t1 = t2)) as [|Hne]; [done|exfalso].
  destruct (two_perm (threads s) t1 t2 c1 c2 Hne H1 H2) as [rest E].
  pose proof (sync_owned _ _ _ _ _ _ _ Hs) as Ho. rewrite E, !omap_cons, O1, O2 in Ho.
  pose proof (NoDup_fst_map_to_list (inflight (pool s))) as Hd. rewrite <-Ho in Hd. simpl in Hd.
  apply NoDup_cons in Hd as [Hd _]. apply Hd. by left.
Qed.

Lemma owner_unbound max0 (s : Sys (R := R)) c sid ch :
  inv max0 (pool s) (threads s) → c ∈ threads s → owner c = Some (sid, ch) →
  reg_contents (registry (pool s)) !! sid = None.
Proof.
  intros [_ _ Hs _ _] Hin Ho. eapply (sync_unbound _ _ _ _ _ _ _ Hs).
  apply list_elem_of_omap. eauto.
Qed.

Lemma bound_elem m sid w : m !! sid = Some w → w ∈ bound m.
Proof.
  intros Hw. apply list_elem_of_fmap. exists (sid, w). split; [done|]. by apply elem_of_map_to_list.
Qed.

(** Bound and carried workers are running and are all different objects. *)
Lemma world_distinct max0 (s : Sys (R := R)) :
  inv max0 (pool s) (threads s) →
  NoDup (w_obj <$> (bound (reg_contents (registry (pool s))) ++ omap carries (threads s))).
Proof. intros [_ _ _ _ [Hl _ _]]. rewrite <-Hl. apply NoDup_elements. Qed.

Lemma bound_distinct m sid1 sid2 w1 w2 :
  NoDup (w_obj <$> bound m) → m !! sid1 = Some w1 → m !! sid2 = Some w2 →
  w_obj w1 = w_obj w2 → sid1 = sid2.
Proof.
  intros Hd H1 H2 E. destruct (decide (sid1 = sid2)) as [|Hne]; [done|exfalso].
  rewrite (bound_delete m sid1 w1) in Hd by done. simpl in Hd. apply NoDup_cons in Hd as [Hd _].
  apply Hd. rewrite E. apply list_elem_of_fmap_2. apply (bound_elem _ sid2).
  by rewrite lookup_delete_ne.
Qed.

Lemma binding_step max0 (s s' : Sys (R := R)) sid w :
  inv max0 (pool s) (threads s) → daemon_step s s' → binding s sid = Some w →
  binding s' sid = Some w ∨
  binding s' sid = None ∧
  ∃ tid, threads s !! tid = Some (K_lock sid) ∧ threads s' !! tid = Some (K_close w).
Proof.
  unfold binding. intros Hinv (a & Ha & Hex) Hw. destruct s as [p ts]. simpl in *.
  destruct a as [x|x|x| | | |tid ev]; try done; simpl in Hex; simplify_eq/=; [by left..|].
  destruct (ts !! tid) as [c|] eqn:Et; [|done]. simpl in Hex.
  destruct (step p c ev) as [[p' c']|] eqn:Estep; [|done]. simplify_eq/=.
  assert (Hown : ∀ ch, owner c = Some (sid, ch) → False).
  { intros ch Ho. assert (Hin : c ∈ ts) by (apply list_elem_of_lookup; eauto).
    pose proof (owner_unbound _ (mkSys p ts) _ _ _ Hinv Hin Ho) as Hn. simpl in Hn. congruence. }
  destruct (step_registry p c ev p' c') as [E|[(sid' & ch & w' & -> & E)|(sid' & w' & -> & -> & E)]];
    [by destruct ev|by apply (Forall_lookup_1 _ _ _ _ (inv_pcs _ _ _ Hinv) Et)|done| | |].
  - left. by rewrite E.
  - left. rewrite E, lookup_insert_ne; [done|]. intros ->. by eapply Hown.
  - rewrite E. destruct (decide (sid' = sid)) as [->|Hne]; [right|left; by rewrite lookup_delete_ne].
    split; [apply lookup_delete_eq|]. exists tid. split; [done|].
    rewrite list_lookup_insert_eq by by eapply lookup_lt_Some.
    destruct ev; simplify_eq/=. unfold kill_section in Estep. rewrite reg_Get_ok, Hw in Estep.
    by simplify_eq.
Qed.

(** One goroutine's step, as the first of a run. *)
Lemma execs_run (p : Pool (R := R)) ts tid ev c p' c' ts' l r :
  ts !! tid = Some c → step p c ev = Some (p', c') → <[tid := c']> ts = ts' →
  execs (mkSys p' ts') l = r → execs (mkSys p ts) (Run tid ev :: l) = r.
Proof. intros Ht Hs <- <-. simpl. rewrite Ht. simpl. by rewrite Hs. Qed.

Lemma execs_call (p : Pool (R := R)) ts a c l r :
  exec (mkSys p ts) a = Some (mkSys p (ts ++ [c])) →
  execs (mkSys p (ts ++ [c])) l = r → execs (mkSys p ts) (a :: l) = r.
Proof. intros E <-. simpl. by rewrite E. Qed.

End runs.

Ltac step_once := eapply execs_run; [reflexivity| |reflexivity|].
Ltac step_plain := step_once; [reflexivity|].

(** The parts of a pool that outlive its channels and worker objects. *)
Definition same_pool {R : Type} `{RegistryLaws R} (p p' : Pool (R := R)) : Prop :=
  reg_contents (registry p') = reg_contents (registry p) ∧ inflight p' = inflight p ∧
  workers p' = workers p ∧ tickets p' = tickets p ∧ max p' = max p ∧ live p' = live p.

Section quiet.
Context {R : Type} `{RegistryLaws R}.
Implicit Types (p : Pool (R := R)).

Lemma acquire_fresh p sid :
  reg_contents (registry p) !! sid = None → inflight p !! sid = None →
  step p (A_lock sid) EvRun =
  Some (set_inflight (<[sid := next_chan p]> (inflight p)) (make_chan p), A_ticket sid (next_chan p)).
Proof. intros Hm Hi. simpl. unfold acquire_section. by rewrite reg_Get_ok, Hm, Hi. Qed.

Lemma recv_some p k n : tickets p = S n → recv_ticket p k = Some (set_tickets n p, k).
Proof. unfold recv_ticket. by intros ->. Qed.

Lemma send_some p k : tickets p < max p → send_ticket p k = Some (set_tickets (S (tickets p)) p, k).
Proof. intros. unfold send_ticket. by rewrite decide_True. Qed.

Lemma close_fresh ch p k : ch ∉ closed p → close_chan ch p k = (set_closed ({[ch]} ∪ closed p) p, k).
Proof. intros. unfold close_chan. by rewrite decide_False. Qed.

Lemma spawn_quiet p sid id n :
  reg_contents (registry p) !! sid = None → inflight p !! sid = None → tickets p = S n →
  next_chan p ∉ closed p →
  ∃ p1, execs (mkSys p []) (Acquire sid :: spawn_run 0 id) =
    Some (mkSys p1 [Returned (RetSession (mkSession sid (mkWorker (next_obj p) id)))]) ∧
  reg_contents (registry p1) = <[sid := mkWorker (next_obj p) id]> (reg_contents (registry p)) ∧
  inflight p1 = inflight p ∧ workers p1 = workers p ++ [mkWorker (next_obj p) id] ∧
  tickets p1 = n ∧ max p1 = max p ∧ live p1 = {[next_obj p]} ∪ live p.
Proof.
  intros Hm Hi Ht Hc. eexists. split.
  { eapply (execs_call p []); [reflexivity|]. unfold spawn_run.
    step_once; [by apply acquire_fresh|]. step_once; [by apply recv_some|].
    do 3 step_plain. step_once; [by apply (f_equal Some), put_section_eq|].
    step_once; [by apply (f_equal Some), close_fresh|]. reflexivity. }
  cbn. rewrite (proj2 (reg_Put_ok _ _ _)), delete_insert_id by done. done.
Qed.

Lemma remove_first_last w ws :
  Forall (λ x, w_ID x ≠ w_ID w) ws → remove_first w (ws ++ [w]) = ws.
Proof.
  induction 1 as [|x ws Hx _ IH]; simpl; [by rewrite decide_True|].
  rewrite decide_False by done. by rewrite IH.
Qed.

Lemma kill_section_bound p sid w :
  reg_contents (registry p) !! sid = Some w →
  kill_section sid p = (set_registry (reg_Delete (registry p) sid).1 p, K_close w).
Proof. intros Hw. unfold kill_section. by rewrite reg_Get_ok, Hw. Qed.

Lemma kill_quiet p c sid w :
  reg_contents (registry p) !! sid = Some w → tickets p < max p →
  ∃ p1, execs (mkSys p [c]) (KillWorker sid :: runs 1 4) = Some (mkSys p1 [c; Returned RetNil]) ∧
  reg_contents (registry p1) = delete sid (reg_contents (registry p)) ∧
  inflight p1 = inflight p ∧ workers p1 = remove_first w (workers p) ∧
  tickets p1 = S (tickets p) ∧ max p1 = max p ∧ live p1 = live p ∖ {[w_obj w]}.
Proof.
  intros Hm Ht. eexists. split.
  { eapply execs_call; [reflexivity|]. unfold runs. simpl replicate.
    step_once; [by apply (f_equal Some), (kill_section_bound _ _ w)|]. do 2 step_plain.
    step_once; [by apply send_some|]. reflexivity. }
  cbn. by rewrite (proj2 (reg_Delete_ok _ _)).
Qed.

End quiet.

(** ** Guarantees of the daemon's fragment

    A run of [daemon_step] is what the daemon does with its pool until it shuts it down: any
    number of goroutines that call [Acquire], [GetSession] and [KillWorker], over a registry
    that does not fail and workers whose [Close] reports no error and which never report a
    crash, as [FirecrackerWorker]'s do not.  Nobody calls [Session.Release] or [Shutdown];
    what becomes of these guarantees when somebody does, or when a worker reports a failure,
    is below. *)

Section guarantees.
Context {R : Type} `{RegistryLaws R}.
Implicit Types (s : Sys (R := R)).

(** [C7] Tickets are conserved: between any two steps of any number of goroutines that call
    [Acquire], [GetSession] and [KillWorker], over a registry that does not fail and workers
    whose [Close] reports no error and which report no crash (all that the daemon does with
    its pool until it shuts it down), free tickets, bound sessions and spawns or kills under
    way add up to the configured maximum; so at most that many workers run and are tracked.
    It does not hold when sessions are released twice, which the daemon never does
    ([double_release_overcommits]). *)
Theorem pool_capacity reg opts s :
  reg_contents reg = ∅ → rtc daemon_step (initial reg opts) s →
  slots s = max (New reg opts) ∧
  size (live (pool s)) ≤ max (New reg opts) ∧ length (workers (pool s)) ≤ max (New reg opts).
Proof.
  intros Hreg Hrtc. pose proof (inv_reachable _ _ _ Hreg Hrtc) as Hinv.
  destruct (inv_capacity _ _ _ Hinv) as (H1 & H2 & _). split_and!; [|done..].
  rewrite <-(inv_max _ _ _ Hinv). apply (inv_tickets _ _ _ Hinv).
Qed.

(** [C9] Singleflight: of any number of goroutines that call [Acquire], [GetSession] and
    [KillWorker], over a registry that does not fail and workers whose [Close] reports no
    error and which report no crash, two never spawn for the same session at once, and a
    session for which one does is not bound to a worker. *)
Theorem single_flight reg opts s :
  reg_contents reg = ∅ → rtc daemon_step (initial reg opts) s →
  (∀ t1 t2 c1 c2 sid ch1 ch2,
    threads s !! t1 = Some c1 → threads s !! t2 = Some c2 →
    owner c1 = Some (sid, ch1) → owner c2 = Some (sid, ch2) → t1 = t2) ∧
  (∀ t c sid ch, threads s !! t = Some c → owner c = Some (sid, ch) → binding s sid = None).
Proof.
  intros Hreg Hrtc. pose proof (inv_reachable _ _ _ Hreg Hrtc) as Hinv. split.
  - intros t1 t2 c1 c2 sid ch1 ch2. by eapply single_owner.
  - intros t c sid ch Ht. eapply owner_unbound; [done|]. apply list_elem_of_lookup. eauto.
Qed.

(** [C10] One worker per session.  As long as the pool is used by calls of [Acquire],
    [GetSession] and [KillWorker] only, in any interleaving, over a registry that does not
    fail and workers whose [Close] reports no error and which report no crash (as the daemon
    uses it: nobody releases a session, and [OnCrash] does nothing), the worker that a
    session is bound to is running, no other session is bound to it, no goroutine is starting
    or killing it, and its binding ends only in the locked section of a [KillWorker] of that
    session. *)
Theorem session_affinity reg opts s sid w :
  reg_contents reg = ∅ → rtc daemon_step (initial reg opts) s → binding s sid = Some w →
  w_obj w ∈ live (pool s) ∧
  (∀ sid' w', binding s sid' = Some w' → w_obj w' = w_obj w → sid' = sid) ∧
  (∀ c w', c ∈ threads s → carries c = Some w' → w_obj w' ≠ w_obj w) ∧
  (∀ s', daemon_step s s' →
    binding s' sid = Some w ∨
    binding s' sid = None ∧
    ∃ tid, threads s !! tid = Some (K_lock sid) ∧ threads s' !! tid = Some (K_close w)).
Proof.
  intros Hreg Hrtc Hw. pose proof (inv_reachable _ _ _ Hreg Hrtc) as Hinv.
  pose proof (world_distinct _ _ Hinv) as Hd. rewrite fmap_app in Hd.
  apply NoDup_app in Hd as (Hb & Hdisj & _).
  assert (w_obj w ∈ w_obj <$> bound (reg_contents (registry (pool s)))) as Hin
    by (apply list_elem_of_fmap_2; by eapply bound_elem).
  split_and!.
  - pose proof (world_live _ _ _ _ _ _ (inv_world _ _ _ Hinv)) as Hl.
    apply elem_of_elements. rewrite Hl, fmap_app, elem_of_app. by left.
  - intros sid' w' Hw' E. by eapply bound_distinct.
  - intros c w' Hc Hcar E. eapply Hdisj; [exact Hin|]. rewrite <-E. apply list_elem_of_fmap_2.
    apply list_elem_of_omap. eauto.
  - intros s' Hstep. by eapply binding_step.
Qed.

(** [C11] In the daemon's use of the pool, calls of [Acquire], [GetSession] and [KillWorker]
    in any interleaving over a registry that does not fail and workers whose [Close] reports
    no error and which report no crash, no goroutine panics, and one that gives a ticket back
    never blocks.  A crash that is reported while its session is being acquired does make the
    pool panic ([crash_during_acquire_panics]). *)
Theorem pool_no_panic reg opts s :
  reg_contents reg = ∅ → rtc daemon_step (initial reg opts) s →
  Panicked ∉ threads s ∧
  ∀ c, c ∈ threads s → 0 < holds c → tickets (pool s) < max (pool s).
Proof.
  intros Hreg Hrtc. destruct (inv_reachable _ _ _ Hreg Hrtc) as [Hpcs _ _ Ht _]. split.
  - intros Hin. by apply (proj1 (Forall_forall _ _) Hpcs) in Hin.
  - intros c [tid Hc]%list_elem_of_lookup Hh.
    destruct (replace_perm _ tid c c Hc) as (rest & E & _).
    unfold ticket_inv in Ht. rewrite E in Ht. simpl in Ht. lia.
Qed.

(** [C8] No lost wakeup and no deadlock, for goroutines that call [Acquire], [GetSession] and
    [KillWorker] over a registry that does not fail and workers whose [Close] reports no
    error and which report no crash: without new calls, [n] goroutines take at most
    [(2n + 1) * 12n + 2n] steps, under any scheduler; and when none can step any more,
    either every call has returned, or every session slot is taken by a bound session
    and the calls that have not returned are [Acquire]s parked for capacity. *)
Theorem pool_settles reg opts s :
  reg_contents reg = ∅ → rtc daemon_step (initial reg opts) s →
  (∀ k s', nsteps run_step k s s' →
    k ≤ 12 * length (threads s) * (2 * length (threads s) + 1) + 2 * length (threads s)) ∧
  (∀ s', rtc run_step s s' → stuck s' →
    (∀ c, c ∈ threads s' → at_rest c = true) ∨
    (size (reg_contents (registry (pool s'))) = max (New reg opts) ∧
     ∀ c, c ∈ threads s' → at_rest c = true ∨ parked c = true)).
Proof.
  intros Hreg Hrtc. pose proof (inv_reachable _ _ _ Hreg Hrtc) as Hinv. split.
  - intros k s' Hk. pose proof (run_steps_budget _ _ _ _ Hk Hinv). unfold budget in *.
    pose proof (steps_left_bound (threads s)).
    pose proof (retries_bound (closed (pool s)) (threads s)). nia.
  - intros s' Hrun Hst.
    assert (inv (max (New reg opts)) (pool s') (threads s')) as Hinv'.
    { apply (invariant_rtc run_step
        (λ s, inv (max (New reg opts)) (pool s) (threads s)) s s'); [|done..].
      intros s1 s2. apply run_step_inv. }
    destruct (decide (Exists (λ c, parked c = true) (threads s'))) as [Hp|Hp].
    + right. apply Exists_exists in Hp as (c & Hc & Hp). split; [by eapply stuck_full|].
      intros c' Hc'. by eapply stuck_parked.
    + left. intros c Hc. destruct (stuck_parked _ _ _ Hinv' Hst Hc) as [|Hpk]; [done|].
      destruct Hp. apply Exists_exists. eauto.
Qed.

(** Round trip: on a pool with a free ticket, acquiring a new session and then
    killing it takes the pool back to where it was, with the session bound to its fresh
    worker, tracked and paid for by one ticket in between. *)
Theorem acquire_kill_roundtrip (p : Pool (R := R)) sid id n :
  reg_contents (registry p) !! sid = None → inflight p !! sid = None →
  tickets p = S n → n < max p → next_chan p ∉ closed p → next_obj p ∉ live p →
  Forall (λ x, w_ID x ≠ id) (workers p) →
  let w := mkWorker (next_obj p) id in
  ∃ p1 p2 c,
    execs (mkSys p []) (Acquire sid :: spawn_run 0 id) = Some (mkSys p1 [c]) ∧
    c = Returned (RetSession (mkSession sid w)) ∧
    reg_contents (registry p1) !! sid = Some w ∧ w ∈ workers p1 ∧ tickets p1 = n ∧
    w_obj w ∈ live p1 ∧
    execs (mkSys p1 [c]) (KillWorker sid :: runs 1 4) = Some (mkSys p2 [c; Returned RetNil]) ∧
    same_pool p p2.
Proof.
  intros Hm Hi Ht Hn Hc Ho Hids w.
  destruct (spawn_quiet p sid id n Hm Hi Ht Hc) as (p1 & E1 & Hr1 & Hi1 & Hw1 & Ht1 & Hm1 & Hl1).
  destruct (kill_quiet p1 (Returned (RetSession (mkSession sid w))) sid w)
    as (p2 & E2 & Hr2 & Hi2 & Hw2 & Ht2 & Hm2 & Hl2); [by rewrite Hr1, lookup_insert_eq|lia|].
  exists p1, p2, (Returned (RetSession (mkSession sid w))). split_and!; try done.
  - by rewrite Hr1, lookup_insert_eq.
  - rewrite Hw1. apply elem_of_app. right. by left.
  - rewrite Hl1. set_solver.
  - unfold same_pool. rewrite Hr2, Hr1, Hi2, Hi1, Hw2, Hw1, Ht2, Ht1, Hm2, Hm1, Hl2, Hl1, Ht.
    rewrite delete_insert_id, remove_first_last by done. split_and!; [done..|]. simpl. set_solver.
Qed.

(** [C12] An [Acquire] that fails, because the spawn fails or because its deadline passes
    while it waits for a ticket, leaves the pool as it found it, and the session free for
    the next caller; run on its own, and for a session that is neither bound nor in flight. *)
Theorem failed_acquire_restores (p : Pool (R := R)) sid n msg :
  reg_contents (registry p) !! sid = None → inflight p !! sid = None →
  next_chan p ∉ closed p → n < max p →
  (tickets p = S n →
   ∃ p1, execs (mkSys p []) (Acquire sid :: failed_spawn_run msg) =
     Some (mkSys p1 [Returned (RetErr "failed to spawn")]) ∧ same_pool p p1) ∧
  ∃ p2, execs (mkSys p []) (Acquire sid :: timeout_run) =
    Some (mkSys p2 [Returned (RetErr "timed out waiting for capacity")]) ∧ same_pool p p2.
Proof.
  intros Hm Hi Hc Hn. split; [intros Ht|]; eexists; split.
  - eapply (execs_call p []); [reflexivity|]. unfold failed_spawn_run.
    step_once; [by apply acquire_fresh|]. step_once; [by apply recv_some|]. step_plain.
    step_once; [by apply send_some; simpl|]. step_plain.
    step_once; [by apply (f_equal Some), close_fresh|]. reflexivity.
  - unfold same_pool. cbn. by rewrite delete_insert_id, Ht.
  - eapply (execs_call p []); [reflexivity|]. unfold timeout_run.
    step_once; [by apply acquire_fresh|]. do 2 step_plain.
    step_once; [by apply (f_equal Some), close_fresh|]. reflexivity.
  - unfold same_pool. cbn. by rewrite delete_insert_id.
Qed.

End guarantees.

(** ** Witnesses: a busy pool over the local registry *)

Lemma busy_reachable : rtc daemon_step (with_max 2) busy.
Proof. apply (execs_daemon _ _ busy_actions); vm_compute; reflexivity. Defined.

Lemma pool_capacity_witness :
  slots busy = 2 ∧ size (live (pool busy)) ≤ 2 ∧ length (workers (pool busy)) ≤ 2.
Proof.
  refine (pool_capacity Registry.NewLocalRegistry [λ _, {| cfg_max := 2 |}] busy _ _);
    [reflexivity|apply busy_reachable].
Defined.

Lemma single_flight_witness :
  (∀ t1 t2 c1 c2 sid ch1 ch2,
    threads busy !! t1 = Some c1 → threads busy !! t2 = Some c2 →
    owner c1 = Some (sid, ch1) → owner c2 = Some (sid, ch2) → t1 = t2) ∧
  (∀ t c sid ch, threads busy !! t = Some c → owner c = Some (sid, ch) → binding busy sid = None).
Proof.
  refine (single_flight Registry.NewLocalRegistry [λ _, {| cfg_max := 2 |}] busy _ _);
    [reflexivity|apply busy_reachable].
Defined.

Lemma session_affinity_witness :
  0 ∈ live (pool busy) ∧
  (∀ sid' w', binding busy sid' = Some w' → w_obj w' = 0 → sid' = "a") ∧
  (∀ c w', c ∈ threads busy → carries c = Some w' → w_obj w' ≠ 0) ∧
  (∀ s', daemon_step busy s' →
    binding s' "a" = Some (mkWorker 0 "a") ∨
    binding s' "a" = None ∧
    ∃ tid, threads busy !! tid = Some (K_lock "a") ∧
      threads s' !! tid = Some (K_close (mkWorker 0 "a"))).
Proof.
  refine (session_affinity Registry.NewLocalRegistry [λ _, {| cfg_max := 2 |}] busy "a"
    (mkWorker 0 "a") _ _ _); [reflexivity|apply busy_reachable|vm_compute; reflexivity].
Defined.

Lemma pool_no_panic_witness :
  Panicked ∉ threads busy ∧
  ∀ c, c ∈ threads busy → 0 < holds c → tickets (pool busy) < max (pool busy).
Proof.
  refine (pool_no_panic Registry.NewLocalRegistry [λ _, {| cfg_max := 2 |}] busy _ _);
    [reflexivity|apply busy_reachable].
Defined.

Lemma pool_settles_witness :
  (∀ k s', nsteps run_step k busy s' → k ≤ 12 * 4 * (2 * 4 + 1) + 2 * 4) ∧
  (∀ s', rtc run_step busy s' → stuck s' →
    (∀ c, c ∈ threads s' → at_rest c = true) ∨
    (size (reg_contents (registry (pool s'))) = 2 ∧
     ∀ c, c ∈ threads s' → at_rest c = true ∨ parked c = true)).
Proof.
  refine (pool_settles Registry.NewLocalRegistry [λ _, {| cfg_max := 2 |}] busy _ _);
    [reflexivity|apply busy_reachable].
Defined.

Definition empty_pool : Pool := New Registry.NewLocalRegistry [].

Lemma acquire_kill_roundtrip_witness :
  ∃ p1 p2 c,
    execs (mkSys empty_pool []) (Acquire "a" :: spawn_run 0 "a") = Some (mkSys p1 [c]) ∧
    c = Returned (RetSession (mkSession "a" (mkWorker 0 "a"))) ∧
    reg_contents (registry p1) !! "a" = Some (mkWorker 0 "a") ∧
    mkWorker 0 "a" ∈ workers p1 ∧ tickets p1 = 9 ∧ 0 ∈ live p1 ∧
    execs (mkSys p1 [c]) (KillWorker "a" :: runs 1 4) = Some (mkSys p2 [c; Returned RetNil]) ∧
    same_pool empty_pool p2.
Proof.
  refine (acquire_kill_roundtrip empty_pool "a" "a" 9 _ _ _ _ _ _ _).
  1-3: reflexivity.
  - vm_compute. lia.
  - intros Hin. by apply elem_of_empty in Hin.
  - intros Hin. by apply elem_of_empty in Hin.
  - constructor.
Defined.

Lemma failed_acquire_restores_witness :
  (tickets empty_pool = 10 →
   ∃ p1, execs (mkSys empty_pool []) (Acquire "a" :: failed_spawn_run "no kvm") =
     Some (mkSys p1 [Returned (RetErr "failed to spawn")]) ∧ same_pool empty_pool p1) ∧
  ∃ p2, execs (mkSys empty_pool []) (Acquire "a" :: timeout_run) =
    Some (mkSys p2 [Returned (RetErr "timed out waiting for capacity")]) ∧ same_pool empty_pool p2.
Proof.
  refine (failed_acquire_restores empty_pool "a" 9 "no kvm" _ _ _ _).
  1-2: reflexivity.
  - intros Hin. by apply elem_of_empty in Hin.
  - vm_compute. lia.
Defined.

(** ** Where the guarantees end *)

(** Two handles on one session, released at once, both find the worker on the
    list, and each gives a ticket back: a pool of two workers comes to run three, where
    the documentation of [max] promises that it never does. *)
Theorem double_release_overcommits :
  ∃ s, rtc sys_step (with_max 2) s ∧ max (pool s) = 2 ∧ size (live (pool s)) = 3 ∧
    length (workers (pool s)) = 3.
Proof.
  eexists. split; [apply (execs_rtc _ _ double_release_actions); vm_compute; reflexivity|].
  by vm_compute.
Qed.

(** A worker that crashes between [wireWorker] and the pinning of its session makes
    [Acquire] panic: the crash handler has closed the flight's channel already.  The dead
    worker is then bound to the session. *)
Theorem crash_during_acquire_panics :
  ∃ s, rtc sys_step (with_max 2) s ∧ Panicked ∈ threads s ∧
    binding s "a" = Some (mkWorker 0 "a") ∧ live (pool s) = ∅.
Proof.
  eexists. split; [apply (execs_rtc _ _ crash_actions); vm_compute; reflexivity|].
  split; [by left|]. by vm_compute.
Qed.

(** When a worker's [Close] fails, [KillWorker] unbinds the session but keeps its
    ticket: with no session bound and no other goroutine at work, the next [Acquire] of a
    one-worker pool waits for ever. *)
Theorem failed_close_leaks_ticket :
  ∃ s, rtc sys_step (with_max 1) s ∧ size (reg_contents (registry (pool s))) = 0 ∧
    A_ticket "b" 1 ∈ threads s ∧ stuck s.
Proof.
  eexists. split; [apply (execs_rtc _ _ failed_close_actions); vm_compute; reflexivity|].
  split; [by vm_compute|]. split; [by right; right; left|].
  intros tid ev Hev Hne. do 3 (destruct tid as [|tid]; [by destruct ev|]). by destruct tid.
Qed.

(** With a factory that names a worker after its session, as the Firecracker
    factory does although [Worker.ID] is documented as never reused, releasing a handle
    of a killed session takes the session's new worker off the list and gives its ticket
    back while that worker still runs, bound to nothing. *)
Theorem stale_release_orphans_worker :
  ∃ s, rtc sys_step (with_max 1) s ∧ live (pool s) = {[1]} ∧ workers (pool s) = [] ∧
    size (reg_contents (registry (pool s))) = 0 ∧ tickets (pool s) = max (pool s).
Proof.
  eexists. split; [apply (execs_rtc _ _ stale_release_actions); vm_compute; reflexivity|].
  by vm_compute.
Qed.

(** With a registry that cannot store, a failed [Acquire] leaves its flight behind
    on a closed channel, and the next [Acquire] of that session retries for ever: after
    any number of its steps it has not returned. *)
Theorem failed_put_livelocks :
  ∃ s : Sys (R := brokenRegistry), rtc sys_step (initial (mkBroken ∅) []) s ∧
    ∀ n, ∃ s' c, execs s (runs 1 n) = Some s' ∧ threads s' !! 1 = Some c ∧ at_rest c = false.
Proof.
  eexists. split; [apply (execs_rtc _ _ failed_put_actions); vm_compute; reflexivity|].
  set (s := mkSys _ _).
  assert (∀ n, ∃ s' c, (execs s (runs 1 n) = Some s' ∧ threads s' !! 1 = Some c ∧ at_rest c = false) ∧
    ∃ s'' c', execs s (runs 1 (S n)) = Some s'' ∧ threads s'' !! 1 = Some c' ∧ at_rest c' = false)
    as Hboth; [|intros n; destruct (Hboth n) as (s' & c & H & _); eauto].
  assert (∀ n, execs s (runs 1 (S (S n))) = execs s (runs 1 n)) as Htwo by reflexivity.
  induction n as [|n (s' & c & H & s'' & c' & H')].
  - eexists _, _. split; [split; [reflexivity|by vm_compute]|].
    eexists _, _. split; [vm_compute; reflexivity|by vm_compute].
  - exists s'', c'. split; [done|]. exists s', c. by rewrite Htwo.
Qed.

End PoolProps.
