(* ===== verification/Lifecycle.v ===== *)
(** * Session leases ([internal/lifecycle])

    The manager maps session IDs to shared [SessionState] objects: a pointer is a number
    into the manager's [heap], so that an operation that holds a pointer and one that
    looks the session up again see the same object, or different ones after a second
    [Register].  Time is in nanoseconds; a [time.Duration] is an int64.  The pool is seen
    through [WorkerReaper]. *)
From stdpp Require Import options.
From S2P Require Import Prelude Registry.
#[local] Open Scope Z_scope.

(** [KillWorker(sessionID, reason)], with the killer's state. *)
Class WorkerReaper (K : Type) := {
  KillWorker : K → string → string → K * option string
}.

Module Lifecycle.

(** ** Time *)

Definition Second : Z := 1000000000.

(** [time.Duration(secs) * time.Second], in int64 arithmetic. *)
Definition seconds (secs : Z) : Z := wrap64 (wrap64 secs * Second).

(** [now.Sub(t)] saturates. *)
Definition Sub (now t : Z) : Z := Z.max int64_min (Z.min int64_max (now - t)).

(** ** State *)

Record SessionState := mkSessionState {
  SessionID : string;
  CreatedAt : Z;
  LastControlHeartbeat : Z;
  LastDataActivity : Z;
  ActiveConns : Z;
  IdleTTL : Z;
  AbsoluteTTL : Z;
  PortMappings : list PortMapping
}.

Section manager.
Context {K : Type} `{WorkerReaper K}.

Record Manager := mkManager {
  registry : gmap string nat;
  reaper : K;
  heap : gmap nat SessionState;
  next_ptr : nat
}.

Definition NewManager (reaper : K) : Manager :=
  {| registry := ∅; reaper := reaper; heap := ∅; next_ptr := 0 |}.

(** ** manager.go *)

Definition Register (m : Manager) (now : Z) (sessionID : string) (config : TenantConfig)
    (mappings : list PortMapping) : Manager :=
  let s := {| SessionID := sessionID; CreatedAt := now; LastControlHeartbeat := now;
              LastDataActivity := now; ActiveConns := 0;
              IdleTTL := seconds (IdleTimeoutSeconds config);
              AbsoluteTTL := seconds (TTLSeconds config);
              PortMappings := mappings |} in
  {| registry := <[sessionID := next_ptr m]> (registry m); reaper := reaper m;
     heap := <[next_ptr m := s]> (heap m); next_ptr := S (next_ptr m) |}.

Definition Remove (m : Manager) (sessionID : string) : Manager :=
  {| registry := delete sessionID (registry m); reaper := reaper m;
     heap := heap m; next_ptr := next_ptr m |}.

Definition kill (m : Manager) (sessionID reason : string) : Manager * option string :=
  let '(k, err) := KillWorker (reaper m) sessionID reason in
  ({| registry := registry m; reaper := k; heap := heap m; next_ptr := next_ptr m |}, err).

Definition UnregisterAndKill (m : Manager) (sessionID reason : string) : Manager * option string :=
  kill (Remove m sessionID) sessionID reason.

(** [GetSession] returns the shared object; a snapshot of a session is its state now. *)
Definition GetSession (m : Manager) (sessionID : string) : option nat := registry m !! sessionID.

Definition lookup_state (m : Manager) (sessionID : string) : option SessionState :=
  ptr ← GetSession m sessionID; heap m !! ptr.

(** Copies of all the sessions' states, in the order the map is ranged over. *)
Definition ListSessions (m : Manager) (order : list (string * nat)) : list SessionState :=
  omap (λ x, heap m !! x.2) order.

(** ** handlers.go *)

(** A locked update of the object at [ptr]. *)
Definition update (m : Manager) (ptr : nat) (f : SessionState → SessionState) : Manager :=
  {| registry := registry m; reaper := reaper m; heap := alter f ptr (heap m);
     next_ptr := next_ptr m |}.

Definition set_heartbeat (now : Z) (s : SessionState) : SessionState :=
  {| SessionID := SessionID s; CreatedAt := CreatedAt s; LastControlHeartbeat := now;
     LastDataActivity := LastDataActivity s; ActiveConns := ActiveConns s;
     IdleTTL := IdleTTL s; AbsoluteTTL := AbsoluteTTL s; PortMappings := PortMappings s |}.

Definition begin_conn (s : SessionState) : SessionState :=
  {| SessionID := SessionID s; CreatedAt := CreatedAt s;
     LastControlHeartbeat := LastControlHeartbeat s;
     LastDataActivity := LastDataActivity s; ActiveConns := wrap64 (ActiveConns s + 1);
     IdleTTL := IdleTTL s; AbsoluteTTL := AbsoluteTTL s; PortMappings := PortMappings s |}.

Definition end_conn (now : Z) (s : SessionState) : SessionState :=
  let conns := wrap64 (ActiveConns s - 1) in
  {| SessionID := SessionID s; CreatedAt := CreatedAt s;
     LastControlHeartbeat := LastControlHeartbeat s;
     LastDataActivity := now; ActiveConns := if conns <? 0 then 0 else conns;
     IdleTTL := IdleTTL s; AbsoluteTTL := AbsoluteTTL s; PortMappings := PortMappings s |}.

Definition UpdateHeartbeat (m : Manager) (now : Z) (sessionID : string) : Manager :=
  match registry m !! sessionID with
  | None => m
  | Some state => update m state (set_heartbeat now)
  end.

Definition BeginRequest (m : Manager) (sessionID : string) : Manager :=
  match registry m !! sessionID with
  | None => m
  | Some state => update m state begin_conn
  end.

(** [deadline] is [proxyErr == context.DeadlineExceeded]. *)
Definition EndRequest (m : Manager) (now : Z) (sessionID : string) (deadline : bool) : Manager :=
  match registry m !! sessionID with
  | None => m
  | Some state =>
      let m := update m state (end_conn now) in
      if deadline then Remove (kill m sessionID "data_plane_deadlock").1 sessionID else m
  end.

(** ** reaper.go *)

(** The rules of [sweep] on one session: the reason to kill it, if any. *)
Definition verdict (now : Z) (state : SessionState) : option string :=
  let conns := ActiveConns state in
  let created := CreatedAt state in
  let lastData := LastDataActivity state in
  if decide (0 < AbsoluteTTL state ∧ AbsoluteTTL state < Sub now created) then
    Some "absolute_ttl_expired"
  else if decide (0 < IdleTTL state ∧ conns = 0 ∧ IdleTTL state < Sub now lastData) then
    Some "idle_ttl_expired"
  else None.

Fixpoint sweep_loop (now : Z) (sessions : list (string * nat)) (m : Manager) : Manager :=
  match sessions with
  | [] => m
  | (id, ptr) :: sessions =>
      match state ← heap m !! ptr; verdict now state with
      | Some reason => sweep_loop now sessions (UnregisterAndKill m id reason).1
      | None => sweep_loop now sessions m
      end
  end.

(** One sweep; [order] is the order in which the snapshot is ranged over. *)
Definition sweep (m : Manager) (now : Z) (order : list (string * nat)) : Manager :=
  sweep_loop now order m.

(** The goroutine of [StartReaper]: a sweep for each tick of the clock that it sees before
    its context is done. *)
Definition StartReaper (m : Manager) (ticks : list (Z * list (string * nat))) : Manager :=
  foldl (λ m t, sweep m t.1 t.2) m ticks.

(** Each sweep ranges over the registry as it is then. *)
Fixpoint in_order (m : Manager) (ticks : list (Z * list (string * nat))) : Prop :=
  match ticks with
  | [] => True
  | (now, order) :: ticks => order ≡ₚ map_to_list (registry m) ∧ in_order (sweep m now order) ticks
  end.

(** The sessions a sweep condemns, with the reasons, in order. *)
Definition condemned (m : Manager) (now : Z) (order : list (string * nat)) : list (string * string) :=
  omap (λ x, state ← heap m !! x.2; reason ← verdict now state; Some (x.1, reason)) order.

Definition kill_all (k : K) (l : list (string * string)) : K :=
  foldl (λ k x, (KillWorker k x.1 x.2).1) k l.

(** ** Histories with the requests in flight

    The proxy calls [BeginRequest] and [EndRequest] once each for a request.  A session
    is not registered (or registered again) while requests for it are in flight. *)

Definition in_flight (id : string) (L : list string) : Z := Z.of_nat (length (filter (.= id) L)).

Inductive lease_step : Manager * list string → Manager * list string → Prop :=
  | lease_register m L now id config mappings :
      id ∉ L → lease_step (m, L) (Register m now id config mappings, L)
  | lease_heartbeat m L now id :
      lease_step (m, L) (UpdateHeartbeat m now id, L)
  | lease_begin m L id :
      Z.of_nat (length L) < int64_max →
      lease_step (m, L) (BeginRequest m id, id :: L)
  | lease_end m L L' now id deadline :
      L ≡ₚ (id :: L') → lease_step (m, L) (EndRequest m now id deadline, L')
  | lease_kill m L id reason :
      lease_step (m, L) ((UnregisterAndKill m id reason).1, L)
  | lease_sweep m L now order :
      order ≡ₚ map_to_list (registry m) → lease_step (m, L) (sweep m now order, L).

(** Pointers are allocated, an object knows its session, and its counter is the number
    of requests in flight. *)
Definition lease_inv (s : Manager * list string) : Prop :=
  (∀ ptr st, heap s.1 !! ptr = Some st → (ptr < next_ptr s.1)%nat) ∧
  (∀ id ptr, registry s.1 !! id = Some ptr →
    ∃ st, heap s.1 !! ptr = Some st ∧ SessionID st = id ∧ ActiveConns st = in_flight id s.2) ∧
  Z.of_nat (length s.2) ≤ int64_max.

(** Every object was allocated and its counter and limits are 64-bit integers; a session in
    the registry is at an object that carries its name. *)
Definition typed (m : Manager) : Prop :=
  (∀ ptr st, heap m !! ptr = Some st → (ptr < next_ptr m)%nat ∧ in_int64 (ActiveConns st) ∧
    in_int64 (IdleTTL st) ∧ in_int64 (AbsoluteTTL st)) ∧
  (∀ id ptr, registry m !! id = Some ptr → ∃ st, heap m !! ptr = Some st ∧ SessionID st = id).

End manager.

(** A reaper that records what it was asked to kill. *)
#[export] Instance log_reaper : WorkerReaper (list (string * string)) := {|
  KillWorker log sessionID reason := (log ++ [(sessionID, reason)], None)
|}.

Definition demo_config (idle ttl : Z) : TenantConfig :=
  mkTenantConfig "alpine" [] ∅ idle ttl "" 1 128 [].

(** Two sessions, one of them with a request in flight, at time 0. *)
Definition demo : Manager (K := list (string * string)) :=
  BeginRequest (Register (Register (NewManager []) 0 "a" (demo_config 60 3600) []) 0 "b"
    (demo_config 60 0) []) "b".

(** ** Lemmas *)

Section lemmas.
Context {K : Type} `{WorkerReaper K}.
#[local] Set Default Proof Using "Type*".
Implicit Types (m : Manager (K := K)) (L : list string).

Lemma kill_heap m id reason : heap (kill m id reason).1 = heap m.
Proof. unfold kill. by destruct (KillWorker _ _ _). Qed.
Lemma kill_registry m id reason : registry (kill m id reason).1 = registry m.
Proof. unfold kill. by destruct (KillWorker _ _ _). Qed.
Lemma kill_next m id reason : next_ptr (kill m id reason).1 = next_ptr m.
Proof. unfold kill. by destruct (KillWorker _ _ _). Qed.
Lemma kill_reaper m id reason : reaper (kill m id reason).1 = (KillWorker (reaper m) id reason).1.
Proof. unfold kill. by destruct (KillWorker _ _ _). Qed.

Lemma sweep_loop_spec now order m :
  heap (sweep_loop now order m) = heap m ∧ next_ptr (sweep_loop now order m) = next_ptr m ∧
  reaper (sweep_loop now order m) = kill_all (reaper m) (condemned m now order) ∧
  ∀ id ptr, registry (sweep_loop now order m) !! id = Some ptr ↔
    registry m !! id = Some ptr ∧ id ∉ (condemned m now order).*1.
Proof.
  unfold condemned, kill_all. revert m. induction order as [|[id ptr] order IH]; intros m; simpl.
  { split_and!; [done..|]. intros id ptr. split; [intros; split; [done|set_solver]|by intros [? _]]. }
  destruct (heap m !! ptr ≫= verdict now) as [reason|] eqn:E.
  - destruct (IH (UnregisterAndKill m id reason).1) as (Hh & Hn & Hr & Hreg).
    unfold UnregisterAndKill in *. rewrite kill_heap in Hh, Hr, Hreg. rewrite kill_next in Hn.
    rewrite kill_reaper in Hr. rewrite kill_registry in Hreg. simpl in *.
    apply bind_Some in E as (st & Est & Ev). rewrite Est. simpl. rewrite Ev. simpl.
    split_and!; [done..|]. intros id' ptr'. rewrite Hreg, lookup_delete_Some. set_solver.
  - destruct (IH m) as (Hh & Hn & Hr & Hreg). split_and!; [done|done| |].
    + rewrite Hr. destruct (heap m !! ptr) as [st|]; simpl in *; [|done]. by rewrite E.
    + intros id' ptr'. rewrite Hreg. destruct (heap m !! ptr) as [st|]; simpl in *; [|done]. by rewrite E.
Qed.

Lemma in_flight_cons id id' L :
  in_flight id (id' :: L) = in_flight id L + if decide (id' = id) then 1 else 0.
Proof. unfold in_flight. rewrite filter_cons. case_decide; simpl; lia. Qed.

Lemma in_flight_perm id L L' : L ≡ₚ L' → in_flight id L = in_flight id L'.
Proof. intros E. unfold in_flight. by rewrite E. Qed.

Lemma in_flight_range id L : 0 ≤ in_flight id L ≤ Z.of_nat (length L).
Proof. unfold in_flight. pose proof (length_filter (.= id) L). lia. Qed.

Lemma in_flight_absent id L : id ∉ L → in_flight id L = 0.
Proof.
  induction L as [|id' L IH]; [done|]. intros [Hne Hid]%not_elem_of_cons.
  rewrite in_flight_cons, decide_False, IH by done. done.
Qed.

(** Updating one session's object does not touch the others'. *)
Lemma update_inv m L L' id ptr f :
  lease_inv (m, L) → registry m !! id = Some ptr →
  (∀ st, SessionID (f st) = SessionID st) →
  (∀ st, SessionID st = id → ActiveConns st = in_flight id L → ActiveConns (f st) = in_flight id L') →
  (∀ id', id' ≠ id → in_flight id' L' = in_flight id' L) →
  Z.of_nat (length L') ≤ int64_max →
  lease_inv (update m ptr f, L').
Proof.
  intros (Hlt & Hreg & Hlen) Hid Hf1 Hf2 Hother Hlen'. split_and!; [| |done]; simpl in *.
  - intros p st. rewrite lookup_alter_Some. intros [(<- & st' & Hst & _)|[_ Hst]]; eauto.
  - intros id' p Hp. destruct (Hreg id' p Hp) as (st & Hst & HS & HC).
    destruct (Hreg id ptr Hid) as (st0 & Hst0 & HS0 & HC0).
    destruct (decide (p = ptr)) as [->|Hne].
    + rewrite Hst in Hst0. simplify_eq.
      exists (f st0). rewrite lookup_alter_eq, Hst. split_and!; [done|by rewrite Hf1|by apply Hf2].
    + exists st. rewrite lookup_alter_ne by done. split_and!; [done..|].
      rewrite Hother; [done|]. intros ->. congruence.
Qed.

(** *** Typing *)

Lemma typed_new k : typed (NewManager (K := K) k).
Proof. by split. Qed.

Lemma typed_register m now id cfg mappings : typed m → typed (Register m now id cfg mappings).
Proof.
  intros [Hh Hr]. split; cbn [Register heap registry next_ptr].
  - intros ptr st [[<- <-]|[_ Hst]]%lookup_insert_Some; simpl.
    + split_and!; try (unfold in_int64, int64_min, int64_max; lia); apply wrap64_range.
    + destruct (Hh ptr st Hst) as [? ?]. split; [lia|done].
  - intros id' ptr [[<- <-]|[_ Hp]]%lookup_insert_Some.
    + eexists. by rewrite lookup_insert_eq.
    + destruct (Hr id' ptr Hp) as (st & Hst & Hid). exists st. split; [|done].
      rewrite lookup_insert_ne; [done|]. intros E. destruct (Hh ptr st Hst). lia.
Qed.

Lemma typed_remove m id : typed m → typed (Remove m id).
Proof. intros [Hh Hr]. split; [done|]. simpl. intros id' ptr [_ Hp]%lookup_delete_Some. by apply Hr. Qed.

Lemma typed_same m m' :
  registry m' = registry m → heap m' = heap m → next_ptr m' = next_ptr m → typed m → typed m'.
Proof. unfold typed. by intros -> -> ->. Qed.

Lemma typed_kill m id reason : typed m → typed (kill m id reason).1.
Proof. apply typed_same; [apply kill_registry|apply kill_heap|apply kill_next]. Qed.

Lemma typed_update m ptr f :
  (∀ st, SessionID (f st) = SessionID st ∧ IdleTTL (f st) = IdleTTL st ∧ AbsoluteTTL (f st) = AbsoluteTTL st ∧
    (in_int64 (ActiveConns st) → in_int64 (ActiveConns (f st)))) →
  typed m → typed (update m ptr f).
Proof.
  intros Hf [Hh Hr]. split; cbn [update heap registry next_ptr].
  - intros p st. rewrite lookup_alter_Some. intros [(<- & st' & Hst & ->)|[_ Hst]]; [|by apply Hh].
    destruct (Hh _ _ Hst) as (? & ? & ? & ?). destruct (Hf st') as (_ & -> & -> & Hc). auto.
  - intros id p Hp. destruct (Hr id p Hp) as (st & Hst & Hid). destruct (decide (p = ptr)) as [->|Hne].
    + exists (f st). rewrite lookup_alter_eq, Hst. split; [done|]. by destruct (Hf st) as [-> _].
    + exists st. by rewrite lookup_alter_ne.
Qed.

Lemma typed_heartbeat m now id : typed m → typed (UpdateHeartbeat m now id).
Proof. intros Hm. unfold UpdateHeartbeat. destruct (registry m !! id); [|done]. by apply typed_update. Qed.

Lemma typed_begin m id : typed m → typed (BeginRequest m id).
Proof.
  intros Hm. unfold BeginRequest. destruct (registry m !! id); [|done]. apply typed_update; [|done].
  intros st. split_and!; try done. intros _. apply wrap64_range.
Qed.

Lemma typed_end m now id deadline : typed m → typed (EndRequest m now id deadline).
Proof.
  intros Hm. unfold EndRequest. destruct (registry m !! id) as [ptr|]; [|done].
  assert (typed (update m ptr (end_conn now))) as Hu.
  { apply typed_update; [|done]. intros st. split_and!; try done. intros _. simpl.
    case_match; [by unfold in_int64, int64_min, int64_max; lia|apply wrap64_range]. }
  destruct deadline; [|done]. by apply typed_remove, typed_kill.
Qed.

Lemma typed_unregister m id reason : typed m → typed (UnregisterAndKill m id reason).1.
Proof. intros Hm. by apply typed_kill, typed_remove. Qed.

Lemma typed_sweep m now order : typed m → typed (sweep m now order).
Proof.
  unfold sweep. revert m. induction order as [|[id ptr] order IH]; intros m Hm; [done|]. cbn [sweep_loop].
  destruct (_ ≫= _); apply IH; [by apply typed_unregister|done].
Qed.

Lemma remove_inv m L id : lease_inv (m, L) → lease_inv (Remove m id, L).
Proof.
  intros (Hlt & Hreg & Hlen). split_and!; [done| |done]. simpl.
  intros id' p [_ Hp]%lookup_delete_Some. by apply Hreg.
Qed.

Lemma kill_inv m L id reason : lease_inv (m, L) → lease_inv ((kill m id reason).1, L).
Proof.
  intros (Hlt & Hreg & Hlen). split_and!; [| |done]; cbn [fst snd] in *.
  - intros p st. rewrite kill_heap, kill_next. apply Hlt.
  - intros id' p. rewrite kill_heap, kill_registry. apply Hreg.
Qed.

Lemma lease_inv_step s s' : lease_step s s' → lease_inv s → lease_inv s'.
Proof.
  destruct 1 as [m L now id cfg maps Hid|m L now id|m L id Hlen|m L L' now id dl HL|m L id reason
                |m L now order Ho]; intros Hinv.
  - destruct Hinv as (Hlt & Hreg & Hlen). split_and!; [| |done]; simpl in *.
    + intros p st [[<- _]|[_ Hp]]%lookup_insert_Some; [lia|]. apply Hlt in Hp. lia.
    + intros id' p [[<- <-]|[Hne Hp]]%lookup_insert_Some.
      * eexists. rewrite lookup_insert_eq. split_and!; [done..|]. simpl.
        by rewrite in_flight_absent.
      * destruct (Hreg id' p Hp) as (st & Hst & HS & HC). exists st.
        apply Hlt in Hst as Hp'. rewrite lookup_insert_ne by lia. done.
  - unfold UpdateHeartbeat. destruct (registry m !! id) as [ptr|] eqn:E; [|done].
    eapply update_inv; try done. apply Hinv.
  - assert (Z.of_nat (length (id :: L)) ≤ int64_max) by (simpl; lia).
    assert (∀ id', id' ≠ id → in_flight id' (id :: L) = in_flight id' L) as Hother.
    { intros id' Hne. rewrite in_flight_cons, decide_False by done. lia. }
    unfold BeginRequest. destruct (registry m !! id) as [ptr|] eqn:E.
    + eapply update_inv; try done. intros st HS HC. simpl.
      rewrite in_flight_cons, decide_True, HC by done. pose proof (in_flight_range id L).
      apply wrap64_id. int_lia.
    + destruct Hinv as (Hlt & Hreg & _). split_and!; [done| |done]. simpl in *.
      intros id' p Hp. rewrite Hother by congruence. by apply Hreg.
  - assert (∀ id', id' ≠ id → in_flight id' L' = in_flight id' L) as Hother.
    { intros id' Hne. rewrite (in_flight_perm id' L _ HL), in_flight_cons, decide_False by done. lia. }
    pose proof (Permutation_length HL) as Hl. simpl in Hl.
    pose proof (proj2 (proj2 Hinv)) as Hlen. simpl in Hlen.
    unfold EndRequest. destruct (registry m !! id) as [ptr|] eqn:E.
    + assert (lease_inv (update m ptr (end_conn now), L')) as Hu.
      { eapply update_inv; try done; [|lia]. intros st HS HC. simpl. rewrite HC.
        rewrite (in_flight_perm id L _ HL), in_flight_cons, decide_True by done.
        pose proof (in_flight_range id L'). rewrite wrap64_id by int_lia.
        destruct (Z.ltb_spec (in_flight id L' + 1 - 1) 0); lia. }
      destruct dl; [|done]. by apply remove_inv, kill_inv.
    + destruct Hinv as (Hlt & Hreg & _). split_and!; [done| |simpl; lia]. simpl in *.
      intros id' p Hp. rewrite Hother by congruence. by apply Hreg.
  - by apply kill_inv, remove_inv.
  - destruct Hinv as (Hlt & Hreg & Hlen). unfold sweep, lease_inv. cbn [fst snd] in *.
    destruct (sweep_loop_spec now order m) as (Eh & En & _ & Hr).
    split_and!; [intros p st; rewrite Eh, En; apply Hlt| |done].
    intros id p [Hp _]%Hr. rewrite Eh. by apply Hreg.
Qed.

Lemma condemned_elem now order m id reason :
  order ≡ₚ map_to_list (registry m) →
  (id, reason) ∈ condemned m now order ↔ lookup_state m id ≫= verdict now = Some reason.
Proof.
  intros Ho. unfold condemned, lookup_state, GetSession. rewrite list_elem_of_omap. split.
  - intros ([id' ptr] & Hin & E). rewrite Ho, elem_of_map_to_list in Hin. simpl in E.
    destruct (heap m !! ptr) as [st|] eqn:Est; [|done]. simpl in E.
    destruct (verdict now st) as [r|] eqn:Ev; [|done]. simplify_eq/=.
    rewrite Hin. simpl. by rewrite Est.
  - intros E. destruct (registry m !! id) as [ptr|] eqn:Er; [|done]. simpl in E.
    exists (id, ptr). rewrite Ho, elem_of_map_to_list. split; [done|]. simpl.
    destruct (heap m !! ptr) as [st|]; [|done]. simpl in *. by rewrite E.
Qed.

Lemma condemned_ids now order m : (condemned m now order).*1 `sublist_of` order.*1.
Proof.
  unfold condemned. induction order as [|[id ptr] order IH]; [done|]. rewrite omap_cons. simpl.
  destruct (heap m !! ptr) as [st|]; simpl; [|by apply sublist_cons].
  destruct (verdict now st); simpl; [by apply sublist_skip|by apply sublist_cons].
Qed.

Lemma condemned_nodup now order m :
  order ≡ₚ map_to_list (registry m) → NoDup (condemned m now order).*1.
Proof.
  intros Ho. eapply sublist_NoDup; [|apply condemned_ids]. rewrite Ho. apply NoDup_fst_map_to_list.
Qed.

Lemma seconds_exact secs : 0 ≤ secs ≤ 9223372036 → seconds secs = secs * Second.
Proof. intros Hs. unfold seconds, Second. rewrite (wrap64_id secs) by int_lia. apply wrap64_id. int_lia. Qed.

Lemma seconds_overflow secs : 9223372036 < secs ≤ 18446744073 → seconds secs < 0.
Proof.
  intros Hs. unfold seconds, Second. rewrite (wrap64_id secs) by int_lia. unfold wrap64. pow_lia.
Qed.

End lemmas.

(** ** Properties *)

Section properties.
Context {K : Type} `{WorkerReaper K}.
#[local] Set Default Proof Using "Type*".
Implicit Types (m : Manager (K := K)) (L : list string).

(** The registry after a sweep, and the states in it. *)
Lemma sweep_registry m now order id ptr :
  order ≡ₚ map_to_list (registry m) →
  registry (sweep m now order) !! id = Some ptr ↔
    registry m !! id = Some ptr ∧ lookup_state m id ≫= verdict now = None.
Proof.
  intros Ho. destruct (sweep_loop_spec now order m) as (_ & _ & _ & Hreg).
  pose proof (condemned_elem now order m) as Hc. unfold sweep. rewrite Hreg.
  split; intros [Hp Hid]; (split; [done|]).
  - apply eq_None_not_Some. intros [reason E%Hc]; [|done]. apply Hid, list_elem_of_fmap.
    by exists (id, reason).
  - intros ([id' reason] & -> & Hin)%list_elem_of_fmap. apply Hc in Hin; [|done]. simpl in *. congruence.
Qed.

Lemma sweep_state m now order id ptr :
  registry m !! id = Some ptr → registry (sweep m now order) !! id = Some ptr →
  lookup_state (sweep m now order) id = lookup_state m id.
Proof.
  intros H1 H2. unfold lookup_state, GetSession. rewrite H1, H2. cbn [mbind option_bind].
  destruct (sweep_loop_spec now order m) as (Hh & _). unfold sweep. by rewrite Hh.
Qed.

(** On its own the reaper leaves exactly the sessions that no rule condemned at any tick. *)
Lemma reaper_leaves m ticks id ptr :
  in_order m ticks →
  registry (StartReaper m ticks) !! id = Some ptr ↔
    registry m !! id = Some ptr ∧ Forall (λ t, lookup_state m id ≫= verdict t.1 = None) ticks.
Proof.
  revert m. induction ticks as [|[now order] ticks IH]; intros m; cbn [in_order StartReaper foldl fst snd].
  { intros _. split; [done|by intros [? _]]. }
  intros [Ho Hin]. fold (StartReaper (sweep m now order) ticks). rewrite (IH _ Hin), Forall_cons. cbn [fst].
  assert (∀ ptr, registry m !! id = Some ptr → lookup_state m id ≫= verdict now = None →
    lookup_state (sweep m now order) id = lookup_state m id) as Hst
    by (intros p Hp Hv; eapply sweep_state; [exact Hp|by apply sweep_registry]).
  rewrite (sweep_registry m now order id ptr Ho). split.
  - intros [[Hp Hv] Hall]. by rewrite (Hst ptr Hp Hv) in Hall.
  - intros (Hp & Hv & Hall). by rewrite (Hst ptr Hp Hv).
Qed.

(** [C19] A sweep unregisters and kills exactly the sessions that a rule condemns, each
    once and with the rule's reason, and leaves every other session and all the session
    objects alone, in whatever order the snapshot of the registry is ranged over. *)
Theorem sweep_exact m now order :
  order ≡ₚ map_to_list (registry m) →
  (∀ id ptr, registry (sweep m now order) !! id = Some ptr ↔
    registry m !! id = Some ptr ∧ lookup_state m id ≫= verdict now = None) ∧
  heap (sweep m now order) = heap m ∧
  reaper (sweep m now order) = kill_all (reaper m) (condemned m now order) ∧
  NoDup (condemned m now order).*1 ∧
  (∀ id reason, (id, reason) ∈ condemned m now order ↔
    lookup_state m id ≫= verdict now = Some reason).
Proof.
  intros Ho. destruct (sweep_loop_spec now order m) as (Hh & _ & Hr & _).
  pose proof (condemned_elem now order m) as Hc.
  split_and!; [intros id ptr; by apply sweep_registry|done|done|by apply condemned_nodup|by intros; apply Hc].
Qed.

(** [C20] In every history in which the proxy pairs its calls and a session is not
    registered while requests for it are in flight, a session's [ActiveConns] is exactly
    the number of its requests in flight, and the idle rule never condemns a session that
    has one. *)
Theorem busy_session_not_idle k0 m L id st :
  rtc lease_step (NewManager k0, []) (m, L) → lookup_state m id = Some st →
  ActiveConns st = in_flight id L ∧
  (id ∈ L → ∀ now, verdict now st ≠ Some "idle_ttl_expired").
Proof.
  intros Hrtc Hst.
  assert (lease_inv (m, L)) as (_ & Hreg & _).
  { eapply (invariant_rtc lease_step); [intros s1 s2; apply lease_inv_step|exact Hrtc|].
    split_and!; simpl; [done| |int_lia]. intros ? ?. by rewrite lookup_empty. }
  unfold lookup_state, GetSession in Hst. apply bind_Some in Hst as (ptr & Hp & Hst).
  destruct (Hreg id ptr Hp) as (st' & Hst' & _ & HC). simpl in *.
  rewrite Hst in Hst'. simplify_eq. split; [done|]. intros Hin now. unfold verdict.
  case_decide; [done|]. case_decide as Hidle; [|done]. destruct Hidle as (_ & H0' & _). exfalso.
  rewrite HC in H0'. apply list_elem_of_split in Hin as (l1 & l2 & ->).
  rewrite (in_flight_perm id _ (id :: (l1 ++ l2))), in_flight_cons, decide_True in H0'
    by (done || by rewrite <-Permutation_middle).
  pose proof (in_flight_range id (l1 ++ l2)). lia.
Qed.

(** For limits up to 9223372036 seconds (292 years) the rules mean what the API
    says, whatever the time: a session outlives its absolute limit, or its idle limit
    with no request in flight, exactly when the reaper's rule says so; 0 is no limit. *)
Theorem ttl_rules_exact m now0 now id cfg mappings st :
  0 ≤ TTLSeconds cfg ≤ 9223372036 → 0 ≤ IdleTimeoutSeconds cfg ≤ 9223372036 →
  lookup_state (Register m now0 id cfg mappings) id = Some st →
  verdict now st =
    if decide (0 < TTLSeconds cfg ∧ TTLSeconds cfg * Second < now - now0) then
      Some "absolute_ttl_expired"
    else if decide (0 < IdleTimeoutSeconds cfg ∧ IdleTimeoutSeconds cfg * Second < now - now0) then
      Some "idle_ttl_expired"
    else None.
Proof.
  intros Ht Hi Hst. unfold lookup_state, GetSession in Hst. simpl in Hst.
  rewrite lookup_insert_eq in Hst. simpl in Hst. rewrite lookup_insert_eq in Hst. simplify_eq.
  unfold verdict. simpl. rewrite !seconds_exact by done.
  unfold Sub, Second, int64_min, int64_max. repeat case_decide; lia || done.
Qed.

(** A limit above that, up to twice as long, overflows to a negative duration, and
    the session has no limit at all. *)
Theorem huge_ttl_never_expires m now0 now id cfg mappings st :
  9223372036 < TTLSeconds cfg ≤ 18446744073 →
  lookup_state (Register m now0 id cfg mappings) id = Some st →
  verdict now st ≠ Some "absolute_ttl_expired".
Proof.
  intros Ht Hst. unfold lookup_state, GetSession in Hst. simpl in Hst.
  rewrite lookup_insert_eq in Hst. simpl in Hst. rewrite lookup_insert_eq in Hst. simplify_eq.
  unfold verdict. simpl. pose proof (seconds_overflow _ Ht).
  rewrite decide_False by lia. by case_decide.
Qed.

(** [EndRequest] on a registered session ends one of its requests (the counter does
    not go below zero) and notes the activity; when the request ran into its deadline it
    also kills the worker once and unregisters the session; an unknown session changes
    nothing. *)
Theorem end_request_spec m now id deadline :
  match registry m !! id with
  | None => EndRequest m now id deadline = m
  | Some ptr =>
      heap (EndRequest m now id deadline) = alter (end_conn now) ptr (heap m) ∧
      (∀ st, in_int64 (ActiveConns st) → 0 ≤ ActiveConns st →
        ActiveConns (end_conn now st) = Z.max 0 (ActiveConns st - 1) ∧
        LastDataActivity (end_conn now st) = now) ∧
      registry (EndRequest m now id deadline) =
        (if deadline then delete id (registry m) else registry m) ∧
      reaper (EndRequest m now id deadline) =
        (if deadline then (KillWorker (reaper m) id "data_plane_deadlock").1 else reaper m)
  end.
Proof.
  unfold EndRequest. destruct (registry m !! id) as [ptr|] eqn:E; [|done].
  split_and!.
  - destruct deadline; [|done]. simpl. by rewrite kill_heap.
  - intros st Hr Hn. simpl. rewrite wrap64_id by int_lia.
    destruct (Z.ltb_spec (ActiveConns st - 1) 0); split; (done || lia).
  - destruct deadline; [|done]. simpl. by rewrite kill_registry.
  - destruct deadline; [|done]. simpl. by rewrite kill_reaper.
Qed.

(** Registering a session again (as [CreateSession] does for a session that exists)
    starts a new count: a request in flight is forgotten, and once the idle limit has
    passed the reaper kills the session under it. *)
Theorem reregister_forgets_requests m now0 now id cfg mappings order :
  0 < IdleTimeoutSeconds cfg ≤ 9223372036 → TTLSeconds cfg = 0 →
  IdleTimeoutSeconds cfg * Second < now - now0 →
  let m' := Register (BeginRequest m id) now0 id cfg mappings in
  order ≡ₚ map_to_list (registry m') →
  (id, "idle_ttl_expired") ∈ condemned m' now order ∧ registry (sweep m' now order) !! id = None.
Proof.
  intros Hi Ht Hnow m' Ho.
  assert (lookup_state m' id ≫= verdict now = Some "idle_ttl_expired") as Hv.
  { unfold m', lookup_state, GetSession. simpl. rewrite lookup_insert_eq. simpl.
    rewrite lookup_insert_eq. simpl. unfold verdict. simpl. rewrite Ht, !seconds_exact by lia.
    rewrite decide_False by lia. rewrite decide_True; [done|].
    unfold Sub, Second, int64_min, int64_max in *. lia. }
  assert ((id, "idle_ttl_expired") ∈ condemned m' now order) as Hin by by apply condemned_elem.
  split; [done|]. apply eq_None_not_Some. intros [ptr Hp].
  destruct (sweep_loop_spec now order m') as (_ & _ & _ & Hreg).
  apply Hreg in Hp as [_ Hno]. apply Hno, list_elem_of_fmap. by exists (id, "idle_ttl_expired").
Qed.

End properties.

(** ** Witnesses *)

Lemma sweep_exact_witness :
  reaper (sweep demo (61 * Second) [("b", 1%nat); ("a", 0%nat)]) = [("a", "idle_ttl_expired")] ∧
  (∀ id ptr, registry (sweep demo (61 * Second) [("b", 1%nat); ("a", 0%nat)]) !! id = Some ptr ↔
    registry demo !! id = Some ptr ∧ lookup_state demo id ≫= verdict (61 * Second) = None).
Proof.
  split; [vm_compute; reflexivity|].
  refine (proj1 (sweep_exact demo (61 * Second) [("b", 1%nat); ("a", 0%nat)] _)).
  assert (map_to_list (registry demo) = [("a", 0%nat); ("b", 1%nat)] ∨
          map_to_list (registry demo) = [("b", 1%nat); ("a", 0%nat)]) as [E|E]
    by (first [left; vm_compute; reflexivity|right; vm_compute; reflexivity]).
  - rewrite E. constructor.
  - by rewrite E.
Defined.

Lemma busy_session_not_idle_witness :
  ∃ st, ActiveConns st = in_flight "b" ["b"] ∧
    ("b" ∈ ["b"] → ∀ now, verdict now st ≠ Some "idle_ttl_expired").
Proof.
  eexists. refine (busy_session_not_idle [] demo ["b"] "b" _ _ _); [|vm_compute; reflexivity].
  unfold demo. eapply rtc_l; [by apply lease_register, not_elem_of_nil|].
  eapply rtc_l; [by apply lease_register, not_elem_of_nil|].
  eapply rtc_l; [by apply lease_begin|]. apply rtc_refl.
Defined.

Lemma ttl_rules_exact_witness :
  ∃ st, verdict (3601 * Second) st = Some "absolute_ttl_expired" ∧
    verdict (3601 * Second) st =
      if decide (0 < TTLSeconds (demo_config 60 3600) ∧
                 TTLSeconds (demo_config 60 3600) * Second < 3601 * Second - 0) then
        Some "absolute_ttl_expired"
      else if decide (0 < IdleTimeoutSeconds (demo_config 60 3600) ∧
                 IdleTimeoutSeconds (demo_config 60 3600) * Second < 3601 * Second - 0) then
        Some "idle_ttl_expired"
      else None.
Proof.
  eexists. split; [|refine (ttl_rules_exact (NewManager ([] : list (string * string))) 0
    (3601 * Second) "a" (demo_config 60 3600) [] _ _ _ _)];
    [|vm_compute; split; congruence|vm_compute; split; congruence|vm_compute; reflexivity].
  vm_compute. reflexivity.
Defined.

Lemma huge_ttl_never_expires_witness :
  ∃ st, verdict (10 ^ 18) st ≠ Some "absolute_ttl_expired".
Proof.
  eexists. refine (huge_ttl_never_expires (NewManager ([] : list (string * string))) 0
    (10 ^ 18) "a" (demo_config 60 9223372037) [] _ _ _); [vm_compute; split; congruence|].
  vm_compute. reflexivity.
Defined.

Lemma reregister_forgets_requests_witness :
  ("b", "idle_ttl_expired") ∈
    condemned (Register (BeginRequest demo "b") 0 "b" (demo_config 60 0) []) (61 * Second)
      (map_to_list (registry (Register (BeginRequest demo "b") 0 "b" (demo_config 60 0) []))) ∧
  registry (sweep (Register (BeginRequest demo "b") 0 "b" (demo_config 60 0) []) (61 * Second)
      (map_to_list (registry (Register (BeginRequest demo "b") 0 "b" (demo_config 60 0) []))))
    !! "b" = None.
Proof.
  refine (reregister_forgets_requests demo 0 (61 * Second) "b" (demo_config 60 0) [] _ _ _ _ _);
    [vm_compute; split; congruence|reflexivity|vm_compute; reflexivity|reflexivity].
Defined.

End Lifecycle.
