(* ===== verification/HostNet.v ===== *)
(** * Host networking ([internal/network/nat.go])

    The code drives the kernel through [iptables] and netlink.  Both are interfaces here,
    with the documented behaviour the code relies on as laws: appending a rule puts it at
    the end of its chain, deleting one removes its first copy, and a command that fails
    changes nothing.  A deletion may fail, for want of the rule or for another reason (the
    lock of the tables is taken); the code drops the error, so the host remembers whether
    one was refused whose rule was there.  The argument vectors are the code's, word for
    word. *)
From stdpp Require Import options.
From S2P Require Import Prelude GoStrings GoNet.
#[local] Open Scope Z_scope.

(** Running a command; [rules h table chain] lists the argument vectors of a chain's rules,
    and [rule_kept h] says whether the deletion of a rule that was there has failed so far. *)
Class Commands (H : Type) := {
  runCmd : H → string → list string → H * option string;
  rules : H → string → string → list (list string);
  rule_kept : H → bool
}.

(** The words in front of a rule: the default table is [filter]. *)
Definition on_chain (table : string) (op chain : string) (spec : list string) : list string :=
  if decide (table = "filter") then op :: chain :: spec else "-t" :: table :: op :: chain :: spec.

Fixpoint remove_rule (spec : list string) (l : list (list string)) : list (list string) :=
  match l with
  | [] => []
  | r :: l => if decide (r = spec) then l else r :: remove_rule spec l
  end.

Class IptablesLaws (H : Type) `{Commands H} := {
  append_law h table chain spec :
    match runCmd h "iptables" (on_chain table "-A" chain spec) with
    | (h', None) => ∀ t c, rules h' t c =
        if decide (t = table ∧ c = chain) then rules h t c ++ [spec] else rules h t c
    | (h', Some _) => ∀ t c, rules h' t c = rules h t c
    end;
  append_keeps h table chain spec :
    rule_kept (runCmd h "iptables" (on_chain table "-A" chain spec)).1 = rule_kept h;
  delete_law h table chain spec :
    match runCmd h "iptables" (on_chain table "-D" chain spec) with
    | (h', None) => rule_kept h' = rule_kept h ∧ ∀ t c, rules h' t c =
        if decide (t = table ∧ c = chain) then remove_rule spec (rules h t c) else rules h t c
    | (h', Some _) => rule_kept h' = rule_kept h || bool_decide (spec ∈ rules h table chain) ∧
        ∀ t c, rules h' t c = rules h t c
    end;
  sysctl_law h args : ∀ t c, rules (runCmd h "sysctl" args).1 t c = rules h t c
}.

Module HostNet.

Definition Subnet : string := "10.200.0.0/16".

Inductive error :=
  | ErrRoutes (e : string)
  | ErrLink (index : Z) (e : string)
  | ErrNoDefault
  | ErrCmd (what e : string).

(** ** The outbound interface *)

(** A route's destination is nil or a network. *)
Record route := mkRoute { Dst : option (list Z); LinkIndex : Z }.

Definition IPv4zero : list Z := v4InV6Prefix ++ [0; 0; 0; 0].

Fixpoint first_default (LinkByIndex : Z → result string string) (routes : list route)
    : result error string :=
  match routes with
  | [] => Err ErrNoDefault
  | r :: routes =>
      if match Dst r with None => true | Some ip => IP_Equal ip IPv4zero end then
        if decide (LinkIndex r = 0) then first_default LinkByIndex routes
        else match LinkByIndex (LinkIndex r) with
             | Err e => Err (ErrLink (LinkIndex r) e)
             | Ok name => Ok name
             end
      else first_default LinkByIndex routes
  end.

Definition getDefaultInterface (RouteList : result string (list route))
    (LinkByIndex : Z → result string string) : result error string :=
  match RouteList with
  | Err e => Err (ErrRoutes e)
  | Ok routes => first_default LinkByIndex routes
  end.

(** ** Rules *)

Definition masquerade_out (iface : string) : list string :=
  ["-o"; iface; "-s"; Subnet; "-j"; "MASQUERADE"].
Definition masquerade_local : list string :=
  ["-d"; Subnet; "-m"; "addrtype"; "--src-type"; "LOCAL"; "-j"; "MASQUERADE"].
Definition established : list string :=
  ["-m"; "conntrack"; "--ctstate"; "RELATED,ESTABLISHED"; "-j"; "ACCEPT"].
Definition private_nets : list string := ["10.0.0.0/8"; "172.16.0.0/12"; "192.168.0.0/16"].
Definition drop_private (privNet : string) : list string :=
  ["-s"; Subnet; "-d"; privNet; "-j"; "DROP"].
Definition accept_out (iface : string) : list string :=
  ["-s"; Subnet; "-o"; iface; "-j"; "ACCEPT"].

Definition dest (guestIP : string) (guestPort : Z) : string := guestIP +:+ ":" +:+ Itoa guestPort.

Definition dnat_spec (hostInterface : string) (hostPort : Z) (guestIP : string) (guestPort : Z)
    (protocol : string) : list string :=
  ["-p"; protocol] ++
  (if decide (hostInterface ≠ "" ∧ hostInterface ≠ "0.0.0.0") then
     match ParseIP hostInterface with
     | Some _ => ["-d"; hostInterface]
     | None => ["-i"; hostInterface]
     end
   else ["-m"; "addrtype"; "--dst-type"; "LOCAL"]) ++
  ["--dport"; Itoa hostPort; "-j"; "DNAT"; "--to-destination"; dest guestIP guestPort].

Definition output_spec (hostPort : Z) (guestIP : string) (guestPort : Z) (protocol : string)
    : list string :=
  ["-p"; protocol; "-m"; "addrtype"; "--dst-type"; "LOCAL"; "--dport"; Itoa hostPort; "-j"; "DNAT";
   "--to-destination"; dest guestIP guestPort].

Definition forward_spec (guestIP : string) (guestPort : Z) (protocol : string) : list string :=
  ["-p"; protocol; "!"; "-s"; Subnet; "-d"; guestIP; "--dport"; Itoa guestPort; "-j"; "ACCEPT"].

(** Whether the host itself reaches the published port. *)
Definition local_too (hostInterface : string) : bool :=
  bool_decide (hostInterface = "" ∨ hostInterface = "0.0.0.0" ∨ hostInterface = "127.0.0.1").

Definition proto_of (protocol : string) : string := if decide (protocol = "") then "tcp" else protocol.

Section nat.
Context {H : Type} `{Commands H}.

Definition append (h : H) (table chain : string) (spec : list string) : H * option string :=
  runCmd h "iptables" (on_chain table "-A" chain spec).

Definition delete_rule (h : H) (table chain : string) (spec : list string) : H :=
  (runCmd h "iptables" (on_chain table "-D" chain spec)).1.

(** A list of commands that stops at the first failure. *)
Fixpoint run_all (h : H) (cmds : list (string * list string)) : H * option error :=
  match cmds with
  | [] => (h, None)
  | (name, args) :: cmds =>
      match runCmd h name args with
      | (h, Some e) => (h, Some (ErrCmd name e))
      | (h, None) => run_all h cmds
      end
  end.

Definition bootstrap_cmds (iface : string) : list (string * list string) :=
  [("sysctl", ["-w"; "net.ipv4.ip_forward=1"]);
   ("sysctl", ["-w"; "net.ipv4.conf.all.route_localnet=1"]);
   ("iptables", on_chain "nat" "-A" "POSTROUTING" (masquerade_out iface));
   ("iptables", on_chain "filter" "-A" "FORWARD" established);
   ("iptables", on_chain "nat" "-A" "POSTROUTING" masquerade_local)] ++
  ((λ privNet, ("iptables", on_chain "filter" "-A" "FORWARD" (drop_private privNet))) <$> private_nets) ++
  [("iptables", on_chain "filter" "-A" "FORWARD" (accept_out iface))].

Definition Bootstrap (h : H) (RouteList : result string (list route))
    (LinkByIndex : Z → result string string) : H * option error :=
  match getDefaultInterface RouteList LinkByIndex with
  | Err e => (h, Some e)
  | Ok iface => run_all h (bootstrap_cmds iface)
  end.

Definition Teardown (h : H) (RouteList : result string (list route))
    (LinkByIndex : Z → result string string) : H * option error :=
  match getDefaultInterface RouteList LinkByIndex with
  | Err e => (h, Some e)
  | Ok iface =>
      let h := delete_rule h "nat" "POSTROUTING" (masquerade_out iface) in
      let h := delete_rule h "nat" "POSTROUTING" masquerade_local in
      let h := delete_rule h "filter" "FORWARD" established in
      let h := foldl (λ h privNet, delete_rule h "filter" "FORWARD" (drop_private privNet)) h private_nets in
      let h := delete_rule h "filter" "FORWARD" (accept_out iface) in
      (h, None)
  end.

Definition AddPortMapping (h : H) (hostInterface : string) (hostPort : Z) (guestIP : string)
    (guestPort : Z) (protocol : string) : H * option error :=
  let protocol := proto_of protocol in
  let dnat := dnat_spec hostInterface hostPort guestIP guestPort protocol in
  let output := output_spec hostPort guestIP guestPort protocol in
  match append h "nat" "PREROUTING" dnat with
  | (h, Some e) => (h, Some (ErrCmd "iptables dnat add" e))
  | (h, None) =>
      let h := if local_too hostInterface then (append h "nat" "OUTPUT" output).1 else h in
      match append h "filter" "FORWARD" (forward_spec guestIP guestPort protocol) with
      | (h, Some e) =>
          let h := delete_rule h "nat" "PREROUTING" dnat in
          let h := delete_rule h "nat" "OUTPUT" output in
          (h, Some (ErrCmd "iptables forward add" e))
      | (h, None) => (h, None)
      end
  end.

Definition RemovePortMapping (h : H) (hostInterface : string) (hostPort : Z) (guestIP : string)
    (guestPort : Z) (protocol : string) : H :=
  let protocol := proto_of protocol in
  let h := delete_rule h "nat" "PREROUTING"
             (dnat_spec hostInterface hostPort guestIP guestPort protocol) in
  let h := if local_too hostInterface
           then delete_rule h "nat" "OUTPUT" (output_spec hostPort guestIP guestPort protocol)
           else h in
  delete_rule h "filter" "FORWARD" (forward_spec guestIP guestPort protocol).

(** The same rules in every chain, in whatever order. *)
Definition same_rules (h h' : H) : Prop := ∀ t c, rules h' t c ≡ₚ rules h t c.

End nat.

(** ** A kernel that meets the laws

    Chains are lists of rules; [refuses] says which appends the kernel rejects, and
    [holds] which deletions. *)

Record kernel := mkKernel {
  chains : gmap (string * string) (list (list string));
  refuses : list string → bool;
  holds : list string → bool;
  kept : bool
}.

Definition chain_of (k : kernel) (t c : string) : list (list string) := default [] (chains k !! (t, c)).

Definition kernel_op (k : kernel) (t op c : string) (spec : list string) : kernel * option string :=
  if decide (op = "-A") then
    if refuses k spec then (k, Some "append failed")
    else (mkKernel (<[(t, c) := chain_of k t c ++ [spec]]> (chains k)) (refuses k) (holds k) (kept k), None)
  else if decide (op = "-D") then
    if decide (spec ∈ chain_of k t c) then
      if holds k spec then (mkKernel (chains k) (refuses k) (holds k) true, Some "another app holds the xtables lock")
      else (mkKernel (<[(t, c) := remove_rule spec (chain_of k t c)]> (chains k)) (refuses k) (holds k) (kept k), None)
    else (k, Some "bad rule")
  else (k, Some "bad command").

#[export] Instance kernel_commands : Commands kernel := {|
  runCmd k name args :=
    if decide (name = "iptables") then
      match args with
      | a :: b :: rest =>
          if decide (a = "-t") then
            match rest with op :: c :: spec => kernel_op k b op c spec | _ => (k, Some "usage") end
          else kernel_op k "filter" a b rest
      | _ => (k, Some "usage")
      end
    else (k, None);
  rules := chain_of;
  rule_kept := kept
|}.

Definition fresh_kernel : kernel := mkKernel ∅ (λ _, false) (λ _, false) false.

(** A kernel with the rules of one published port, that refuses more FORWARD rules. *)
Definition published : kernel :=
  (AddPortMapping fresh_kernel "" 8080 "10.200.0.2" 80 "tcp").1.

Definition published_full : kernel :=
  mkKernel (chains published) (λ spec, bool_decide ("!" ∈ spec)) (λ _, false) false.

(** ** Lemmas *)

Lemma remove_rule_absent spec l : spec ∉ l → remove_rule spec l = l.
Proof.
  induction l as [|r l IH]; simpl; [done|]. intros [Hne Hl]%not_elem_of_cons.
  rewrite decide_False by done. by rewrite IH.
Qed.

Lemma remove_rule_perm spec l l' : l ≡ₚ (spec :: l') → remove_rule spec l ≡ₚ l'.
Proof.
  revert l'. induction l as [|r l IH]; simpl; intros l' Hl; [by apply Permutation_nil_cons in Hl|].
  case_decide as Hr; [rewrite Hr in Hl; by apply Permutation_cons_inv in Hl|].
  assert (spec ∈ r :: l) as Hin by (rewrite Hl; by left).
  apply elem_of_cons in Hin as [?|Hin]; [congruence|].
  apply elem_of_Permutation in Hin as [k Hk]. rewrite (IH k Hk).
  apply (Permutation_cons_inv (a := spec)). rewrite <-Hl, Hk. constructor.
Qed.

#[export] Instance kernel_laws : IptablesLaws kernel.
Proof.
  assert (∀ k t op c spec, op ≠ "-t" →
    runCmd k "iptables" (on_chain t op c spec) = kernel_op k t op c spec) as Hop.
  { intros k t op c spec Hne. unfold on_chain. simpl. destruct (decide (t = "filter")) as [->|].
    - by rewrite decide_False.
    - by rewrite decide_True. }
  split.
  - intros h t c spec. rewrite Hop by done. unfold kernel_op.
    rewrite decide_True by done. destruct (refuses h spec); [done|]. intros t' c'. simpl.
    unfold chain_of. simpl. case_decide as E.
    + destruct E as [-> ->]. by rewrite lookup_insert_eq.
    + rewrite lookup_insert_ne; [done|]. intros [=]. by destruct E.
  - intros h t c spec. rewrite Hop by done. unfold kernel_op. rewrite decide_True by done. by destruct (refuses h spec).
  - intros h t c spec. rewrite Hop by done. unfold kernel_op.
    rewrite decide_False, decide_True by done. case_decide as Hin.
    + destruct (holds h spec).
      * cbn [rules rule_kept kernel_commands kept]. rewrite bool_decide_eq_true_2 by done. by rewrite orb_true_r.
      * split; [done|]. intros t' c'. cbn. unfold chain_of. cbn. case_decide as E.
        -- destruct E as [-> ->]. by rewrite lookup_insert_eq.
        -- rewrite lookup_insert_ne; [done|]. intros [=]. by destruct E.
    + cbn [rules rule_kept kernel_commands]. rewrite bool_decide_eq_false_2 by done. by rewrite orb_false_r.
  - done.
Qed.

Section lemmas.
Context {H : Type} `{IptablesLaws H}.
#[local] Set Default Proof Using "Type*".
Implicit Types (h : H).

Lemma append_ok h t c spec h' :
  append h t c spec = (h', None) →
  ∀ t' c', rules h' t' c' =
    if decide (t' = t ∧ c' = c) then rules h t' c' ++ [spec] else rules h t' c'.
Proof. unfold append. intros E. pose proof (append_law h t c spec) as Hl. by rewrite E in Hl. Qed.

Lemma append_err h t c spec h' e :
  append h t c spec = (h', Some e) → ∀ t' c', rules h' t' c' = rules h t' c'.
Proof. unfold append. intros E. pose proof (append_law h t c spec) as Hl. by rewrite E in Hl. Qed.

Lemma append_kept h t c spec : rule_kept (append h t c spec).1 = rule_kept h.
Proof. apply append_keeps. Qed.

(** A deletion either takes effect or is remembered, and nothing is forgotten. *)
Lemma delete_mono h t c spec : rule_kept (delete_rule h t c spec) = false → rule_kept h = false.
Proof.
  unfold delete_rule. pose proof (delete_law h t c spec) as Hl.
  destruct (runCmd _ _ _) as [h' [e|]]; destruct Hl as [E _]; simpl; rewrite E; [by intros [? _]%orb_false_iff|done].
Qed.

Lemma delete_eq h t c spec t' c' :
  rule_kept (delete_rule h t c spec) = false →
  rules (delete_rule h t c spec) t' c' =
  if decide (t' = t ∧ c' = c) then remove_rule spec (rules h t' c') else rules h t' c'.
Proof.
  unfold delete_rule. pose proof (delete_law h t c spec) as Hl.
  destruct (runCmd _ _ _) as [h' [e|]]; destruct Hl as [E Hr]; simpl; rewrite E, Hr; [|done].
  intros [_ Hn%bool_decide_eq_false]%orb_false_iff. destruct (decide (t' = t ∧ c' = c)) as [[-> ->]|]; [|done].
  by rewrite remove_rule_absent.
Qed.

(** Deleting what was appended, other chains alone. *)
Lemma remove_appended spec (l l' : list (list string)) : l' ≡ₚ l ++ [spec] → remove_rule spec l' ≡ₚ l.
Proof. intros E. apply remove_rule_perm. by rewrite E, Permutation_app_comm. Qed.

Lemma run_all_append h t c spec cmds h' :
  run_all h (("iptables", on_chain t "-A" c spec) :: cmds) = (h', None) →
  ∃ h1, append h t c spec = (h1, None) ∧ run_all h1 cmds = (h', None).
Proof. unfold append. simpl. destruct (runCmd _ _ _) as [h1 [e|]]; [done|]. eauto. Qed.

Lemma run_all_sysctl h args cmds h' :
  run_all h (("sysctl", args) :: cmds) = (h', None) →
  ∃ h1, (∀ t c, rules h1 t c = rules h t c) ∧ run_all h1 cmds = (h', None).
Proof.
  simpl. pose proof (sysctl_law h args) as Hs. destruct (runCmd h "sysctl" args) as [h1 [e|]]; [done|].
  eauto.
Qed.

(** What [Bootstrap]'s commands append. *)
Lemma bootstrap_rules h iface h' :
  run_all h (bootstrap_cmds iface) = (h', None) → ∀ t c, rules h' t c =
    if decide (t = "nat" ∧ c = "POSTROUTING") then
      rules h t c ++ [masquerade_out iface; masquerade_local]
    else if decide (t = "filter" ∧ c = "FORWARD") then
      rules h t c ++ [established] ++ (drop_private <$> private_nets) ++ [accept_out iface]
    else rules h t c.
Proof.
  intros (h1 & A1 & (h2 & A2 & (h3 & A3 & (h4 & A4 & (h5 & A5 &
    (h6 & A6 & (h7 & A7 & (h8 & A8 & (h9 & A9 & E
    )%run_all_append)%run_all_append)%run_all_append)%run_all_append)%run_all_append
    )%run_all_append)%run_all_append)%run_all_sysctl)%run_all_sysctl.
  simpl in E. simplify_eq. intros t c. rewrite (append_ok _ _ _ _ _ A9), (append_ok _ _ _ _ _ A8), (append_ok _ _ _ _ _ A7),
    (append_ok _ _ _ _ _ A6), (append_ok _ _ _ _ _ A5), (append_ok _ _ _ _ _ A4),
    (append_ok _ _ _ _ _ A3), A2, A1.
  repeat (case_decide; destruct_and?; simplify_eq; try done); by rewrite <-?app_assoc.
Qed.

(** What a port mapping's rules are, chain by chain. *)
Lemma add_rules h iface hp ip gp proto h' :
  AddPortMapping h iface hp ip gp proto = (h', None) →
  ∃ o, (o = [] ∨ o = [output_spec hp ip gp (proto_of proto)] ∧ local_too iface = true) ∧
  ∀ t c, rules h' t c =
    if decide (t = "nat" ∧ c = "PREROUTING") then
      rules h t c ++ [dnat_spec iface hp ip gp (proto_of proto)]
    else if decide (t = "nat" ∧ c = "OUTPUT") then rules h t c ++ o
    else if decide (t = "filter" ∧ c = "FORWARD") then
      rules h t c ++ [forward_spec ip gp (proto_of proto)]
    else rules h t c.
Proof.
  unfold AddPortMapping. cbv zeta.
  destruct (append h "nat" "PREROUTING" _) as [h1 [e|]] eqn:E1; [done|].
  set (h2 := if local_too iface then _ else h1).
  destruct (append h2 "filter" "FORWARD" _) as [h3 [e|]] eqn:E3; [done|]. intros ?. simplify_eq.
  assert (∃ o, (o = [] ∨ o = [output_spec hp ip gp (proto_of proto)] ∧ local_too iface = true) ∧
    ∀ t c, rules h2 t c = if decide (t = "nat" ∧ c = "OUTPUT") then rules h1 t c ++ o else rules h1 t c)
    as (o & Ho & E2).
  { unfold h2. destruct (local_too iface).
    - destruct (append h1 "nat" "OUTPUT" _) as [h2' [e|]] eqn:E2.
      + exists []. split; [by left|]. intros t c. rewrite (append_err _ _ _ _ _ _ E2).
        case_decide; by rewrite ?app_nil_r.
      + eexists. split; [by right|]. by apply append_ok.
    - exists []. split; [by left|]. intros t c. case_decide; by rewrite ?app_nil_r. }
  exists o. split; [done|]. intros t c.
  rewrite (append_ok _ _ _ _ _ E3), E2, (append_ok _ _ _ _ _ E1).
  repeat (case_decide; destruct_and?; simplify_eq; try done).
Qed.

(** A failed mapping: the rollback restores every chain but OUTPUT, where it deletes the
    mapping's rule, whether or not it was appended. *)
Lemma add_err_rules h iface hp ip gp proto h' e :
  AddPortMapping h iface hp ip gp proto = (h', Some e) → rule_kept h' = false →
  (∀ t c, rules h' t c = rules h t c) ∨
  ∃ o, (o = [] ∨ o = [output_spec hp ip gp (proto_of proto)]) ∧
  ∀ t c, rules h' t c =
    if decide (t = "nat" ∧ c = "OUTPUT") then
      remove_rule (output_spec hp ip gp (proto_of proto)) (rules h t c ++ o)
    else if decide (t = "nat" ∧ c = "PREROUTING") then
      remove_rule (dnat_spec iface hp ip gp (proto_of proto))
        (rules h t c ++ [dnat_spec iface hp ip gp (proto_of proto)])
    else rules h t c.
Proof.
  unfold AddPortMapping. cbv zeta.
  destruct (append h "nat" "PREROUTING" _) as [h1 [e'|]] eqn:E1.
  { intros ? _. simplify_eq. left. intros. by rewrite (append_err _ _ _ _ _ _ E1). }
  set (h2 := if local_too iface then _ else h1).
  destruct (append h2 "filter" "FORWARD" _) as [h3 [e'|]] eqn:E3; [|done].
  intros ? Hk. simplify_eq. right.
  assert (∃ o, (o = [] ∨ o = [output_spec hp ip gp (proto_of proto)]) ∧
    ∀ t c, rules h2 t c = if decide (t = "nat" ∧ c = "OUTPUT") then rules h1 t c ++ o else rules h1 t c)
    as (o & Ho & E2).
  { unfold h2. destruct (local_too iface).
    - destruct (append h1 "nat" "OUTPUT" _) as [h2' [e''|]] eqn:E2.
      + exists []. split; [by left|]. intros. rewrite (append_err _ _ _ _ _ _ E2).
        case_decide; by rewrite ?app_nil_r.
      + eexists. split; [by right|]. by apply append_ok.
    - exists []. split; [by left|]. intros. case_decide; by rewrite ?app_nil_r. }
  exists o. split; [done|]. intros t c.
  rewrite delete_eq by done. apply delete_mono in Hk. rewrite delete_eq by done.
  rewrite (append_err _ _ _ _ _ _ E3), E2, (append_ok _ _ _ _ _ E1).
  repeat (case_decide; destruct_and?; simplify_eq; try done).
Qed.

(** Nothing that was refused is forgotten. *)
Lemma add_mono h iface hp ip gp proto :
  rule_kept (AddPortMapping h iface hp ip gp proto).1 = false → rule_kept h = false.
Proof.
  unfold AddPortMapping. cbv zeta.
  pose proof (append_kept h "nat" "PREROUTING" (dnat_spec iface hp ip gp (proto_of proto))) as E1.
  destruct (append h "nat" "PREROUTING" _) as [h1 [e|]]; cbn [fst] in *; [by rewrite E1|]. rewrite <-E1.
  set (h2 := if local_too iface then _ else h1).
  assert (rule_kept h2 = rule_kept h1) as <- by (unfold h2; destruct (local_too iface); [apply append_kept|done]).
  pose proof (append_kept h2 "filter" "FORWARD" (forward_spec ip gp (proto_of proto))) as <-.
  destruct (append h2 "filter" "FORWARD" _) as [h3 [e|]]; [|done]. by intros ?%delete_mono%delete_mono.
Qed.

Lemma add_kept h iface hp ip gp proto h' :
  AddPortMapping h iface hp ip gp proto = (h', None) → rule_kept h' = rule_kept h.
Proof.
  unfold AddPortMapping. cbv zeta.
  pose proof (append_kept h "nat" "PREROUTING" (dnat_spec iface hp ip gp (proto_of proto))) as E1.
  destruct (append h "nat" "PREROUTING" _) as [h1 [e|]]; [done|]. rewrite <-E1. cbn [fst].
  set (h2 := if local_too iface then _ else h1).
  assert (rule_kept h2 = rule_kept h1) as <- by (unfold h2; destruct (local_too iface); [apply append_kept|done]).
  pose proof (append_kept h2 "filter" "FORWARD" (forward_spec ip gp (proto_of proto))) as <-.
  destruct (append h2 "filter" "FORWARD" _) as [h3 [e|]]; [done|]. by intros [= <-].
Qed.

Lemma remove_mono h iface hp ip gp proto :
  rule_kept (RemovePortMapping h iface hp ip gp proto) = false → rule_kept h = false.
Proof. unfold RemovePortMapping. cbv zeta. destruct (local_too iface); intros Hk; by repeat apply delete_mono in Hk. Qed.

(** What [RemovePortMapping] deletes, chain by chain. *)
Lemma remove_rules h iface hp ip gp proto t c :
  rule_kept (RemovePortMapping h iface hp ip gp proto) = false →
  rules (RemovePortMapping h iface hp ip gp proto) t c =
    if decide (t = "nat" ∧ c = "PREROUTING") then
      remove_rule (dnat_spec iface hp ip gp (proto_of proto)) (rules h t c)
    else if decide (t = "nat" ∧ c = "OUTPUT") then
      if local_too iface then remove_rule (output_spec hp ip gp (proto_of proto)) (rules h t c)
      else rules h t c
    else if decide (t = "filter" ∧ c = "FORWARD") then
      remove_rule (forward_spec ip gp (proto_of proto)) (rules h t c)
    else rules h t c.
Proof.
  unfold RemovePortMapping. cbv zeta. intros Hk. rewrite delete_eq by done. apply delete_mono in Hk.
  destruct (local_too iface); rewrite delete_eq by done; [apply delete_mono in Hk; rewrite delete_eq by done|];
    repeat (case_decide; destruct_and?; simplify_eq; try done).
Qed.

Lemma remove_output spec o (l : list (list string)) :
  spec ∉ l → o = [] ∨ o = [spec] → remove_rule spec (l ++ o) ≡ₚ l.
Proof.
  intros Hl [->| ->]; [by rewrite app_nil_r, remove_rule_absent|by apply remove_appended].
Qed.

End lemmas.

(** ** Properties *)

Section properties.
Context {H : Type} `{IptablesLaws H}.
#[local] Set Default Proof Using "Type*".
Implicit Types (h : H).

(** [C21] Publishing a port and taking it back leaves every chain of the host with the
    rules it had, in some order, provided the host had no such OUTPUT rule of its own and
    refused no deletion of a rule that was there; in between, the DNAT and FORWARD rules are
    in place, the latter at the end of its chain, behind the isolation rules. *)
Theorem port_mapping_roundtrip h iface hp ip gp proto h1 :
  AddPortMapping h iface hp ip gp proto = (h1, None) →
  output_spec hp ip gp (proto_of proto) ∉ rules h "nat" "OUTPUT" →
  dnat_spec iface hp ip gp (proto_of proto) ∈ rules h1 "nat" "PREROUTING" ∧
  rules h1 "filter" "FORWARD" = rules h "filter" "FORWARD" ++ [forward_spec ip gp (proto_of proto)] ∧
  (rule_kept (RemovePortMapping h1 iface hp ip gp proto) = false →
   same_rules h (RemovePortMapping h1 iface hp ip gp proto)).
Proof.
  intros (o & Ho & E)%add_rules Hout. split_and!.
  - rewrite E, decide_True by done. apply elem_of_app. right. by left.
  - by rewrite E.
  - intros Hk t c. rewrite remove_rules, E by done.
    repeat (case_decide; destruct_and?; simplify_eq; try done); try by apply remove_appended.
    destruct (local_too iface) eqn:El; [apply remove_output; naive_solver|].
    destruct Ho as [->|[_ ?]]; [by rewrite app_nil_r|done].
Qed.

(** A port mapping that cannot be added leaves every chain with the rules it had,
    under the same provisos. *)
Theorem failed_mapping_restores h iface hp ip gp proto h1 e :
  AddPortMapping h iface hp ip gp proto = (h1, Some e) →
  output_spec hp ip gp (proto_of proto) ∉ rules h "nat" "OUTPUT" → rule_kept h1 = false →
  same_rules h h1.
Proof.
  intros Ea Hout Hk t c. destruct (add_err_rules _ _ _ _ _ _ _ _ Ea Hk) as [E|(o & Ho & E)]; rewrite E; [done|].
  repeat (case_decide; destruct_and?; simplify_eq; try done).
  all: first [by apply remove_appended|by apply remove_output].
Qed.

(** [C22] After [Bootstrap] the FORWARD chain ends with the rules in the order that
    isolates the VMs: established connections, then the drops to each private network,
    and only then the VMs' way out; and [Teardown] takes every rule back, and leaves the
    chains as they were up to the order, unless the host refused to delete a rule that was
    there. *)
Theorem bootstrap_isolates h RouteList LinkByIndex h1 :
  Bootstrap h RouteList LinkByIndex = (h1, None) →
  ∃ iface h2,
    getDefaultInterface RouteList LinkByIndex = Ok iface ∧
    rules h1 "filter" "FORWARD" = rules h "filter" "FORWARD" ++
      [established; drop_private "10.0.0.0/8"; drop_private "172.16.0.0/12";
       drop_private "192.168.0.0/16"; accept_out iface] ∧
    rules h1 "nat" "POSTROUTING" =
      rules h "nat" "POSTROUTING" ++ [masquerade_out iface; masquerade_local] ∧
    Teardown h1 RouteList LinkByIndex = (h2, None) ∧ (rule_kept h2 = false → same_rules h h2).
Proof.
  unfold Bootstrap, Teardown. destruct (getDefaultInterface _ _) as [iface|e]; [|done].
  intros E. pose proof (bootstrap_rules _ _ _ E) as Hr. eexists iface, _.
  split_and!; [done|by rewrite Hr|by rewrite Hr|done|].
  cbn [foldl private_nets]. intros Hk t c.
  repeat (rewrite delete_eq by done; apply delete_mono in Hk). rewrite Hr.
  repeat (case_decide; destruct_and?; simplify_eq; try done).
  all: repeat apply remove_rule_perm; cbn [fmap list_fmap private_nets app];
    by rewrite Permutation_app_comm.
Qed.

End properties.

(** ** Witnesses and a counterexample *)

Lemma port_mapping_roundtrip_witness :
  dnat_spec "" 9090 "10.200.0.3" 80 "tcp" ∈
    rules (AddPortMapping published "" 9090 "10.200.0.3" 80 "").1 "nat" "PREROUTING" ∧
  rules (AddPortMapping published "" 9090 "10.200.0.3" 80 "").1 "filter" "FORWARD" =
    rules published "filter" "FORWARD" ++ [forward_spec "10.200.0.3" 80 "tcp"] ∧
  same_rules published
    (RemovePortMapping (AddPortMapping published "" 9090 "10.200.0.3" 80 "").1 "" 9090 "10.200.0.3" 80 "").
Proof.
  destruct (port_mapping_roundtrip published "" 9090 "10.200.0.3" 80 ""
    (AddPortMapping published "" 9090 "10.200.0.3" 80 "").1) as (Hd & Hf & Hr).
  - vm_compute. reflexivity.
  - by apply (bool_decide_unpack _); vm_compute.
  - split; [exact Hd|split; [exact Hf|]]. apply Hr. vm_compute. reflexivity.
Defined.

Lemma failed_mapping_restores_witness :
  same_rules published_full (AddPortMapping published_full "" 9090 "10.200.0.3" 80 "udp").1.
Proof.
  refine (failed_mapping_restores published_full "" 9090 "10.200.0.3" 80 "udp" _
    (ErrCmd "iptables forward add" "append failed") _ _ _).
  - vm_compute. reflexivity.
  - by apply (bool_decide_unpack _); vm_compute.
  - vm_compute. reflexivity.
Defined.

Lemma bootstrap_isolates_witness :
  ∃ iface h2,
    getDefaultInterface (Ok [mkRoute None 2]) (λ _, Ok "eth0") = Ok iface ∧
    rules (Bootstrap published (Ok [mkRoute None 2]) (λ _, Ok "eth0")).1 "filter" "FORWARD" =
      rules published "filter" "FORWARD" ++
      [established; drop_private "10.0.0.0/8"; drop_private "172.16.0.0/12";
       drop_private "192.168.0.0/16"; accept_out iface] ∧
    rules (Bootstrap published (Ok [mkRoute None 2]) (λ _, Ok "eth0")).1 "nat" "POSTROUTING" =
      rules published "nat" "POSTROUTING" ++ [masquerade_out iface; masquerade_local] ∧
    Teardown (Bootstrap published (Ok [mkRoute None 2]) (λ _, Ok "eth0")).1
      (Ok [mkRoute None 2]) (λ _, Ok "eth0") = (h2, None) ∧ same_rules published h2.
Proof.
  destruct (bootstrap_isolates published (Ok [mkRoute None 2]) (λ _, Ok "eth0")
    (Bootstrap published (Ok [mkRoute None 2]) (λ _, Ok "eth0")).1) as (iface & h2 & E1 & E2 & E3 & E4 & E5).
  - vm_compute. reflexivity.
  - exists iface, h2. split_and!; [exact E1|exact E2|exact E3|exact E4|]. apply E5.
    apply (f_equal fst) in E4. cbn [fst] in E4. rewrite <-E4. vm_compute. reflexivity.
Defined.

(** Without that proviso the rollback takes away a rule that is not its own: when a
    second mapping of the same ports on another interface fails, the first mapping loses
    the OUTPUT rule that lets the host reach its port. *)
Theorem rollback_removes_other_rule :
  ∃ h1 e, AddPortMapping published_full "10.0.0.5" 8080 "10.200.0.2" 80 "tcp" = (h1, Some e) ∧
    rules published_full "nat" "OUTPUT" = [output_spec 8080 "10.200.0.2" 80 "tcp"] ∧
    rules h1 "nat" "OUTPUT" = [].
Proof. eexists _, _. split; [vm_compute; reflexivity|]. by vm_compute. Qed.

End HostNet.
