(* ===== verification/Tap.v ===== *)
(** * TAP devices ([CreateTap], [CreatePointToPointTap], [DeleteTap] of [internal/network/nat.go])

    Netlink is an interface; its laws say which links exist after each call.  A tap is
    made in several calls, and a failure after the first one takes the link back.  A
    deletion may fail; where the code drops its error, the host remembers whether one was
    refused whose link was there. *)
From stdpp Require Import options.
From S2P Require Import Prelude GoNet.
#[local] Open Scope Z_scope.

(** An address to configure: a network, or a host address with its peer. *)
Inductive link_addr :=
  | AddrNet (ip mask : list Z)
  | AddrPeer (ip peer : list Z).

Class Netlink (H : Type) := {
  LinkAdd : H → string → Z → Z → H * option string;   (* name, owner and group *)
  LinkByName : H → string → option string;            (* the error, if any *)
  AddrAdd : H → string → link_addr → H * option string;
  LinkSetUp : H → string → H * option string;
  LinkDel : H → string → H * option string;
  links : H → gset string;
  link_kept : H → bool   (* the deletion of a link that was there has failed *)
}.

Class NetlinkLaws (H : Type) `{Netlink H} := {
  add_law h name u g :
    links (LinkAdd h name u g).1 =
      match (LinkAdd h name u g).2 with None => {[name]} ∪ links h | Some _ => links h end;
  add_new h name u g : (LinkAdd h name u g).2 = None → name ∉ links h;
  find_law h name : LinkByName h name = None ↔ name ∈ links h;
  addr_law h name a : links (AddrAdd h name a).1 = links h;
  up_law h name : links (LinkSetUp h name).1 = links h;
  add_keeps h name u g : link_kept (LinkAdd h name u g).1 = link_kept h;
  addr_keeps h name a : link_kept (AddrAdd h name a).1 = link_kept h;
  up_keeps h name : link_kept (LinkSetUp h name).1 = link_kept h;
  del_law h name :
    match LinkDel h name with
    | (h', None) => links h' = links h ∖ {[name]} ∧ link_kept h' = link_kept h
    | (h', Some _) => links h' = links h ∧ link_kept h' = link_kept h || bool_decide (name ∈ links h)
    end
}.

Module Tap.

Inductive error :=
  | ErrAdd (name e : string)
  | ErrFind (name e : string)
  | ErrInvalidIPs (hostIP guestIP : string)
  | ErrParseAddr (ipAddr : string)
  | ErrAddrAdd (name e : string)
  | ErrSetUp (name e : string)
  | ErrDel (name e : string).

Definition wrap32 (z : Z) : Z := z `mod` 2 ^ 32.

Section tap.
Context {H : Type} `{Netlink H}.

(** The calls after the link was added and found: [addr] is the parsed address, or the
    error to return when there is none. *)
Definition configure (h : H) (name : string) (addr : result error link_addr) : H * option error :=
  match addr with
  | Err e => ((LinkDel h name).1, Some e)
  | Ok addr =>
      match AddrAdd h name addr with
      | (h, Some e) => ((LinkDel h name).1, Some (ErrAddrAdd name e))
      | (h, None) =>
          match LinkSetUp h name with
          | (h, Some e) => ((LinkDel h name).1, Some (ErrSetUp name e))
          | (h, None) => (h, None)
          end
      end
  end.

Definition create (h : H) (name : string) (owner group : Z) (addr : result error link_addr)
    : H * option error :=
  match LinkAdd h name owner group with
  | (h, Some e) => (h, Some (ErrAdd name e))
  | (h, None) =>
      match LinkByName h name with
      | Some e => (h, Some (ErrFind name e))
      | None => configure h name addr
      end
  end.

(** [CreateTap]: the owner and group of the link are not set; [parse] is netlink's
    address parser. *)
Definition CreateTap (parse : string → option link_addr) (h : H) (name ipAddr : string)
    : H * option error :=
  create h name 0 0
    (match parse ipAddr with None => Err (ErrParseAddr ipAddr) | Some addr => Ok addr end).

Definition CreatePointToPointTap (h : H) (name hostIP guestIP : string) (uid gid : Z)
    : H * option error :=
  create h name (wrap32 uid) (wrap32 gid)
    (match ParseIP hostIP, ParseIP guestIP with
     | Some host, Some peer => Ok (AddrPeer host peer)
     | _, _ => Err (ErrInvalidIPs hostIP guestIP)
     end).

Definition DeleteTap (h : H) (name : string) : H * option error :=
  match LinkByName h name with
  | Some _ => (h, None)
  | None =>
      match LinkDel h name with
      | (h, Some e) => (h, Some (ErrDel name e))
      | (h, None) => (h, None)
      end
  end.

End tap.

(** A host that meets the laws, where names in [bad] cannot be brought up and those in
    [busy] cannot be deleted. *)
Record host := mkHost { host_links : gset string; bad : gset string; busy : gset string; host_kept : bool }.

#[export] Instance host_netlink : Netlink host := {|
  LinkAdd h name _ _ :=
    if decide (name ∈ host_links h) then (h, Some "file exists")
    else (mkHost ({[name]} ∪ host_links h) (bad h) (busy h) (host_kept h), None);
  LinkByName h name := if decide (name ∈ host_links h) then None else Some "not found";
  AddrAdd h _ _ := (h, None);
  LinkSetUp h name := if decide (name ∈ bad h) then (h, Some "busy") else (h, None);
  LinkDel h name :=
    if decide (name ∈ host_links h) then
      if decide (name ∈ busy h) then (mkHost (host_links h) (bad h) (busy h) true, Some "resource busy")
      else (mkHost (host_links h ∖ {[name]}) (bad h) (busy h) (host_kept h), None)
    else (h, Some "not found");
  links := host_links;
  link_kept := host_kept
|}.

#[export] Instance host_laws : NetlinkLaws host.
Proof.
  split; simpl; try done; intros h name; intros; try (by repeat case_decide).
  destruct (decide (name ∈ host_links h)); [destruct (decide (name ∈ busy h))|]; simpl.
  - by rewrite bool_decide_eq_true_2, orb_true_r.
  - done.
  - by rewrite bool_decide_eq_false_2, orb_false_r.
Qed.

Section properties.
Context {H : Type} `{NetlinkLaws H}.
#[local] Set Default Proof Using "Type*".

(** A deletion that is not refused takes effect, and nothing is forgotten. *)
Lemma del_mono h name : link_kept (LinkDel h name).1 = false → link_kept h = false.
Proof.
  pose proof (del_law h name) as Hl. destruct (LinkDel h name) as [h' [e|]]; destruct Hl as [_ E]; simpl; rewrite E;
    [by intros [? _]%orb_false_iff|done].
Qed.

Lemma del_links h name : link_kept (LinkDel h name).1 = false → links (LinkDel h name).1 = links h ∖ {[name]}.
Proof.
  pose proof (del_law h name) as Hl. destruct (LinkDel h name) as [h' [e|]]; destruct Hl as [El E]; simpl; [|done].
  rewrite E, El. intros [_ Hn%bool_decide_eq_false]%orb_false_iff. set_solver.
Qed.

Lemma del_error h name e : (LinkDel h name).2 = Some e → name ∈ links h → link_kept (LinkDel h name).1 = true.
Proof.
  pose proof (del_law h name) as Hl. destruct (LinkDel h name) as [h' [e'|]]; destruct Hl as [_ E]; simpl; [|done].
  intros _ Hin. rewrite E, bool_decide_eq_true_2, orb_true_r; done.
Qed.

Lemma configure_links h name addr h' e :
  name ∈ links h → configure h name addr = (h', e) → link_kept h' = false →
  links h' = match e with None => links h | Some _ => links h ∖ {[name]} end.
Proof.
  unfold configure. intros Hin.
  destruct addr as [addr|e0]; [|intros ? Hk; simplify_eq; by apply del_links].
  pose proof (addr_law h name addr) as Ha. destruct (AddrAdd h name addr) as [h1 [e1|]]; simpl in Ha.
  { intros ? Hk; simplify_eq. rewrite <-Ha. by apply del_links. }
  pose proof (up_law h1 name) as Hu. destruct (LinkSetUp h1 name) as [h2 [e2|]]; simpl in Hu;
    intros ? Hk; simplify_eq; [rewrite del_links by done|]; congruence.
Qed.

Lemma create_links h name u g addr h' e :
  create h name u g addr = (h', e) → link_kept h' = false →
  match e with None => name ∉ links h ∧ links h' = {[name]} ∪ links h | Some _ => links h' = links h end.
Proof.
  unfold create. pose proof (add_law h name u g) as Ha. pose proof (add_new h name u g) as Hn.
  destruct (LinkAdd h name u g) as [h1 [e1|]]; simpl in *; [intros; by simplify_eq|].
  specialize (Hn eq_refl). assert (name ∈ links h1) as Hin by (rewrite Ha; set_solver).
  rewrite (proj2 (find_law h1 name) Hin). intros Hc Hk. apply configure_links in Hc; [|done..].
  destruct e; [|by rewrite <-Ha]. rewrite Hc, Ha. set_solver.
Qed.

(** A tap that is made is made without a deletion. *)
Lemma create_made h name u g addr h' :
  create h name u g addr = (h', None) → name ∉ links h ∧ links h' = {[name]} ∪ links h.
Proof.
  unfold create, configure. pose proof (add_law h name u g) as Ha. pose proof (add_new h name u g) as Hn.
  destruct (LinkAdd h name u g) as [h1 [e1|]]; simpl in *; [done|]. destruct (LinkByName h1 name); [done|].
  destruct addr as [a|]; [|done]. pose proof (addr_law h1 name a) as Hb.
  destruct (AddrAdd h1 name a) as [h2 [e2|]]; simpl in Hb; [done|].
  pose proof (up_law h2 name) as Hu. destruct (LinkSetUp h2 name) as [h3 [e3|]]; simpl in Hu; [done|].
  intros [= <-]. split; [by apply Hn|congruence].
Qed.

(** What was refused before is remembered; a tap that is made is made without a deletion. *)
Lemma create_kept h name u g addr h' e :
  create h name u g addr = (h', e) →
  (link_kept h' = false → link_kept h = false) ∧ (e = None → link_kept h' = link_kept h).
Proof.
  unfold create, configure. pose proof (add_keeps h name u g) as <-.
  destruct (LinkAdd h name u g) as [h1 [e1|]]; cbn [fst]; [by intros; simplify_eq|].
  destruct (LinkByName h1 name); [by intros; simplify_eq|].
  destruct addr as [a|e1]; [|intros; simplify_eq; split; [apply del_mono|done]].
  pose proof (addr_keeps h1 name a) as <-. destruct (AddrAdd h1 name a) as [h2 [e2|]]; cbn [fst].
  { intros; simplify_eq. split; [apply del_mono|done]. }
  pose proof (up_keeps h2 name) as <-. destruct (LinkSetUp h2 name) as [h3 [e3|]]; cbn [fst];
    intros; simplify_eq; (split; [try apply del_mono|]); done.
Qed.

(** Making a tap is all or nothing, unless the host refuses to delete the link: on success
    exactly the named link is new, on any failure (an existing link of that name included)
    the host has the links it had; and deleting a tap that was made takes the host back, as
    often as it is called. *)
Theorem tap_all_or_nothing h name hostIP guestIP uid gid h1 e :
  CreatePointToPointTap h name hostIP guestIP uid gid = (h1, e) → link_kept (DeleteTap h1 name).1 = false →
  (e ≠ None → link_kept h1 = false → links h1 = links h) ∧
  (e = None → name ∉ links h ∧ links h1 = {[name]} ∪ links h ∧
    (DeleteTap h1 name).2 = None ∧ links (DeleteTap h1 name).1 = links h ∧
    DeleteTap (DeleteTap h1 name).1 name = ((DeleteTap h1 name).1, None)).
Proof.
  intros Ec Hk. split; intros He.
  { intros Hk1. apply create_links in Ec; [|done]. by destruct e. }
  subst e. unfold DeleteTap in Hk |- *.
  assert (link_kept h1 = false) as Hk1.
  { destruct (LinkByName h1 name); [done|]. pose proof (del_mono h1 name). destruct (LinkDel h1 name) as [? []]; auto. }
  apply create_links in Ec as [Hn Hl]; [|done]. split; [done|]. split; [done|].
  assert (name ∈ links h1) as Hin by (rewrite Hl; set_solver).
  rewrite (proj2 (find_law h1 name) Hin) in *. pose proof (del_links h1 name) as Hd.
  pose proof (del_error h1 name) as Herr.
  destruct (LinkDel h1 name) as [h2 [e|]]; simpl in *; [by rewrite (Herr e) in Hk|].
  assert (links h2 = links h) as E by (rewrite Hd by done; set_solver).
  split_and!; [done..|]. destruct (LinkByName h2 name) eqn:El; [done|].
  apply find_law in El. by rewrite E in El.
Qed.

End properties.

Definition bare_host : host := mkHost ∅ ∅ ∅ false.
Definition one_tap : host := mkHost {["tap0"]} ∅ ∅ false.

Lemma tap_all_or_nothing_witness :
  (None (A := error) ≠ None → link_kept one_tap = false → links one_tap = ∅) ∧
  (None (A := error) = None →
    "tap0" ∉ (∅ : gset string) ∧ links one_tap = {["tap0"]} ∪ ∅ ∧
    (DeleteTap one_tap "tap0").2 = None ∧ links (DeleteTap one_tap "tap0").1 = ∅ ∧
    DeleteTap (DeleteTap one_tap "tap0").1 "tap0" = ((DeleteTap one_tap "tap0").1, None)).
Proof.
  refine (tap_all_or_nothing bare_host "tap0" "169.254.0.1" "10.200.0.2" 300000 300000 one_tap None _ _);
    vm_compute; reflexivity.
Defined.

End Tap.
