(* ===== verification/ImageStore.v ===== *)
(** * Root filesystems from containerd ([internal/storage/containerd.go])

    Containerd is an interface: its images, the active snapshots of a snapshotter and the
    leases, with the laws that say how each call changes the last two.  A cancelled
    context makes every call fail.  The answers of the operating system to the file calls
    of [InjectGuestAgent] are a function from the call to its error, if any. *)
From stdpp Require Import options.
From S2P Require Import Prelude GoStrings.
#[local] Open Scope Z_scope.

Record Mount := mkMount { Source : string; Options : list string }.

Record ImageConfig := mkImageConfig {
  Entrypoint : list string;
  Cmd : list string;
  ImgEnv : list string
}.

Inductive cd_error := NotFound | OtherError (e : string).

Class Containerd (C : Type) := {
  GetImage : C → string → result cd_error string;
  Pull : C → string → C * result string string;
  IsUnpacked : C → string → string → result string bool;
  Unpack : C → string → string → C * option string;
  ChainID : C → string → result string string;
  ReadConfig : C → string → result string ImageConfig;
  StatSnapshot : C → string → option cd_error;
  Prepare : C → string → string → C * result string (list Mount);
  Mounts : C → string → result string (list Mount);
  RemoveSnapshot : C → string → C * option string;
  LeaseCreate : C → string → C * option string;
  LeaseList : C → string → result string (list string);
  LeaseDelete : C → string → C * option string;
  snapshots : C → gset string;
  leases : C → gset string;
  store_kept : C → bool   (* the removal of a snapshot or lease that was there has failed *)
}.

(** A daemon that is up: pulling and unpacking touch neither snapshots nor leases, a failed
    call changes nothing, and a listing is answered and filtered by the ID.  The removal of
    a snapshot or of a lease may fail; the code drops the error or only logs it, so the
    daemon's state remembers whether one failed that was there. *)
Class ContainerdLaws (C : Type) `{Containerd C} := {
  pull_law c r : snapshots (Pull c r).1 = snapshots c ∧ leases (Pull c r).1 = leases c;
  unpack_law c i s : snapshots (Unpack c i s).1 = snapshots c ∧ leases (Unpack c i s).1 = leases c;
  pull_keeps c r : store_kept (Pull c r).1 = store_kept c;
  unpack_keeps c i s : store_kept (Unpack c i s).1 = store_kept c;
  prepare_keeps c k p : store_kept (Prepare c k p).1 = store_kept c;
  lease_create_keeps c id : store_kept (LeaseCreate c id).1 = store_kept c;
  stat_law c k : StatSnapshot c k = Some NotFound ↔ k ∉ snapshots c;
  prepare_law c k p :
    leases (Prepare c k p).1 = leases c ∧
    snapshots (Prepare c k p).1 =
      match (Prepare c k p).2 with Ok _ => {[k]} ∪ snapshots c | Err _ => snapshots c end;
  remove_law c k :
    match RemoveSnapshot c k with
    | (c', None) => snapshots c' = snapshots c ∖ {[k]} ∧ leases c' = leases c ∧ store_kept c' = store_kept c
    | (c', Some _) => snapshots c' = snapshots c ∧ leases c' = leases c ∧
        store_kept c' = store_kept c || bool_decide (k ∈ snapshots c)
    end;
  lease_create_law c id :
    snapshots (LeaseCreate c id).1 = snapshots c ∧
    leases (LeaseCreate c id).1 =
      match (LeaseCreate c id).2 with None => {[id]} ∪ leases c | Some _ => leases c end;
  lease_list_law c id : id ∈ leases c → LeaseList c id = Ok [id];
  lease_none_law c id : id ∉ leases c → LeaseList c id = Ok [];
  lease_delete_law c id :
    match LeaseDelete c id with
    | (c', None) => leases c' = leases c ∖ {[id]} ∧ snapshots c' = snapshots c ∧ store_kept c' = store_kept c
    | (c', Some _) => leases c' = leases c ∧ snapshots c' = snapshots c ∧
        store_kept c' = store_kept c || bool_decide (id ∈ leases c)
    end
}.

Module ImageStore.

(** ** References and mounts *)

Definition contains_any (chars s : string) : bool :=
  existsb (λ c, contains_byte c s) (String.list_ascii_of_string chars).

Definition normalizeImageRef (ref : string) : string :=
  let parts := Split "/" ref in
  if decide (length parts = 1%nat) then "docker.io/library/" +:+ ref
  else
    let first := default EmptyString (head parts) in
    if negb (contains_any ".:" first) && bool_decide (first ≠ "localhost") then "docker.io/" +:+ ref
    else ref.

Fixpoint device_option (opts : list string) : option string :=
  match opts with
  | [] => None
  | opt :: opts =>
      if HasPrefix opt "device=/dev/" then Some (TrimPrefix opt "device=") else device_option opts
  end.

Fixpoint first_device (mounts : list Mount) : option string :=
  match mounts with
  | [] => None
  | mnt :: mounts =>
      if HasPrefix (Source mnt) "/dev/" then Some (Source mnt)
      else match device_option (Options mnt) with
           | Some dev => Some dev
           | None => first_device mounts
           end
  end.

Fixpoint first_source (mounts : list Mount) : option string :=
  match mounts with
  | [] => None
  | mnt :: mounts => if decide (Source mnt ≠ "") then Some (Source mnt) else first_source mounts
  end.

Definition extractBlockDeviceFromMounts (mounts : list Mount) : option string :=
  match first_device mounts with
  | Some dev => Some dev
  | None => first_source mounts
  end.

Definition snapshotKey (vmID : string) : string := "herd-vm-" +:+ vmID.
Definition leaseKey (vmID : string) : string := "lease-vm-" +:+ vmID.

Section manager.
Context {C : Type} `{Containerd C}.

Record Manager := mkManager {
  client : C;
  snapshotter : string;
  parents : gmap string string
}.

Definition NewManager (client : C) (snapshotter : string) : Manager :=
  {| client := client; snapshotter := snapshotter; parents := ∅ |}.

Definition set_client (c : C) (m : Manager) : Manager :=
  {| client := c; snapshotter := snapshotter m; parents := parents m |}.

Definition ExtractImageConfig (m : Manager) (imageRef : string) : result string ImageConfig :=
  match GetImage (client m) (normalizeImageRef imageRef) with
  | Err _ => Err "get image"
  | Ok image => ReadConfig (client m) image
  end.

(** Unpacking and caching of an image that is present. *)
Definition warm_present (m : Manager) (imageRef image : string) : Manager * option string :=
  match IsUnpacked (client m) image (snapshotter m) with
  | Err e => (m, Some e)
  | Ok unpacked =>
      let '(c, err) := if unpacked then (client m, None) else Unpack (client m) image (snapshotter m) in
      let m := set_client c m in
      match err with
      | Some e => (m, Some e)
      | None =>
          match ChainID (client m) image with
          | Err e => (m, Some e)
          | Ok chainID =>
              ({| client := client m; snapshotter := snapshotter m;
                  parents := <[imageRef := chainID]> (parents m) |}, None)
          end
      end
  end.

Definition WarmImage (m : Manager) (imageRef : string) : Manager * option string :=
  let imageRef := normalizeImageRef imageRef in
  match GetImage (client m) imageRef with
  | Ok image => warm_present m imageRef image
  | Err (OtherError e) => (m, Some e)
  | Err NotFound =>
      match Pull (client m) imageRef with
      | (c, Err e) => (set_client c m, Some e)
      | (c, Ok image) => warm_present (set_client c m) imageRef image
      end
  end.

(** [withLease]: create the VM's lease, or find the one it has. *)
Definition withLease (c : C) (vmID : string) : C * result string string :=
  let leaseID := leaseKey vmID in
  match LeaseCreate c leaseID with
  | (c, None) => (c, Ok leaseID)
  | (c, Some err) =>
      match LeaseList c leaseID with
      | Ok (existing :: _) => (c, Ok existing)
      | _ => (c, Err err)
      end
  end.

Definition snapshot_mounts (c : C) (key parent : string) : C * result string (list Mount) :=
  match StatSnapshot c key with
  | Some NotFound => Prepare c key parent
  | Some (OtherError e) => (c, Err e)
  | None => (c, Mounts c key)
  end.

Definition Snapshot (m : Manager) (vmID imageRef : string) : Manager * result string string :=
  match parents m !! normalizeImageRef imageRef with
  | None => (m, Err "Snapshot called before WarmImage")
  | Some parentChainID =>
      match withLease (client m) vmID with
      | (c, Err e) => (set_client c m, Err e)
      | (c, Ok _) =>
          match snapshot_mounts c (snapshotKey vmID) parentChainID with
          | (c, Err e) => (set_client c m, Err e)
          | (c, Ok mounts) =>
              match extractBlockDeviceFromMounts mounts with
              | None => (set_client c m, Err "no block device in mounts")
              | Some devPath => (set_client c m, Ok devPath)
              end
          end
      end
  end.

(** The file calls of [InjectGuestAgent] after the snapshot's mounts are known, in order. *)
Definition inject_calls : list string :=
  ["mkdtemp inject"; "mount inject"; "mkdirall inject"; "open agent"; "create agent"; "copy agent";
   "close agent"].

Definition first_error (os : string → option string) (calls : list string) : option string :=
  foldr (λ call rest, match os call with Some e => Some e | None => rest end) None calls.

(** [isDir] is whether the host path of the agent is a directory. *)
Definition InjectGuestAgent (os : string → option string) (isDir : bool) (m : Manager) (vmID : string)
    : Manager * option string :=
  match os "stat agent" with
  | Some e => (m, Some e)
  | None =>
      if isDir then (m, Some "host guest agent path is a directory") else
      match withLease (client m) vmID with
      | (c, Err e) => (set_client c m, Some e)
      | (c, Ok _) =>
          let m := set_client c m in
          match Mounts (client m) (snapshotKey vmID) with
          | Err e => (m, Some e)
          | Ok [] => (m, Some "no mounts for snapshot")
          | Ok _ => (m, first_error os inject_calls)
          end
      end
  end.

(** [cancelled]: the context is, and every call to containerd fails at once. *)
Definition Teardown (m : Manager) (cancelled : bool) (vmID : string) : Manager * option string :=
  if cancelled then (m, None) else
  let c := (RemoveSnapshot (client m) (snapshotKey vmID)).1 in
  match withLease c vmID with
  | (c, Err _) => (set_client c m, None)
  | (c, Ok leaseStr) =>
      match LeaseDelete c leaseStr with
      | (c, Some e) => (set_client c m, Some e)
      | (c, None) => (set_client c m, None)
      end
  end.

End manager.

(** ** Lemmas *)

Section lemmas.
Context {C : Type} `{ContainerdLaws C}.
#[local] Set Default Proof Using "Type*".
Implicit Types (c : C) (m : Manager (C := C)).

Lemma withLease_spec c vmID c' r :
  withLease c vmID = (c', r) →
  snapshots c' = snapshots c ∧
  match r with
  | Ok id => id = leaseKey vmID ∧ leases c' = {[leaseKey vmID]} ∪ leases c
  | Err _ => leaseKey vmID ∉ leases c ∧ leases c' = leases c
  end.
Proof.
  unfold withLease. destruct (lease_create_law c (leaseKey vmID)) as [Hs Hl].
  destruct (LeaseCreate c (leaseKey vmID)) as [c1 [e|]]; simpl in *.
  - destruct (decide (leaseKey vmID ∈ leases c1)) as [Hin|Hno].
    + rewrite lease_list_law by done. intros; simplify_eq. split; [done|]. split; [done|].
      rewrite Hl in *. set_solver.
    + rewrite lease_none_law by done. intros; simplify_eq. by rewrite <-Hl.
  - by intros; simplify_eq.
Qed.

Lemma withLease_kept c vmID : store_kept (withLease c vmID).1 = store_kept c.
Proof.
  unfold withLease. pose proof (lease_create_keeps c (leaseKey vmID)) as <-.
  destruct (LeaseCreate _ _) as [c1 [e|]]; [|done]. by destruct (LeaseList _ _) as [[|? ?]|].
Qed.

(** A removal that is not refused takes effect, and nothing is forgotten. *)
Lemma remove_spec c k :
  let c' := (RemoveSnapshot c k).1 in
  leases c' = leases c ∧ (store_kept c' = false → store_kept c = false ∧ snapshots c' = snapshots c ∖ {[k]}).
Proof.
  pose proof (remove_law c k) as Hl. destruct (RemoveSnapshot c k) as [c' [e|]]; destruct Hl as (Es & El & Ek); simpl;
    rewrite El, Ek, Es; [|done]. split; [done|].
  intros [? Hn%bool_decide_eq_false]%orb_false_iff. split; [done|set_solver].
Qed.

Lemma lease_delete_spec c id :
  let c' := (LeaseDelete c id).1 in
  snapshots c' = snapshots c ∧ (store_kept c' = false → store_kept c = false ∧ leases c' = leases c ∖ {[id]}).
Proof.
  pose proof (lease_delete_law c id) as Hl. destruct (LeaseDelete c id) as [c' [e|]]; destruct Hl as (El & Es & Ek); simpl;
    rewrite El, Ek, Es; [|done]. split; [done|].
  intros [? Hn%bool_decide_eq_false]%orb_false_iff. split; [done|set_solver].
Qed.

Lemma Teardown_mono m cancelled vmID :
  store_kept (client (Teardown m cancelled vmID).1) = false → store_kept (client m) = false.
Proof.
  unfold Teardown. destruct cancelled; [done|]. destruct (remove_spec (client m) (snapshotKey vmID)) as [_ Hr].
  pose proof (withLease_kept (RemoveSnapshot (client m) (snapshotKey vmID)).1 vmID) as Hk.
  destruct (withLease _ vmID) as [c [id|e]]; cbn [fst] in Hk; [|cbn; rewrite Hk; by intros [? _]%Hr].
  destruct (lease_delete_spec c id) as [_ Hd]. destruct (LeaseDelete c id) as [c2 [e|]]; cbn in *;
    intros [E _]%Hd; rewrite Hk in E; by apply Hr in E as [? _].
Qed.

Lemma Teardown_spec m vmID :
  store_kept (client (Teardown m false vmID).1) = false →
  snapshots (client (Teardown m false vmID).1) = snapshots (client m) ∖ {[snapshotKey vmID]} ∧
  leases (client (Teardown m false vmID).1) = leases (client m) ∖ {[leaseKey vmID]} ∧
  parents (Teardown m false vmID).1 = parents m.
Proof.
  unfold Teardown. destruct (remove_spec (client m) (snapshotKey vmID)) as [Hl Hs].
  pose proof (withLease_kept (RemoveSnapshot (client m) (snapshotKey vmID)).1 vmID) as Hk.
  destruct (withLease _ vmID) as [c [id|e]] eqn:E; apply withLease_spec in E as [Es El]; cbn [fst] in Hk.
  - destruct El as [-> El]. destruct (lease_delete_spec c (leaseKey vmID)) as [Ds Dl].
    destruct (LeaseDelete c (leaseKey vmID)) as [c2 [e|]]; simpl in *; intros [Ek Ed]%Dl; rewrite Hk in Ek;
      apply Hs in Ek as [_ Er]; (split_and!; [congruence| |done]); rewrite Ed, El, Hl; set_solver.
  - destruct El as [Hno El]. simpl. rewrite Hk. intros [_ Er]%Hs. rewrite Es, El, Er, Hl in *.
    split_and!; [done|set_solver|done].
Qed.

Lemma warm_present_spec m r i m' e :
  warm_present m r i = (m', e) →
  snapshots (client m') = snapshots (client m) ∧ leases (client m') = leases (client m).
Proof.
  unfold warm_present. intros E. destruct (IsUnpacked _ _ _) as [u|e1]; [|by simplify_eq].
  pose proof (unpack_law (client m) i (snapshotter m)) as Hu.
  destruct u.
  - simpl in E. destruct (ChainID _ _); by simplify_eq/=.
  - destruct (Unpack _ _ _) as [c1 [e1|]]; simpl in *; [by simplify_eq/=|].
    destruct (ChainID _ _); by simplify_eq/=.
Qed.

Lemma warm_present_kept m r i : store_kept (client (warm_present m r i).1) = store_kept (client m).
Proof.
  unfold warm_present. destruct (IsUnpacked _ _ _) as [u|]; [|done].
  pose proof (unpack_keeps (client m) i (snapshotter m)) as Hu.
  destruct u; simpl; [by destruct (ChainID _ _)|].
  destruct (Unpack _ _ _) as [c1 [e1|]]; simpl in *; [done|]. by destruct (ChainID _ _).
Qed.

Lemma WarmImage_kept m r : store_kept (client (WarmImage m r).1) = store_kept (client m).
Proof.
  unfold WarmImage. destruct (GetImage _ _) as [i|[|e1]]; [apply warm_present_kept| |done].
  pose proof (pull_keeps (client m) (normalizeImageRef r)) as Hp.
  destruct (Pull _ _) as [c [i|e1]]; [|done]. by rewrite warm_present_kept.
Qed.

Lemma WarmImage_spec m r m' e :
  WarmImage m r = (m', e) →
  snapshots (client m') = snapshots (client m) ∧ leases (client m') = leases (client m).
Proof.
  unfold WarmImage. intros E. destruct (GetImage _ _) as [i|[|e1]].
  - by eapply warm_present_spec.
  - pose proof (pull_law (client m) (normalizeImageRef r)) as [Hs Hl].
    destruct (Pull _ _) as [c [i|e1]]; simpl in *; [|by simplify_eq/=].
    apply warm_present_spec in E as [-> ->]. done.
  - by simplify_eq.
Qed.

(** Whatever becomes of it, [Snapshot] adds at most the VM's lease and snapshot. *)
Lemma Snapshot_spec m vmID ref m' r :
  Snapshot m vmID ref = (m', r) →
  (leases (client m') = leases (client m) ∨
   leases (client m') = {[leaseKey vmID]} ∪ leases (client m)) ∧
  (snapshots (client m') = snapshots (client m) ∨
   snapshots (client m') = {[snapshotKey vmID]} ∪ snapshots (client m)) ∧
  (is_ok r = true →
    leases (client m') = {[leaseKey vmID]} ∪ leases (client m) ∧
    snapshots (client m') = {[snapshotKey vmID]} ∪ snapshots (client m)).
Proof.
  unfold Snapshot. intros E. destruct (parents m !! _) as [p|]; [|simplify_eq; naive_solver].
  destruct (withLease (client m) vmID) as [c [id|e]] eqn:El; apply withLease_spec in El as [Es El].
  2:{ simplify_eq/=. destruct El. naive_solver. }
  destruct El as [_ El].
  destruct (snapshot_mounts c (snapshotKey vmID) p) as [c2 rm] eqn:Em.
  assert (leases c2 = leases c ∧
    match rm with Ok _ => snapshots c2 = {[snapshotKey vmID]} ∪ snapshots c
                | Err _ => snapshots c2 = snapshots c end) as [El2 Es2].
  { unfold snapshot_mounts in Em. destruct (StatSnapshot c (snapshotKey vmID)) as [[|e]|] eqn:Est.
    - pose proof (prepare_law c (snapshotKey vmID) p) as [Hl Hs]. rewrite Em in Hl, Hs. simpl in *.
      destruct rm; done.
    - by simplify_eq.
    - simplify_eq. split; [done|].
      assert (snapshotKey vmID ∈ snapshots c2).
      { destruct (decide (snapshotKey vmID ∈ snapshots c2)) as [|Hn]; [done|].
        apply stat_law in Hn. congruence. }
      destruct (Mounts _ _); [set_solver|done]. }
  rewrite <-Es, <-El, <-El2.
  destruct rm as [mounts|e]; [|simplify_eq/=; naive_solver].
  destruct (extractBlockDeviceFromMounts mounts); simplify_eq/=; naive_solver.
Qed.

Lemma Snapshot_kept m vmID ref : store_kept (client (Snapshot m vmID ref).1) = store_kept (client m).
Proof.
  unfold Snapshot. destruct (parents m !! _) as [p|]; [|done].
  pose proof (withLease_kept (client m) vmID) as <-. destruct (withLease (client m) vmID) as [c [id|e]]; [|done].
  assert (store_kept (snapshot_mounts c (snapshotKey vmID) p).1 = store_kept c) as Hk.
  { unfold snapshot_mounts. destruct (StatSnapshot c _) as [[|e]|]; [apply prepare_keeps|done..]. }
  cbn [fst]. rewrite <-Hk. destruct (snapshot_mounts c (snapshotKey vmID) p) as [c2 [mounts|e]]; [|done].
  by destruct (extractBlockDeviceFromMounts mounts).
Qed.

Lemma Inject_kept os isDir m vmID : store_kept (client (InjectGuestAgent os isDir m vmID).1) = store_kept (client m).
Proof.
  unfold InjectGuestAgent. destruct (os "stat agent"); [done|]. destruct isDir; [done|].
  pose proof (withLease_kept (client m) vmID) as <-. destruct (withLease (client m) vmID) as [c [id|e1]]; [|done].
  cbv zeta. by destruct (Mounts _ _) as [[|]|].
Qed.

Lemma Inject_spec os isDir m vmID m' e :
  InjectGuestAgent os isDir m vmID = (m', e) →
  snapshots (client m') = snapshots (client m) ∧
  (leases (client m') = leases (client m) ∨
   leases (client m') = {[leaseKey vmID]} ∪ leases (client m)).
Proof.
  unfold InjectGuestAgent. destruct (os "stat agent"); [intros; simplify_eq; auto|].
  destruct isDir; [intros; simplify_eq; auto|].
  destruct (withLease (client m) vmID) as [c [id|e1]] eqn:El; apply withLease_spec in El as [Es El].
  - destruct El as [_ El]. intros E. simpl in E.
    destruct (Mounts c (snapshotKey vmID)) as [[|]|]; simplify_eq/=; auto.
  - destruct El as [_ El]. intros; simplify_eq/=. auto.
Qed.

End lemmas.

(** *** References *)

Lemma normalize_prefix domain rest :
  contains_byte "/" domain = false → contains_any ".:" domain = true →
  normalizeImageRef (domain +:+ String "/" rest) = domain +:+ String "/" rest.
Proof.
  intros Hs Hd. unfold normalizeImageRef. rewrite Split_app by done.
  rewrite decide_False.
  - simpl. by rewrite Hd.
  - simpl. pose proof (Split_nonempty "/" rest). destruct (Split "/" rest); done.
Qed.

(** ** A containerd that meets the laws: every image is there, and the ones in [broken]
    cannot be prepared. *)

Record store := mkStore { snaps : gset string; held : gset string; broken : gset string }.

(** It removes what it is asked to. *)

#[export] Instance store_ops : Containerd store := {|
  GetImage c r := Ok r;
  Pull c r := (c, Ok r);
  IsUnpacked c _ _ := Ok true;
  Unpack c _ _ := (c, None);
  ChainID c i := Ok ("sha256:" +:+ i);
  ReadConfig c i := Ok (mkImageConfig [] ["/bin/sh"] []);
  StatSnapshot c k := if decide (k ∈ snaps c) then None else Some NotFound;
  Prepare c k p :=
    if decide (p ∈ broken c) then (c, Err "no space left in the pool")
    else (mkStore ({[k]} ∪ snaps c) (held c) (broken c), Ok [mkMount "/dev/dm-1" []]);
  Mounts c k := Ok [mkMount "/dev/dm-1" []];
  RemoveSnapshot c k := (mkStore (snaps c ∖ {[k]}) (held c) (broken c), None);
  LeaseCreate c id :=
    if decide (id ∈ held c) then (c, Some "already exists")
    else (mkStore (snaps c) ({[id]} ∪ held c) (broken c), None);
  LeaseList c id := if decide (id ∈ held c) then Ok [id] else Ok [];
  LeaseDelete c id := (mkStore (snaps c) (held c ∖ {[id]}) (broken c), None);
  snapshots := snaps;
  leases := held;
  store_kept _ := false
|}.

#[export] Instance store_laws : ContainerdLaws store.
Proof.
  split; simpl; intros; repeat case_decide; try done.
Qed.

Definition warm_store (broken : gset string) : Manager :=
  (WarmImage (NewManager (mkStore ∅ ∅ broken) "devmapper") "alpine").1.

(** ** Properties *)

(** A normalized reference names its registry: its first component is [localhost] or
    has a dot or a colon, and normalizing it again changes nothing. *)
Theorem normalize_qualified ref :
  normalizeImageRef (normalizeImageRef ref) = normalizeImageRef ref ∧
  ∃ domain rest, normalizeImageRef ref = domain +:+ String "/" rest ∧
    contains_byte "/" domain = false ∧ (domain = "localhost" ∨ contains_any ".:" domain = true).
Proof.
  assert (∀ r, normalizeImageRef ("docker.io/" +:+ r) = "docker.io/" +:+ r ∧
    ∃ domain rest, "docker.io/" +:+ r = domain +:+ String "/" rest ∧
      contains_byte "/" domain = false ∧ (domain = "localhost" ∨ contains_any ".:" domain = true)) as Hd.
  { intros r. split; [by apply (normalize_prefix "docker.io" r)|].
    exists "docker.io", r. split_and!; [done|done|by right]. }
  unfold normalizeImageRef at 2 3 4. case_decide as Hl.
  { apply (Hd ("library/" +:+ ref)). }
  destruct (negb (contains_any ".:" (default EmptyString (head (Split "/" ref)))) &&
    bool_decide (default EmptyString (head (Split "/" ref)) ≠ "localhost")) eqn:E; [apply Hd|].
  split.
  - unfold normalizeImageRef. by rewrite decide_False, E.
  - pose proof (Join_Split "/" ref) as Hj. pose proof (Split_no_sep "/" ref) as Hn.
    destruct (Split "/" ref) as [|d ps] eqn:Es; [by destruct (Split_nonempty "/" ref)|].
    destruct ps as [|p ps]; [done|]. apply Forall_cons in Hn as [Hn _].
    rewrite Join_cons in Hj by done. exists d, (Join "/" (p :: ps)).
    split_and!; [done|done|]. simpl in E. apply andb_false_iff in E as [E|E].
    + right. by apply negb_false_iff.
    + left. by apply bool_decide_eq_false, dec_stable in E.
Qed.

Section properties.
Context {C : Type} `{ContainerdLaws C}.
#[local] Set Default Proof Using "Type*".

(** Whether [Snapshot] succeeded or failed half way, [Teardown] with a live context
    leaves neither the VM's snapshot nor its lease behind, unless containerd refuses to
    remove them, and touches no other. *)
Theorem teardown_reclaims (m : Manager (C := C)) vmID ref m' r :
  Snapshot m vmID ref = (m', r) → store_kept (client (Teardown m' false vmID).1) = false →
  leases (client (Teardown m' false vmID).1) = leases (client m) ∖ {[leaseKey vmID]} ∧
  snapshots (client (Teardown m' false vmID).1) = snapshots (client m) ∖ {[snapshotKey vmID]}.
Proof.
  intros (Hl & Hs & _)%Snapshot_spec Hk. destruct (Teardown_spec m' vmID Hk) as (-> & -> & _).
  split; [destruct Hl as [-> | ->]|destruct Hs as [-> | ->]]; set_solver.
Qed.

(** After a successful [WarmImage], [Snapshot] of the image never asks for it again:
    under any reference that normalizes to the same one, it returns the device that
    containerd provides for the VM. *)
Theorem warm_then_snapshot (m m' : Manager (C := C)) ref ref' vmID c lease dev :
  WarmImage m ref = (m', None) → normalizeImageRef ref' = normalizeImageRef ref →
  withLease (client m') vmID = (c, Ok lease) →
  (∀ parent, ∃ mounts, (snapshot_mounts c (snapshotKey vmID) parent).2 = Ok mounts ∧
    extractBlockDeviceFromMounts mounts = Some dev) →
  (Snapshot m' vmID ref').2 = Ok dev.
Proof.
  intros Hw Hn Hl Hm. assert (is_Some (parents m' !! normalizeImageRef ref)) as [parent Hp].
  { assert (∀ m0 i, warm_present m0 (normalizeImageRef ref) i = (m', None) →
      is_Some (parents m' !! normalizeImageRef ref)) as Hwp.
    { unfold warm_present. intros m0 i E. destruct (IsUnpacked _ _ _) as [u|]; [|done].
      destruct (if u then _ else _) as [c1 [e|]]; [done|]. simpl in E.
      destruct (ChainID _ _); [|done]. simplify_eq/=. by rewrite lookup_insert_eq. }
    unfold WarmImage in Hw. destruct (GetImage _ _) as [i|[|e]]; [by eapply Hwp| |done].
    destruct (Pull _ _) as [c1 [i|e]]; [|done]. by eapply Hwp. }
  unfold Snapshot. rewrite Hn, Hp, Hl. destruct (Hm parent) as (mounts & E & Ed).
  destruct (snapshot_mounts _ _ _) as [c2 r]. simpl in E. subst. by rewrite Ed.
Qed.

End properties.

Lemma teardown_reclaims_witness :
  leases (client (Teardown (Snapshot (warm_store ∅) "vm1" "alpine").1 false "vm1").1) =
    leases (client (warm_store ∅)) ∖ {[leaseKey "vm1"]} ∧
  snapshots (client (Teardown (Snapshot (warm_store ∅) "vm1" "alpine").1 false "vm1").1) =
    snapshots (client (warm_store ∅)) ∖ {[snapshotKey "vm1"]}.
Proof.
  refine (teardown_reclaims (warm_store ∅) "vm1" "alpine" _ (Ok "/dev/dm-1") _ _);
    vm_compute; reflexivity.
Defined.

Lemma warm_then_snapshot_witness :
  (Snapshot (warm_store ∅) "vm1" "docker.io/library/alpine").2 = Ok "/dev/dm-1".
Proof.
  refine (warm_then_snapshot (NewManager (mkStore ∅ ∅ ∅) "devmapper") (warm_store ∅) "alpine"
    "docker.io/library/alpine" "vm1" (mkStore ∅ {["lease-vm-vm1"]} ∅) "lease-vm-vm1" "/dev/dm-1"
    _ _ _ _).
  1-3: vm_compute; reflexivity.
  intros parent. exists [mkMount "/dev/dm-1" []]. split; [|vm_compute; reflexivity].
  unfold snapshot_mounts. simpl. by rewrite !decide_False by set_solver.
Defined.

(** A [Snapshot] that fails leaves the VM's lease behind (its caller registers the
    teardown only after it succeeds), and a teardown under a cancelled context, which is
    how a spawn whose client went away is rolled back, reclaims nothing. *)
Theorem failed_snapshot_keeps_lease :
  ∃ m' e, Snapshot (warm_store {["sha256:docker.io/library/alpine"]}) "vm1" "alpine" = (m', Err e) ∧
    leases (client m') = {["lease-vm-vm1"]} ∧
  ∃ m1 dev, Snapshot (warm_store ∅) "vm1" "alpine" = (m1, Ok dev) ∧
    leases (client (Teardown m1 true "vm1").1) = {["lease-vm-vm1"]} ∧
    snapshots (client (Teardown m1 true "vm1").1) = {["herd-vm-vm1"]}.
Proof.
  eexists _, _. split; [vm_compute; reflexivity|]. split; [vm_compute; reflexivity|].
  eexists _, _. split; [vm_compute; reflexivity|]. split; vm_compute; reflexivity.
Qed.

End ImageStore.
