(* ===== verification/StorageBoot.v ===== *)
(** * The storage bootstrap ([internal/storage/bootstrap.go])

    [Bootstrap] makes a thin pool on two sparse files behind loop devices and starts a
    containerd of its own; each thing it creates is undone if a later step fails.
    [Teardown] removes all of it and goes on after errors.  The programs called
    ([losetup], [dmsetup], [blockdev], [containerd], [pkill]) are behind the class
    [Tools], with what their manuals say as [ToolsLaws]. *)
From stdpp Require Import options.
From S2P Require Import Prelude GoStrings GoFs Rollback.
#[local] Open Scope Z_scope.

Definition newline : ascii := "010".

(** The line that [losetup -j] prints for a device: what follows its name is the device
    number and the path of the file. *)
Definition listing_line (x : string * string) : string := x.1 +:+ ": " +:+ x.2 +:+ String newline "".
Fixpoint concat_strings (l : list string) : string :=
  match l with [] => "" | s :: l => s +:+ concat_strings l end.

(** A device name. *)
Definition device_name (d : string) : Prop :=
  d ≠ "" ∧ no_space d = true ∧ contains_byte ":" d = false.

(** *** Patterns of [pkill] without other operators than the dot *)

Definition plain_byte (c : ascii) : bool := negb (contains_byte c "[](){}*+?|^$\").

Fixpoint plain_pattern (s : string) : bool :=
  match s with "" => true | String c s => plain_byte c && plain_pattern s end.

Fixpoint matches_here (pat s : string) : bool :=
  match pat, s with
  | "", _ => true
  | String c pat, String d s => (bool_decide (c = d) || bool_decide (c = "."%char)) && matches_here pat s
  | String _ _, "" => false
  end.

(** Nothing ties a pattern to the ends of the text. *)
Fixpoint matches (pat s : string) : bool :=
  matches_here pat s || match s with "" => false | String _ s => matches pat s end.

(** *** The programs: a command with its arguments gives output and, if it fails, an exit
    code; [launch] starts one in the background *)

Class Tools (H : Type) := {
  run : H → list string → H * (string * option Z);
  launch : H → list string → H * option string;
  loops : H → gmap string string;        (* loop devices, and the files behind them *)
  pools : H → gmap string string;        (* thin pools, and their tables *)
  daemons : H → list string;             (* what runs in the background, by command lines *)
  lapsed : H → bool                      (* something that was asked for has silently not happened *)
}.

Definition same_host {H} `{Tools H} (h h' : H) : Prop :=
  loops h' = loops h ∧ pools h' = pools h ∧ daemons h' = daemons h ∧ lapsed h' = lapsed h.

(** A command that may lapse: what is said of it holds if it did not. *)
Definition unless_lapsed {H} `{Tools H} (h h' : H) (P : Prop) : Prop :=
  lapsed h' = false → lapsed h = false ∧ P.

Class ToolsLaws (H : Type) `{Tools H} := {
  names_law (h : H) d f : loops h !! d = Some f → device_name d;
  (* losetup(8) *)
  associated_law (h : H) f :
    let '(h', (out, exit)) := run h ["losetup"; "--output"; "NAME"; "--noheadings"; "--associated"; f] in
    same_host h h' ∧
    (exit = None → ∃ ds, NoDup ds ∧ (∀ d, d ∈ ds ↔ loops h !! d = Some f) ∧
       out = concat_strings ((λ d, d +:+ String newline "") <$> ds));
  find_law (h : H) f :
    let '(h', (out, exit)) := run h ["losetup"; "--find"; "--show"; f] in
    pools h' = pools h ∧ daemons h' = daemons h ∧ lapsed h' = lapsed h ∧
    match exit with
    | None => ∃ d, out = d +:+ String newline "" ∧ loops h !! d = None ∧ loops h' = <[d := f]> (loops h)
    | Some _ => loops h' = loops h
    end;
  list_law (h : H) f :
    contains_byte newline f = false →
    let '(h', (out, exit)) := run h ["losetup"; "-j"; f] in
    loops h' = loops h ∧ pools h' = pools h ∧ daemons h' = daemons h ∧
    unless_lapsed h h' (   (* it ran, and says so if it failed *)
      (exit = None → ∃ ds, (∀ d, d ∈ ds.*1 ↔ loops h !! d = Some f) ∧
         Forall (λ x, contains_byte newline x.2 = false) ds ∧ out = concat_strings (listing_line <$> ds)) ∧
      (exit ≠ None → TrimSpace out = "" → ∀ d, loops h !! d ≠ Some f));
  detach_law (h : H) d :
    let '(h', (out, exit)) := run h ["losetup"; "-d"; d] in
    pools h' = pools h ∧ daemons h' = daemons h ∧
    unless_lapsed h h'     (* a device that is in use is detached later *)
      match exit with
      | None => loops h' = delete d (loops h)
      | Some _ => loops h' = loops h ∧ (Contains (TrimSpace out) "No such device" = true → loops h !! d = None)
      end;
  (* dmsetup(8) *)
  status_law (h : H) n :
    let '(h', (out, exit)) := run h ["dmsetup"; "status"; n] in
    same_host h h' ∧ (exit = None ↔ is_Some (pools h !! n));
  reload_law (h : H) n : same_host h (run h ["dmsetup"; "reload"; n]).1;
  create_law (h : H) n table :
    let '(h', (out, exit)) := run h ["dmsetup"; "create"; n; "--table"; table] in
    loops h' = loops h ∧ daemons h' = daemons h ∧ lapsed h' = lapsed h ∧
    match exit with None => pools h' = <[n := table]> (pools h) | Some _ => pools h' = pools h end;
  remove_law (h : H) n :
    let '(h', (out, exit)) := run h ["dmsetup"; "remove"; n] in
    loops h' = loops h ∧ daemons h' = daemons h ∧ lapsed h' = lapsed h ∧
    match exit with
    | None => pools h' = delete n (pools h)
    | Some _ => pools h' = pools h ∧
        (Contains (TrimSpace out) "No such device" || Contains (TrimSpace out) "not found" = true →
         pools h !! n = None)
    end;
  (* blockdev(8) *)
  size_law (h : H) d : same_host h (run h ["blockdev"; "--getsize64"; d]).1;
  (* containerd, and pkill(1) *)
  containerd_law (h : H) conf :
    let '(h', err) := launch h ["containerd"; "--config"; conf] in
    loops h' = loops h ∧ pools h' = pools h ∧ lapsed h' = lapsed h ∧
    daemons h' = match err with None => ("containerd --config " +:+ conf) :: daemons h | Some _ => daemons h end;
  pkill_law (h : H) pat :
    plain_pattern pat = true →
    let '(h', (out, exit)) := run h ["pkill"; "-f"; pat] in
    loops h' = loops h ∧ pools h' = pools h ∧
    unless_lapsed h h' (   (* what is signalled goes *)
      (exit = None → daemons h' = filter (λ c, matches pat c = false) (daemons h)) ∧
      (exit = Some 1 → daemons h' = daemons h ∧ ∀ c, c ∈ daemons h → matches pat c = false))
}.

Module StorageBoot.

(** ** Data *)

Inductive error :=
  | ErrMkdir (path : string)
  | ErrCreate (path : string)
  | ErrTruncate (path : string)
  | ErrLoop (file : string)
  | ErrSize (dev : string)
  | ErrThinPool
  | ErrConfig
  | ErrStart
  | ErrStop (out : string)
  | ErrRemovePool (out : string)
  | ErrRetries
  | ErrListing (file : string)
  | ErrDetach (dev : string)
  | ErrRemoveAll (path : string).

#[export] Instance error_eq_dec : EqDecision error.
Proof. solve_decision. Defined.

Inductive undo :=
  | UndoRemoveAll (path : string)
  | UndoRemove (path : string)
  | UndoDetach (loop : string)
  | UndoThinPool (name : string).

(** What the environment answers: the error of a file operation on a path, and whether
    containerd's socket is there at the [i]-th look. *)
Record Env := mkEnv {
  os : string → string → option string;
  socket_at : nat → bool
}.

(** ** Pure parts *)

Definition poolName : string := "herd-thinpool".

Definition is_dir (fs : gmap string entry) (path : string) : bool :=
  match fs !! path with Some (mkEntry IsDir _) => true | _ => false end.

Definition table (dataSize : Z) (metaLoop dataLoop : string) : string :=
  let lengthSectors := dataSize `quot` 512 in
  "0 " +:+ Itoa lengthSectors +:+ " thin-pool " +:+ metaLoop +:+ " " +:+ dataLoop +:+ " " +:+
  Itoa 128 +:+ " " +:+ Itoa 32768 +:+ " 1 skip_block_zeroing".

Definition quoted (s : string) : string := String "034" (s +:+ String "034" "").

Definition ctrdConfig (stateDir ctrdDir devMapperDir : string) : string :=
  Join newline
    [""; "version = 2"; "root = " +:+ quoted (FilepathJoin [ctrdDir; "root"]);
     "state = " +:+ quoted (FilepathJoin [ctrdDir; "state"]); ""; "[grpc]";
     "  address = " +:+ quoted (FilepathJoin [stateDir; "containerd.sock"]); ""; "[plugins]";
     "  [plugins." +:+ quoted "io.containerd.snapshotter.v1.devmapper" +:+ "]";
     "    pool_name = " +:+ quoted poolName; "    root_path = " +:+ quoted devMapperDir;
     "    base_image_size = " +:+ quoted "5GB"; "    discard_blocks = true"; ""].

(** The devices that a listing names. *)
Definition parse_listing (out : string) : list string :=
  let text := TrimSpace out in
  if decide (text = "") then [] else
  omap (λ line,
    let line := TrimSpace line in
    if decide (line = "") then None else
    let loopDev := TrimSpace (default "" (Split ":" line !! 0%nat)) in
    if decide (loopDev = "") then None else Some loopDev) (Split newline text).

Section storage.
Context {H : Type} `{Tools H}.

(** The files, the rest of the host, and whether a rollback has logged a warning. *)
Record World := mkWorld { w_fs : gmap string entry; w_host : H; w_warned : bool }.

Definition set_fs (fs : gmap string entry) (w : World) : World := mkWorld fs (w_host w) (w_warned w).
Definition set_host (h : H) (w : World) : World := mkWorld (w_fs w) h (w_warned w).
Definition warn (w : World) : World := mkWorld (w_fs w) (w_host w) true.
Definition warn_if (e : option error) (w : World) : World := match e with Some _ => warn w | None => w end.

Definition M : Type → Type := Rollback.M (W := World) (U := undo) (E := error).

(** ** Steps *)

Definition tool (args : list string) : M (string * option Z) :=
  w ← world;
  let '(h, r) := run (w_host w) args in
  modify (set_host h);; mret r.

Definition call (env : Env) (op path : string) (e : error) : M unit :=
  match os env op path with Some _ => throw e | None => mret tt end.

Definition MkdirAll (env : Env) (path : string) : M unit :=
  call env "mkdirall" path (ErrMkdir path);;
  w ← world;
  if existsb (not_dir (w_fs w)) (ancestors path) then throw (ErrMkdir path)
  else modify (set_fs (foldl make_missing (w_fs w) (ancestors path))).

(** A directory, removed again if it was not there before. *)
Definition make_dir (env : Env) (path : string) : M unit :=
  w ← world;
  let preExisted := is_dir (w_fs w) path in
  MkdirAll env path;;
  if preExisted : bool then mret tt else push (UndoRemoveAll path).

Definition write (path : string) (f : file) : M unit :=
  modify (λ w, set_fs (<[path := mkEntry f 0]> (w_fs w)) w).

(** A file that is there is taken as it is; one that cannot be extended stays, empty. *)
Definition createSparseFile (env : Env) (path : string) (size : Z) : M bool :=
  w ← world;
  match w_fs w !! path with
  | Some _ => mret false
  | None =>
      call env "create" path (ErrCreate path);;
      write path (Sparse 0);;
      call env "truncate" path (ErrTruncate path);;
      write path (Sparse size);;
      mret true
  end.

Definition sparse_file (env : Env) (path : string) (size : Z) : M unit :=
  created ← createSparseFile env path size;
  if created : bool then push (UndoRemove path) else mret tt.

Definition setupLoopDevice (filePath : string) : M (string * bool) :=
  '(out, exit) ← tool ["losetup"; "--output"; "NAME"; "--noheadings"; "--associated"; filePath];
  if decide (exit = None ∧ TrimSpace out ≠ "") then mret (TrimSpace out, false) else
  '(out, exit) ← tool ["losetup"; "--find"; "--show"; filePath];
  if decide (exit = None) then mret (TrimSpace out, true) else throw (ErrLoop filePath).

Definition loop_device (filePath : string) : M string :=
  '(dev, created) ← setupLoopDevice filePath;
  (if created : bool then push (UndoDetach dev) else mret tt);;
  mret dev.

Definition thinPoolExists (name : string) : M bool :=
  '(_, exit) ← tool ["dmsetup"; "status"; name];
  mret (bool_decide (exit = None)).

Definition getBlockdevSize (dev : string) : M Z :=
  '(out, exit) ← tool ["blockdev"; "--getsize64"; dev];
  if decide (exit = None) then
    match Sscanf_d (TrimSpace out) with Some size => mret size | None => throw (ErrSize dev) end
  else throw (ErrSize dev).

Definition thin_pool (dataLoop metaLoop : string) : M unit :=
  found ← thinPoolExists poolName;
  if found : bool then _ ← tool ["dmsetup"; "reload"; poolName]; mret tt
  else
    dataSize ← getBlockdevSize dataLoop;
    '(_, exit) ← tool ["dmsetup"; "create"; poolName; "--table"; table dataSize metaLoop dataLoop];
    if decide (exit = None) then push (UndoThinPool poolName) else throw ErrThinPool.

(** A file that is opened and cannot be written stays, empty. *)
Definition write_config (env : Env) (stateDir ctrdDir devMapperDir : string) : M string :=
  let configPath := FilepathJoin [stateDir; "config.toml"] in
  call env "open" configPath ErrConfig;;
  write configPath (Text "");;
  call env "writefile" configPath ErrConfig;;
  write configPath (Text (ctrdConfig stateDir ctrdDir devMapperDir));;
  push (UndoRemove configPath);;
  mret configPath.

Definition start_containerd (configPath : string) : M unit :=
  w ← world;
  match launch (w_host w) ["containerd"; "--config"; configPath] with
  | (h, Some _) => modify (set_host h);; throw ErrStart
  | (h, None) => modify (set_host h)
  end.

(** At most [n] looks for the socket, from the [i]-th on; whether it was seen is not
    passed on. *)
Fixpoint wait_socket (env : Env) (n i : nat) : bool :=
  match n with
  | O => false
  | S n => if socket_at env i then true else wait_socket env n (S i)
  end.

(** Everything up to the directory of containerd. *)
Definition prepare (env : Env) (stateDir : string) : M unit :=
  make_dir env stateDir;;
  let devMapperDir := FilepathJoin [stateDir; "devmapper"] in
  make_dir env devMapperDir;;
  let dataFilePath := FilepathJoin [devMapperDir; "data"] in
  let metaFilePath := FilepathJoin [devMapperDir; "metadata"] in
  sparse_file env dataFilePath (20 * 1024 * 1024 * 1024);;
  sparse_file env metaFilePath (2 * 1024 * 1024 * 1024);;
  dataLoop ← loop_device dataFilePath;
  metaLoop ← loop_device metaFilePath;
  thin_pool dataLoop metaLoop;;
  make_dir env (FilepathJoin [stateDir; "containerd"]).

Definition bootstrap_body (env : Env) (stateDir : string) : M unit :=
  prepare env stateDir;;
  configPath ← write_config env stateDir (FilepathJoin [stateDir; "containerd"]) (FilepathJoin [stateDir; "devmapper"]);
  start_containerd configPath;;
  let _ := wait_socket env 30 0 in
  mret tt.

(** ** The undo actions, and Teardown *)

Definition removeThinPool (h : H) (name : string) : H * option error :=
  let '(h, (out, exit)) := run h ["dmsetup"; "remove"; name] in
  let trimmed := TrimSpace out in
  (h, if decide (exit = None) then None
      else if Contains trimmed "No such device" || Contains trimmed "not found" then None
      else Some (ErrRemovePool trimmed)).

Fixpoint removeThinPoolWithRetry (h : H) (name : string) (attempts : nat) : H * option error :=
  match attempts with
  | O => (h, Some ErrRetries)
  | S n =>
      match removeThinPool h name with
      | (h, None) => (h, None)
      | (h, Some _) => removeThinPoolWithRetry h name n
      end
  end.

Definition detachLoopDevice (h : H) (loopDevice : string) : H * option error :=
  let '(h, (out, exit)) := run h ["losetup"; "-d"; loopDevice] in
  (h, if decide (exit = None) then None
      else if Contains (TrimSpace out) "No such device" then None
      else Some (ErrDetach loopDevice)).

Definition loopDevicesForFile (h : H) (filePath : string) : H * result error (list string) :=
  let '(h, (out, exit)) := run h ["losetup"; "-j"; filePath] in
  (h, if decide (exit = None) then Ok (parse_listing out)
      else if decide (TrimSpace out = "") then Ok []
      else Err (ErrListing filePath)).

(** A file that is gone is no reason for a warning. *)
Definition run_undo (env : Env) (w : World) (u : undo) : World :=
  match u with
  | UndoRemoveAll path =>
      match os env "removeall" path with
      | Some _ => warn w
      | None => set_fs (remove_all path (w_fs w)) w
      end
  | UndoRemove path =>
      match w_fs w !! path, os env "remove" path with
      | None, _ => w
      | Some _, Some _ => warn w
      | Some _, None => set_fs (delete path (w_fs w)) w
      end
  | UndoDetach loop => let '(h, e) := detachLoopDevice (w_host w) loop in warn_if e (set_host h w)
  | UndoThinPool name => let '(h, e) := removeThinPool (w_host w) name in warn_if e (set_host h w)
  end.

Definition Bootstrap (env : Env) (w : World) (stateDir : string) : option error * World :=
  match bootstrap_body env stateDir (w, []) with
  | (Ok _, (w, _)) => (None, w)
  | (Err e, (w, stack)) => (Some e, rollback (run_undo env) w stack)
  end.

Fixpoint detach_all (h : H) (devs : list string) : H * list error :=
  match devs with
  | [] => (h, [])
  | d :: devs =>
      let '(h, e) := detachLoopDevice h d in
      let '(h, es) := detach_all h devs in
      (h, option_list e ++ es)
  end.

Definition detach_file (h : H) (filePath : string) : H * list error :=
  match loopDevicesForFile h filePath with
  | (h, Err e) => (h, [e])
  | (h, Ok devs) => detach_all h devs
  end.

Definition stop_containerd (h : H) (configPath : string) : H * list error :=
  let '(h, (out, exit)) := run h ["pkill"; "-f"; "containerd --config " +:+ configPath] in
  (h, if decide (exit = None ∨ exit = Some 1) then [] else [ErrStop (TrimSpace out)]).

(** The errors that were joined, in order; none means success. *)
Definition Teardown (env : Env) (w : World) (stateDir : string) : list error * World :=
  let '(h, stop_errs) := stop_containerd (w_host w) (FilepathJoin [stateDir; "config.toml"]) in
  let '(h, pool_err) := removeThinPoolWithRetry h poolName 5 in
  let '(h, data_errs) := detach_file h (FilepathJoin [stateDir; "devmapper"; "data"]) in
  let '(h, meta_errs) := detach_file h (FilepathJoin [stateDir; "devmapper"; "metadata"]) in
  let '(fs, rm_errs) :=
    match os env "removeall" stateDir with
    | Some _ => (w_fs w, [ErrRemoveAll stateDir])
    | None => (remove_all stateDir (w_fs w), [])
    end in
  (stop_errs ++ option_list pool_err ++ data_errs ++ meta_errs ++ rm_errs, mkWorld fs h (w_warned w)).

End storage.
End StorageBoot.
