(* ===== verification/StorageBootProps.v ===== *)
(** * What the storage bootstrap promises

    A failed [Bootstrap] gives back what it took, a successful one has built its stack of
    file, loop device, thin pool and daemon, and [Teardown] removes it again; with the runs
    in which a promise ends, and a machine that meets the laws. *)
From stdpp Require Import options.
From S2P Require Import Prelude GoStrings GoFs Rollback StorageBoot.
Import StorageBoot.StorageBoot.
#[local] Open Scope Z_scope.

Module StorageBootProps.

(** ** What is pending *)

Definition pend_dirs (st : list undo) : list string :=
  omap (λ u, match u with UndoRemoveAll p => Some p | _ => None end) st.
Definition pend_files (st : list undo) : list string :=
  omap (λ u, match u with UndoRemove p => Some p | _ => None end) st.
Definition pend_loops (st : list undo) : list string :=
  omap (λ u, match u with UndoDetach d => Some d | _ => None end) st.
Definition pend_pools (st : list undo) : list string :=
  omap (λ u, match u with UndoThinPool n => Some n | _ => None end) st.

(** A path that may differ from the old file system: a directory above the state
    directory that had to be made, the configuration, if an old one was written over
    ([gone]) and has been removed since, or one that is excused. *)
Definition same_file (parents : list string) (conf : string) (gone : Prop) (excused : string → option entry → Prop)
    (fs fs0 : gmap string entry) (p : string) : Prop :=
  fs !! p = fs0 !! p ∨ (p ∈ parents ∧ fs0 !! p = None ∧ fs !! p = Some (mkEntry IsDir 0)) ∨
  (gone ∧ p = conf ∧ is_Some (fs0 !! p) ∧ fs !! p = None) ∨ excused p (fs !! p).

Record files_agree (parents : list string) (conf : string) (gone : Prop) (excused : string → option entry → Prop) (dirs files : list string)
    (fs fs0 : gmap string entry) : Prop := {
  fa_same p : (∀ d, d ∈ dirs → under d p = false) → p ∉ files → same_file parents conf gone excused fs fs0 p;
  fa_dirs d p : d ∈ dirs → under d p = true → fs0 !! p = None;
  fa_files p : p ∈ files → (gone ∧ p = conf) ∨ fs0 !! p = None
}.

(** Below a path that is no directory there is nothing. *)
Definition rooted (fs : gmap string entry) : Prop :=
  ∀ d p, d ≠ "" → is_dir fs d = false → under d p = true → p ≠ d → fs !! p = None.

Section files.
Context (parents : list string) (conf : string).
Notation files_agree := (files_agree parents conf).

Lemma fa_weaken (g g' : Prop) (x x' : string → option entry → Prop) dirs files fs fs0 :
  (g → g') → (∀ p y, x p y → x' p y) → files_agree g x dirs files fs fs0 → files_agree g' x' dirs files fs fs0.
Proof.
  intros Hg Hx [Ha Hd Hf]. split; [|done|].
  - intros p H1 H2. destruct (Ha p H1 H2) as [?|[?|[?|?%Hx]]]; unfold same_file; naive_solver.
  - intros p [[??]|?]%Hf; [left; split; [by apply Hg|done]|by right].
Qed.

Section kept.
Context (g : Prop).
Notation files_agree := (files_agree g).

Lemma fa_pop_dir x d dirs files fs fs0 :
  files_agree x (d :: dirs) files fs fs0 → files_agree x dirs files (remove_all d fs) fs0.
Proof.
  intros [Ha Hd Hf]. split; [|intros d' p ?; apply Hd; by right|done].
  intros p H1 H2. unfold same_file. rewrite remove_all_lookup. destruct (under d p) eqn:Eu.
  - left. symmetry. apply (Hd d); [by left|done].
  - apply Ha; [|done]. intros d' [->|?]%elem_of_cons; [done|by apply H1].
Qed.

Lemma fa_pop_file x q dirs files fs fs0 :
  files_agree x dirs (q :: files) fs fs0 → files_agree x dirs files (delete q fs) fs0.
Proof.
  intros [Ha Hd Hf]. split; [|done|intros p ?; apply Hf; by right].
  intros p H1 H2. unfold same_file. destruct (decide (p = q)) as [->|Hne].
  - rewrite lookup_delete_eq. destruct (fs0 !! q) eqn:E0; [|by left].
    destruct (Hf q) as [[? ?]|?]; [by left| |congruence]. right. right. left. by split_and!.
  - rewrite lookup_delete_ne by done. apply Ha; [done|]. by intros [?|?]%elem_of_cons.
Qed.

Lemma fa_push_dir x d dirs files fs fs0 :
  (∀ p, under d p = true → fs0 !! p = None) → files_agree x dirs files fs fs0 →
  files_agree x (d :: dirs) files fs fs0.
Proof.
  intros Hd0 [Ha Hd Hf]. split; [|by intros d' p [->|?]%elem_of_cons; [apply Hd0|apply Hd]|done].
  intros p H1 H2. apply Ha; [|done]. intros d' ?. apply H1. by right.
Qed.

Lemma fa_push_file x q dirs files fs fs0 :
  (g ∧ q = conf) ∨ fs0 !! q = None → files_agree x dirs files fs fs0 → files_agree x dirs (q :: files) fs fs0.
Proof.
  intros Hq [Ha Hd Hf]. split; [|done|by intros p [->|?]%elem_of_cons; [|apply Hf]].
  intros p H1 H2. apply Ha; [done|]. contradict H2. by right.
Qed.

(** A path that is pending, or excused, may change. *)
Lemma fa_change x q dirs files fs fs0 e :
  x q (Some e) ∨ q ∈ files → files_agree x dirs files fs fs0 → files_agree x dirs files (<[q := e]> fs) fs0.
Proof.
  intros Hq [Ha Hd Hf]. split; [|done..]. intros p H1 H2. unfold same_file.
  destruct (decide (p = q)) as [->|Hne]; [|rewrite lookup_insert_ne by done; by apply Ha].
  rewrite lookup_insert_eq. destruct Hq; [by right; right; right|done].
Qed.

Lemma fa_missing x dirs files fs fs0 new :
  ¬ g → (∀ p y, ¬ x p y) →
  (∀ d, d ∈ new → d ∈ parents ∨ d ∈ dirs ∨ is_Some (fs !! d)) →
  files_agree x dirs files fs fs0 → files_agree x dirs files (foldl make_missing fs new) fs0.
Proof.
  intros Hg Hx. revert fs. induction new as [|d new IH]; intros fs Hd Hfa; [done|]. simpl. apply IH.
  - intros d' Hd'. destruct (Hd d') as [?|[?|[e ?]]]; [by right|by left|by right; left|].
    right. right. unfold make_missing. destruct (fs !! d) eqn:E; [by eexists|].
    destruct (decide (d' = d)) as [->|]; [by rewrite lookup_insert_eq; eexists|].
    rewrite lookup_insert_ne by done. by eexists.
  - unfold make_missing. destruct (fs !! d) eqn:E; [done|]. destruct Hfa as [Ha Hds Hf].
    split; [|done..]. intros p H1 H2. unfold same_file.
    destruct (decide (p = d)) as [->|Hne]; [|rewrite lookup_insert_ne by done; by apply Ha].
    rewrite lookup_insert_eq. destruct (Hd d) as [Hp|[Hp|[? ?]]]; [by left| | |congruence].
    + destruct (Ha d H1 H2) as [?|[(_ & ? & ?)|[[? _]|?%Hx]]]; [|congruence|done..].
      right. left. split_and!; [done|congruence|done].
    + specialize (H1 d Hp). by rewrite under_self in H1.
Qed.

Lemma fa_absent x dirs files fs fs0 p :
  ¬ g → (∀ y, ¬ x p y) → files_agree x dirs files fs fs0 → fs !! p = None → fs0 !! p = None.
Proof.
  intros Hg Hx [Ha Hd Hf] Hn. destruct (decide (Exists (λ d, under d p = true) dirs)) as [He|He].
  - apply Exists_exists in He as (d & ? & ?). by eapply Hd.
  - destruct (decide (p ∈ files)) as [Hp|Hp]; [by destruct (Hf p Hp) as [[? _]|]|].
    destruct (Ha p) as [?|[(_ & ? & ?)|[[? _]|?%Hx]]]; try done; [|congruence].
    intros d ?. destruct (under d p) eqn:E; [|done]. destruct He. apply Exists_exists. by exists d.
Qed.

End kept.
End files.

(** ** Reading a listing *)

Lemma trim_right_no_byte c s : contains_byte c s = false → contains_byte c (trim_right s) = false.
Proof.
  induction s as [|c' s IH]; [done|]. cbn [contains_byte trim_right]. intros [Hc Hs]%orb_false_iff.
  repeat case_match; try done; cbn [contains_byte]; by rewrite Hc, ?IH.
Qed.

Lemma trim_right_colon s x :
  trim_right (s +:+ String ":" x) = s +:+ String ":" (trim_right x).
Proof.
  by rewrite trim_right_app, trim_right_solid.
Qed.

(** What the lines of a listing are once the text is trimmed. *)
Lemma listing_trimmed ds :
  Forall (λ x, device_name x.1 ∧ contains_byte newline x.2 = false) ds → ds ≠ [] →
  ∃ ls, trim_right (concat_strings (listing_line <$> ds)) = Join newline ls ∧
    Forall2 (λ l x, ∃ y, l = x.1 +:+ String ":" y ∧ contains_byte newline y = false) ls ds.
Proof.
  induction ds as [|[d r] ds IH]; [done|]. intros [[Hd Hr] Hds]%Forall_cons _. simpl in Hd, Hr.
  destruct ds as [|x ds].
  - exists [d +:+ String ":" (trim_right (String " " r))]. simpl. rewrite string_app_nil_r. split.
    + unfold listing_line. simpl.
      replace (d +:+ String ":" (String " " (r +:+ String newline "")))
        with ((d +:+ String ":" (String " " r)) +:+ String newline "") by by rewrite string_app_assoc.
      rewrite trim_right_space by done. by rewrite trim_right_colon.
    + repeat constructor. exists (trim_right (String " " r)). split; [done|]. by apply trim_right_no_byte.
  - destruct IH as (ls & E & Hls); [done..|]. exists ((d +:+ String ":" (String " " r)) :: ls). split.
    + assert (ls ≠ []) as Hne by (intros ->; by inversion Hls).
      rewrite Join_cons, <-E by done. cbn [fmap list_fmap concat_strings]. unfold listing_line at 1. simpl.
      assert (∃ c t, concat_strings (listing_line <$> x :: ds) = String c t ∧ solid c = true) as (c & t & Ec & Hc).
      { apply Forall_cons in Hds as [[(Hx1 & Hx2 & _) _] _]. destruct x as [[|c y] r']; [done|].
        cbn [no_space fst] in Hx2. apply andb_true_iff in Hx2 as [Hc _]. by eexists c, _. }
      cbn [fmap list_fmap concat_strings] in Ec. rewrite Ec.
      rewrite trim_right_app by done. rewrite !string_app_assoc. simpl. by rewrite ?string_app_assoc.
    + constructor; [|done]. by exists (String " " r).
Qed.

(** [losetup -j]: the names before the first colon of each line, no more and no less. *)
Lemma parse_listing_exact ds :
  Forall (λ x, device_name x.1 ∧ contains_byte newline x.2 = false) ds →
  parse_listing (concat_strings (listing_line <$> ds)) = ds.*1.
Proof.
  intros Hds. destruct ds as [|[d0 r0] ds']; [done|]. set (ds := (d0, r0) :: ds') in *.
  destruct (listing_trimmed ds Hds) as (ls & E & Hls); [done|].
  assert (∀ d y, device_name d → TrimSpace (d +:+ String ":" y) = d +:+ String ":" (trim_right y)) as Ht.
  { intros d y (Hd & Hs & _). unfold TrimSpace. by rewrite trim_left_word, trim_right_colon. }
  assert (TrimSpace (concat_strings (listing_line <$> ds)) = Join newline ls) as Et.
  { apply Forall_cons in Hds as [[(? & ? & _) _] _]. unfold TrimSpace, ds. simpl. unfold listing_line at 1. simpl.
    rewrite string_app_assoc, trim_left_word by done. rewrite <-string_app_assoc. exact E. }
  assert (ls ≠ []) as Hne by (intros ->; inversion Hls).
  unfold parse_listing. rewrite Et. clearbody ds. clear E Et.
  assert (∀ l (x : string * string), device_name x.1 → (∃ y, l = x.1 +:+ String ":" y ∧ contains_byte newline y = false) →
    contains_byte newline l = false) as Hnl.
  { intros l x (_ & Hs & _) (y & -> & Hy). rewrite contains_byte_app. simpl. rewrite Hy, orb_false_r.
    clear -Hs. induction (x.1) as [|c s IH]; [done|]. cbn [no_space contains_byte] in *.
    apply andb_true_iff in Hs as [[_ Hc]%solid_ascii Hs]. rewrite IH, orb_false_r by done.
    apply bool_decide_eq_false. by intros <-. }
  rewrite decide_False.
  2: { inversion Hls as [|l x ls' ? (y & -> & _)]; subst; [done|]. destruct ls'; by destruct x as [[|? ?] ?]. }
  rewrite Split_Join.
  - clear d0 r0 ds' Hne. induction Hls as [|l x ls ds Hl Hls IH]; [done|].
    apply Forall_cons in Hds as [[Hx _] Hds]. destruct Hl as (y & -> & Hy).
    cbn [omap list_omap fmap list_fmap]. rewrite Ht by done. destruct Hx as (Hx1 & Hx2 & Hx3).
    rewrite decide_False by by destruct (x.1). rewrite Split_app by done. simpl.
    rewrite TrimSpace_word by done. rewrite decide_False by done. f_equal. by apply IH.
  - done.
  - clear d0 r0 ds' Hne. induction Hls as [|l x ls ds Hl Hls IH]; [done|].
    apply Forall_cons in Hds as [[Hx _] Hds]. constructor; [by eapply Hnl|by apply IH].
Qed.

(** ** The steps of a bootstrap *)

Section boot.
Context {H : Type} `{!Tools H} `{!ToolsLaws H}.
Notation World := (World (H := H)).
Context (env : Env) (sd : string) (Hsd : clean_abs sd) (w0 : World) (Hroot : rooted (w_fs w0)).
#[local] Set Default Proof Using "All".

Notation dm := (FilepathJoin [sd; "devmapper"]).
Notation data := (FilepathJoin [dm; "data"]).
Notation meta := (FilepathJoin [dm; "metadata"]).
Notation cd := (FilepathJoin [sd; "containerd"]).
Notation conf := (FilepathJoin [sd; "config.toml"]).

Record inv (g : Prop) (x : string → option entry → Prop) (w : World) (st : list undo) : Prop := {
  i_files : files_agree (ancestors sd) conf g x (pend_dirs st) (pend_files st) (w_fs w) (w_fs w0);
  i_loops : agree (pend_loops st) (loops (w_host w)) (loops (w_host w0));
  i_pools : agree (pend_pools st) (pools (w_host w)) (pools (w_host w0));
  i_daemons : daemons (w_host w) = daemons (w_host w0)
}.

(** A file that was made and could not be filled. *)
Definition half_made (e : error) (p : string) (y : option entry) : Prop :=
  (e = ErrTruncate p ∧ w_fs w0 !! p = None ∧ y = Some (mkEntry (Sparse 0) 0)) ∨
  (e = ErrConfig ∧ p = conf ∧ y = Some (mkEntry (Text "") 0)).

(** While the steps succeed nothing is excused; only the last can fail with the
    configuration written. *)
Definition ok : World → list undo → Prop := inv False (λ _ _, False).
Definition failed (e : error) : World → list undo → Prop := inv (e = ErrStart) (half_made e).
Notation triple := (triple ok failed).
Notation anything := (λ _ _, True).

Lemma ok_failed e w st : ok w st → failed e w st.
Proof. intros [Hf ? ? ?]. split; try done. by eapply fa_weaken; [| |exact Hf]. Qed.

Lemma paths : Forall clean_abs [sd; dm; data; meta; cd; conf] ∧
  (dm = sd +:+ "/devmapper" ∧ data = sd +:+ "/devmapper/data" ∧ meta = sd +:+ "/devmapper/metadata") ∧
  (cd = sd +:+ "/containerd" ∧ conf = sd +:+ "/config.toml").
Proof.
  assert (∀ p e, clean_abs p → plain e → clean_abs (FilepathJoin [p; e])) as Hc.
  { intros p e Hp He. destruct (clean_abs_child p e Hp He) as [-> ?]. done. }
  assert (∀ p e, clean_abs p → plain e → FilepathJoin [p; e] = p +:+ String "/" e) as Hj
    by (intros; by apply clean_abs_child).
  assert (clean_abs dm) by by apply Hc. split_and!.
  - rewrite !Forall_cons, Forall_nil. split_and!; try done; by apply Hc.
  - by apply Hj.
  - rewrite (Hj dm), (Hj sd) by done. by rewrite string_app_assoc.
  - rewrite (Hj dm), (Hj sd) by done. by rewrite string_app_assoc.
  - by apply Hj.
  - by apply Hj.
Qed.

Lemma not_conf : dm ≠ conf ∧ data ≠ conf ∧ meta ≠ conf ∧ cd ≠ conf ∧ sd ≠ conf.
Proof.
  destruct paths as (_ & (-> & -> & ->) & (-> & ->)).
  split_and!; try (intros E; apply (inj (String.append sd)) in E; discriminate).
  intros E. apply (f_equal String.length) in E. rewrite length_app_string in E. simpl in E. lia.
Qed.

Lemma triple_throw' {A} st e (Q : A → list undo → Prop) : triple st (throw e) Q.
Proof. apply triple_throw. intros w. apply ok_failed. Qed.

Lemma triple_os st op path e (Q : unit → list undo → Prop) : Q tt st → triple st (call env op path e) Q.
Proof. intros HQ. unfold call. destruct (os env op path); [apply triple_throw'|by apply triple_ret]. Qed.

Lemma triple_os_then {A} st op path e (m : M A) Q : triple st m Q → triple st (call env op path e;; m) Q.
Proof.
  intros Hm. eapply triple_bind; [by apply (triple_os st op path e (λ _ st', st' = st))|by intros ? ? ->].
Qed.

Lemma triple_tool {A} st args (k : string * option Z → M A) Q :
  (∀ w h r, ok w st → run (w_host w) args = (h, r) → ok (set_host h w) st) →
  (∀ r, triple st (k r) Q) → triple st (tool args ≫= k) Q.
Proof.
  intros Hok Hk w r w' st' Hinv E. unfold tool, mbind, M_bind, world, modify, mret, M_ret in E. simpl in E.
  destruct (run (w_host w) args) as [h x] eqn:Er. by eapply Hk; [eapply Hok|].
Qed.

(** A command that only reports. *)
Lemma ok_same h w st : same_host (w_host w) h → ok w st → ok (set_host h w) st.
Proof. intros (E1 & E2 & E3 & _) []. split; simpl; rewrite ?E1, ?E2, ?E3; done. Qed.

Lemma make_dir_triple st d :
  d ≠ "" → (∀ a, a ∈ ancestors d → a ∈ ancestors sd ∨ a = d) →
  triple st (make_dir env d) anything.
Proof.
  intros He Ha w r w' st' Hinv E. unfold make_dir, MkdirAll, call, mbind, M_bind, world, modify, push, throw, mret, M_ret in E.
  simpl in E. destruct (os env "mkdirall" d); simplify_eq/=; [by apply ok_failed|].
  destruct (existsb (not_dir (w_fs w)) (ancestors d)) eqn:Ex; simplify_eq/=; [by apply ok_failed|].
  destruct (is_dir (w_fs w) d) eqn:Ed; simplify_eq/=; split; try done; destruct Hinv as [Hf ? ? ?]; split; try done; simpl.
  - apply fa_missing; [by intros []|by intros ? ? []| |done]. intros a [?| ->]%Ha; [by left|]. right. right. unfold is_dir in Ed.
    destruct (w_fs w !! d); [by eexists|done].
  - assert (w_fs w !! d = None) as Hn.
    { destruct (w_fs w !! d) as [[fl o]|] eqn:El; [|done]. exfalso.
      assert (not_dir (w_fs w) d = true) as Hnd.
      { unfold not_dir, is_dir in *. rewrite El in *. by destruct fl. }
      apply not_true_iff_false in Ex. destruct Ex. apply existsb_exists. exists d.
      split; [apply list_elem_of_In, ancestors_self|]; done. }
    apply (fa_absent _ _ _ _ _ _ _ _ _ (λ x : False, x) (λ y (x : False), x) Hf) in Hn.
    apply fa_missing; [by intros []|by intros ? ? []|intros a [?| ->]%Ha; [by left|right; left; by left]|].
    apply fa_push_dir; [|done]. intros p Hu. destruct (decide (p = d)) as [->|]; [done|].
    apply (Hroot d); [done|unfold is_dir; by rewrite Hn|done..].
Qed.

Lemma sparse_file_triple st p size : triple st (sparse_file env p size) anything.
Proof.
  intros w r w' st' Hinv E.
  unfold sparse_file, createSparseFile, write, call, mbind, M_bind, world, modify, push, throw, mret, M_ret in E.
  simpl in E. destruct (w_fs w !! p) eqn:Ep; simplify_eq/=; [done|].
  destruct (os env "create" p); simplify_eq/=; [by apply ok_failed|].
  assert (w_fs w0 !! p = None) as H0 by (eapply (fa_absent _ _ False (λ _ _, False)); [by intros []|by intros ? []|apply Hinv|done]).
  destruct Hinv as [Hf ? ? ?]. destruct (os env "truncate" p); simplify_eq/=.
  - split; try done. simpl. apply fa_change; [left; left; by split_and!|]. eapply fa_weaken; [| |exact Hf]; done.
  - split; [|done]. split; try done. simpl.
    do 2 (apply fa_change; [right; by left|]). apply fa_push_file; [by right|done].
Qed.

Lemma loop_device_triple st f : triple st (loop_device f) anything.
Proof.
  unfold loop_device, setupLoopDevice. intros w r w' st' Hinv E.
  unfold tool, mbind, M_bind, world, modify, push, throw, mret, M_ret in E. simpl in E.
  pose proof (associated_law (w_host w) f) as Hl1.
  destruct (run (w_host w) _) as [h1 [out1 ex1]] eqn:E1. simpl in E. destruct Hl1 as [Hs1 _].
  apply (ok_same _ _ _ Hs1) in Hinv. case_decide; [by simplify_eq/=|].
  pose proof (find_law h1 f) as Hl2. simpl in E. destruct (run h1 _) as [h2 [out2 ex2]] eqn:E2. simpl in E.
  destruct Hl2 as (Ep & Ed & _ & Hl2). destruct Hinv as [Hf Hl Hp Hd]. simpl in *.
  case_decide as Hex; simplify_eq/=.
  - destruct Hl2 as (d & -> & Hn & El).
    assert (device_name d) as (? & ? & ?) by (apply (names_law h2 d f); by rewrite El, lookup_insert_eq).
    rewrite TrimSpace_line by (done || vm_compute; reflexivity). split; [|done]. split; simpl; [done| |by rewrite Ep|by rewrite Ed].
    rewrite El. apply agree_push; [|done]. by apply (agree_fresh _ _ _ _ Hl).
  - destruct ex2; [|done]. apply ok_failed. split; simpl; rewrite ?Hl2, ?Ep, ?Ed; done.
Qed.

Lemma thin_pool_triple st dl ml : triple st (thin_pool dl ml) anything.
Proof.
  unfold thin_pool, thinPoolExists, getBlockdevSize. intros w r w' st' Hinv E.
  unfold tool, mbind, M_bind, world, modify, push, throw, mret, M_ret in E. simpl in E.
  pose proof (status_law (w_host w) poolName) as Hl1. destruct (run (w_host w) _) as [h1 [out1 ex1]]. simpl in E.
  destruct Hl1 as [Hs1 Hex1]. apply (ok_same _ _ _ Hs1) in Hinv. case_bool_decide as Hx1.
  - pose proof (reload_law h1 poolName) as Hs2. simpl in E.
    destruct (run h1 ["dmsetup"; "reload"; poolName]) as [h2 ?].
    apply (ok_same h2 (set_host h1 w) st Hs2) in Hinv. by simplify_eq/=.
  - pose proof (size_law h1 dl) as Hs2. simpl in E. destruct (run h1 _) as [h2 [out2 ex2]]. simpl in E, Hs2.
    apply (ok_same h2 (set_host h1 w) st Hs2) in Hinv. case_decide; [|simplify_eq/=; by apply ok_failed].
    destruct (Sscanf_d _) as [size|]; [|simplify_eq/=; by apply ok_failed]. simpl in E.
    pose proof (create_law h2 poolName (table size ml dl)) as Hl3.
    destruct (run h2 _) as [h3 [out3 ex3]]. simpl in E. destruct Hl3 as (El & Ed & _ & Ep).
    assert (pools (w_host w0) !! poolName = None) as Hn.
    { eapply agree_fresh; [apply Hinv|]. simpl. destruct Hs2 as (_ & -> & _), Hs1 as (_ & -> & _).
      destruct (pools (w_host w) !! poolName) eqn:E0; [|done]. by destruct Hx1; apply Hex1. }
    destruct Hinv as [Hf Hl Hp Hd]. simpl in *. case_decide; simplify_eq/=.
    + split; [|done]. split; simpl; rewrite ?El, ?Ed; try done. rewrite Ep. by apply agree_push.
    + destruct ex3; [|done]. apply ok_failed. split; simpl; rewrite ?El, ?Ed, ?Ep; done.
Qed.

Lemma prepare_triple : triple [] (prepare env sd) anything.
Proof.
  destruct paths as (_ & (Edm & _ & _) & (Ecd & _)).
  assert (sd ≠ "") as Hne by (intros E; destruct Hsd as (_ & Hs & _); by rewrite E in Hs).
  unfold prepare. cbv zeta.
  eapply triple_bind; [apply make_dir_triple; [done..|by intros a ?; left]|intros _ ? _].
  eapply triple_bind; [apply make_dir_triple; [by apply FilepathJoin_nonempty; exists "devmapper"; split; [right; left|]|]|intros _ ? _].
  { intros a. rewrite Edm, ancestors_child by done. rewrite elem_of_app, list_elem_of_singleton. by rewrite <-Edm. }
  eapply triple_bind; [by apply sparse_file_triple|intros _ ? _].
  eapply triple_bind; [by apply sparse_file_triple|intros _ ? _].
  eapply triple_bind; [by apply loop_device_triple|intros dl ? _].
  eapply triple_bind; [by apply loop_device_triple|intros ml ? _].
  eapply triple_bind; [by apply thin_pool_triple|intros _ ? _].
  apply make_dir_triple; [by apply FilepathJoin_nonempty; exists "containerd"; split; [right; left|]|].
  intros a. rewrite Ecd, ancestors_child by done. rewrite elem_of_app, list_elem_of_singleton. by rewrite <-Ecd.
Qed.

(** The configuration is written over what was there. *)
Lemma write_config_failed e w st w' st' :
  ok w st → write_config env sd cd dm (w, st) = (Err e, (w', st')) → failed e w' st'.
Proof.
  intros Hinv. unfold write_config, write, call, mbind, M_bind, modify, throw, mret, M_ret. cbv zeta.
  destruct (os env "open" conf); cbn [fst snd]; intros E; [injection E as <- <- <-; by apply ok_failed|].
  destruct (os env "writefile" conf); cbn [fst snd] in E; [|done]. injection E as <- <- <-.
  destruct (ok_failed ErrConfig _ _ Hinv) as [Hf ? ? ?].
  split; [|done..]. apply fa_change; [left; right; by split_and!|done].
Qed.

Lemma write_config_done c w st w' st' :
  ok w st → write_config env sd cd dm (w, st) = (Ok c, (w', st')) → c = conf ∧ failed ErrStart w' st'.
Proof.
  intros Hinv. unfold write_config, write, call, mbind, M_bind, modify, push, throw, mret, M_ret. cbv zeta.
  destruct (os env "open" conf); cbn [fst snd]; intros E; [done|].
  destruct (os env "writefile" conf); cbn [fst snd] in E; [done|]. injection E as <- <- <-.
  split; [done|]. destruct (ok_failed ErrStart _ _ Hinv) as [Hf ? ? ?]. split; [|done..].
  do 2 (apply fa_change; [right; by left|]). apply fa_push_file; [by left|done].
Qed.

(** The same, up to the last step of the bootstrap, which alone starts a daemon. *)
Lemma body_failed e w st : bootstrap_body env sd (w0, []) = (Err e, (w, st)) → failed e w st.
Proof.
  unfold bootstrap_body. cbv zeta. unfold mbind at 1, M_bind.
  destruct (prepare env sd (w0, [])) as [r [w1 st1]] eqn:Ep.
  assert (ok w0 []) as H0.
  { split; [|apply agree_refl..|done]. split; [by left|by intros d p ?%not_elem_of_nil|by intros p ?%not_elem_of_nil]. }
  pose proof (prepare_triple _ _ _ _ H0 Ep) as Ht. destruct r as [[]|e']; [|by intros; simplify_eq].
  destruct Ht as [Ht _]. unfold mbind at 1, M_bind.
  destruct (write_config env sd cd dm (w1, st1)) as [[c|e'] [w2 st2]] eqn:Ew;
    [|intros; simplify_eq; by eapply write_config_failed].
  destruct (write_config_done _ _ _ _ _ Ht Ew) as [-> [Hf Hl Hpo Hd]].
  unfold start_containerd, mbind, M_bind, world, modify, throw, mret, M_ret. simpl.
  pose proof (containerd_law (w_host w2) conf) as Hc. destruct (launch (w_host w2) _) as [h [er|]]; simpl; intros E; [|done].
  simplify_eq. destruct Hc as (El & Eo & _ & Ed). split; simpl; rewrite ?El, ?Eo, ?Ed; done.
Qed.

(** ** The undo actions *)

(** Neither a warning nor a lapse is forgotten. *)
Definition clean (w : World) : Prop := w_warned w = false ∧ lapsed (w_host w) = false.

Lemma detach_ok (h : H) d :
  let '(h', e) := detachLoopDevice h d in
  pools h' = pools h ∧ daemons h' = daemons h ∧
  unless_lapsed h h' (e = None → loops h' = delete d (loops h)).
Proof.
  unfold detachLoopDevice, unless_lapsed. pose proof (detach_law h d) as Hl. destruct (run h _) as [h' [out ex]].
  destruct Hl as (Ep & Ed & El). split_and!; [done..|]. intros [Hh El']%El. split; [done|].
  intros Hn. case_decide as Hx; [by subst ex|]. destruct ex; [|done]. destruct El' as [-> El'].
  destruct (Contains _ _); [|done]. by rewrite delete_id by by apply El'.
Qed.

Lemma remove_pool_ok (h : H) n :
  let '(h', e) := removeThinPool h n in
  loops h' = loops h ∧ daemons h' = daemons h ∧ lapsed h' = lapsed h ∧
  pools h' = (if e then pools h else delete n (pools h)).
Proof.
  unfold removeThinPool. pose proof (remove_law h n) as Hl. destruct (run h _) as [h' [out ex]].
  destruct Hl as (El & Ed & Ey & Ep). split_and!; [done..|]. case_decide as Hx; [by subst ex|].
  destruct ex; [|done]. destruct Ep as [-> Ep]. destruct (_ || _); [|done]. by rewrite delete_id by by apply Ep.
Qed.

Lemma undo_clean w u : clean (run_undo env w u) → clean w.
Proof.
  destruct u as [p|p|d|n]; simpl.
  - by destruct (os env "removeall" p) as [?|]; [intros [? _]|].
  - by destruct (w_fs w !! p); [destruct (os env "remove" p) as [?|]; [intros [? _]|]|].
  - pose proof (detach_ok (w_host w) d) as Hd. destruct (detachLoopDevice _ d) as [h [e|]]; [by intros [? _]|].
    destruct Hd as (_ & _ & Hl). intros [? [? _]%Hl]. done.
  - pose proof (remove_pool_ok (w_host w) n) as Hd. destruct (removeThinPool _ n) as [h [e|]]; [by intros [? _]|].
    destruct Hd as (_ & _ & Hl & _). intros [? Hh]. simpl in Hh. by rewrite Hl in Hh.
Qed.

Lemma undo_failed e w u st : clean (run_undo env w u) → failed e w (u :: st) → failed e (run_undo env w u) st.
Proof.
  intros Hc [Hf Hl Hp Hd]. destruct u as [p|p|d|n]; simpl in *.
  - destruct (os env "removeall" p); [by destruct Hc|]. split; try done. simpl. by apply fa_pop_dir.
  - destruct (w_fs w !! p) eqn:E.
    + destruct (os env "remove" p); [by destruct Hc|]. split; try done. simpl. by apply fa_pop_file.
    + split; try done. rewrite <-(delete_id (w_fs w) p) by done. by apply fa_pop_file.
  - pose proof (detach_ok (w_host w) d) as Hdet. destruct (detachLoopDevice _ d) as [h [e'|]]; [by destruct Hc|].
    destruct Hc as [_ Hc], Hdet as (Ep & Ed & [_ El]); [done|].
    split; simpl; rewrite ?El, ?Ep, ?Ed; try done. by apply agree_pop.
  - pose proof (remove_pool_ok (w_host w) n) as Hrem. destruct (removeThinPool _ n) as [h [e'|]]; [by destruct Hc|].
    destruct Hrem as (El & Ed & _ & Ep). split; simpl; rewrite ?El, ?Ep, ?Ed; try done. by apply agree_pop.
Qed.

(** ** What a step has done when it succeeded *)

Notation state := (World * list undo)%type.

(** No file that is there is touched. *)
Definition keeps (fs fs' : gmap string entry) : Prop := ∀ p x, fs !! p = Some x → fs' !! p = Some x.

Lemma keeps_missing fs dirs : keeps fs (foldl make_missing fs dirs).
Proof.
  revert fs. induction dirs as [|d dirs IH]; intros fs p x Hp; [done|]. simpl. apply IH.
  unfold make_missing. destruct (fs !! d) eqn:E; [done|]. rewrite lookup_insert_ne; [done|congruence].
Qed.

(** A file that is there, or a new one of zeros. *)
Definition with_sparse (p : string) (size : Z) (fs : gmap string entry) : gmap string entry :=
  match fs !! p with Some _ => fs | None => <[p := mkEntry (Sparse size) 0]> fs end.

(** [dev] is the device of [f]: an old one, or a new one. *)
Definition attached (f dev : string) (m m' : gmap string string) : Prop :=
  (m !! dev = Some f ∧ m' = m) ∨ (m !! dev = None ∧ m' = <[dev := f]> m).

Definition one_device (f : string) (m : gmap string string) : Prop :=
  ∀ d d', m !! d = Some f → m !! d' = Some f → d = d'.

Lemma make_dir_ok d (s s' : state) :
  make_dir env d s = (Ok tt, s') → w_host s'.1 = w_host s.1 ∧
  w_fs s'.1 = foldl make_missing (w_fs s.1) (ancestors d).
Proof.
  unfold make_dir, MkdirAll, call, mbind, M_bind, world, modify, push, throw, mret, M_ret. intros E. simpl in E.
  destruct (os env "mkdirall" d); [done|]. simpl in E. destruct (existsb _ _); [done|]. simpl in E.
  by destruct (is_dir (w_fs s.1) d); simplify_eq/=.
Qed.

Lemma sparse_file_ok p size (s s' : state) :
  sparse_file env p size s = (Ok tt, s') →
  w_host s'.1 = w_host s.1 ∧ w_fs s'.1 = with_sparse p size (w_fs s.1).
Proof.
  unfold with_sparse.
  unfold sparse_file, createSparseFile, write, call, mbind, M_bind, world, modify, push, throw, mret, M_ret.
  intros E. simpl in E. destruct (w_fs s.1 !! p); simplify_eq/=; [done|].
  destruct (os env "create" p); simplify_eq/=. destruct (os env "truncate" p); simplify_eq/=.
  by rewrite insert_insert_eq.
Qed.

(** Only one device was there for the file, if any. *)
Lemma loop_device_ok f dev (s s' : state) :
  one_device f (loops (w_host s.1)) → loop_device f s = (Ok dev, s') →
  w_fs s'.1 = w_fs s.1 ∧ pools (w_host s'.1) = pools (w_host s.1) ∧ daemons (w_host s'.1) = daemons (w_host s.1) ∧
  attached f dev (loops (w_host s.1)) (loops (w_host s'.1)).
Proof.
  intros Hone E. unfold loop_device, setupLoopDevice in E.
  unfold tool, mbind, M_bind, world, modify, push, throw, mret, M_ret in E. simpl in E.
  pose proof (associated_law (w_host s.1) f) as Hl1.
  destruct (run (w_host s.1) _) as [h1 [out1 ex1]] eqn:E1. simpl in E. destruct Hl1 as [(L1 & P1 & D1 & _) Hout].
  case_decide as Hc.
  - simplify_eq/=. destruct Hc as [-> Hne]. destruct (Hout eq_refl) as (ds & Hnd & Hds & ->).
    split_and!; [done..|]. left. split; [|done]. destruct ds as [|d ds]; [done|].
    assert (loops (w_host s.1) !! d = Some f) as Hd by (apply Hds; by left).
    destruct ds as [|d' ds].
    + destruct (names_law _ _ _ Hd) as (? & ? & ?). simpl. by rewrite string_app_nil_r, TrimSpace_line.
    + apply NoDup_cons in Hnd as [Hnd _]. destruct Hnd. rewrite (Hone d d'); [left|done|]. apply Hds. right. left.
  - pose proof (find_law h1 f) as Hl2. simpl in E. destruct (run h1 _) as [h2 [out2 ex2]] eqn:E2. simpl in E.
    destruct Hl2 as (P2 & D2 & _ & Hl2). case_decide as Hex; simplify_eq/=.
    destruct Hl2 as (d & -> & Hn & El).
    assert (device_name d) as (? & ? & ?) by (apply (names_law h2 d f); by rewrite El, lookup_insert_eq).
    rewrite TrimSpace_line by done. split_and!; [done|by rewrite P2|by rewrite D2|].
    right. by rewrite <-L1.
Qed.

Lemma thin_pool_ok dl ml (s s' : state) :
  thin_pool dl ml s = (Ok tt, s') →
  w_fs s'.1 = w_fs s.1 ∧ loops (w_host s'.1) = loops (w_host s.1) ∧ daemons (w_host s'.1) = daemons (w_host s.1) ∧
  match pools (w_host s.1) !! poolName with
  | Some _ => pools (w_host s'.1) = pools (w_host s.1)
  | None => ∃ size, pools (w_host s'.1) = <[poolName := table size ml dl]> (pools (w_host s.1))
  end.
Proof.
  intros E. unfold thin_pool, thinPoolExists, getBlockdevSize in E.
  unfold tool, mbind, M_bind, world, modify, push, throw, mret, M_ret in E. simpl in E.
  pose proof (status_law (w_host s.1) poolName) as Hl1.
  destruct (run (w_host s.1) _) as [h1 [out1 ex1]]. simpl in E. destruct Hl1 as [(L1 & P1 & D1 & _) Hex1].
  case_bool_decide as Hx1.
  - pose proof (reload_law h1 poolName) as Hs2. simpl in E.
    destruct (run h1 ["dmsetup"; "reload"; poolName]) as [h2 ?]. destruct Hs2 as (L2 & P2 & D2 & _). simplify_eq/=.
    split_and!; [done|congruence|congruence|]. destruct (pools (w_host s.1) !! poolName); [congruence|].
    destruct Hex1 as [Hex1 _]. by destruct (Hex1 eq_refl).
  - pose proof (size_law h1 dl) as Hs2. simpl in E. destruct (run h1 _) as [h2 [out2 ex2]].
    destruct Hs2 as (L2 & P2 & D2 & _). simpl in E, L2, P2, D2. case_decide; [|done].
    destruct (Sscanf_d _) as [size|]; [|done]. simpl in E.
    pose proof (create_law h2 poolName (table size ml dl)) as Hl3. destruct (run h2 _) as [h3 [out3 ex3]].
    simpl in E. destruct Hl3 as (L3 & D3 & _ & P3). case_decide; simplify_eq/=.
    split_and!; [done|congruence|congruence|]. destruct (pools (w_host s.1) !! poolName) eqn:E0.
    + destruct Hx1. apply Hex1. by eexists.
    + exists size. congruence.
Qed.

Lemma write_config_ok c (s s' : state) :
  write_config env sd cd dm s = (Ok c, s') → c = conf ∧ w_host s'.1 = w_host s.1 ∧
  w_fs s'.1 = <[conf := mkEntry (Text (ctrdConfig sd cd dm)) 0]> (w_fs s.1).
Proof.
  unfold write_config, write, call, mbind, M_bind, world, modify, push, throw, mret, M_ret. cbv zeta.
  intros E. destruct (os env "open" conf); cbn [fst snd] in E; [done|].
  destruct (os env "writefile" conf); cbn [fst snd] in E; [done|]. injection E as <- <-.
  split_and!; [done..|]. cbn [fst snd set_fs w_fs]. by rewrite insert_insert_eq.
Qed.

Lemma start_ok c (s s' : state) :
  start_containerd c s = (Ok tt, s') → w_fs s'.1 = w_fs s.1 ∧ loops (w_host s'.1) = loops (w_host s.1) ∧
  pools (w_host s'.1) = pools (w_host s.1) ∧ daemons (w_host s'.1) = ("containerd --config " +:+ c) :: daemons (w_host s.1).
Proof.
  unfold start_containerd, mbind, M_bind, world, modify, throw. intros E. simpl in E.
  pose proof (containerd_law (w_host s.1) c) as Hl. destruct (launch _ _) as [h [e|]]; [done|].
  destruct Hl as (? & ? & _ & ?). by simplify_eq/=.
Qed.

Lemma attached_lookup f dev m m' : attached f dev m m' → m' !! dev = Some f.
Proof. intros [[? ->]|[? ->]]; [done|]. by rewrite lookup_insert_eq. Qed.

Lemma attached_other f g dev m m' d : attached f dev m m' → f ≠ g → m' !! d = Some g ↔ m !! d = Some g.
Proof.
  intros [[? ->]|[? ->]] Hne; [done|]. destruct (decide (d = dev)) as [->|]; [|by rewrite lookup_insert_ne].
  rewrite lookup_insert_eq. split; congruence.
Qed.

Lemma data_not_meta : data ≠ meta.
Proof.
  destruct paths as (_ & (_ & -> & ->) & _). intros E. apply (inj (String.append sd)) in E. discriminate.
Qed.

(** The whole of a bootstrap that succeeded. *)
Lemma bootstrap_ok w :
  one_device data (loops (w_host w0)) → one_device meta (loops (w_host w0)) → Bootstrap env w0 sd = (None, w) →
  ∃ dl ml m1,
    w_fs w = <[conf := mkEntry (Text (ctrdConfig sd cd dm)) 0]> (foldl make_missing
      (with_sparse meta (2 * 2 ^ 30) (with_sparse data (20 * 2 ^ 30)
        (foldl make_missing (foldl make_missing (w_fs w0) (ancestors sd)) (ancestors dm)))) (ancestors cd)) ∧
    attached data dl (loops (w_host w0)) m1 ∧ attached meta ml m1 (loops (w_host w)) ∧
    daemons (w_host w) = ("containerd --config " +:+ conf) :: daemons (w_host w0) ∧
    match pools (w_host w0) !! poolName with
    | Some _ => pools (w_host w) = pools (w_host w0)
    | None => ∃ size, pools (w_host w) = <[poolName := table size ml dl]> (pools (w_host w0))
    end.
Proof.
  intros Hd Hm E. unfold Bootstrap in E. destruct (bootstrap_body env sd (w0, [])) as [[[]|e] [w' st]] eqn:Eb; [|done].
  simplify_eq. unfold bootstrap_body in Eb. cbv zeta in Eb.
  apply bind_ok in Eb as ([] & s8 & Ep & Eb). apply bind_ok in Eb as (c & sp & Ec%write_config_ok & Eb).
  destruct Ec as (-> & Hp & Fp). apply bind_ok in Eb as ([] & s9 & E9%start_ok & Eb).
  unfold mret, M_ret in Eb. simplify_eq/=. unfold prepare in Ep. cbv zeta in Ep.
  apply bind_ok in Ep as ([] & s1 & [H1 F1]%make_dir_ok & Ep).
  apply bind_ok in Ep as ([] & s2 & [H2 F2]%make_dir_ok & Ep).
  apply bind_ok in Ep as ([] & s3 & [H3 F3]%sparse_file_ok & Ep).
  apply bind_ok in Ep as ([] & s4 & [H4 F4]%sparse_file_ok & Ep).
  assert (w_host s4.1 = w_host w0) as H04 by (rewrite H4, H3, H2, H1; done).
  apply bind_ok in Ep as (dl & s5 & E5 & Ep). apply loop_device_ok in E5; [|by rewrite H04].
  rewrite H04 in E5. destruct E5 as (F5 & P5 & D5 & L5).
  apply bind_ok in Ep as (ml & s6 & E6 & Ep). apply loop_device_ok in E6.
  2: { intros d d' H' H''. apply Hm; by apply (attached_other data meta dl _ _ _ L5 data_not_meta). }
  destruct E6 as (F6 & P6 & D6 & L6).
  apply bind_ok in Ep as ([] & s7 & E7%thin_pool_ok & Ep). destruct E7 as (F7 & L7 & D7 & P7).
  apply make_dir_ok in Ep as [H8 F8].
  destruct E9 as (F9 & L9 & P9 & D9). exists dl, ml, (loops (w_host s5.1)). split_and!.
  - rewrite F9, Fp, F8, F7, F6, F5, F4, F3, F2, F1. done.
  - done.
  - rewrite L9, Hp, H8, L7. done.
  - rewrite D9, Hp, H8, D7, D6, D5. done.
  - rewrite P9, Hp, H8. rewrite P6, P5 in P7. done.
Qed.

(** ** What a teardown has done when it reports no error *)

Lemma plain_pattern_app s s' : plain_pattern (s +:+ s') = plain_pattern s && plain_pattern s'.
Proof. induction s as [|c s IH]; [done|]. cbn [plain_pattern String.append]. by rewrite IH, andb_assoc. Qed.

(** A pattern of this kind matches itself. *)
Lemma matches_self s : matches s s = true.
Proof.
  assert (matches_here s s = true) as Hs.
  { induction s as [|c s IH]; [done|]. cbn [matches_here]. rewrite IH, bool_decide_eq_true_2 by done. done. }
  destruct s; cbn [matches]; by rewrite Hs.
Qed.

Lemma list_filter_all {A} (P : A → Prop) `{∀ x, Decision (P x)} (l : list A) : (∀ x, x ∈ l → P x) → filter P l = l.
Proof.
  induction l as [|x l IH]; intros Hl; [done|]. rewrite filter_cons, decide_True by (apply Hl; by left).
  f_equal. apply IH. intros y Hy. apply Hl. by right.
Qed.

Lemma unless_lapsed_trans (h1 h2 h3 : H) (P Q R : Prop) :
  (P → Q → R) → unless_lapsed h1 h2 P → unless_lapsed h2 h3 Q → unless_lapsed h1 h3 R.
Proof. intros Hpq H12 H23 [[? ?]%H12 ?]%H23. by split; [|apply Hpq]. Qed.

Lemma detach_all_ok devs (h : H) :
  let '(h', es) := detach_all h devs in
  pools h' = pools h ∧ daemons h' = daemons h ∧
  unless_lapsed h h' (es = [] → ∀ d, loops h' !! d = if decide (d ∈ devs) then None else loops h !! d).
Proof.
  revert h. induction devs as [|d devs IH]; intros h; [done|]. cbn [detach_all].
  pose proof (detach_ok h d) as Hd. destruct (detachLoopDevice h d) as [h1 e]. destruct Hd as (P1 & D1 & L1).
  specialize (IH h1). destruct (detach_all h1 devs) as [h2 es]. destruct IH as (P2 & D2 & L2).
  split_and!; [congruence..|]. apply (unless_lapsed_trans h h1 h2 _ _ _) with (2 := L1) (3 := L2).
  intros H1 H2 [He ->]%app_eq_nil d'. destruct e; [done|]. rewrite (H2 eq_refl), (H1 eq_refl).
  destruct (decide (d' = d)) as [->|].
  - rewrite lookup_delete_eq. rewrite (decide_True (P := d ∈ d :: devs)) by by left. by case_decide.
  - rewrite lookup_delete_ne by done. repeat case_decide; set_solver.
Qed.

Lemma detach_file_ok f (h : H) :
  contains_byte newline f = false →
  let '(h', es) := detach_file h f in
  pools h' = pools h ∧ daemons h' = daemons h ∧
  unless_lapsed h h' (es = [] → ∀ d, loops h' !! d = if decide (loops h !! d = Some f) then None else loops h !! d).
Proof.
  intros Hf. unfold detach_file, loopDevicesForFile. pose proof (list_law h f Hf) as Hl.
  destruct (run h _) as [h1 [out ex]]. destruct Hl as (L1 & P1 & D1 & Hl).
  case_decide as Hx; [|case_decide as Hq].
  - pose proof (detach_all_ok (parse_listing out) h1) as Hd. destruct (detach_all h1 _) as [h2 es].
    destruct Hd as (P2 & D2 & L2). split_and!; [congruence..|].
    apply (unless_lapsed_trans h h1 h2 _ _ _) with (2 := Hl) (3 := L2). intros [Hok _] H2 He d. rewrite (H2 He), L1.
    destruct (Hok Hx) as (ds & Hds & Hnl & ->).
    rewrite parse_listing_exact; [repeat case_decide; naive_solver|].
    apply Forall_forall. intros [d' r] Hin. split; [|by apply (proj1 (Forall_forall _ _) Hnl (d', r))].
    apply (names_law h d' f). apply Hds. apply list_elem_of_fmap. by exists (d', r).
  - split_and!; [done..|]. intros [Hh [_ Hno]]%Hl. split; [done|]. intros _ d. rewrite L1.
    rewrite decide_False; [done|]. by apply Hno.
  - split_and!; [done..|]. intros [Hh _]%Hl. by split.
Qed.

Lemma retry_ok n name (h : H) :
  let '(h', e) := removeThinPoolWithRetry h name n in
  loops h' = loops h ∧ daemons h' = daemons h ∧ lapsed h' = lapsed h ∧ (e = None → pools h' = delete name (pools h)).
Proof.
  revert h. induction n as [|n IH]; intros h; [done|]. cbn [removeThinPoolWithRetry].
  pose proof (remove_pool_ok h name) as Hr. destruct (removeThinPool h name) as [h1 [e|]]; destruct Hr as (L1 & D1 & Y1 & P1); [|done].
  specialize (IH h1). destruct (removeThinPoolWithRetry h1 name n) as [h2 e2]. destruct IH as (L2 & D2 & Y2 & P2).
  split_and!; [congruence..|]. intros He. by rewrite (P2 He), P1.
Qed.

Lemma stop_ok c (h : H) :
  plain_pattern c = true →
  let '(h', es) := stop_containerd h c in
  loops h' = loops h ∧ pools h' = pools h ∧
  unless_lapsed h h' (es = [] → daemons h' = filter (λ x, matches ("containerd --config " +:+ c) x = false) (daemons h)).
Proof.
  intros Hc. unfold stop_containerd. pose proof (pkill_law h ("containerd --config " +:+ c) Hc) as Hl.
  destruct (run h _) as [h1 [out ex]]. destruct Hl as (L1 & P1 & Hl). split_and!; [done..|].
  intros [Hh [H0 H1]]%Hl. split; [done|]. case_decide as Hx; [|done]. intros _.
  destruct Hx as [Hx|Hx]; [by apply H0|]. destruct (H1 Hx) as [-> Hno]. symmetry. by apply list_filter_all.
Qed.

Lemma teardown_ok env' (w w' : World) :
  contains_byte newline sd = false → plain_pattern sd = true → Teardown env' w sd = ([], w') → lapsed (w_host w') = false →
  w_fs w' = remove_all sd (w_fs w) ∧
  daemons (w_host w') = filter (λ x, matches ("containerd --config " +:+ conf) x = false) (daemons (w_host w)) ∧
  pools (w_host w') = delete poolName (pools (w_host w)) ∧
  ∀ d, loops (w_host w') !! d =
    if decide (loops (w_host w) !! d = Some data ∨ loops (w_host w) !! d = Some meta) then None
    else loops (w_host w) !! d.
Proof.
  intros Hn Hpl. destruct paths as (_ & (Edm & Ed & Em) & (_ & Ef)).
  assert (∀ e, FilepathJoin [sd; "devmapper"; e] = FilepathJoin [dm; e]) as Ej.
  { intros e. rewrite Edm. cbn [FilepathJoin Join]. rewrite !decide_False; [by rewrite string_app_assoc|..];
      intros E; destruct Hsd as (_ & Hs & _); [|by rewrite E in Hs].
    apply (f_equal String.length) in E. rewrite length_app_string in E. simpl in E. lia. }
  pose proof (Ej "data") as E1. pose proof (Ej "metadata") as E2.
  assert (contains_byte newline data = false ∧ contains_byte newline meta = false) as [Nd Nm]
    by (rewrite Ed, Em, !contains_byte_app, Hn; done).
  assert (plain_pattern conf = true) as Hpc by by rewrite Ef, plain_pattern_app, Hpl.
  unfold Teardown. rewrite E1, E2.
  pose proof (stop_ok conf (w_host w) Hpc) as Hs. destruct (stop_containerd (w_host w) conf) as [h1 e1].
  pose proof (retry_ok 5 poolName h1) as Hr. destruct (removeThinPoolWithRetry h1 poolName 5) as [h2 e2].
  pose proof (detach_file_ok data h2 Nd) as Hd. destruct (detach_file h2 data) as [h3 e3].
  pose proof (detach_file_ok meta h3 Nm) as Hm. destruct (detach_file h3 meta) as [h4 e4].
  destruct Hs as (L1 & P1 & Hs), Hr as (L2 & D2 & Y2 & Hr), Hd as (P3 & D3 & Hd), Hm as (P4 & D4 & Hm).
  intros E. destruct (os env' "removeall" sd); injection E as H1 <-; cbn [w_host w_fs].
  { exfalso. apply (f_equal length) in H1. rewrite !length_app in H1. simpl in H1. lia. }
  apply app_eq_nil in H1 as [-> H1]. apply app_eq_nil in H1 as [H2' H1]. apply app_eq_nil in H1 as [-> H1].
  apply app_eq_nil in H1 as [-> _]. destruct e2; [done|].
  intros [[Hy2 L3]%Hd L4]%Hm. rewrite Y2 in Hy2. destruct (Hs Hy2) as [_ D1].
  specialize (L3 eq_refl). specialize (L4 eq_refl). specialize (D1 eq_refl). specialize (Hr eq_refl).
  split_and!; [done|congruence|congruence|]. intros d. rewrite L4, L3, L2, L1.
  repeat case_decide; naive_solver.
Qed.

(** ** Properties *)

(** [C24] A [Bootstrap] that fails, at whatever step, gives back what it took, provided that
    its rollback logs no warning and no device that it detached was still in use: loop
    devices, thin pools and daemons are what they were, and so are the files, but for the
    directories above the state directory, which stay once made; for an old configuration,
    which is gone if containerd could not be started, for it was written over; and for the
    file, empty, that could be made and not be filled.  The state directory is an absolute
    path, and the file system a tree. *)
Theorem failed_bootstrap_restores w e :
  Bootstrap env w0 sd = (Some e, w) → w_warned w = false → lapsed (w_host w) = false →
  (∀ p, w_fs w !! p = w_fs w0 !! p ∨
    (p ∈ ancestors sd ∧ w_fs w0 !! p = None ∧ w_fs w !! p = Some (mkEntry IsDir 0)) ∨
    (e = ErrStart ∧ p = conf ∧ is_Some (w_fs w0 !! p) ∧ w_fs w !! p = None) ∨
    half_made e p (w_fs w !! p)) ∧
  loops (w_host w) = loops (w_host w0) ∧ pools (w_host w) = pools (w_host w0) ∧
  daemons (w_host w) = daemons (w_host w0).
Proof.
  intros E Hw Hl. unfold Bootstrap in E. destruct (bootstrap_body env sd (w0, [])) as [[?|e'] [w1 st]] eqn:Eb; [done|].
  simplify_eq. apply body_failed in Eb.
  destruct (rollback_inv (run_undo env) (λ w st, clean w → failed e w st) w1 st) as [[Ha _ _] Hlo Hp Hd].
  - intros w' u st' Hf Hc. apply undo_failed; [done|]. by apply Hf, (undo_clean w' u).
  - done.
  - by split.
  - split_and!; [|by apply agree_nil..|done].
    intros p. apply Ha; [by intros d ?%not_elem_of_nil|apply not_elem_of_nil].
Qed.

Lemma kept_file (p : string) x d : p ≠ conf →
  with_sparse meta (2 * 2 ^ 30) (with_sparse data (20 * 2 ^ 30)
    (foldl make_missing (foldl make_missing (w_fs w0) (ancestors sd)) (ancestors dm))) !! p = Some x →
  <[conf := d]> (foldl make_missing
    (with_sparse meta (2 * 2 ^ 30) (with_sparse data (20 * 2 ^ 30)
      (foldl make_missing (foldl make_missing (w_fs w0) (ancestors sd)) (ancestors dm)))) (ancestors cd)) !! p = Some x.
Proof. intros Hp Hx. rewrite lookup_insert_ne by done. by apply keeps_missing. Qed.

Lemma with_sparse_lookup p n fs q :
  with_sparse p n fs !! q = match fs !! q with
                            | Some x => Some x
                            | None => if decide (q = p) then Some (mkEntry (Sparse n) 0) else None
                            end.
Proof.
  unfold with_sparse. destruct (fs !! p) eqn:E.
  - destruct (fs !! q) eqn:Eq; [done|]. rewrite decide_False; [done|congruence].
  - destruct (decide (q = p)) as [->|]; [by rewrite lookup_insert_eq, E|].
    rewrite lookup_insert_ne by done. by destruct (fs !! q).
Qed.

(** The sparse files are not among the directories that are made. *)
Lemma not_above p : p ∈ [data; meta] → p ∉ ancestors sd ∧ p ∉ ancestors dm ∧ p ∉ ancestors cd.
Proof.
  destruct paths as (_ & (Edm & Ed & Em) & (Ec & _)).
  assert (∀ q, q ∈ [data; meta] → String.length q > String.length dm ∧ q ∉ ancestors cd)%nat as Hq.
  { intros q Hq. rewrite !elem_of_cons in Hq. rewrite Ec, ancestors_child, elem_of_app, list_elem_of_singleton by done.
    assert (q = sd +:+ "/devmapper/data" ∨ q = sd +:+ "/devmapper/metadata") as Hq'
      by (destruct Hq as [->|[->|?%not_elem_of_nil]]; [left|right|]; done).
    split; [rewrite Edm; destruct Hq' as [->| ->]; rewrite !length_app_string; simpl; lia|].
    intros [?%ancestors_length|E]; destruct Hq' as [->| ->]; rewrite ?length_app_string in *; simpl in *; try lia;
      by apply (inj (String.append sd)) in E. }
  intros [Hl Hc]%Hq. split_and!; [| |done].
  - intros ?%ancestors_length. rewrite Edm, length_app_string in Hl. lia.
  - intros ?%ancestors_length. lia.
Qed.

(** What a [Bootstrap] that succeeds has built: the data file and the metadata file,
    old or new of 20 and 2 GiB; each behind a loop device; a thin pool, whose table names
    the two devices if it is new; the configuration; and a containerd that was started with
    it.  No other file was changed. *)
Theorem bootstrap_sets_up w :
  one_device data (loops (w_host w0)) → one_device meta (loops (w_host w0)) → Bootstrap env w0 sd = (None, w) →
  w_fs w !! data = Some (default (mkEntry (Sparse 21474836480) 0) (w_fs w0 !! data)) ∧
  w_fs w !! meta = Some (default (mkEntry (Sparse 2147483648) 0) (w_fs w0 !! meta)) ∧
  (∃ dl ml, loops (w_host w) !! dl = Some data ∧ loops (w_host w) !! ml = Some meta ∧
    match pools (w_host w0) !! poolName with
    | Some old => pools (w_host w) !! poolName = Some old
    | None => ∃ size, pools (w_host w) !! poolName = Some (table size ml dl)
    end) ∧
  w_fs w !! conf = Some (mkEntry (Text (ctrdConfig sd cd dm)) 0) ∧
  daemons (w_host w) = ("containerd --config " +:+ conf) :: daemons (w_host w0) ∧
  (∀ p x, p ≠ conf → w_fs w0 !! p = Some x → w_fs w !! p = Some x).
Proof.
  intros Hd Hm E. apply bootstrap_ok in E as (dl & ml & m1 & -> & Ld & Lm & Dd & Pp); [|done..].
  destruct not_conf as (_ & Nd & Nm & _).
  destruct (not_above data) as (D1 & D2 & _); [by left|]. destruct (not_above meta) as (M1 & M2 & _); [by right; left|].
  pose proof data_not_meta as Hdm. split_and!.
  - apply kept_file; [done|]. rewrite !with_sparse_lookup, !missing_elsewhere by done.
    rewrite (decide_False (P := data = meta)), decide_True by done. by destruct (w_fs w0 !! data).
  - apply kept_file; [done|]. rewrite !with_sparse_lookup, !missing_elsewhere by done.
    rewrite (decide_False (P := meta = data)), decide_True by done. by destruct (w_fs w0 !! meta).
  - exists dl, ml. split_and!; [|by eapply attached_lookup|].
    + apply (attached_other _ _ _ _ _ _ Lm); [done|]. by eapply attached_lookup.
    + destruct (pools (w_host w0) !! poolName) eqn:Ep; [by rewrite Pp|]. destruct Pp as [size ->].
      exists size. by rewrite lookup_insert_eq.
  - by rewrite lookup_insert_eq.
  - done.
  - intros p x Hp Hx. apply kept_file; [done|]. rewrite !with_sparse_lookup.
    rewrite (keeps_missing _ _ p x); [done|]. by apply keeps_missing.
Qed.

(** [C25] [Teardown] undoes [Bootstrap].  From a host where nothing of herd is left, a
    bootstrap and a teardown that both report success leave the loop devices, thin pools,
    background processes and files as they were, but for directories above the state
    directory.  The state directory is an absolute path without regular expression operators
    other than the dot and without a newline; no process that ran before has a command line
    in which [pkill]'s unanchored pattern is found; and no program has silently let drop what
    it was asked: a device that was detached was not in use by others, the daemon did end on
    its signal, and a listing that failed said so. *)
Theorem bootstrap_teardown_roundtrip env' w1 w2 :
  (∀ p, under sd p = true → w_fs w0 !! p = None) →
  (∀ d f, loops (w_host w0) !! d = Some f → f ≠ data ∧ f ≠ meta) →
  pools (w_host w0) !! poolName = None →
  (∀ c, c ∈ daemons (w_host w0) → matches ("containerd --config " +:+ conf) c = false) →
  contains_byte newline sd = false → plain_pattern sd = true →
  Bootstrap env w0 sd = (None, w1) → Teardown env' w1 sd = ([], w2) → lapsed (w_host w2) = false →
  (∀ p, w_fs w2 !! p = w_fs w0 !! p ∨
    (p ∈ ancestors sd ∧ w_fs w0 !! p = None ∧ w_fs w2 !! p = Some (mkEntry IsDir 0))) ∧
  loops (w_host w2) = loops (w_host w0) ∧ pools (w_host w2) = pools (w_host w0) ∧
  daemons (w_host w2) = daemons (w_host w0).
Proof.
  intros Hfs Hlo Hpo Hda Hn Hpl E1 E2 Hy.
  apply bootstrap_ok in E1 as (dl & ml & m1 & F1 & Ld & Lm & D1 & P1); [|intros d d' Hd; by apply Hlo in Hd as [? ?]..].
  apply teardown_ok in E2 as (F2 & D2 & P2 & L2); [|done..]. rewrite Hpo in P1. destruct P1 as [size P1].
  pose proof data_not_meta as Hdm. destruct paths as (_ & (Edm & Ed & Em) & (Ec & Ef)). split_and!.
  - intros p. rewrite F2, remove_all_lookup. destruct (under sd p) eqn:Eu; [left; symmetry; by apply Hfs|].
    assert (∀ x, p ≠ sd +:+ String "/" x) as Hne by (intros x ->; by rewrite under_child in Eu).
    rewrite F1, lookup_insert_ne by (rewrite Ef; apply not_eq_sym, Hne).
    rewrite missing_lookup, !with_sparse_lookup, !missing_lookup.
    rewrite !(decide_False (P := p = _)) by (rewrite ?Ed, ?Em; apply Hne).
    rewrite Edm, Ec, !ancestors_child by done.
    destruct (w_fs w0 !! p) eqn:Ep; [by left|]. destruct (decide (p ∈ ancestors sd)); [by right|]. left.
    rewrite !decide_False; [done|..]; rewrite elem_of_app, list_elem_of_singleton; intros [?|?]; try done; by eapply Hne.
  - apply map_eq. intros d. rewrite L2. destruct Ld as [[Hx _]|[Hdl ->]]; [by apply Hlo in Hx as [? ?]|].
    destruct Lm as [[Hx _]|[Hml ->]].
    { exfalso. destruct (decide (ml = dl)) as [->|]; [rewrite lookup_insert_eq in Hx; congruence|].
      rewrite lookup_insert_ne in Hx by done. by apply Hlo in Hx as [? ?]. }
    destruct (decide (d = ml)) as [->|]; [rewrite lookup_insert_eq, decide_True by naive_solver|].
    { destruct (decide (ml = dl)) as [->|]; [done|]. by rewrite lookup_insert_ne in Hml. }
    rewrite lookup_insert_ne by done. destruct (decide (d = dl)) as [->|]; [by rewrite lookup_insert_eq, decide_True by naive_solver|].
    rewrite lookup_insert_ne by done. rewrite decide_False; [done|]. intros [Hx|Hx]; by apply Hlo in Hx as [? ?].
  - rewrite P2, P1. apply delete_insert_id. done.
  - rewrite D2, D1. rewrite filter_cons, decide_False by by rewrite matches_self.
    by apply list_filter_all.
Qed.

End boot.
End StorageBootProps.
