(* ===== verification/StorageBootDemo.v ===== *)
(** * A machine on which the storage bootstrap runs

    Loop devices, thin pools and daemons as the programs of [Tools] keep them, with the
    laws, and the witnesses of the properties of [StorageBootProps]; with the runs in which
    the bootstrap reports success and has not reached it. *)
From stdpp Require Import options.
From S2P Require Import Prelude GoStrings GoFs Rollback StorageBoot StorageBootProps.
Import StorageBoot.StorageBoot StorageBootProps.StorageBootProps.
#[local] Open Scope Z_scope.

Module StorageBootDemo.

(** Some devices are in use by others, and some daemons do not heed a signal. *)
Record machine := mkMachine {
  m_loops : gmap nat string;
  m_pools : gmap string string;
  m_daemons : list string;
  m_used : list string;
  m_deaf : list string;
  m_lapsed : bool
}.

Definition loop_name (n : nat) : string := "/dev/loop" +:+ Itoa (Z.of_nat n).

#[local] Instance loop_name_inj : Inj (=) (=) loop_name.
Proof. intros n n' E. apply (inj (String.append _)) in E. apply Itoa_inj in E; lia. Qed.

Definition loops_of (m : gmap nat string) : gmap string string := kmap loop_name m.

Definition free_loop (m : gmap nat string) : nat := map_fold (λ k _ acc, Nat.max (S k) acc) O m.

Lemma free_loop_above m k : is_Some (m !! k) → (k < free_loop m)%nat.
Proof.
  unfold free_loop. intros [v Hk].
  apply (map_fold_weak_ind (λ acc m, ∀ k, is_Some (m !! k) → (k < acc)%nat)) with (k := k); [| |by eexists].
  - intros k' [? Hk']. by rewrite lookup_empty in Hk'.
  - intros k' v' m' acc _ IH k'' Hk''. destruct (decide (k'' = k')) as [->|]; [lia|].
    rewrite lookup_insert_ne in Hk'' by done. specialize (IH _ Hk''). lia.
Qed.

Lemma free_loop_free m : loops_of m !! loop_name (free_loop m) = None.
Proof.
  unfold loops_of. rewrite lookup_kmap by apply _. destruct (m !! free_loop m) eqn:E; [|done].
  assert (free_loop m < free_loop m)%nat by (apply free_loop_above; by eexists). lia.
Qed.

Lemma loop_name_ok n : device_name (loop_name n).
Proof.
  unfold loop_name. split_and!; [done| |].
  - rewrite no_space_app. apply andb_true_iff. split; [done|]. apply Itoa_no_space. lia.
  - rewrite contains_byte_app, Itoa_no_byte by (done || lia). done.
Qed.

Definition devices_of (f : string) (m : gmap nat string) : list string :=
  (loop_name ∘ fst) <$> map_to_list (filter (λ kv, kv.2 = f) m).

Lemma devices_of_spec f m d : d ∈ devices_of f m ↔ loops_of m !! d = Some f.
Proof.
  unfold devices_of, loops_of. rewrite list_elem_of_fmap, lookup_kmap_Some by apply _. split.
  - intros ([k v] & -> & Hk%elem_of_map_to_list%map_lookup_filter_Some). exists k. simpl in *. naive_solver.
  - intros (k & -> & Hk). exists (k, f). split; [done|]. by apply elem_of_map_to_list, map_lookup_filter_Some.
Qed.

Lemma devices_of_nodup f m : NoDup (devices_of f m).
Proof.
  unfold devices_of. rewrite list_fmap_compose. apply NoDup_fmap_2; [apply _|]. apply NoDup_fst_map_to_list.
Qed.

Definition detach_loop (d : string) (m : gmap nat string) : gmap nat string :=
  filter (λ kv, loop_name kv.1 ≠ d) m.

Lemma detach_loop_spec d m : loops_of (detach_loop d m) = delete d (loops_of m).
Proof.
  unfold loops_of, detach_loop. apply map_eq. intros d'. apply option_eq. intros f.
  rewrite lookup_delete_Some, !lookup_kmap_Some by apply _. split.
  - intros (k & -> & [Hk Hd]%map_lookup_filter_Some). naive_solver.
  - intros [Hne (k & -> & Hk)]. exists k. split; [done|]. apply map_lookup_filter_Some. naive_solver.
Qed.

Definition with_loops (l : gmap nat string) (h : machine) : machine :=
  mkMachine l (m_pools h) (m_daemons h) (m_used h) (m_deaf h) (m_lapsed h).
Definition with_pools (p : gmap string string) (h : machine) : machine :=
  mkMachine (m_loops h) p (m_daemons h) (m_used h) (m_deaf h) (m_lapsed h).
Definition with_daemons (c : list string) (h : machine) : machine :=
  mkMachine (m_loops h) (m_pools h) c (m_used h) (m_deaf h) (m_lapsed h).
Definition lapse (h : machine) : machine :=
  mkMachine (m_loops h) (m_pools h) (m_daemons h) (m_used h) (m_deaf h) true.

(** [pkill]: whatever matches is signalled; the deaf go on. *)
Definition signal (pat : string) (h : machine) : machine :=
  let hit := λ c, matches pat c = true ∧ c ∉ m_deaf h in
  let h' := with_daemons (filter (λ c, ¬ hit c) (m_daemons h)) h in
  if decide (Exists (λ c, matches pat c = true) (m_daemons h')) then lapse h' else h'.

(** The last argument names the file, device or pool, or is the pattern. *)
Definition run_machine (h : machine) (args : list string) : machine * (string * option Z) :=
  let l := m_loops h in
  let p := m_pools h in
  let arg (i : nat) := default "" (args !! i) in
  if decide (take 5 args = ["losetup"; "--output"; "NAME"; "--noheadings"; "--associated"]) then
    (h, (concat_strings ((λ d, d +:+ String newline "") <$> devices_of (arg 5%nat) l), None))
  else if decide (take 3 args = ["losetup"; "--find"; "--show"]) then
    (with_loops (<[free_loop l := arg 3%nat]> l) h, (loop_name (free_loop l) +:+ String newline "", None))
  else if decide (take 2 args = ["losetup"; "-j"]) then
    (h, (concat_strings (listing_line <$> ((λ d, (d, "[64769]:42")) <$> devices_of (arg 2%nat) l)), None))
  else if decide (take 2 args = ["losetup"; "-d"]) then
    match loops_of l !! arg 2%nat with
    | Some _ =>
        if decide (arg 2%nat ∈ m_used h) then (lapse h, ("", None))
        else (with_loops (detach_loop (arg 2%nat) l) h, ("", None))
    | None => (h, ("losetup: No such device", Some 1))
    end
  else if decide (take 2 args = ["dmsetup"; "status"]) then
    (h, ("", if p !! arg 2%nat then None else Some 1))
  else if decide (take 2 args = ["dmsetup"; "create"]) then
    (with_pools (<[arg 2%nat := arg 4%nat]> p) h, ("", None))
  else if decide (take 2 args = ["dmsetup"; "remove"]) then
    match p !! arg 2%nat with
    | Some _ => (with_pools (delete (arg 2%nat) p) h, ("", None))
    | None => (h, ("No such device or address", Some 1))
    end
  else if decide (take 2 args = ["blockdev"; "--getsize64"]) then
    (h, ("21474836480" +:+ String newline "", None))
  else if decide (take 2 args = ["pkill"; "-f"]) then
    if decide (Exists (λ c, matches (arg 2%nat) c = true) (m_daemons h))
    then (signal (arg 2%nat) h, ("", None)) else (h, ("", Some 1))
  else (h, ("", None)).

Definition launch_machine (h : machine) (args : list string) : machine * option string :=
  (with_daemons (Join " " args :: m_daemons h) h, None).

#[export] Instance machine_tools : Tools machine := {|
  run := run_machine; launch := launch_machine; loops h := loops_of (m_loops h);
  pools := m_pools; daemons := m_daemons; lapsed := m_lapsed
|}.

Lemma list_filter_iff' {A} (P Q : A → Prop) `{∀ x, Decision (P x), ∀ x, Decision (Q x)} (l : list A) :
  (∀ x, x ∈ l → P x ↔ Q x) → filter P l = filter Q l.
Proof.
  induction l as [|x l IH]; intros Hl; [done|]. rewrite !filter_cons, IH by (intros y ?; apply Hl; by right).
  destruct (Hl x) as [? ?]; [by left|]. repeat case_decide; naive_solver.
Qed.

(** The branch of [run_machine] that a command takes. *)
Ltac run_eq :=
  cbn [run machine_tools loops pools daemons lapsed]; unfold run_machine; cbv zeta;
  repeat first
    [ rewrite (decide_False (P := take _ _ = _)) by (let E := fresh in intros E; cbn in E; discriminate E)
    | rewrite (decide_True (P := take _ _ = _)) by reflexivity ];
  cbn [lookup list_lookup default from_option id].

#[export] Instance machine_laws : ToolsLaws machine.
Proof.
  split.
  - intros h d f Hd. cbn [loops machine_tools] in Hd. unfold loops_of in Hd.
    apply lookup_kmap_Some in Hd as (k & -> & _); [|apply _]. apply loop_name_ok.
  - intros h f. run_eq. split; [done|]. intros _. exists (devices_of f (m_loops h)).
    split_and!; [apply devices_of_nodup|apply devices_of_spec|done].
  - intros h f. run_eq. split_and!; [done..|]. exists (loop_name (free_loop (m_loops h))).
    split_and!; [done|apply free_loop_free|]. cbn [loops machine_tools m_loops with_loops]. unfold loops_of.
    by rewrite kmap_insert by apply _.
  - intros h f _. run_eq. split_and!; [done..|]. intros Hy. split; [done|]. split; [|done]. intros _.
    exists ((λ d, (d, "[64769]:42")) <$> devices_of f (m_loops h)). split_and!; [|by apply Forall_fmap, Forall_true|done].
    intros d. rewrite <-list_fmap_compose. unfold compose. simpl. rewrite list_fmap_id. apply devices_of_spec.
  - intros h d. run_eq. destruct (loops_of (m_loops h) !! d) eqn:E; [|by split_and!; [..|intros]].
    case_decide; split_and!; try done. intros Hy. split; [done|]. apply detach_loop_spec.
  - intros h n. run_eq. split; [done|]. cbn [pools machine_tools].
    destruct (m_pools h !! n); split; try done; intros [? ?]; done.
  - intros h n. run_eq. done.
  - intros h n table. run_eq. done.
  - intros h n. run_eq. destruct (m_pools h !! n) eqn:E; done.
  - intros h d. run_eq. done.
  - intros h conf. done.
  - intros h pat _. run_eq. case_decide as Hx.
    + unfold signal. case_decide as Hd; [by split_and!; [..|intros]|]. split_and!; [done..|].
      intros Hy. split; [done|]. split; [|done]. intros _. cbn [daemons machine_tools with_daemons m_daemons] in Hd |- *.
      apply list_filter_iff'. intros c Hc. rewrite <-not_true_iff_false. split; [|by intros ? [? _]].
      intros Hn Hm. apply Hd, Exists_exists. exists c. split; [by apply list_elem_of_filter|done].
    + split_and!; [done..|]. intros Hy. split; [done|]. split; [done|]. intros _. split; [done|].
      intros c Hc. apply not_true_iff_false. intros Hm. apply Hx, Exists_exists. by exists c.
Qed.

(** ** A host with a loop device, a thin pool and a containerd of its own *)

Definition demo_fs : gmap string entry := {["/srv" := mkEntry IsDir 0]}.
Definition demo_world : World (H := machine) :=
  mkWorld demo_fs (mkMachine {[0%nat := "/swap"]} {["vg-root" := "0 8 linear"]}
    ["containerd --config /etc/containerd.toml"] ["/dev/loop0"] [] false) false.

(** The [failing] operation on [path] fails; the socket is seen at look [seen], if ever. *)
Definition demo_env (failing path : string) (seen : option nat) : Env :=
  mkEnv (λ op p, if decide (op = failing ∧ p = path) then Some "EIO" else None)
    (λ i, bool_decide (seen = Some i)).

Lemma demo_clean : clean_abs "/srv/herd".
Proof. by vm_compute. Qed.

Lemma demo_rooted : rooted demo_fs.
Proof.
  intros d p Hd Hdir Hu Hne. unfold demo_fs. rewrite lookup_singleton_ne; [done|]. intros <-.
  unfold under in Hu. apply orb_true_iff in Hu as [Hu%bool_decide_eq_true|Hu]; [congruence|].
  unfold HasPrefix in Hu. destruct d as [|c1 [|c2 [|c3 [|c4 [|c5 d]]]]]; [done|..];
    cbn [String.prefix String.append] in Hu; repeat case_match; done.
Qed.

Lemma failed_bootstrap_restores_witness :
  ∃ w, Bootstrap (demo_env "writefile" "/srv/herd/config.toml" (Some 3%nat)) demo_world "/srv/herd" = (Some ErrConfig, w) ∧
    loops (w_host w) = loops (w_host demo_world) ∧ w_fs w !! "/srv/herd/devmapper/data" = None.
Proof.
  eexists. split; [vm_compute; reflexivity|]. split; [|vm_compute; reflexivity].
  refine (proj1 (proj2 (failed_bootstrap_restores (demo_env "writefile" "/srv/herd/config.toml" (Some 3%nat))
    "/srv/herd" demo_clean demo_world demo_rooted _ ErrConfig _ _ _))); vm_compute; reflexivity.
Defined.

Lemma demo_one f : one_device f (loops (w_host demo_world)).
Proof.
  intros d d' Hd Hd'. cbn in Hd, Hd'. unfold loops_of in Hd, Hd'.
  apply lookup_kmap_Some in Hd as (k & -> & Hk); [|apply _]. apply lookup_kmap_Some in Hd' as (k' & -> & Hk'); [|apply _].
  apply lookup_singleton_Some in Hk as [<- _]. by apply lookup_singleton_Some in Hk' as [<- _].
Qed.

Lemma bootstrap_sets_up_witness :
  ∃ w, Bootstrap (demo_env "" "" (Some 3%nat)) demo_world "/srv/herd" = (None, w) ∧
    w_fs w !! "/srv/herd/devmapper/data" = Some (mkEntry (Sparse 21474836480) 0) ∧
    pools (w_host w) !! poolName =
      Some "0 41943040 thin-pool /dev/loop2 /dev/loop1 128 32768 1 skip_block_zeroing".
Proof.
  eexists. split; [vm_compute; reflexivity|]. split; [|vm_compute; reflexivity].
  refine (proj1 (bootstrap_sets_up (demo_env "" "" (Some 3%nat)) "/srv/herd" demo_clean demo_world demo_rooted _
    (demo_one _) (demo_one _) _)).
  vm_compute. reflexivity.
Defined.

Lemma bootstrap_teardown_roundtrip_witness :
  ∃ w1 w2, Bootstrap (demo_env "" "" None) demo_world "/srv/herd" = (None, w1) ∧
    Teardown (demo_env "" "" None) w1 "/srv/herd" = ([], w2) ∧
    loops (w_host w2) = loops (w_host demo_world) ∧ pools (w_host w2) = pools (w_host demo_world) ∧
    daemons (w_host w2) = ["containerd --config /etc/containerd.toml"].
Proof.
  eexists _, _. split; [vm_compute; reflexivity|]. split; [vm_compute; reflexivity|].
  refine (proj2 (bootstrap_teardown_roundtrip (demo_env "" "" None) "/srv/herd" demo_clean demo_world demo_rooted
    (demo_env "" "" None) _ _ _ _ _ _ _ _ _ _ _)); [| |vm_compute; reflexivity| |done|done|vm_compute; reflexivity..].
  - intros p Hu. change (demo_fs !! p = None). unfold demo_fs. rewrite lookup_singleton_ne; [done|]. by intros <-.
  - intros d f Hd. cbn in Hd. unfold loops_of in Hd. apply lookup_kmap_Some in Hd as (k & _ & Hk); [|apply _].
    by apply lookup_singleton_Some in Hk as [_ <-].
  - intros c ->%list_elem_of_singleton. vm_compute. reflexivity.
Defined.

(** ** Where success is reported and not reached *)

(** The socket never appears, the thirty looks are over, and the bootstrap says nothing. *)
Theorem bootstrap_without_socket :
  wait_socket (demo_env "" "" None) 30 0 = false ∧
  (Bootstrap (demo_env "" "" None) demo_world "/srv/herd").1 = None.
Proof. by vm_compute. Qed.

(** A data file that could not be extended stays, empty, if its directory was there; the
    next bootstrap takes it for the data file and succeeds. *)
Theorem truncated_file_is_reused :
  let dirs := foldl make_missing demo_fs (ancestors "/srv/herd/devmapper") in
  let w := mkWorld dirs (w_host demo_world) false in
  let '(e1, w1) := Bootstrap (demo_env "truncate" "/srv/herd/devmapper/data" None) w "/srv/herd" in
  let '(e2, w2) := Bootstrap (demo_env "" "" None) w1 "/srv/herd" in
  e1 = Some (ErrTruncate "/srv/herd/devmapper/data") ∧ e2 = None ∧
  w_fs w2 !! "/srv/herd/devmapper/data" = Some (mkEntry (Sparse 0) 0).
Proof. by vm_compute. Qed.

(** The pattern that is to stop herd's containerd is found in other command lines too. *)
Theorem teardown_stops_others :
  let others := ["containerd --config /srv/herd/config.toml.old"; "vi containerd --config /srv/herd/config_toml"] in
  let w := mkWorld demo_fs (with_daemons others (w_host demo_world)) false in
  let '(errs, w') := Teardown (demo_env "" "" None) w "/srv/herd" in
  errs = [] ∧ daemons (w_host w) = others ∧ daemons (w_host w') = [].
Proof. by vm_compute. Qed.

(** A device that is in use stays attached, and the teardown reports success. *)
Theorem busy_device_stays :
  let h := mkMachine {[0%nat := "/srv/herd/devmapper/data"]} ∅ [] ["/dev/loop0"] [] false in
  let '(errs, w) := Teardown (demo_env "" "" None) (mkWorld demo_fs h false) "/srv/herd" in
  errs = [] ∧ loops (w_host w) !! "/dev/loop0" = Some "/srv/herd/devmapper/data" ∧ lapsed (w_host w) = true.
Proof. by vm_compute. Qed.

End StorageBootDemo.
