(* ===== verification/Factory.v ===== *)
(** * Spawning and closing a microVM ([firecracker_factory.go])

    [Spawn] takes resources from six places and registers an undo action for each; when a
    later step fails the deferred function runs the undo actions from the last to the
    first.  Here a step is a function on the world and the undo stack that may fail, and
    an undo action is data, so that a rollback is a fold.  The components are the models
    of this development; the kernel's network ([HostNet], [Tap]) and containerd
    ([ImageStore]) are behind their interfaces.  The remaining operating system calls
    (directories, links, device nodes, processes, the guest's vsock) are answered by
    [Env]: whether they fail, and what they find.  Of the file system the model keeps which
    paths there are, what they are and who owns them; what the jailer and Firecracker put
    into the jail is an answer of [Env] too.

    Most calls that give something back may fail, and the code drops the error or logs it
    and goes on: so it does here, and the world remembers that something was kept that was
    to be given back ([kept]). *)
From stdpp Require Import options.
From S2P Require Import Prelude GoStrings GoNet GoFs Rollback UidPool Ipam PortMgr Registry ImageStore HostNet Tap.
#[local] Open Scope Z_scope.

Module Factory.

(** ** Data *)

Record FirecrackerFactory := mkFirecrackerFactory {
  FirecrackerPath : string;
  JailerPath : string;
  KernelImagePath : string;
  GuestAgentPath : string;
  JailerChrootBaseDir : string
}.

Record FirecrackerWorker := mkFirecrackerWorker {
  id : string;
  socketPath : string;
  tapName : string;
  guestIP : string;
  chrootDir : string;
  leasedUID : Z;
  portMappings : list PortMapping
}.

(** What an undo action does, with what its closure captured. *)
Inductive undo :=
  | UndoUID (uid : Z)
  | UndoStorage
  | UndoChroot (path : string)
  | UndoIP (ip : string)
  | UndoTap (name : string)
  | UndoProcess
  | UndoConn
  | UndoCancel
  | UndoPort (port : Z)
  | UndoMapping (iface : string) (hostPort : Z) (ip : string) (guestPort : Z) (proto : string).

(** A running VM: the jailer's arguments, what its configuration file says, and the
    workload sent to its agent. *)
Record VM := mkVM {
  jail : list string;
  boot_ip : string;
  boot_gw : string;
  host_dev : string;
  vcpu_count : Z;
  mem_size_mib : Z;
  payload : option (list string * list string)
}.

(** What may go wrong when a VM is taken down: the paths that [os.RemoveAll] cannot remove,
    and whether the process is still there when the wait for it times out. *)
Record Release := mkRelease { stuck : string → bool; outlives : bool }.

(** The answers of the environment to one [Spawn]. *)
Record Env := mkEnv {
  os : string → option string;        (* the error of a call, by name *)
  rdev : string → Z;                  (* the device number of a block device *)
  range_env : gmap string string → list (string * string);   (* the order of a map *)
  agent_is_dir : bool;
  binds : Host;                       (* what can be bound, for the port manager *)
  vm_files : gmap string entry;       (* what the jailer and the VM add to the jail, by the path below it *)
  guest_connects : bool;              (* within the 30 seconds of the dial loop *)
  ctx_cancelled : bool;               (* the request's context, when a rollback runs *)
  at_rollback : Release
}.

(** Where [Spawn] failed, and why. *)
Record error := mkError { stage : string; cause : string }.

(** ** Pure parts *)

Definition chrootRoot (f : FirecrackerFactory) (vmID : string) : string :=
  FilepathJoin [JailerChrootBaseDir f; "firecracker"; vmID; "root"].

Definition Address (w : FirecrackerWorker) : string := "http://" +:+ guestIP w +:+ ":80".

(** The command: the request's, or the image's, behind the image's entrypoint. *)
Definition final_command (img : ImageConfig) (command : list string) : list string :=
  let finalCmd := if decide (command ≠ []) then command else Cmd img in
  if decide (Entrypoint img ≠ []) then
    if decide (command = []) then Entrypoint img ++ finalCmd else Entrypoint img ++ command
  else finalCmd.

(** The image's environment, then the request's, in the order its map is ranged over. *)
Definition final_env (img : ImageConfig) (env : list (string * string)) : list string :=
  ImgEnv img ++ ((λ kv, kv.1 +:+ "=" +:+ kv.2) <$> env).

Definition tap_name (workerID : string) : string :=
  let tapNameLen := Nat.min 8 (String.length workerID) in
  "tap-" +:+ drop_bytes (String.length workerID - tapNameLen) workerID.

Definition vcpu (cfg : TenantConfig) : Z := if decide (VCPUs cfg ≤ 0) then 1 else VCPUs cfg.
Definition mem (cfg : TenantConfig) : Z := if decide (MemoryMB cfg ≤ 0) then 512 else MemoryMB cfg.

Definition jailer_args (f : FirecrackerFactory) (workerID : string) (uid : Z) : list string :=
  ["--id"; workerID; "--exec-file"; FirecrackerPath f; "--uid"; Itoa uid; "--gid"; Itoa uid;
   "--chroot-base-dir"; JailerChrootBaseDir f; "--"; "--no-api";
   "--config-file"; "/run/" +:+ workerID +:+ ".json"].

Definition hostIP : string := "10.200.0.1".

Definition DefaultGuestAgentPath : string := "/usr/local/bin/herd-guest-agent".

(** The kernel's command line, from the configuration file that is written for Firecracker. *)
Definition boot_args (initPath guestIP : string) : string :=
  "console=ttyS0 reboot=k panic=1 pci=off quiet mitigations=off i8042.nokbd i8042.noaux tsc=reliable random.trust_cpu=on random.trust_bootloader=on root=/dev/vda rw rootfstype=ext4 rootflags=noload,noinit_itable init=" +:+
  initPath +:+ " herd_rootfs=1 herd_ip=" +:+ guestIP +:+ " herd_gw=" +:+ hostIP.

(** The VM as it is started: nothing was sent to it yet. *)
Definition new_vm (f : FirecrackerFactory) (workerID ip tap : string) (uid : Z) (cfg : TenantConfig) : VM :=
  mkVM (jailer_args f workerID uid) ip hostIP tap (vcpu cfg) (mem cfg) None.

Definition with_payload (p : list string * list string) (vm : VM) : VM :=
  mkVM (jail vm) (boot_ip vm) (boot_gw vm) (host_dev vm) (vcpu_count vm) (mem_size_mib vm) (Some p).

Section factory.
Context {C N : Type} `{Containerd C} `{Commands N} `{Netlink N}.

Record World := mkWorld {
  w_uids : UidPool.Pool;
  w_storage : ImageStore.Manager (C := C);
  w_ipam : Ipam.IPAM;
  w_ports : option PortMgr.PortManager;
  w_net : N;
  w_fs : gmap string entry;
  w_procs : gmap string VM;
  w_left : bool   (* a file or a process was there when it should have been gone *)
}.

Definition set_uids (x : UidPool.Pool) (w : World) : World :=
  mkWorld x (w_storage w) (w_ipam w) (w_ports w) (w_net w) (w_fs w) (w_procs w) (w_left w).
Definition set_storage (x : ImageStore.Manager (C := C)) (w : World) : World :=
  mkWorld (w_uids w) x (w_ipam w) (w_ports w) (w_net w) (w_fs w) (w_procs w) (w_left w).
Definition set_ipam (x : Ipam.IPAM) (w : World) : World :=
  mkWorld (w_uids w) (w_storage w) x (w_ports w) (w_net w) (w_fs w) (w_procs w) (w_left w).
Definition set_ports (x : option PortMgr.PortManager) (w : World) : World :=
  mkWorld (w_uids w) (w_storage w) (w_ipam w) x (w_net w) (w_fs w) (w_procs w) (w_left w).
Definition set_net (x : N) (w : World) : World :=
  mkWorld (w_uids w) (w_storage w) (w_ipam w) (w_ports w) x (w_fs w) (w_procs w) (w_left w).
Definition set_fs (x : gmap string entry) (w : World) : World :=
  mkWorld (w_uids w) (w_storage w) (w_ipam w) (w_ports w) (w_net w) x (w_procs w) (w_left w).
Definition set_procs (x : gmap string VM) (w : World) : World :=
  mkWorld (w_uids w) (w_storage w) (w_ipam w) (w_ports w) (w_net w) (w_fs w) x (w_left w).

Definition set_left (w : World) : World :=
  mkWorld (w_uids w) (w_storage w) (w_ipam w) (w_ports w) (w_net w) (w_fs w) (w_procs w) true.

(** Something that was to be given back was kept: a rule, a link, a snapshot or lease, a
    file or a process. *)
Definition kept (w : World) : bool :=
  rule_kept (w_net w) || link_kept (w_net w) || store_kept (ImageStore.client (w_storage w)) || w_left w.

(** ** Steps: state, undo stack (the last pushed first) and failure *)

Definition M : Type → Type := Rollback.M (W := World) (U := undo) (E := error).

Definition fail {A} (where_ what : string) : M A := throw (mkError where_ what).

(** A call that changes nothing the model keeps. *)
Definition call (env : Env) (name : string) : M unit :=
  match os env name with Some e => fail name e | None => mret tt end.

(** *** File system calls, by the name under which [Env] may fail them *)

Definition add_file (name path : string) (f : file) : M unit :=
  w ← world;
  match w_fs w !! path with
  | Some _ => fail name "file exists"
  | None => modify (set_fs (<[path := mkEntry f 0]> (w_fs w)))
  end.

(** [os.Mkdir] whose error [IsExist], which it has when the path is taken, is tolerated;
    whether the directory was created. *)
Definition mkdir_exist_ok (env : Env) (name path : string) : M bool :=
  call env name;;
  w ← world;
  match w_fs w !! path with
  | Some _ => mret false
  | None => modify (set_fs (<[path := mkEntry IsDir 0]> (w_fs w)));; mret true
  end.

Definition MkdirAll (env : Env) (name path : string) : M unit :=
  call env name;;
  w ← world;
  if existsb (not_dir (w_fs w)) (ancestors path) then fail name "not a directory"
  else modify (set_fs (foldl make_missing (w_fs w) (ancestors path))).

Definition Chown (env : Env) (name path : string) (uid : Z) : M unit :=
  call env name;;
  modify (λ w, set_fs (alter (set_owner uid) path (w_fs w)) w).

Definition Link (env : Env) (name target path : string) : M unit :=
  call env name;; add_file name path (HardLink target).

Definition Mknod (env : Env) (name path : string) (dev : Z) : M unit :=
  call env name;; add_file name path (BlockDev dev).

(** An existing file is overwritten, and keeps its owner. *)
Definition WriteFile (env : Env) (name path : string) : M unit :=
  call env name;;
  modify (λ w, match w_fs w !! path with
               | Some _ => w
               | None => set_fs (<[path := mkEntry Regular 0]> (w_fs w)) w
               end).

(** ** Spawn, in the order of the code *)

Definition lease_uid : M Z :=
  w ← world;
  match UidPool.Checkout (w_uids w) with
  | (Err _, _) => fail "uid pool checkout" "exhausted"
  | (Ok uid, p) => modify (set_uids p);; push (UndoUID uid);; mret uid
  end.

Definition warm_image (image : string) : M unit :=
  w ← world;
  match ImageStore.WarmImage (w_storage w) image with
  | (m, Some e) => modify (set_storage m);; fail "warm image" e
  | (m, None) => modify (set_storage m)
  end.

Definition image_command (cfg : TenantConfig) : M (list string * ImageConfig) :=
  w ← world;
  match ImageStore.ExtractImageConfig (w_storage w) (Image cfg) with
  | Err e => fail "extract image config" e
  | Ok img =>
      let finalCmd := final_command img (Command cfg) in
      if decide (finalCmd = []) then fail "no command to run" (Image cfg) else mret (finalCmd, img)
  end.

Definition take_snapshot (workerID image : string) : M string :=
  w ← world;
  match ImageStore.Snapshot (w_storage w) workerID image with
  | (m, Err e) => modify (set_storage m);; fail "snapshot" e
  | (m, Ok rootfsPath) => modify (set_storage m);; push UndoStorage;; mret rootfsPath
  end.

Definition inject_agent (env : Env) (workerID : string) : M unit :=
  w ← world;
  match ImageStore.InjectGuestAgent (os env) (agent_is_dir env) (w_storage w) workerID with
  | (m, Some e) => modify (set_storage m);; fail "inject guest agent" e
  | (m, None) => modify (set_storage m)
  end.

(** Only a directory that was created is removed again. *)
Definition make_chroot (env : Env) (root : string) : M unit :=
  created ← mkdir_exist_ok env "mkdir root" root;
  if created : bool then push (UndoChroot root) else mret tt.

Definition bindDeviceIntoChroot (env : Env) (srcPath dstPath : string) (uid : Z) : M unit :=
  call env "stat device";;
  Mknod env "mknod device" dstPath (rdev env srcPath);;
  Chown env "chown device" dstPath uid.

Definition build_chroot (f : FirecrackerFactory) (env : Env) (root rootfsPath : string) (uid : Z) : M unit :=
  let chrootRunDir := FilepathJoin [root; "run"] in
  let chrootDevDir := FilepathJoin [root; "dev"] in
  MkdirAll env "mkdirall jail" (Dir root);;
  make_chroot env root;;
  Chown env "chown root" root uid;;
  _ ← mkdir_exist_ok env "mkdir run" chrootRunDir;
  Chown env "chown run" chrootRunDir uid;;
  _ ← mkdir_exist_ok env "mkdir dev" chrootDevDir;
  Chown env "chown dev" chrootDevDir uid;;
  Link env "link kernel" (KernelImagePath f) (FilepathJoin [chrootRunDir; "vmlinux"]);;
  bindDeviceIntoChroot env rootfsPath (FilepathJoin [chrootDevDir; "vda"]) uid.

Definition acquire_ip : M string :=
  w ← world;
  match Ipam.Acquire (w_ipam w) with
  | Some (Ok ip, i) => modify (set_ipam i);; push (UndoIP ip);; mret ip
  | Some (Err _, i) => modify (set_ipam i);; fail "acquire IP" "exhausted"
  | None => fail "acquire IP" "out of fuel"
  end.

Definition make_tap (workerID ip : string) (uid : Z) : M string :=
  let name := tap_name workerID in
  modify (λ w, set_net (Tap.DeleteTap (w_net w) name).1 w);;
  w ← world;
  match Tap.CreatePointToPointTap (w_net w) name hostIP ip uid uid with
  | (n, Some _) => modify (set_net n);; fail "create tap" name
  | (n, None) => modify (set_net n);; push (UndoTap name);; mret name
  end.

(** The error of opening the log is not looked at. *)
Definition open_log (env : Env) (path : string) : M unit := λ s,
  match WriteFile env "open log" path s with (_, s') => (Ok tt, s') end.

(** What is put into the jail from outside herd: a path that is taken is left alone. *)
Definition populate (root : string) (files fs : gmap string entry) : gmap string entry :=
  fs ∪ kmap (String.append (root +:+ "/")) files.

(** The jailer process, with the undo action that kills it.  The jailer and Firecracker
    fill the jail, with the executable, device nodes and the vsock's socket. *)
Definition start_vm (env : Env) (root workerID : string) (vm : VM) : M unit :=
  call env "start jailer";;
  modify (λ w, set_procs (<[workerID := vm]> (w_procs w)) w);;
  modify (λ w, set_fs (populate root (vm_files env) (w_fs w)) w);;
  push UndoProcess.

(** The dial loop: there must be a socket, and somebody who answers. *)
Definition connect (env : Env) (socketPath : string) : M unit :=
  w ← world;
  (if guest_connects env && bool_decide (is_Some (w_fs w !! socketPath)) then mret tt
   else fail "connect to guest agent" "timeout");;
  push UndoConn;;
  push UndoCancel.

(** The goroutine that sends the workload. *)
Definition send_payload (workerID : string) (vm : VM) (p : list string * list string) : M unit :=
  modify (λ w, set_procs (<[workerID := with_payload p vm]> (w_procs w)) w).

Definition launch (env : Env) (root workerID : string) (vm : VM) (p : list string * list string) : M unit :=
  let chrootRunDir := FilepathJoin [root; "run"] in
  WriteFile env "write config" (FilepathJoin [chrootRunDir; workerID +:+ ".json"]);;
  start_vm env root workerID vm;;
  connect env (FilepathJoin [chrootRunDir; "v.sock"]);;
  open_log env (FilepathJoin [root; workerID +:+ ".log"]);;
  send_payload workerID vm p.

Definition allocate_port (env : Env) (workerID : string) (pm : PortMapping) : M Z :=
  w ← world;
  match w_ports w with
  | None => mret (HostPort pm)
  | Some ports =>
      match @PortMgr.Allocate (binds env) ports (HostPort pm) (Protocol pm) (HostInterface pm) workerID with
      | Some (Ok hostPort, ports) =>
          modify (set_ports (Some ports));; push (UndoPort hostPort);; mret hostPort
      | Some (Err _, ports) => modify (set_ports (Some ports));; fail "port allocation" "refused"
      | None => fail "port allocation" "out of fuel"
      end
  end.

Definition map_port (env : Env) (workerID ip : string) (pm : PortMapping) : M PortMapping :=
  hostPort ← allocate_port env workerID pm;
  w ← world;
  match HostNet.AddPortMapping (w_net w) (HostInterface pm) hostPort ip (GuestPort pm) (Protocol pm) with
  | (n, Some _) => modify (set_net n);; fail "iptables setup" "failed"
  | (n, None) =>
      modify (set_net n);;
      push (UndoMapping (HostInterface pm) hostPort ip (GuestPort pm) (Protocol pm));;
      mret (mkPortMapping (HostInterface pm) hostPort (GuestPort pm) (Protocol pm))
  end.

Fixpoint map_ports (env : Env) (workerID ip : string) (pms : list PortMapping) : M (list PortMapping) :=
  match pms with
  | [] => mret []
  | pm :: pms =>
      active ← map_port env workerID ip pm;
      rest ← map_ports env workerID ip pms;
      mret (active :: rest)
  end.

Definition spawn_body (f : FirecrackerFactory) (env : Env) (sessionID : string) (cfg : TenantConfig)
    : M FirecrackerWorker :=
  let workerID := sessionID in
  uid ← lease_uid;
  warm_image (Image cfg);;
  '(finalCmd, imgConfig) ← image_command cfg;
  rootfsPath ← take_snapshot workerID (Image cfg);
  inject_agent env workerID;;
  let root := chrootRoot f workerID in
  build_chroot f env root rootfsPath uid;;
  ip ← acquire_ip;
  tap ← make_tap workerID ip uid;
  launch env root workerID (new_vm f workerID ip tap uid cfg)
    (finalCmd, final_env imgConfig (range_env env (Registry.Env cfg)));;
  active ← map_ports env workerID ip (Registry.PortMappings cfg);
  mret {| id := workerID; socketPath := FilepathJoin [root; "run"; "v.sock"]; tapName := tap;
          guestIP := ip; chrootDir := root; leasedUID := uid; portMappings := active |}.

(** ** The undo actions *)

Definition return_uid (uid : Z) (w : World) : World :=
  set_uids (UidPool.Return (w_uids w) uid).2 w.
Definition teardown_storage (cancelled : bool) (vmID : string) (w : World) : World :=
  set_storage (ImageStore.Teardown (w_storage w) cancelled vmID).1 w.
(** [os.RemoveAll]: what it cannot remove stays. *)
Definition remove_dir (r : Release) (path : string) (w : World) : World :=
  let rest := filter (λ kv, under path kv.1 = true ∧ stuck r kv.1 = true) (w_fs w) in
  let w := if decide (rest = ∅) then w else set_left w in
  set_fs (remove_all path (w_fs w) ∪ rest) w.
Definition release_ip (ip : string) (w : World) : World := set_ipam (Ipam.Release (w_ipam w) ip) w.
Definition delete_tap (name : string) (w : World) : World :=
  set_net (Tap.DeleteTap (w_net w) name).1 w.
(** The process is killed and waited for, for some seconds. *)
Definition kill_process (r : Release) (vmID : string) (w : World) : World :=
  if outlives r then set_left w else set_procs (delete vmID (w_procs w)) w.
Definition release_port (port : Z) (w : World) : World :=
  set_ports ((λ ports, PortMgr.Release ports port) <$> w_ports w) w.
Definition unmap_port (iface : string) (hp : Z) (ip : string) (gp : Z) (proto : string) (w : World)
    : World :=
  set_net (HostNet.RemovePortMapping (w_net w) iface hp ip gp proto) w.

Definition run_undo (env : Env) (vmID : string) (w : World) (u : undo) : World :=
  match u with
  | UndoUID uid => return_uid uid w
  | UndoStorage => teardown_storage (ctx_cancelled env) vmID w
  | UndoChroot path => remove_dir (at_rollback env) path w
  | UndoIP ip => release_ip ip w
  | UndoTap name => delete_tap name w
  | UndoProcess => kill_process (at_rollback env) vmID w
  | UndoConn | UndoCancel => w
  | UndoPort port => release_port port w
  | UndoMapping iface hp ip gp proto => unmap_port iface hp ip gp proto w
  end.

(** The deferred function: last in, first out. *)
Definition rollback (env : Env) (vmID : string) (w : World) (stack : list undo) : World :=
  Rollback.rollback (run_undo env vmID) w stack.

Definition Spawn (f : FirecrackerFactory) (env : Env) (w : World) (sessionID : string)
    (cfg : TenantConfig) : result error FirecrackerWorker * World :=
  match spawn_body f env sessionID cfg (w, []) with
  | (Ok worker, (w, _)) => (Ok worker, w)
  | (Err e, (w, stack)) => (Err e, rollback env sessionID w stack)
  end.

(** ** Close, in the order of the code; its context is the background one, and no failure
    stops it *)

Definition close_mapping (ip : string) (w : World) (pm : PortMapping) : World :=
  release_port (HostPort pm)
    (unmap_port (HostInterface pm) (HostPort pm) ip (GuestPort pm) (Protocol pm) w).

Definition Close (r : Release) (f : FirecrackerWorker) (w : World) : World :=
  let w := kill_process r (id f) w in
  let w := if decide (chrootDir f ≠ "") then remove_dir r (chrootDir f) w else w in
  let w := delete_tap (tapName f) w in
  let w := if decide (guestIP f ≠ "") then release_ip (guestIP f) w else w in
  let w := teardown_storage false (id f) w in
  let w := if decide (leasedUID f ≠ 0) then return_uid (leasedUID f) w else w in
  foldl (close_mapping (guestIP f)) w (portMappings f).

End factory.

End Factory.
