(* ===== verification/FactoryInv.v ===== *)
(** * A failed spawn, and a close, give everything back

    The invariant relates the world a spawn started from, the world now and the undo
    actions pending: each component is the old one plus exactly what the pending actions
    will take back.  Every step of [spawn_body] keeps it while it pushes, every undo
    action that is not refused keeps it while it is popped, and with nothing pending the two
    worlds agree. *)
From stdpp Require Import options.
From S2P Require Import Prelude GoStrings GoNet GoFs Rollback UidPool Ipam PortMgr Registry ImageStore HostNet Tap Factory.
Import Factory.Factory.
#[local] Open Scope Z_scope.

(** Rules and links are separate parts of the host. *)
Class HostLaws (N : Type) `{Commands N} `{Netlink N} := {
  host_iptables :: IptablesLaws N;
  host_netlink :: NetlinkLaws N;
  run_links n name args : links (runCmd n name args).1 = links n;
  run_keeps n name args : link_kept (runCmd n name args).1 = link_kept n;
  add_rules_keeps n name u g : rule_kept (LinkAdd n name u g).1 = rule_kept n;
  addr_rules_keeps n name a : rule_kept (AddrAdd n name a).1 = rule_kept n;
  up_rules_keeps n name : rule_kept (LinkSetUp n name).1 = rule_kept n;
  del_rules_keeps n name : rule_kept (LinkDel n name).1 = rule_kept n;
  add_rules_law n name u g t c : rules (LinkAdd n name u g).1 t c = rules n t c;
  addr_rules_law n name a t c : rules (AddrAdd n name a).1 t c = rules n t c;
  up_rules_law n name t c : rules (LinkSetUp n name).1 t c = rules n t c;
  del_rules_law n name t c : rules (LinkDel n name).1 t c = rules n t c
}.

Module FactoryInv.

(** ** What is pending *)

Record mapping := mkMapping { m_iface : string; m_hp : Z; m_ip : string; m_gp : Z; m_proto : string }.

Definition pend_uids (st : list undo) : list Z :=
  omap (λ u, match u with UndoUID x => Some x | _ => None end) st.
Definition pend_ips (st : list undo) : list string :=
  omap (λ u, match u with UndoIP x => Some x | _ => None end) st.
Definition pend_taps (st : list undo) : list string :=
  omap (λ u, match u with UndoTap x => Some x | _ => None end) st.
Definition pend_dirs (st : list undo) : list string :=
  omap (λ u, match u with UndoChroot x => Some x | _ => None end) st.
Definition pend_ports (st : list undo) : list Z :=
  omap (λ u, match u with UndoPort x => Some x | _ => None end) st.
Definition pend_maps (st : list undo) : list mapping :=
  omap (λ u, match u with
             | UndoMapping i hp ip gp proto => Some (mkMapping i hp ip gp proto)
             | _ => None end) st.
Definition pend_procs (vmID : string) (st : list undo) : list string :=
  omap (λ u, match u with UndoProcess => Some vmID | _ => None end) st.
Definition pend_stores (k : string) (st : list undo) : list string :=
  omap (λ u, match u with UndoStorage => Some k | _ => None end) st.

(** The resources that are taken, kind by kind. *)
Record pending := mkPending {
  p_uids : list Z; p_ips : list string; p_ports : list (Z * string); p_taps : list string; p_dirs : list string;
  p_procs : list string; p_leases : list string; p_snaps : list string; p_maps : list mapping
}.

Definition m_dnat (m : mapping) : list string :=
  HostNet.dnat_spec (m_iface m) (m_hp m) (m_ip m) (m_gp m) (HostNet.proto_of (m_proto m)).
Definition m_output (m : mapping) : list string :=
  HostNet.output_spec (m_hp m) (m_ip m) (m_gp m) (HostNet.proto_of (m_proto m)).
Definition m_forward (m : mapping) : list string :=
  HostNet.forward_spec (m_ip m) (m_gp m) (HostNet.proto_of (m_proto m)).

Definition chain_rules (t c : string) (ms : list mapping) : list (list string) :=
  if decide (t = "nat" ∧ c = "PREROUTING") then m_dnat <$> ms
  else if decide (t = "filter" ∧ c = "FORWARD") then m_forward <$> ms
  else [].

Definition out_rules (ms : list mapping) : list (list string) :=
  omap (λ m, if HostNet.local_too (m_iface m) then Some (m_output m) else None) ms.

(** Files: those at or below a pending directory are new.  Elsewhere the files are the
    same, but that the directories [parents] may have been made. *)
Definition same_file (parents : list string) (fs fs0 : gmap string entry) (p : string) : Prop :=
  fs !! p = fs0 !! p ∨ (p ∈ parents ∧ fs0 !! p = None ∧ fs !! p = Some (mkEntry IsDir 0)).
Definition fs_agree (parents pend : list string) (fs fs0 : gmap string entry) : Prop :=
  (∀ p, (∀ d, d ∈ pend → under d p = false) → same_file parents fs fs0 p) ∧
  (∀ d p, d ∈ pend → under d p = true → fs0 !! p = None).

(** A port that is pending is claimed by the VM it is pending for, if at all. *)
Definition ports_agree (pend : list (Z * string)) (p p0 : option PortMgr.PortManager) : Prop :=
  match p, p0 with
  | Some p, Some p0 =>
      PortMgr.ephemeralStart p = PortMgr.ephemeralStart p0 ∧
      PortMgr.ephemeralEnd p = PortMgr.ephemeralEnd p0 ∧
      agree pend.*1 (PortMgr.inUse p) (PortMgr.inUse p0) ∧
      ∀ q v, PortMgr.inUse p !! q = Some v → PortMgr.inUse p0 !! q = Some v ∨ (q, v) ∈ pend
  | None, None => True
  | _, _ => False
  end.

(** The map of used addresses holds no [false]. *)
Definition all_used (i : Ipam.IPAM) : Prop := ∀ s b, Ipam.usedIPs i !! s = Some b → b = true.

(** Addresses that are held: different ones, and all in use. *)
Definition ips_held (pend : list string) (i : Ipam.IPAM) : Prop :=
  NoDup pend ∧ ∀ s, s ∈ pend → Ipam.usedIPs i !! s ≠ None.

Record uids_agree (pend : list Z) (p p0 : UidPool.Pool) : Prop := {
  ua_cap : UidPool.ch_cap p = UidPool.ch_cap p0;
  ua_start : UidPool.start p = UidPool.start p0;
  ua_end : UidPool.end_ p = UidPool.end_ p0;
  ua_ch : UidPool.ch p ++ pend ≡ₚ UidPool.ch p0
}.

Lemma fst_pairs {A B} (b : B) (l : list A) : ((λ a, (a, b)) <$> l).*1 = l.
Proof. rewrite <-list_fmap_compose. apply list_fmap_id. Qed.

Section world.
Context {C N : Type} `{ContainerdLaws C} `{HostLaws N}.
#[local] Set Default Proof Using "Type*".
Notation World := (World (C := C) (N := N)).

(** Rules: every chain but OUTPUT has exactly the pending ones more; OUTPUT has at most
    the pending ones more, none of which was there before. *)
Record rules_agree (ms : list mapping) (n n0 : N) : Prop := {
  ra_chains t c : ¬ (t = "nat" ∧ c = "OUTPUT") → rules n t c ≡ₚ rules n0 t c ++ chain_rules t c ms;
  ra_output : ∃ extra, rules n "nat" "OUTPUT" ≡ₚ rules n0 "nat" "OUTPUT" ++ extra ∧
    extra ⊆+ out_rules ms;
  ra_fresh : Forall (λ m, m_output m ∉ rules n0 "nat" "OUTPUT") ms
}.

(** A world that is an old one but for what is pending. *)
Record agrees (parents : list string) (P : pending) (w0 w : World) : Prop := {
  inv_uids : uids_agree (p_uids P) (w_uids w) (w_uids w0);
  inv_net : Ipam.subnet (w_ipam w) = Ipam.subnet (w_ipam w0);
  inv_v4 : length (Ipam.nextIP (w_ipam w)) = 4%nat;
  inv_ips : agree (p_ips P) (Ipam.usedIPs (w_ipam w)) (Ipam.usedIPs (w_ipam w0));
  inv_used : all_used (w_ipam w0) → all_used (w_ipam w);
  inv_ports : ports_agree (p_ports P) (w_ports w) (w_ports w0);
  inv_taps : agree_set (p_taps P) (links (w_net w)) (links (w_net w0));
  inv_fs : fs_agree parents (p_dirs P) (w_fs w) (w_fs w0);
  inv_procs : agree (p_procs P) (w_procs w) (w_procs w0);
  inv_leases : agree_set (p_leases P)
    (leases (ImageStore.client (w_storage w))) (leases (ImageStore.client (w_storage w0)));
  inv_snaps : agree_set (p_snaps P)
    (snapshots (ImageStore.client (w_storage w))) (snapshots (ImageStore.client (w_storage w0)));
  inv_rules : rules_agree (p_maps P) (w_net w) (w_net w0);
  inv_held : ips_held (p_ips P) (w_ipam w)
}.

(** What the undo actions of a spawn of [vmID] will take back; [leak]: its snapshot and
    lease may be there although nothing is pending. *)
Definition pending_of (vmID : string) (leak : bool) (st : list undo) : pending := {|
  p_uids := pend_uids st; p_ips := pend_ips st; p_ports := (λ q, (q, vmID)) <$> pend_ports st; p_taps := pend_taps st;
  p_dirs := pend_dirs st; p_procs := pend_procs vmID st;
  p_leases := pend_stores (ImageStore.leaseKey vmID) st ++ (if leak then [ImageStore.leaseKey vmID] else []);
  p_snaps := pend_stores (ImageStore.snapshotKey vmID) st ++ (if leak then [ImageStore.snapshotKey vmID] else []);
  p_maps := pend_maps st
|}.

Definition inv (parents : list string) (vmID : string) (leak : bool) (w0 w : World) (st : list undo) : Prop :=
  agrees parents (pending_of vmID leak st) w0 w.

(** What is pending with one more undo action of [vmID]. *)
Definition undo_pending (vmID : string) (u : undo) (P : pending) : pending := {|
  p_uids := pend_uids [u] ++ p_uids P; p_ips := pend_ips [u] ++ p_ips P; p_ports := ((λ q, (q, vmID)) <$> pend_ports [u]) ++ p_ports P;
  p_taps := pend_taps [u] ++ p_taps P; p_dirs := pend_dirs [u] ++ p_dirs P;
  p_procs := pend_procs vmID [u] ++ p_procs P;
  p_leases := pend_stores (ImageStore.leaseKey vmID) [u] ++ p_leases P;
  p_snaps := pend_stores (ImageStore.snapshotKey vmID) [u] ++ p_snaps P;
  p_maps := pend_maps [u] ++ p_maps P
|}.

(** The pool of UIDs that a world starts from. *)
Definition uids_ok (w : World) : Prop :=
  Forall (λ u, UidPool.start (w_uids w) ≤ u < UidPool.end_ (w_uids w)) (UidPool.ch (w_uids w)) ∧
  Z.of_nat (length (UidPool.ch (w_uids w))) ≤ UidPool.ch_cap (w_uids w).

(** The state a spawn of [vmID] may start from: nothing on the host is already in its
    name, and the pools are well formed. *)
Record ready (f : FirecrackerFactory) (vmID : string) (w : World) : Prop := {
  ready_start : 0 < UidPool.start (w_uids w);
  ready_range : Forall (λ u, UidPool.start (w_uids w) ≤ u < UidPool.end_ (w_uids w)) (UidPool.ch (w_uids w));
  ready_cap : Z.of_nat (length (UidPool.ch (w_uids w))) ≤ UidPool.ch_cap (w_uids w);
  ready_v4 : length (Ipam.nextIP (w_ipam w)) = 4%nat ∧ length (net_IP (Ipam.subnet (w_ipam w))) = 4%nat;
  ready_used : all_used (w_ipam w);
  ready_ports : ∃ ports, w_ports w = Some ports ∧
    in_int64 (PortMgr.ephemeralStart ports) ∧ PortMgr.ephemeralEnd ports < int64_max ∧
    ∀ p, PortMgr.inUse ports !! p ≠ Some vmID;
  ready_tap : tap_name vmID ∉ links (w_net w);
  ready_base : HasPrefix (JailerChrootBaseDir f) "/" = true;
  ready_id : plain vmID;
  ready_fs p : under (chrootRoot f vmID) p = true → w_fs w !! p = None;
  ready_proc : w_procs w !! vmID = None;
  ready_lease : ImageStore.leaseKey vmID ∉ leases (ImageStore.client (w_storage w));
  ready_snap : ImageStore.snapshotKey vmID ∉ snapshots (ImageStore.client (w_storage w));
  ready_rules hp ip gp proto : Ipam.usedIPs (w_ipam w) !! ip = None →
    HostNet.output_spec hp ip gp proto ∉ rules (w_net w) "nat" "OUTPUT"
}.

(** Two worlds with the same resources free and taken, and the same files but for [parents]. *)
Record same_host (parents : list string) (w0 w : World) : Prop := {
  same_uids : UidPool.ch (w_uids w) ≡ₚ UidPool.ch (w_uids w0);
  same_ips : Ipam.usedIPs (w_ipam w) = Ipam.usedIPs (w_ipam w0);
  same_ports : PortMgr.inUse <$> w_ports w = PortMgr.inUse <$> w_ports w0;
  same_links : links (w_net w) = links (w_net w0);
  same_files p : same_file parents (w_fs w) (w_fs w0) p;
  same_procs : w_procs w = w_procs w0;
  same_rules : HostNet.same_rules (w_net w0) (w_net w)
}.

Definition same_storage (w0 w : World) : Prop :=
  leases (ImageStore.client (w_storage w)) = leases (ImageStore.client (w_storage w0)) ∧
  snapshots (ImageStore.client (w_storage w)) = snapshots (ImageStore.client (w_storage w0)).

(** The world's storage differs from an old one in nothing but the VM's own lease and
    snapshot. *)
Definition only_own_storage (vmID : string) (w0 w : World) : Prop :=
  agree_set [ImageStore.leaseKey vmID] (leases (ImageStore.client (w_storage w)))
    (leases (ImageStore.client (w_storage w0))) ∧
  agree_set [ImageStore.snapshotKey vmID] (snapshots (ImageStore.client (w_storage w)))
    (snapshots (ImageStore.client (w_storage w0))).

(** What [Close] takes back of a worker. *)
Definition close_undos (wk : FirecrackerWorker) : list undo :=
  [UndoProcess; UndoChroot (chrootDir wk); UndoTap (tapName wk); UndoIP (guestIP wk); UndoStorage;
   UndoUID (leasedUID wk)] ++
  flat_map (λ pm, [UndoMapping (HostInterface pm) (HostPort pm) (guestIP wk) (GuestPort pm) (Protocol pm);
                   UndoPort (HostPort pm)]) (portMappings wk).

End world.

(** ** Lemmas: files *)

Lemma fs_pop parents d pend fs fs0 :
  fs_agree parents (d :: pend) fs fs0 →
  fs_agree parents pend (filter (λ kv, under d kv.1 = false) fs) fs0.
Proof.
  intros [Ha Hn]. split; [|intros d' p Hd'; apply Hn; by right].
  intros p Hp. destruct (under d p) eqn:Ed.
  - left. rewrite (Hn d p) by (done || by left). apply map_lookup_filter_None. right.
    intros e _. simpl. by rewrite Ed.
  - assert (filter (λ kv, under d kv.1 = false) fs !! p = fs !! p) as E.
    { destruct (fs !! p) as [e|] eqn:Ep; [by apply map_lookup_filter_Some|].
      apply map_lookup_filter_None. by left. }
    unfold same_file. rewrite E. apply Ha. intros d' [->|Hd']%elem_of_cons; [done|by apply Hp].
Qed.

Lemma fs_push parents d pend fs fs0 :
  (∀ p, under d p = true → fs0 !! p = None) → fs_agree parents pend fs fs0 →
  fs_agree parents (d :: pend) fs fs0.
Proof.
  intros Hd [Ha Hn]. split; [|by intros d' p [->|?]%elem_of_cons; [apply Hd|apply Hn]].
  intros p Hp. apply Ha. intros d' Hd'. apply Hp. by right.
Qed.

(** Below a pending directory anything may change. *)
Lemma fs_change parents pend fs fs' fs0 d p :
  d ∈ pend → under d p = true → (∀ q, q ≠ p → fs' !! q = fs !! q) →
  fs_agree parents pend fs fs0 → fs_agree parents pend fs' fs0.
Proof.
  intros Hd Hp Hq [Ha Hn]. split; [|done]. intros q Hu. unfold same_file.
  rewrite Hq; [by apply Ha|]. intros ->. by rewrite Hu in Hp.
Qed.

Lemma fs_missing parents pend fs fs0 dirs :
  dirs ⊆ parents → fs_agree parents pend fs fs0 → fs_agree parents pend (foldl make_missing fs dirs) fs0.
Proof.
  revert fs. induction dirs as [|d dirs IH]; intros fs Hd [Ha Hn]; [done|]. simpl.
  apply IH; [set_solver|]. split; [|done]. intros p Hp. specialize (Ha p Hp). unfold same_file, make_missing in *.
  destruct (fs !! d) eqn:E; [done|]. destruct (decide (p = d)) as [->|]; [|by rewrite lookup_insert_ne].
  rewrite lookup_insert_eq. right. split_and!; [set_solver| |done]. destruct Ha as [Ha|(_ & ? & _)]; congruence.
Qed.

(** ** Lemmas: the pools *)

Lemma return_agree uid pend p p0 :
  Forall (λ u, UidPool.start p0 ≤ u < UidPool.end_ p0) (UidPool.ch p0) →
  Z.of_nat (length (UidPool.ch p0)) ≤ UidPool.ch_cap p0 →
  uids_agree (uid :: pend) p p0 → uids_agree pend (UidPool.Return p uid).2 p0.
Proof.
  intros Hr Hc [E1 E2 E3 E4].
  assert (UidPool.start p0 ≤ uid < UidPool.end_ p0).
  { apply (proj1 (Forall_forall _ _) Hr). rewrite <-E4. apply elem_of_app. right. by left. }
  pose proof (Permutation_length E4) as El. rewrite length_app in El. simpl in El.
  unfold UidPool.Return. rewrite decide_False by lia. rewrite decide_True by lia.
  split; simpl; [done..|]. rewrite <-E4, <-app_assoc. done.
Qed.

Lemma held_push s pend (i i' : Ipam.IPAM) :
  Ipam.usedIPs i !! s = None → Ipam.usedIPs i' = <[s := true]> (Ipam.usedIPs i) →
  ips_held pend i → ips_held (s :: pend) i'.
Proof.
  intros Hs E [Hnd Hu]. split; [apply NoDup_cons; split; [by intros ?%Hu|done]|].
  intros k. rewrite E. destruct (decide (k = s)) as [->|Hne]; [by rewrite lookup_insert_eq|].
  rewrite lookup_insert_ne by done. intros [?|?]%elem_of_cons; [done|by apply Hu].
Qed.

Lemma held_pop s pend i : ips_held (s :: pend) i → ips_held pend (Ipam.Release i s).
Proof.
  intros [[Hs Hnd]%NoDup_cons Hu]. split; [done|]. intros k Hk. cbn [Ipam.Release Ipam.usedIPs].
  rewrite lookup_delete_ne by (by intros ->). apply Hu. by right.
Qed.

Lemma checkout_agree pend p p0 uid p' :
  UidPool.Checkout p = (Ok uid, p') → uids_agree pend p p0 →
  uids_agree (uid :: pend) p' p0 ∧ uid ∈ UidPool.ch p0.
Proof.
  unfold UidPool.Checkout. destruct (UidPool.ch p) as [|u rest] eqn:E; [done|].
  intros ? [E1 E2 E3 E4]. simplify_eq. split; [|rewrite <-E4, E; by left].
  split; simpl; [done..|]. rewrite <-E4, E. by rewrite <-Permutation_middle.
Qed.

Lemma inc_from_length j ip : length (Ipam.inc_from j ip) = length ip.
Proof.
  revert ip. induction j as [|j IH]; intros ip; simpl; [done|].
  case_match; [|rewrite IH]; by rewrite length_insert.
Qed.

Lemma inc_length ip : length (Ipam.inc ip) = length ip.
Proof. apply inc_from_length. Qed.

Lemma advance_length n ip :
  length (net_IP n) = 4%nat → length ip = 4%nat → length (Ipam.advance n ip) = 4%nat.
Proof. intros Hn Hip. unfold Ipam.advance. case_match; by rewrite !inc_length. Qed.

Lemma IP_String_nonempty ip : length ip = 4%nat → IP_String ip ≠ "".
Proof.
  destruct ip as [|a [|b [|c [|d [|]]]]]; try done. intros _ E.
  rewrite IP_String_dotted in E. unfold dotted in E.
  assert (contains_byte "." (Itoa a +:+ "." +:+ Itoa b +:+ "." +:+ Itoa c +:+ "." +:+ Itoa d) = true) as Hc
    by (rewrite !contains_byte_app; by destruct (contains_byte "." (Itoa a))).
  by rewrite E in Hc.
Qed.

(** One acquisition adds one unused address. *)
Lemma acquire_loop_used fuel start i r i' :
  length (net_IP (Ipam.subnet i)) = 4%nat → length (Ipam.nextIP i) = 4%nat →
  Ipam.acquire_loop fuel start i = Some (r, i') →
  Ipam.subnet i' = Ipam.subnet i ∧ length (Ipam.nextIP i') = 4%nat ∧
  match r with
  | Ok s => s ≠ "" ∧ Ipam.used i s = false ∧ Ipam.usedIPs i' = <[s := true]> (Ipam.usedIPs i)
  | Err _ => Ipam.usedIPs i' = Ipam.usedIPs i
  end.
Proof.
  intros Hn. revert i Hn. induction fuel as [|fuel IH]; intros i Hn Hip; [done|].
  cbn [Ipam.acquire_loop]. cbv zeta.
  pose proof (advance_length _ _ Hn Hip) as Hadv. pose proof (IP_String_nonempty _ Hip) as Hne.
  destruct (Ipam.used i (IP_String (Ipam.nextIP i))) eqn:Eu; cbn [negb].
  - destruct (IP_Equal _ _); [intros; by simplify_eq/=|]. intros E%IH; [exact E|done..].
  - intros. by simplify_eq/=.
Qed.

Section host.
Context {N : Type} `{HostLaws N}.
#[local] Set Default Proof Using "Type*".

(** ** Lemmas: the host *)

Lemma DeleteTap_links (n : N) name :
  link_kept (Tap.DeleteTap n name).1 = false → links (Tap.DeleteTap n name).1 = links n ∖ {[name]}.
Proof.
  unfold Tap.DeleteTap. destruct (LinkByName n name) as [e|] eqn:E.
  - assert (name ∉ links n) by (intros Hin%find_law; congruence). simpl. set_solver.
  - pose proof (Tap.del_links n name). by destruct (LinkDel n name) as [n' [e|]].
Qed.

Lemma DeleteTap_absent (n : N) name : name ∉ links n → Tap.DeleteTap n name = (n, None).
Proof.
  intros Hn. unfold Tap.DeleteTap. destruct (LinkByName n name) as [e|] eqn:E; [done|]. by apply find_law in E.
Qed.

Lemma DeleteTap_kept (n : N) name :
  rule_kept (Tap.DeleteTap n name).1 = rule_kept n ∧
  (link_kept (Tap.DeleteTap n name).1 = false → link_kept n = false).
Proof.
  unfold Tap.DeleteTap. destruct (LinkByName n name); [done|].
  pose proof (del_rules_keeps n name). pose proof (Tap.del_mono n name). by destruct (LinkDel n name) as [n' [e|]].
Qed.

Lemma DeleteTap_rules (n : N) name t c : rules (Tap.DeleteTap n name).1 t c = rules n t c.
Proof.
  unfold Tap.DeleteTap. destruct (LinkByName n name); [done|].
  pose proof (del_rules_law n name t c). by destruct (LinkDel n name) as [n' [e|]].
Qed.

Lemma create_rules (n n' : N) name u g addr e t c :
  Tap.create n name u g addr = (n', e) → rules n' t c = rules n t c.
Proof.
  unfold Tap.create, Tap.configure. intros E.
  pose proof (add_rules_law n name u g t c) as Ha. destruct (LinkAdd n name u g) as [n1 [e1|]]; simpl in Ha.
  { by simplify_eq. }
  destruct (LinkByName n1 name); [by simplify_eq|].
  destruct addr as [a|e1]; [|simplify_eq; by rewrite del_rules_law].
  pose proof (addr_rules_law n1 name a t c) as Hb. destruct (AddrAdd n1 name a) as [n2 [e2|]]; simpl in Hb.
  { simplify_eq. rewrite del_rules_law. congruence. }
  pose proof (up_rules_law n2 name t c) as Hu. destruct (LinkSetUp n2 name) as [n3 [e3|]]; simpl in Hu;
    simplify_eq; [rewrite del_rules_law|]; congruence.
Qed.

Lemma create_rule_kept (n n' : N) name u g addr e :
  Tap.create n name u g addr = (n', e) → rule_kept n' = rule_kept n.
Proof.
  unfold Tap.create, Tap.configure. pose proof (add_rules_keeps n name u g) as <-.
  destruct (LinkAdd n name u g) as [n1 [e1|]]; cbn [fst]; [by intros; simplify_eq|].
  destruct (LinkByName n1 name); [by intros; simplify_eq|].
  destruct addr as [a|e1]; [|intros; simplify_eq; apply del_rules_keeps].
  pose proof (addr_rules_keeps n1 name a) as <-. destruct (AddrAdd n1 name a) as [n2 [e2|]]; cbn [fst].
  { intros; simplify_eq. apply del_rules_keeps. }
  pose proof (up_rules_keeps n2 name) as <-. destruct (LinkSetUp n2 name) as [n3 [e3|]]; cbn [fst];
    intros; simplify_eq; [apply del_rules_keeps|done].
Qed.

Lemma delete_rule_links (n : N) t c spec : links (HostNet.delete_rule n t c spec) = links n.
Proof. apply run_links. Qed.

Lemma RemovePortMapping_links (n : N) i hp ip gp p :
  links (HostNet.RemovePortMapping n i hp ip gp p) = links n.
Proof.
  unfold HostNet.RemovePortMapping. cbv zeta.
  destruct (HostNet.local_too i); by rewrite !delete_rule_links.
Qed.

Lemma RemovePortMapping_kept (n : N) i hp ip gp p :
  link_kept (HostNet.RemovePortMapping n i hp ip gp p) = link_kept n.
Proof.
  assert (∀ n t c spec, link_kept (HostNet.delete_rule n t c spec) = link_kept n) as Hd by (intros; apply run_keeps).
  unfold HostNet.RemovePortMapping. cbv zeta. destruct (HostNet.local_too i); by rewrite !Hd.
Qed.

Lemma AddPortMapping_kept (n : N) i hp ip gp p :
  link_kept (HostNet.AddPortMapping n i hp ip gp p).1 = link_kept n.
Proof.
  assert (∀ n t c spec, link_kept (HostNet.append n t c spec).1 = link_kept n) as Ha by (intros; apply run_keeps).
  assert (∀ n t c spec, link_kept (HostNet.delete_rule n t c spec) = link_kept n) as Hd by (intros; apply run_keeps).
  unfold HostNet.AddPortMapping. cbv zeta.
  pose proof (Ha n "nat" "PREROUTING" (HostNet.dnat_spec i hp ip gp (HostNet.proto_of p))) as <-.
  destruct (HostNet.append n "nat" "PREROUTING" _) as [n1 [e1|]]; cbn [fst]; [done|].
  set (n2 := if HostNet.local_too i then _ else n1).
  assert (link_kept n2 = link_kept n1) as <- by (unfold n2; destruct (HostNet.local_too i); rewrite ?Ha; done).
  pose proof (Ha n2 "filter" "FORWARD" (HostNet.forward_spec ip gp (HostNet.proto_of p))) as <-.
  destruct (HostNet.append n2 "filter" "FORWARD" _) as [n3 [e3|]]; cbn [fst]; by rewrite ?Hd.
Qed.

Lemma AddPortMapping_links (n n' : N) i hp ip gp p e :
  HostNet.AddPortMapping n i hp ip gp p = (n', e) → links n' = links n.
Proof.
  assert (∀ n t c spec, links (HostNet.append n t c spec).1 = links n) as Ha by (intros; apply run_links).
  unfold HostNet.AddPortMapping. cbv zeta.
  pose proof (Ha n "nat" "PREROUTING" (HostNet.dnat_spec i hp ip gp (HostNet.proto_of p))) as H1'.
  destruct (HostNet.append n "nat" "PREROUTING" _) as [n1 [e1|]]; simpl in H1'; [intros; by simplify_eq|].
  set (n2 := if HostNet.local_too i then _ else n1).
  assert (links n2 = links n) as H2' by (unfold n2; destruct (HostNet.local_too i); rewrite ?Ha; done).
  pose proof (Ha n2 "filter" "FORWARD" (HostNet.forward_spec ip gp (HostNet.proto_of p))) as H3'.
  destruct (HostNet.append n2 "filter" "FORWARD" _) as [n3 [e3|]]; simpl in H3'; intros; simplify_eq;
    rewrite ?delete_rule_links; congruence.
Qed.

(** Deleting a rule from an old list with extras takes it from the extras. *)
Lemma remove_extra r (l l0 e : list (list string)) :
  r ∉ l0 → l ≡ₚ l0 ++ e →
  ∃ e', HostNet.remove_rule r l ≡ₚ l0 ++ e' ∧ (e ≡ₚ (r :: e') ∨ r ∉ e ∧ e' = e).
Proof.
  intros Hr Hl. destruct (decide (r ∈ e)) as [Hin|Hno].
  - apply elem_of_Permutation in Hin as [e' He]. exists e'. split; [|by left].
    apply HostNet.remove_rule_perm. by rewrite Hl, He, <-Permutation_middle.
  - exists e. split; [|by right]. rewrite HostNet.remove_rule_absent; [done|].
    rewrite Hl, elem_of_app. by intros [?|?].
Qed.

Lemma submseteq_cons_inv {A} (x : A) l k : x :: l ⊆+ x :: k → l ⊆+ k.
Proof. intros (k' & E%Permutation_cons_inv & Hl)%submseteq_cons_l. by rewrite E. Qed.

Lemma submseteq_cons_absent {A} (x : A) l k : x ∉ l → l ⊆+ x :: k → l ⊆+ k.
Proof. intros Hx [?|(l' & E & _)]%submseteq_cons_r; [done|]. destruct Hx. rewrite E. by left. Qed.

Lemma rules_same ms (n n' n0 : N) :
  (∀ t c, rules n' t c = rules n t c) → rules_agree ms n n0 → rules_agree ms n' n0.
Proof.
  intros E [Hc (x & Ho & Hx) Hf]. split; [|exists x|done]; [intros t c ?|]; rewrite E; auto.
Qed.

Lemma rules_refl (n : N) : rules_agree [] n n.
Proof.
  split; [|exists []|done].
  - intros t c _. unfold chain_rules. repeat case_decide; by rewrite app_nil_r.
  - by rewrite app_nil_r.
Qed.

Lemma rules_nil (n n0 : N) : rules_agree [] n n0 → HostNet.same_rules n0 n.
Proof.
  intros [Hc (x & Ho & Hx) _] t c. destruct (decide (t = "nat" ∧ c = "OUTPUT")) as [[-> ->]|Hne].
  - rewrite Ho. apply submseteq_nil_r in Hx. by rewrite Hx, app_nil_r.
  - rewrite Hc by done. unfold chain_rules. repeat case_decide; by rewrite app_nil_r.
Qed.

Lemma rules_undo m ms (n n0 : N) :
  rule_kept (HostNet.RemovePortMapping n (m_iface m) (m_hp m) (m_ip m) (m_gp m) (m_proto m)) = false →
  rules_agree (m :: ms) n n0 →
  rules_agree ms (HostNet.RemovePortMapping n (m_iface m) (m_hp m) (m_ip m) (m_gp m) (m_proto m)) n0.
Proof.
  intros Hk [Hc (x & Ho & Hx) [Hf Hfs]%Forall_cons]. split; [| |done].
  - intros t c Hne. rewrite HostNet.remove_rules by done. pose proof (Hc t c Hne) as E. unfold chain_rules in *.
    repeat (case_decide; destruct_and?; simplify_eq; try done); try (by destruct Hne).
    all: apply HostNet.remove_rule_perm; rewrite E; simpl; by rewrite <-Permutation_middle.
  - rewrite HostNet.remove_rules by done. rewrite decide_False, decide_True by (done || by intros [_ ?]).
    unfold out_rules in Hx. rewrite omap_cons in Hx. fold (out_rules ms) in Hx.
    destruct (HostNet.local_too (m_iface m)); [|by exists x].
    destruct (remove_extra _ _ _ _ Hf Ho) as (x' & E & [Ex|[Hno ->]]);
      (eexists; split; [exact E|]).
    + rewrite Ex in Hx. by apply submseteq_cons_inv in Hx.
    + by eapply submseteq_cons_absent.
Qed.

Lemma rules_add m ms (n n' n0 : N) :
  HostNet.AddPortMapping n (m_iface m) (m_hp m) (m_ip m) (m_gp m) (m_proto m) = (n', None) →
  m_output m ∉ rules n0 "nat" "OUTPUT" → rules_agree ms n n0 → rules_agree (m :: ms) n' n0.
Proof.
  intros (o & Hoo & E)%HostNet.add_rules Hf [Hc (x & Ho & Hx) Hfs]. split; [| |by constructor].
  - intros t c Hne. rewrite E. pose proof (Hc t c Hne) as Ec. unfold chain_rules in *.
    repeat (case_decide; destruct_and?; simplify_eq; try done); try (by destruct Hne).
    all: rewrite Ec; simpl; rewrite <-!Permutation_middle, app_nil_r; done.
  - rewrite E, decide_False, decide_True by (done || by intros [_ ?]).
    exists (x ++ o). rewrite Ho, app_assoc. split; [done|].
    unfold out_rules. rewrite omap_cons. fold (out_rules ms).
    destruct Hoo as [->|[-> ->]].
    + rewrite app_nil_r. destruct (HostNet.local_too _); [by apply submseteq_cons|done].
    + rewrite Permutation_app_comm. simpl. by apply submseteq_skip.
Qed.

Lemma rules_add_err m ms (n n' n0 : N) e :
  HostNet.AddPortMapping n (m_iface m) (m_hp m) (m_ip m) (m_gp m) (m_proto m) = (n', Some e) → rule_kept n' = false →
  m_output m ∉ rules n0 "nat" "OUTPUT" → rules_agree ms n n0 → rules_agree ms n' n0.
Proof.
  intros Ea Hk Hf Hra. apply HostNet.add_err_rules in Ea as [E|(o & Hoo & E)]; [by eapply rules_same| |done].
  destruct Hra as [Hc (x & Ho & Hx) Hfs]. split; [| |done].
  - intros t c Hne. rewrite E, decide_False by done. rewrite <-(Hc t c Hne).
    case_decide; [by apply HostNet.remove_appended|done].
  - rewrite E, decide_True by done.
    assert (rules n "nat" "OUTPUT" ++ o ≡ₚ rules n0 "nat" "OUTPUT" ++ (x ++ o)) as Ho'
      by (by rewrite Ho, app_assoc).
    destruct (remove_extra _ _ _ _ Hf Ho') as (x' & Ex & Hx'). exists x'. split; [exact Ex|].
    rewrite <-Hx. destruct Hoo as [->| ->].
    + rewrite app_nil_r in Hx'. destruct Hx' as [->|[_ ->]]; [by apply submseteq_cons|done].
    + destruct Hx' as [E'|[Hno ->]].
      * rewrite Permutation_app_comm in E'. simpl in E'. apply Permutation_cons_inv in E'. by rewrite E'.
      * destruct Hno. apply elem_of_app. right. by left.
Qed.

End host.

(** ** Undo actions *)

#[export] Instance undo_eq_dec : EqDecision undo.
Proof. solve_decision. Defined.

(** The order in which resources are pending does not matter. *)
#[export] Instance pending_equiv : Equiv pending := λ P P',
  p_uids P ≡ₚ p_uids P' ∧ p_ips P ≡ₚ p_ips P' ∧ p_ports P ≡ₚ p_ports P' ∧ p_taps P ≡ₚ p_taps P' ∧
  p_dirs P ≡ₚ p_dirs P' ∧ p_procs P ≡ₚ p_procs P' ∧ p_leases P ≡ₚ p_leases P' ∧ p_snaps P ≡ₚ p_snaps P' ∧
  p_maps P ≡ₚ p_maps P'.

#[export] Instance pending_equivalence : Equivalence (≡@{pending}).
Proof.
  split; unfold equiv, pending_equiv.
  - intros P. by split_and!.
  - intros P P' (? & ? & ? & ? & ? & ? & ? & ? & ?). by split_and!.
  - intros P1 P2 P3 (? & ? & ? & ? & ? & ? & ? & ? & ?) (? & ? & ? & ? & ? & ? & ? & ? & ?).
    split_and!; by etrans.
Qed.

Lemma pending_of_perm vmID b st st' : st ≡ₚ st' → pending_of vmID b st ≡ pending_of vmID b st'.
Proof.
  intros E. unfold equiv, pending_equiv. cbn [pending_of p_uids p_ips p_ports p_taps p_dirs p_procs p_leases p_snaps p_maps].
  unfold pend_uids, pend_ips, pend_ports, pend_taps, pend_dirs, pend_procs, pend_stores, pend_maps.
  split_and!; by rewrite E.
Qed.

Section undo.
Context {C N : Type} `{!Containerd C} `{!ContainerdLaws C} `{!Commands N} `{!Netlink N} `{!HostLaws N}.
Notation World := (World (C := C) (N := N)).
#[local] Set Default Proof Using "Type*".

Lemma ports_perm p p' (m m0 : option PortMgr.PortManager) :
  p ≡ₚ p' → ports_agree p m m0 → ports_agree p' m m0.
Proof.
  intros E. destruct m, m0; simpl; try done. intros (? & ? & ? & Hv). split_and!; [done..| |].
  - eapply agree_perm; [|done]. by rewrite E.
  - intros q v. rewrite <-E. apply Hv.
Qed.

Lemma rules_perm ms ms' (n n0 : N) : ms ≡ₚ ms' → rules_agree ms n n0 → rules_agree ms' n n0.
Proof.
  intros E [Hc (x & Ho & Hx) Hf]. split.
  - intros t c Hne. rewrite (Hc t c Hne). unfold chain_rules. repeat case_decide; by rewrite ?E.
  - exists x. split; [done|]. rewrite Hx. apply Permutation_submseteq. unfold out_rules. by rewrite E.
  - by rewrite <-E.
Qed.

Lemma fs_perm parents p p' fs fs0 : p ≡ₚ p' → fs_agree parents p fs fs0 → fs_agree parents p' fs fs0.
Proof.
  intros E [Ha Hn]. split.
  - intros q Hq. apply Ha. intros d. rewrite E. apply Hq.
  - intros d q. rewrite <-E. apply Hn.
Qed.

#[export] Instance agrees_proper parents : Proper ((≡) ==> (=) ==> (=) ==> iff) (agrees (C := C) (N := N) parents).
Proof.
  assert (∀ P P' w0 w, P ≡ P' → agrees (C := C) (N := N) parents P w0 w → agrees parents P' w0 w) as H.
  { intros P P' w0 w (E1 & E2 & E3 & E4 & E5 & E6 & E7 & E8 & E9) [[] ? ? Hi Hus Hp Ht Hd Hpr Hl Hs Hr [Hh1 Hh2]]. split; try done.
    - split; [done..|]. by rewrite <-ua_ch0, E1.
    - by eapply agree_perm.
    - by eapply ports_perm.
    - by eapply agree_set_perm.
    - by eapply fs_perm.
    - by eapply agree_perm.
    - by eapply agree_set_perm.
    - by eapply agree_set_perm.
    - by eapply rules_perm.
    - split; [by rewrite <-E2|]. intros s. rewrite <-E2. apply Hh2. }
  intros P P' E w0 ? <- w ? <-. by split; apply H.
Qed.

(** *** Nothing that was kept is forgotten *)

Lemma kept_false (w : World) :
  kept w = false ↔ rule_kept (w_net w) = false ∧ link_kept (w_net w) = false ∧
    store_kept (ImageStore.client (w_storage w)) = false ∧ w_left w = false.
Proof. unfold kept. rewrite !orb_false_iff. tauto. Qed.

Lemma remove_dir_kept r path (w : World) :
  kept (remove_dir r path w) = false → kept w = false ∧ remove_dir r path w = set_fs (remove_all path (w_fs w)) w.
Proof.
  unfold remove_dir. cbv zeta. case_decide as Hr.
  - rewrite Hr, (right_id_L ∅ (∪)). done.
  - intros (_ & _ & _ & ?)%kept_false. done.
Qed.

Lemma run_undo_mono env vmID (w : World) u : kept (run_undo env vmID w u) = false → kept w = false.
Proof.
  destruct u; cbn [run_undo]; try done.
  - unfold teardown_storage. rewrite !kept_false. cbn. intros (? & ? & ?%ImageStore.Teardown_mono & ?). done.
  - by intros [? _]%remove_dir_kept.
  - unfold delete_tap. rewrite !kept_false. cbn. destruct (DeleteTap_kept (w_net w) name) as [-> Hl].
    intros (? & ?%Hl & ?). done.
  - unfold kill_process. destruct (outlives _); [|done]. by intros (_ & _ & _ & ?)%kept_false.
  - unfold unmap_port. rewrite !kept_false. cbn. rewrite RemovePortMapping_kept. intros (?%HostNet.remove_mono & ?). done.
Qed.

Lemma run_undo_agrees env vmID parents P (w0 w : World) u :
  uids_ok w0 → kept (run_undo env vmID w u) = false → (u = UndoStorage → ctx_cancelled env = false) →
  agrees parents (undo_pending vmID u P) w0 w → agrees parents P w0 (run_undo env vmID w u).
Proof.
  intros [Hr Hcap] Hk Hc [Hu Hn Hv Hi Hus Hp Ht Hd Hpr Hl Hs Hrl Hh]. destruct u; cbn [run_undo] in *; simpl in *.
  - split; simpl; try done. by apply return_agree.
  - rewrite Hc in * by done. unfold teardown_storage in *. apply kept_false in Hk as (_ & _ & Hk & _). cbn in Hk.
    destruct (ImageStore.Teardown_spec (w_storage w) vmID Hk) as (E1 & E2 & _).
    destruct (ImageStore.Teardown (w_storage w) false vmID) as [m' e']. simpl in E1, E2.
    split; simpl; try done; [rewrite E2|rewrite E1]; by apply agree_set_pop.
  - apply remove_dir_kept in Hk as [_ ->]. split; simpl; try done. by apply fs_pop.
  - split; simpl; try done; [by apply agree_pop| |by apply held_pop]. intros Ha s b Hb.
    cbn [Ipam.Release Ipam.usedIPs] in Hb. apply lookup_delete_Some in Hb as [_ Hb]. by apply (Hus Ha s).
  - apply kept_false in Hk as (_ & Hk & _). split; simpl; try done.
    + rewrite DeleteTap_links by done. by apply agree_set_pop.
    + eapply rules_same; [|exact Hrl]. intros. apply DeleteTap_rules.
  - unfold kill_process in *. destruct (outlives _).
    { by apply kept_false in Hk as (_ & _ & _ & ?). }
    split; simpl; try done. by apply agree_pop.
  - by split.
  - by split.
  - split; simpl; try done. destruct (w_ports w) as [p|], (w_ports w0) as [p0|]; simpl in *; try done.
    destruct Hp as (? & ? & Hp & Hv'). split_and!; [done..|by apply agree_pop|].
    intros q v [Hne Hq]%lookup_delete_Some. destruct (Hv' q v Hq) as [?|[?|?]%elem_of_cons]; [by left| |by right].
    by simplify_eq.
  - apply kept_false in Hk as (Hk & _). split; simpl; try done.
    + by rewrite RemovePortMapping_links.
    + by apply (rules_undo (mkMapping iface hostPort ip guestPort proto)).
Qed.

(** With nothing pending on the host itself, it is as it was. *)
Lemma agrees_same_host parents P (w0 w : World) :
  p_uids P = [] → p_ips P = [] → p_ports P = [] → p_taps P = [] → p_dirs P = [] → p_procs P = [] → p_maps P = [] →
  agrees parents P w0 w → same_host parents w0 w.
Proof.
  intros E1 E2 E3 E4 E5 E6 E7 [Hu Hn Hv Hi Hus Hp Ht Hd Hpr Hl Hs Hr _]. rewrite E1, E2, E3, E4, E5, E6, E7 in *. split.
  - pose proof (ua_ch _ _ _ Hu) as E. by rewrite app_nil_r in E.
  - by apply agree_nil.
  - destruct (w_ports w) as [p|], (w_ports w0) as [p0|]; simpl in *; try done.
    destruct Hp as (_ & _ & Hp & _). f_equal. by apply agree_nil.
  - by apply agree_set_nil.
  - intros p. apply Hd. by intros d ?%not_elem_of_nil.
  - by apply agree_nil.
  - by apply rules_nil.
Qed.

End undo.

(** ** The steps of a spawn *)

Section spawn.
Context {C N : Type} `{!Containerd C} `{!ContainerdLaws C} `{!Commands N} `{!Netlink N} `{!HostLaws N}.
Notation World := (World (C := C) (N := N)).
Context (f : FirecrackerFactory) (env : Env) (vmID : string) (w0 : World) (Hready : ready f vmID w0).
#[local] Set Default Proof Using "All".
Notation inv := (inv (ancestors (Dir (chrootRoot f vmID))) vmID).
Notation same_host := (same_host (ancestors (Dir (chrootRoot f vmID)))).

Lemma inv_leak b w st : inv false w0 w st → inv b w0 w st.
Proof.
  destruct b; [|done]. intros []. split; try done.
  - eapply agree_set_ext; [|apply agree_set_weaken; [apply Hready|exact inv_leases0]].
    intros x. simpl. rewrite !elem_of_cons, !elem_of_app, elem_of_cons. set_solver.
  - eapply agree_set_ext; [|apply agree_set_weaken; [apply Hready|exact inv_snaps0]].
    intros x. simpl. rewrite !elem_of_cons, !elem_of_app, elem_of_cons. set_solver.
Qed.

Lemma inv_leak_or b b' w st : inv b w0 w st → inv (b || b') w0 w st.
Proof. destruct b; [done|]. apply inv_leak. Qed.

(** Popping an undo action and running it. *)
Lemma run_undo_inv b w u st :
  kept (run_undo env vmID w u) = false → inv b w0 w (u :: st) → inv (b || ctx_cancelled env) w0 (run_undo env vmID w u) st.
Proof.
  intros Hk Hinv%(inv_leak_or _ (ctx_cancelled env)). remember (b || ctx_cancelled env) as lk eqn:Elk.
  destruct (decide (u = UndoStorage ∧ ctx_cancelled env = true)) as [[-> Hc]|Hno].
  - rewrite Hc, orb_true_r in Elk. subst lk. simpl. unfold teardown_storage. rewrite Hc.
    destruct Hinv as [? ? ? ? ? ? ? ? ? Hl Hs ?]. split; simpl; try done.
    + eapply agree_set_ext; [|exact Hl]. intros x. simpl. set_solver.
    + eapply agree_set_ext; [|exact Hs]. intros x. simpl. set_solver.
  - apply run_undo_agrees; [split; apply Hready|done| |by destruct u].
    intros ->. by destruct (ctx_cancelled env); [destruct Hno|].
Qed.

Lemma spawn_rollback_inv b w st :
  (kept w = false → inv b w0 w st) → kept (rollback env vmID w st) = false →
  inv (b || ctx_cancelled env) w0 (rollback env vmID w st) [].
Proof.
  intros Hinv. unfold rollback.
  apply (rollback_inv _ (λ w st, kept w = false → inv (b || ctx_cancelled env) w0 w st)).
  - intros w' u st' Hw Hk. pose proof (run_undo_mono env vmID w' u Hk) as Hk'. specialize (Hw Hk').
    apply run_undo_inv in Hw; [|done]. by destruct b, (ctx_cancelled env).
  - intros Hk. by apply inv_leak_or, Hinv.
Qed.

(** Nothing pending: the host is as it was, and so is the storage unless it leaks. *)
Lemma inv_done b w :
  inv b w0 w [] → same_host w0 w ∧ only_own_storage vmID w0 w ∧ (b = false → same_storage w0 w).
Proof.
  intros Hinv. split; [by apply (agrees_same_host _ (pending_of vmID b []))|]. destruct Hinv as [? ? ? ? ? ? ? ? ? Hl Hs ? ?]. split.
  - destruct b; simpl in *; [by split|].
    split; (apply agree_set_weaken; [apply Hready|done]).
  - intros ->. split; by apply agree_set_nil.
Qed.

(** The invariant of a step, and what a failing one leaves: only the snapshot leaks. *)
Notation triple := (Rollback.triple (inv false w0)
  (λ e w st, kept w = false → inv (bool_decide (stage e = "snapshot")) w0 w st)).

Lemma inv_err b w st : inv false w0 w st → kept w = false → inv b w0 w st.
Proof. intros Hinv _. by apply inv_leak. Qed.

Lemma triple_fail {A} st where_ what (Q : A → list undo → Prop) : triple st (fail where_ what) Q.
Proof. apply triple_throw. intros w. apply inv_err. Qed.

Lemma triple_call st name (Q : unit → list undo → Prop) : Q tt st → triple st (call env name) Q.
Proof.
  intros HQ. unfold call. destruct (os env name); [apply triple_fail|by apply triple_ret].
Qed.

(** A file call below a pending directory. *)
Definition in_jail (st : list undo) (path : string) : Prop :=
  ∃ d, d ∈ pend_dirs st ∧ under d path = true.

Lemma inv_fs_change b w st path fs :
  in_jail st path → (∀ q, q ≠ path → fs !! q = w_fs w !! q) → inv b w0 w st → inv b w0 (set_fs fs w) st.
Proof.
  intros (d & Hd & Hu) Hq Hinv. destruct Hinv. split; try done. simpl.
  by apply (fs_change _ _ (w_fs w) _ _ d path).
Qed.

Lemma triple_add_file st name path fl (Q : unit → list undo → Prop) :
  in_jail st path → Q tt st → triple st (add_file name path fl) Q.
Proof.
  intros Hj HQ w r w' st' Hinv E. unfold add_file, mbind, M_bind, world, modify, fail, throw in E. simpl in E.
  destruct (w_fs w !! path) eqn:Ep; simplify_eq/=; [by apply inv_err|]. split; [|done].
  apply (inv_fs_change _ _ _ path); [done| |done]. intros q Hne. by rewrite lookup_insert_ne.
Qed.

Lemma triple_modify_fs st path g (Q : unit → list undo → Prop) :
  in_jail st path → (∀ fs q, q ≠ path → g fs !! q = fs !! q) → Q tt st →
  triple st (modify (λ w, set_fs (g (w_fs w)) w)) Q.
Proof.
  intros Hj Hg HQ w r w' st' Hinv E. unfold modify in E. simplify_eq/=. split; [|done].
  apply (inv_fs_change _ _ _ path); [done| |done]. intros q. apply Hg.
Qed.

(** Any call on a file, after the environment has agreed to it. *)
Lemma triple_call_then {A} st name (m : M A) Q :
  triple st m Q → triple st (call env name;; m) Q.
Proof.
  intros Hm. eapply triple_bind; [by apply (triple_call st name (λ _ st', st' = st))|by intros ? ? ->].
Qed.

Lemma triple_mkdir st name path (Q : bool → list undo → Prop) :
  in_jail st path → (∀ b, Q b st) → triple st (mkdir_exist_ok env name path) Q.
Proof.
  intros Hj HQ. apply triple_call_then. intros w r w' st' Hinv E.
  unfold mbind, M_bind, world, modify, mret, M_ret in E. simpl in E.
  destruct (w_fs w !! path) eqn:Ep; simplify_eq/=; [done|]. split; [|done].
  apply (inv_fs_change _ _ _ path); [done| |done]. intros q Hne. by rewrite lookup_insert_ne.
Qed.

Lemma triple_chown st name path uid (Q : unit → list undo → Prop) :
  in_jail st path → Q tt st → triple st (Chown env name path uid) Q.
Proof.
  intros. apply triple_call_then. apply (triple_modify_fs st path (alter (set_owner uid) path)); [done| |done].
  intros fs q Hne. by rewrite lookup_alter_ne.
Qed.

Lemma triple_link st name target path (Q : unit → list undo → Prop) :
  in_jail st path → Q tt st → triple st (Link env name target path) Q.
Proof. intros. by apply triple_call_then, triple_add_file. Qed.

Lemma triple_mknod st name path dev (Q : unit → list undo → Prop) :
  in_jail st path → Q tt st → triple st (Mknod env name path dev) Q.
Proof. intros. by apply triple_call_then, triple_add_file. Qed.

Lemma triple_write st name path (Q : unit → list undo → Prop) :
  in_jail st path → Q tt st → triple st (WriteFile env name path) Q.
Proof.
  intros Hj HQ. apply triple_call_then. intros w r w' st' Hinv E. unfold modify in E. simplify_eq/=. split; [|done].
  destruct (w_fs w !! path); [done|]. apply (inv_fs_change _ _ _ path); [done| |done].
  intros q Hne. by rewrite lookup_insert_ne.
Qed.

Lemma lease_uid_triple st :
  triple st lease_uid (λ uid st', st' = UndoUID uid :: st ∧ uid ≠ 0).
Proof.
  intros w r w' st' Hinv E. unfold lease_uid, mbind, M_bind, world, modify, push, fail, throw, mret, M_ret in E.
  simpl in E. destruct (UidPool.Checkout (w_uids w)) as [[uid|e] p] eqn:Ec; simplify_eq/=; [|by apply inv_err].
  destruct (checkout_agree _ _ _ _ _ Ec (inv_uids _ _ _ _ Hinv)) as [Hu Hin].
  split; [by destruct Hinv; split|]. split; [done|].
  pose proof (proj1 (Forall_forall _ _) (ready_range _ _ _ Hready) _ Hin) as Hrange. simpl in Hrange.
  pose proof (ready_start _ _ _ Hready). lia.
Qed.

Lemma inv_storage_same w st m :
  inv false w0 w st →
  leases (ImageStore.client m) = leases (ImageStore.client (w_storage w)) →
  snapshots (ImageStore.client m) = snapshots (ImageStore.client (w_storage w)) →
  inv false w0 (set_storage m w) st.
Proof. intros [] El Es. by split; simpl; rewrite ?El, ?Es. Qed.

Lemma warm_image_triple st image : triple st (warm_image image) (λ _ st', st' = st).
Proof.
  intros w r w' st' Hinv E. unfold warm_image, mbind, M_bind, world, modify, fail, throw in E. simpl in E.
  destruct (ImageStore.WarmImage (w_storage w) image) as [m [e|]] eqn:Ew;
    apply ImageStore.WarmImage_spec in Ew as [Es El]; simplify_eq/=.
  - apply inv_err. by apply inv_storage_same.
  - split; [by apply inv_storage_same|done].
Qed.

Lemma image_command_triple st cfg : triple st (image_command cfg) (λ _ st', st' = st).
Proof.
  intros w r w' st' Hinv E. unfold image_command, mbind, M_bind, world, fail, throw, mret, M_ret in E. simpl in E.
  destruct (ImageStore.ExtractImageConfig _ _); [case_decide|]; simplify_eq/=;
    [by apply inv_err|done|by apply inv_err].
Qed.

Lemma take_snapshot_triple st image :
  triple st (take_snapshot vmID image) (λ _ st', st' = UndoStorage :: st).
Proof.
  intros w r w' st' Hinv E. unfold take_snapshot, mbind, M_bind, world, modify, push, fail, throw, mret, M_ret in E.
  simpl in E. destruct (ImageStore.Snapshot (w_storage w) vmID image) as [m [dev|e]] eqn:Es;
    apply ImageStore.Snapshot_spec in Es as (Hl & Hs & Hok); simplify_eq/=.
  - destruct (Hok eq_refl) as [El Es]. split; [|done]. destruct Hinv. split; try done; simpl.
    + rewrite El. apply agree_set_push; [apply Hready|done].
    + rewrite Es. apply agree_set_push; [apply Hready|done].
  - intros _. pose proof (inv_leak true _ _ Hinv) as Hinv'. destruct Hinv'. split; try done; simpl.
    + destruct Hl as [-> | ->]; [done|]. apply agree_set_add; [|done].
      apply elem_of_app. right. by left.
    + destruct Hs as [-> | ->]; [done|]. apply agree_set_add; [|done].
      apply elem_of_app. right. by left.
Qed.

Lemma inject_triple st : UndoStorage ∈ st → triple st (inject_agent env vmID) (λ _ st', st' = st).
Proof.
  intros Hst w r w' st' Hinv E. unfold inject_agent, mbind, M_bind, world, modify, fail, throw in E. simpl in E.
  destruct (ImageStore.InjectGuestAgent _ _ _ _) as [m e] eqn:Ei.
  apply ImageStore.Inject_spec in Ei as [Es El].
  assert (inv false w0 (set_storage m w) st) as Hinv'.
  { destruct Hinv. split; try done; simpl; [|by rewrite Es].
    destruct El as [-> | ->]; [done|]. apply agree_set_add; [|done].
    apply elem_of_app. left. apply list_elem_of_omap. by exists UndoStorage. }
  destruct e; simplify_eq/=; [by apply inv_err|done].
Qed.

(** *** The paths of the jail *)

Notation root := (chrootRoot f vmID).

Lemma root_paths :
  clean_abs root ∧ root = Dir root +:+ "/root" ∧ root ∉ ancestors (Dir root).
Proof.
  pose proof (ready_base _ _ _ Hready) as Hb. pose proof (ready_id _ _ _ Hready) as Hid.
  set (y := (JailerChrootBaseDir f +:+ "/firecracker") +:+ String "/" vmID).
  assert (HasPrefix y "/" = true) as Hy by by apply HasPrefix_slash_app, HasPrefix_slash_app.
  assert (Clean y ≠ "/") as Hr by (apply Clean_snoc_not_root; [by apply HasPrefix_slash_app|done]).
  assert (plain "root") as Hplain by done.
  assert (root = Clean y +:+ String "/" "root") as E.
  { rewrite <-Clean_snoc by done. unfold chrootRoot. cbn [FilepathJoin].
    rewrite decide_False by by destruct (JailerChrootBaseDir f). f_equal.
    cbn [Join]. unfold y. rewrite !string_app_assoc. done. }
  destruct (clean_abs_child (Clean y) "root") as [_ Hc]; [by apply clean_abs_Clean|done|].
  assert (Dir root = Clean y) as Ed by (rewrite E; apply Dir_child; [by apply clean_abs_Clean|done]).
  rewrite Ed. rewrite E at 1 2. split_and!; [done|done|].
  intros Hin%ancestors_length. rewrite E, length_app_string in Hin. simpl in Hin. lia.
Qed.

(** A path made of names below the chroot. *)
Lemma child_path p e : clean_abs p → plain e → FilepathJoin [p; e] = p +:+ String "/" e.
Proof. intros Hp He. by apply clean_abs_child. Qed.

Lemma jail_paths e e' :
  plain e → plain e' →
  under root (FilepathJoin [root; e]) = true ∧ under root (FilepathJoin [FilepathJoin [root; e]; e']) = true.
Proof.
  intros He He'. destruct root_paths as (Hroot & _). destruct (clean_abs_child root e Hroot He) as [E Hc].
  rewrite E. split; [apply under_child|]. rewrite child_path by done.
  rewrite string_app_assoc. apply under_child.
Qed.

(** The steps that follow the creation of the chroot. *)
Lemma in_jail_path st e e' :
  UndoChroot root ∈ st → plain e → plain e' →
  in_jail st root ∧ in_jail st (FilepathJoin [root; e]) ∧
  in_jail st (FilepathJoin [FilepathJoin [root; e]; e']).
Proof.
  intros Hin He He'. destruct (jail_paths e e' He He') as [H1 H2].
  assert (root ∈ pend_dirs st) as Hr by (apply list_elem_of_omap; by exists (UndoChroot root)).
  split_and!; exists root; (split; [done|]); [apply under_self|done|done].
Qed.

Lemma mkdirall_triple st : triple st (MkdirAll env "mkdirall jail" (Dir root)) (λ _ st', st' = st).
Proof.
  apply triple_call_then. intros w r w' st' Hinv E. unfold mbind, M_bind, world, modify, fail, throw in E. simpl in E.
  destruct (existsb _ _); simplify_eq/=; [by apply inv_err|]. split; [|done].
  destruct Hinv. split; try done. simpl. by apply fs_missing.
Qed.

Lemma make_chroot_triple st :
  pend_dirs st = [] →
  triple st (make_chroot env root) (λ _ st', st' = UndoChroot root :: st).
Proof.
  intros Hst w r w' st' Hinv E. destruct root_paths as (_ & _ & Hanc).
  assert (w_fs w !! root = None) as Hnone.
  { destruct (inv_fs _ _ _ _ Hinv) as [Ha _]. simpl in Ha. rewrite Hst in Ha.
    destruct (Ha root) as [->|(? & _)]; [by intros d ?%not_elem_of_nil| |done].
    apply (ready_fs _ _ _ Hready), under_self. }
  unfold make_chroot, mkdir_exist_ok, call, mbind, M_bind, world, modify, push, fail, throw, mret, M_ret in E.
  destruct (os env "mkdir root") as [e|] eqn:Eo; simpl in E; [simplify_eq; by apply inv_err|].
  rewrite Hnone in E. simplify_eq/=. split; [|done]. destruct Hinv as [? ? ? ? ? ? ? Hfs ? ? ? ?].
  split; try done. simpl.
  apply (fs_change _ _ (w_fs w) _ _ root root); [by left|apply under_self| |].
  - intros q Hne. by rewrite lookup_insert_ne.
  - apply fs_push; [apply Hready|done].
Qed.

Lemma build_chroot_triple st dev uid :
  pend_dirs st = [] →
  triple st (build_chroot f env root dev uid) (λ _ st', st' = UndoChroot root :: st).
Proof.
  intros Hst. unfold build_chroot, bindDeviceIntoChroot. cbv zeta.
  eapply triple_bind; [apply mkdirall_triple|intros ? ? ->].
  eapply triple_bind; [by apply make_chroot_triple|intros ? ? ->].
  destruct (in_jail_path (UndoChroot root :: st) "run" "vmlinux") as (Hroot & Hrun & Hk); [by left|done|done|].
  destruct (in_jail_path (UndoChroot root :: st) "dev" "vda") as (_ & Hdev & Hvda); [by left|done|done|].
  repeat first
    [ by apply triple_chown
    | eapply (triple_bind _ _ _ _ _ (λ _ st', st' = UndoChroot root :: st));
        [first [by apply triple_chown|by apply triple_mkdir|by apply triple_link|by apply triple_mknod
               |by apply triple_call]
        |intros ? ? ->] ].
Qed.

Lemma acquire_ip_triple st :
  triple st acquire_ip (λ ip st', st' = UndoIP ip :: st ∧ ip ≠ "" ∧ Ipam.usedIPs (w_ipam w0) !! ip = None).
Proof.
  intros w r w' st' Hinv E. unfold acquire_ip, mbind, M_bind, world, modify, push, fail, throw, mret, M_ret in E.
  simpl in E. pose proof (inv_net _ _ _ _ Hinv) as Hn. pose proof (inv_v4 _ _ _ _ Hinv) as Hv.
  destruct (Ipam.Acquire (w_ipam w)) as [[[ip|e] i]|] eqn:Ea; [| |simplify_eq/=; by apply inv_err].
  all: apply acquire_loop_used in Ea as (Es & Ev & Eu); [|rewrite Hn; apply Hready|done].
  - simplify_eq/=. destruct Eu as (Hne & Hun & Eu).
    assert (Ipam.usedIPs (w_ipam w) !! ip = None) as Hfree.
    { unfold Ipam.used in Hun. destruct (Ipam.usedIPs (w_ipam w) !! ip) as [b|] eqn:Eb; [|done].
      apply (inv_used _ _ _ _ Hinv (ready_used _ _ _ Hready)) in Eb. by subst. }
    assert (Ipam.usedIPs (w_ipam w0) !! ip = None) as Hnone.
    { destruct (inv_ips _ _ _ _ Hinv) as [Ha Hno].
      destruct (decide (ip ∈ pend_ips st)) as [|Hnp]; [by apply Hno|]. by rewrite <-Ha. }
    split; [|done]. destruct Hinv. split; try done; simpl; unfold all_used; rewrite ?Eu; [congruence|by apply agree_push| |].
    + intros Ha s b [[_ <-]|[_ Hb]]%lookup_insert_Some; [done|by apply (inv_used0 Ha s)].
    + by apply (held_push _ _ (w_ipam w)).
  - simplify_eq/=. apply inv_err. destruct Hinv. split; try done; simpl; unfold all_used, ips_held; rewrite ?Eu; [congruence|done..].
Qed.

Lemma make_tap_triple st ip uid :
  pend_taps st = [] → triple st (make_tap vmID ip uid) (λ name st', name = tap_name vmID ∧ st' = UndoTap name :: st).
Proof.
  intros Hst w r w' st' Hinv E. unfold make_tap, mbind, M_bind, world, modify, push, fail, throw, mret, M_ret in E.
  assert (tap_name vmID ∉ links (w_net w)) as Hn.
  { destruct (inv_taps _ _ _ _ Hinv) as [Ht _]. cbn [pending_of p_taps] in Ht. rewrite Hst in Ht.
    rewrite Ht by apply not_elem_of_nil. apply Hready. }
  simpl in E. rewrite DeleteTap_absent in E by done. cbn [fst] in E.
  destruct (Tap.CreatePointToPointTap (w_net w) _ _ _ _ _) as [n' e] eqn:Ec.
  pose proof (λ t c, create_rules _ _ _ _ _ _ _ t c Ec) as Hr. pose proof (inv_taps _ _ _ _ Hinv) as Ht.
  destruct e as [e|]; simplify_eq/=.
  - intros (_ & Hk & _)%kept_false. apply inv_leak. cbn in Hk. apply Tap.create_links in Ec; [|done].
    destruct Hinv. split; try done; simpl; [by rewrite Ec|by eapply rules_same].
  - apply Tap.create_made in Ec as [_ Ec]. split; [|done]. destruct Hinv. split; try done; simpl.
    + rewrite Ec. apply agree_set_push; [apply Hready|done].
    + by eapply rules_same.
Qed.

Lemma open_log_triple st path : in_jail st path → triple st (open_log env path) (λ _ st', st' = st).
Proof.
  intros Hj w r w' st' Hinv E. unfold open_log in E.
  destruct (WriteFile env "open log" path (w, st)) as [r1 [w1 st1]] eqn:Ew. simplify_eq.
  destruct (os env "open log") as [e|] eqn:Eo.
  - unfold WriteFile, call, mbind, M_bind, fail, throw in Ew. rewrite Eo in Ew. by simplify_eq.
  - pose proof (triple_write st "open log" path (λ _ st', st' = st) Hj eq_refl _ _ _ _ Hinv Ew) as Hr.
    destruct r1 as [[]|e]; [done|]. unfold WriteFile, call, mbind, M_bind, modify, mret, M_ret in Ew.
    by rewrite Eo in Ew.
Qed.

Lemma populate_elsewhere files fs p : under root p = false → populate root files fs !! p = fs !! p.
Proof.
  intros Hp. unfold populate. rewrite lookup_union.
  destruct (kmap (String.append (root +:+ "/")) files !! p) as [e|] eqn:E; [|by rewrite (right_id_L None (∪))].
  apply lookup_kmap_Some in E as (x & -> & _); [|apply _].
  rewrite string_app_assoc in Hp. change ("/" +:+ x) with (String "/" x) in Hp. by rewrite under_child in Hp.
Qed.

Lemma start_vm_triple st vm :
  UndoChroot root ∈ st → triple st (start_vm env root vmID vm) (λ _ st', st' = UndoProcess :: st).
Proof.
  intros Hin. apply triple_call_then. intros w r w' st' Hinv E.
  assert (root ∈ pend_dirs st) as Hr by (apply list_elem_of_omap; by exists (UndoChroot root)).
  unfold mbind, M_bind, modify, push in E. simplify_eq/=. split; [|done].
  destruct Hinv as [? ? ? ? ? ? ? [Ha Hn] ? ? ? ? ?]. split; try done; simpl.
  - split; [|done]. intros p Hp. unfold same_file. rewrite populate_elsewhere by by apply Hp. by apply Ha.
  - apply agree_push; [apply Hready|done].
Qed.

Lemma connect_triple st path : triple st (connect env path) (λ _ st', st' = UndoCancel :: UndoConn :: st).
Proof.
  intros w r w' st' Hinv E. unfold connect, mbind, M_bind, push, fail, throw, mret, M_ret in E. simpl in E.
  destruct (guest_connects env && _); simplify_eq/=; [|by apply inv_err].
  split; [|done]. by destruct Hinv; split.
Qed.

Lemma send_payload_triple st vm p :
  UndoProcess ∈ st → triple st (send_payload vmID vm p) (λ _ st', st' = st).
Proof.
  intros Hin w r w' st' Hinv E.
  assert (vmID ∈ pend_procs vmID st) by (apply list_elem_of_omap; by exists UndoProcess).
  unfold send_payload, modify in E. simplify_eq/=. split; [|done].
  destruct Hinv as [? ? ? ? ? ? ? ? [Ha Hn] ? ? ?]. split; try done. simpl. split; [|done].
  intros k Hk. rewrite lookup_insert_ne by (by intros ->). by apply Ha.
Qed.

Lemma plain_suffix e : contains_byte "/" e = false → (2 < String.length e)%nat → plain (vmID +:+ e).
Proof.
  intros He Hl. destruct (ready_id _ _ _ Hready) as (_ & Hid). split.
  - split_and!; intros E; apply (f_equal String.length) in E; rewrite length_app_string in E; simpl in E; lia.
  - by rewrite contains_byte_app, Hid, He.
Qed.

Lemma launch_triple st vm p :
  UndoChroot root ∈ st →
  triple st (launch env root vmID vm p) (λ _ st', st' = UndoCancel :: UndoConn :: UndoProcess :: st).
Proof.
  intros Hin. unfold launch. cbv zeta.
  assert (plain (vmID +:+ ".json")) as Hjson by (apply plain_suffix; [done|simpl; lia]).
  assert (plain (vmID +:+ ".log")) as Hlog by (apply plain_suffix; [done|simpl; lia]).
  assert (plain "run") as Hrun by done.
  eapply (triple_bind _ _ _ _ _ (λ _ st', st' = st)).
  { apply triple_write; [|done]. by apply (in_jail_path st "run" (vmID +:+ ".json")). }
  intros ? ? ->. eapply triple_bind; [by apply start_vm_triple|intros ? ? ->].
  eapply triple_bind; [apply connect_triple|intros ? ? ->].
  eapply triple_bind.
  { apply open_log_triple. apply (in_jail_path _ (vmID +:+ ".log") "run"); [set_solver|done..]. }
  intros ? ? ->. apply send_payload_triple. set_solver.
Qed.

Lemma map_port_triple st ip pm :
  Ipam.usedIPs (w_ipam w0) !! ip = None →
  triple st (map_port env vmID ip pm) (λ pm' st', st' =
    [UndoMapping (HostInterface pm') (HostPort pm') ip (GuestPort pm') (Protocol pm');
     UndoPort (HostPort pm')] ++ st).
Proof.
  intros Hip. unfold map_port.
  eapply (triple_bind _ _ _ _ _ (λ hp st', st' = UndoPort hp :: st)).
  - intros w r w' st' Hinv E.
    unfold allocate_port, mbind, M_bind, world, modify, push, fail, throw, mret, M_ret in E. simpl in E.
    destruct (ready_ports _ _ _ Hready) as (p0 & Ep0 & Hr1 & Hr2 & Hown).
    pose proof (inv_ports _ _ _ _ Hinv) as Hp. rewrite Ep0 in Hp.
    destruct (w_ports w) as [p|] eqn:Ep; [|done]. destruct Hp as (E1 & E2 & Hp & Hv).
    cbn [pending_of p_ports] in Hp, Hv. rewrite fst_pairs in Hp.
    destruct (@PortMgr.Allocate_spec (binds env) p (HostPort pm) (Protocol pm) (HostInterface pm) vmID)
      as (r1 & p' & Ea & Hspec); [congruence..|]. rewrite Ea in E.
    assert (∀ q, PortMgr.inUse p !! q = None →
      ports_agree ((λ q, (q, vmID)) <$> q :: pend_ports st) (Some (PortMgr.claim p q vmID)) (Some p0)) as Hclaim.
    { intros q Hq. split_and!; [done..| |]; cbn [PortMgr.claim PortMgr.inUse].
      - rewrite fst_pairs. apply agree_push; [|done]. by eapply agree_fresh.
      - intros q' v [[<- <-]|[_ Hq']]%lookup_insert_Some; [right; by left|].
        destruct (Hv q' v Hq'); [by left|right; by right]. }
    destruct r1 as [hp|e]; simplify_eq/=.
    + split; [|done]. destruct Hinv. split; try done. simpl. rewrite Ep0.
      inversion Hspec; subst; try (by apply Hclaim; unfold PortMgr.available in *; naive_solver).
      split_and!; [done..| |intros q v Hq; destruct (Hv q v Hq); [by left|right; by right]].
      rewrite fst_pairs. apply agree_weaken; [|done].
      destruct Hp as [Ha Hno]. destruct (decide (HostPort pm ∈ pend_ports st)) as [|Hnp]; [by apply Hno|].
      exfalso. apply (Hown (HostPort pm)). by rewrite <-Ha.
    + apply inv_err. destruct Hinv. split; try done. simpl. rewrite Ep0.
      inversion Hspec; subst; split_and!; try done; by rewrite fst_pairs.
  - intros hp st1 ->. intros w r w' st' Hinv E.
    unfold mbind, M_bind, world, modify, push, fail, throw, mret, M_ret in E. simpl in E.
    set (m := mkMapping (HostInterface pm) hp ip (GuestPort pm) (Protocol pm)).
    destruct (HostNet.AddPortMapping (w_net w) _ _ _ _ _) as [n e] eqn:Ea.
    pose proof (AddPortMapping_links _ _ _ _ _ _ _ _ Ea) as El.
    assert (m_output m ∉ rules (w_net w0) "nat" "OUTPUT") as Hf by by apply Hready.
    destruct e as [e|]; simplify_eq/=.
    + intros (Hk & _)%kept_false. apply inv_leak. destruct Hinv. split; try done; simpl; [by rewrite El|].
      by eapply (rules_add_err m).
    + split; [|done]. destruct Hinv. split; try done; simpl; [by rewrite El|].
      by eapply (rules_add m).
Qed.

Lemma map_ports_triple st ip pms :
  Ipam.usedIPs (w_ipam w0) !! ip = None →
  triple st (map_ports env vmID ip pms) (λ act st', st' ≡ₚ
    flat_map (λ pm, [UndoMapping (HostInterface pm) (HostPort pm) ip (GuestPort pm) (Protocol pm);
                     UndoPort (HostPort pm)]) act ++ st).
Proof.
  intros Hip. revert st. induction pms as [|pm pms IH]; intros st; simpl.
  - by apply triple_ret.
  - eapply triple_bind; [by apply map_port_triple|]. intros pm' st1 ->.
    eapply triple_bind; [apply IH|]. intros act st2 E. apply triple_ret. rewrite E. simpl.
    by rewrite <-!Permutation_middle.
Qed.

(** The order in which the undo actions were pushed, and the one [Close] uses. *)
Lemma undo_order uid root ip tap l :
  l ++ [UndoCancel; UndoConn; UndoProcess; UndoTap tap; UndoIP ip; UndoChroot root; UndoStorage; UndoUID uid]
  ≡ₚ ([UndoProcess; UndoChroot root; UndoTap tap; UndoIP ip; UndoStorage; UndoUID uid] ++ l) ++
     [UndoConn; UndoCancel].
Proof.
  rewrite (Permutation_app_comm _ l), <-app_assoc. apply Permutation_app_head.
  apply NoDup_Permutation; [repeat constructor; set_solver..|]. intros x. set_solver.
Qed.

(** A worker that was returned can be closed: what is pending is what [Close] takes back. *)
Lemma spawn_triple cfg :
  triple [] (spawn_body f env vmID cfg) (λ wk st',
    id wk = vmID ∧ chrootDir wk = chrootRoot f vmID ∧ guestIP wk ≠ "" ∧ leasedUID wk ≠ 0 ∧
    tapName wk = tap_name vmID ∧ st' ≡ₚ close_undos wk ++ [UndoConn; UndoCancel]).
Proof.
  unfold spawn_body. cbv zeta.
  eapply triple_bind; [apply lease_uid_triple|]. intros uid ? [-> Huid].
  eapply triple_bind; [apply warm_image_triple|]. intros ? ? ->.
  eapply triple_bind; [apply image_command_triple|]. intros [finalCmd img] ? ->.
  eapply triple_bind; [apply take_snapshot_triple|]. intros ? ? ->.
  eapply triple_bind; [apply inject_triple; by left|]. intros ? ? ->.
  eapply triple_bind; [by apply build_chroot_triple|]. intros ? ? ->.
  eapply triple_bind; [apply acquire_ip_triple|]. intros ip ? (-> & Hne & Hip).
  eapply triple_bind; [by apply make_tap_triple|]. intros tap ? [-> ->].
  eapply triple_bind; [apply launch_triple; set_solver|]. intros ? ? ->.
  eapply triple_bind; [by apply map_ports_triple|]. intros act st' E.
  apply triple_ret. simpl. split_and!; [done..|].
  rewrite E. apply undo_order.
Qed.

End spawn.

End FactoryInv.
