(* ===== verification/FactorySteps.v ===== *)
(** * What the steps of a spawn leave alone

    A step that succeeds keeps every part of the world that it does not mention ([keeps]),
    and no step, whatever becomes of it, forgets that something was kept ([mono]). *)
From stdpp Require Import options.
From S2P Require Import Prelude GoStrings GoNet GoFs Rollback UidPool Ipam PortMgr Registry ImageStore HostNet Tap.
From S2P Require Import Factory FactoryInv.
Import Factory.Factory FactoryInv.FactoryInv.
#[local] Open Scope Z_scope.

Module FactorySteps.

Section steps.
Context {C N : Type} `{!Containerd C} `{!ContainerdLaws C} `{!Commands N} `{!Netlink N} `{!HostLaws N}.
Notation World := (World (C := C) (N := N)).
Notation M := (M (C := C) (N := N)).
Notation state := (World * list undo)%type.
#[local] Set Default Proof Using "Type*".

(** ** A part of the world that a step does not touch *)

Definition keeps {T A} (g : World → T) (m : M A) : Prop := ∀ s a s', m s = (Ok a, s') → g s'.1 = g s.1.

Section part.
Context {T : Type} (g : World → T).

Lemma keeps_bind {A B} (m : M A) (k : A → M B) : keeps g m → (∀ a, keeps g (k a)) → keeps g (m ≫= k).
Proof.
  intros Hm Hk s b s' E. apply bind_ok in E as (a & s1 & E1 & E2).
  rewrite (Hk _ _ _ _ E2). by eapply Hm.
Qed.

Lemma keeps_world : keeps g world.
Proof. intros s a s' E. unfold world in E. by simplify_eq. Qed.

Lemma keeps_ret {A} (a : A) : keeps g (mret a).
Proof. intros s a' s' E. unfold mret, M_ret in E. by simplify_eq. Qed.

Lemma keeps_push u : keeps g (push u).
Proof. intros s a' s' E. unfold push in E. by simplify_eq. Qed.

Lemma keeps_fail {A} w e : keeps (A := A) g (fail w e).
Proof. intros s a' s' E. unfold fail, throw in E. by simplify_eq. Qed.

Lemma keeps_modify h : (∀ w, g (h w) = g w) → keeps g (modify h).
Proof. intros Hg s a' s' E. unfold modify in E. simplify_eq/=. apply Hg. Qed.

Lemma keeps_call env name : keeps g (call env name).
Proof. unfold call. destruct (os env name); [apply keeps_fail|apply keeps_ret]. Qed.

End part.

(** ** A step that forgets nothing *)

Definition mono {A} (m : M A) : Prop := ∀ s, kept (m s).2.1 = false → kept s.1 = false.

Lemma mono_bind {A B} (m : M A) (k : A → M B) : mono m → (∀ a, mono (k a)) → mono (m ≫= k).
Proof.
  intros Hm Hk s. unfold mbind, M_bind. specialize (Hm s). destruct (m s) as [[a|e] s1]; [|done].
  intros H'%Hk. by apply Hm.
Qed.

(** A step that reads the world first. *)
Lemma mono_world {A} (k : World → M A) :
  (∀ w st, kept (k w (w, st)).2.1 = false → kept w = false) → mono (world ≫= k).
Proof. intros Hk [w st]. exact (Hk w st). Qed.

Lemma mono_ret {A} (a : A) : mono (mret a).
Proof. by intros s. Qed.

Lemma mono_push u : mono (push u).
Proof. by intros s. Qed.

Lemma mono_fail {A} w e : mono (A := A) (fail w e).
Proof. by intros s. Qed.

Lemma mono_call env name : mono (call env name).
Proof. intros s. unfold call. by destruct (os env name). Qed.

Lemma mono_modify h : (∀ w, kept (h w) = false → kept w = false) → mono (modify h).
Proof. intros Hh s. apply Hh. Qed.

End steps.

Ltac keeps :=
  repeat first
    [ apply keeps_bind; [|intros ?] | apply keeps_world | apply keeps_ret | apply keeps_push
    | apply keeps_fail | apply keeps_call | by apply keeps_modify
    | progress case_match ].

Ltac mono :=
  repeat first
    [ apply mono_ret | apply mono_push | apply mono_fail | apply mono_call | by apply mono_modify
    | apply mono_world; intros ? ? | apply mono_bind; [|intros ?] ].

Section spawn.
Context {C N : Type} `{!Containerd C} `{!ContainerdLaws C} `{!Commands N} `{!Netlink N} `{!HostLaws N}.
Notation World := (World (C := C) (N := N)).
Notation M := (M (C := C) (N := N)).
#[local] Set Default Proof Using "Type*".

(** ** The steps of a spawn *)

Lemma kept_storage (w : World) m :
  store_kept (ImageStore.client m) = store_kept (ImageStore.client (w_storage w)) →
  kept (set_storage m w) = false → kept w = false.
Proof. intros E. rewrite !kept_false. cbn. by rewrite E. Qed.

Lemma kept_net (w : World) n :
  (rule_kept n = false → rule_kept (w_net w) = false) → (link_kept n = false → link_kept (w_net w) = false) →
  kept (set_net n w) = false → kept w = false.
Proof. intros Hr Hl. rewrite !kept_false. cbn. intros (?%Hr & ?%Hl & ? & ?). done. Qed.

Lemma mono_lease : mono (C := C) (N := N) lease_uid.
Proof. unfold lease_uid. mono. by destruct (UidPool.Checkout _) as [[?|?] ?]. Qed.

Lemma mono_warm image : mono (C := C) (N := N) (warm_image image).
Proof.
  unfold warm_image. mono. pose proof (ImageStore.WarmImage_kept (w_storage w) image) as Hk.
  destruct (ImageStore.WarmImage _ _) as [m [e|]]; by apply kept_storage.
Qed.

Lemma mono_command cfg : mono (C := C) (N := N) (image_command cfg).
Proof. unfold image_command. mono. destruct (ImageStore.ExtractImageConfig _ _); [by case_decide|done]. Qed.

Lemma mono_snapshot vmID image : mono (C := C) (N := N) (take_snapshot vmID image).
Proof.
  unfold take_snapshot. mono. pose proof (ImageStore.Snapshot_kept (w_storage w) vmID image) as Hk.
  destruct (ImageStore.Snapshot _ _ _) as [m [d|e]]; by apply kept_storage.
Qed.

Lemma mono_inject env vmID : mono (C := C) (N := N) (inject_agent env vmID).
Proof.
  unfold inject_agent. mono. pose proof (ImageStore.Inject_kept (os env) (agent_is_dir env) (w_storage w) vmID) as Hk.
  destruct (ImageStore.InjectGuestAgent _ _ _ _) as [m [e|]]; by apply kept_storage.
Qed.

Lemma mono_add_file name path x : mono (C := C) (N := N) (add_file name path x).
Proof. unfold add_file. mono. by destruct (w_fs w !! path). Qed.

Lemma mono_mkdir env name path : mono (C := C) (N := N) (mkdir_exist_ok env name path).
Proof. unfold mkdir_exist_ok. mono. by destruct (w_fs w !! path). Qed.

Lemma mono_mkdirall env name path : mono (C := C) (N := N) (MkdirAll env name path).
Proof. unfold MkdirAll. mono. by destruct (existsb _ _). Qed.

Lemma mono_chown env name path uid : mono (C := C) (N := N) (Chown env name path uid).
Proof. unfold Chown. mono. Qed.

Lemma mono_write env name path : mono (C := C) (N := N) (WriteFile env name path).
Proof. unfold WriteFile. mono. apply mono_modify. intros w. by destruct (w_fs w !! path). Qed.

Lemma mono_build f env root dev uid : mono (C := C) (N := N) (build_chroot f env root dev uid).
Proof.
  unfold build_chroot, bindDeviceIntoChroot, make_chroot, Link, Mknod. cbv zeta.
  repeat first
    [ apply mono_call | apply mono_mkdirall | apply mono_chown | apply mono_add_file | apply mono_mkdir
    | apply mono_bind; [|intros []] | apply mono_bind; [|intros ?] | apply mono_push | apply mono_ret ].
Qed.

Lemma mono_ip : mono (C := C) (N := N) acquire_ip.
Proof. unfold acquire_ip. mono. by destruct (Ipam.Acquire _) as [[[?|?] ?]|]. Qed.

Lemma mono_tap vmID ip uid : mono (C := C) (N := N) (make_tap vmID ip uid).
Proof.
  unfold make_tap. apply mono_bind; [apply mono_modify|intros ?; mono].
  - intros w. destruct (DeleteTap_kept (w_net w) (tap_name vmID)) as [E Hl]. apply kept_net; [by rewrite E|done].
  - destruct (Tap.CreatePointToPointTap _ _ _ _ _ _) as [n e] eqn:E.
    pose proof (create_rule_kept _ _ _ _ _ _ _ E) as Hr. destruct (Tap.create_kept _ _ _ _ _ _ _ E) as [Hl _].
    destruct e; (apply kept_net; [by rewrite Hr|done]).
Qed.

Lemma mono_connect env path : mono (C := C) (N := N) (connect env path).
Proof. unfold connect. apply mono_world. intros w st. by destruct (guest_connects env && _). Qed.

Lemma mono_launch env root vmID vm p : mono (C := C) (N := N) (launch env root vmID vm p).
Proof.
  unfold launch, start_vm, send_payload. cbv zeta.
  repeat first [ apply mono_write | apply mono_connect | apply mono_call | apply mono_push | by apply mono_modify | apply mono_bind; [|intros ?] ].
  intros s Hk. unfold open_log in Hk. pose proof (mono_write env "open log" (FilepathJoin [root; vmID +:+ ".log"]) s) as Hw.
    destruct (WriteFile _ _ _ s) as [r s']. by apply Hw.
Qed.

Lemma mono_ports env vmID ip pms : mono (C := C) (N := N) (map_ports env vmID ip pms).
Proof.
  induction pms as [|pm pms IH]; cbn [map_ports]; [apply mono_ret|].
  apply mono_bind; [|intros ?; apply mono_bind; [done|intros ?; apply mono_ret]].
  unfold map_port, allocate_port. apply mono_bind; [|intros ?]; mono.
  - destruct (w_ports w); [|done]. by destruct (PortMgr.Allocate _ _ _ _ _) as [[[?|?] ?]|].
  - pose proof (HostNet.add_mono (w_net w) (HostInterface pm) a ip (GuestPort pm) (Protocol pm)) as Hr.
    pose proof (AddPortMapping_kept (w_net w) (HostInterface pm) a ip (GuestPort pm) (Protocol pm)) as Hl.
    destruct (HostNet.AddPortMapping _ _ _ _ _ _) as [n [e|]]; (apply kept_net; [done|by rewrite <-Hl]).
Qed.

Lemma rollback_mono env vmID (w : World) st : kept (rollback env vmID w st) = false → kept w = false.
Proof.
  unfold rollback, Rollback.rollback. revert w. induction st as [|u st IH]; intros w; [done|].
  cbn [foldl]. intros Hk%IH. by apply run_undo_mono in Hk.
Qed.

Lemma Spawn_mono f env (w : World) vmID cfg : kept (Spawn f env w vmID cfg).2 = false → kept w = false.
Proof.
  assert (mono (spawn_body f env vmID cfg)) as Hm.
  { unfold spawn_body. cbv zeta.
    apply mono_bind; [apply mono_lease|intros uid]. apply mono_bind; [apply mono_warm|intros _].
    apply mono_bind; [apply mono_command|intros [cmd img]]. apply mono_bind; [apply mono_snapshot|intros dev].
    apply mono_bind; [apply mono_inject|intros _]. apply mono_bind; [apply mono_build|intros _].
    apply mono_bind; [apply mono_ip|intros ip]. apply mono_bind; [apply mono_tap|intros tap].
    apply mono_bind; [apply mono_launch|intros _]. apply mono_bind; [apply mono_ports|intros act]. apply mono_ret. }
  unfold Spawn. specialize (Hm (w, [])). destruct (spawn_body f env vmID cfg (w, [])) as [[wk|e] [w1 st]]; [done|].
  cbn [snd fst]. by intros ?%rollback_mono%Hm.
Qed.

(** ** [Close] is the rollback of undo actions of the worker's own *)

Definition close_env (r : Release) : Env :=
  mkEnv (λ _, None) (λ _, 0) map_to_list false PortMgr.demo_host ∅ true false r.

Definition closing (wk : FirecrackerWorker) : list undo :=
  UndoProcess :: (if decide (chrootDir wk ≠ "") then [UndoChroot (chrootDir wk)] else []) ++
  UndoTap (tapName wk) :: (if decide (guestIP wk ≠ "") then [UndoIP (guestIP wk)] else []) ++
  UndoStorage :: (if decide (leasedUID wk ≠ 0) then [UndoUID (leasedUID wk)] else []) ++
  flat_map (λ pm, [UndoMapping (HostInterface pm) (HostPort pm) (guestIP wk) (GuestPort pm) (Protocol pm);
                   UndoPort (HostPort pm)]) (portMappings wk).

Lemma Close_rollback r wk (w : World) : Close r wk w = rollback (close_env r) (id wk) w (closing wk).
Proof.
  unfold Close, rollback, Rollback.rollback, closing. cbv zeta.
  cbn [foldl]. rewrite foldl_app. cbn [foldl]. rewrite foldl_app. cbn [foldl]. rewrite foldl_app.
  repeat case_decide; cbn [foldl run_undo close_env at_rollback ctx_cancelled];
    (match goal with |- foldl _ ?x _ = _ => generalize x end);
    (induction (portMappings wk) as [|pm pms IH]; intros v; cbn [foldl flat_map app]; [done|]; apply IH).
Qed.

Lemma closing_undos wk :
  chrootDir wk ≠ "" → guestIP wk ≠ "" → leasedUID wk ≠ 0 → closing wk = close_undos wk.
Proof. intros Hd Hi Hu. unfold closing, close_undos. by rewrite !decide_True. Qed.

Lemma Close_mono r wk (w : World) : kept (Close r wk w) = false → kept w = false.
Proof. rewrite Close_rollback. apply rollback_mono. Qed.

(** ** The parts of the world that the steps of a spawn may change *)

Lemma lease_keeps {T} (g : World → T) : (∀ x w, g (set_uids x w) = g w) → keeps g lease_uid.
Proof. intros Hg. unfold lease_uid. keeps. Qed.

Lemma warm_keeps {T} (g : World → T) image : (∀ x w, g (set_storage x w) = g w) → keeps g (warm_image image).
Proof. intros Hg. unfold warm_image. keeps. Qed.

Lemma command_keeps {T} (g : World → T) cfg : keeps g (image_command cfg).
Proof. unfold image_command. keeps. Qed.

Lemma snapshot_keeps {T} (g : World → T) vmID image : (∀ x w, g (set_storage x w) = g w) → keeps g (take_snapshot vmID image).
Proof. intros Hg. unfold take_snapshot. keeps. Qed.

Lemma inject_keeps {T} (g : World → T) env vmID : (∀ x w, g (set_storage x w) = g w) → keeps g (inject_agent env vmID).
Proof. intros Hg. unfold inject_agent. keeps. Qed.

Lemma ip_keeps {T} (g : World → T) : (∀ x w, g (set_ipam x w) = g w) → keeps g acquire_ip.
Proof. intros Hg. unfold acquire_ip. keeps. Qed.

Lemma tap_keeps {T} (g : World → T) vmID ip uid : (∀ x w, g (set_net x w) = g w) → keeps g (make_tap vmID ip uid).
Proof. intros Hg. unfold make_tap. apply keeps_bind; [apply keeps_modify; intros w; apply Hg|intros _]. keeps. Qed.

Lemma payload_keeps {T} (g : World → T) vmID vm p : (∀ x w, g (set_procs x w) = g w) → keeps g (send_payload vmID vm p).
Proof. intros Hg. unfold send_payload. apply keeps_modify. intros w. apply Hg. Qed.

Section files.
Context {T : Type} (g : World → T) (Hg : ∀ x w, g (set_fs x w) = g w).

Lemma add_file_keeps name path x : keeps g (add_file name path x).
Proof. unfold add_file. keeps. Qed.

Lemma mkdir_keeps env name path : keeps g (mkdir_exist_ok env name path).
Proof. unfold mkdir_exist_ok. keeps. Qed.

Lemma chown_keeps env name path uid : keeps g (Chown env name path uid).
Proof. unfold Chown. apply keeps_bind; [apply keeps_call|intros _]. apply keeps_modify. intros w. apply Hg. Qed.

Lemma write_keeps env name path s r s' : WriteFile env name path s = (r, s') → g s'.1 = g s.1.
Proof.
  unfold WriteFile, call, fail, throw, mret, M_ret, modify, mbind, M_bind.
  destruct (os env name); intros E; simplify_eq/=; [done|]. destruct (w_fs s.1 !! path); [done|apply Hg].
Qed.

Lemma chroot_keeps f env root rootfs uid : keeps g (build_chroot f env root rootfs uid).
Proof.
  unfold build_chroot, make_chroot, bindDeviceIntoChroot, Link, Mknod, MkdirAll. cbv zeta.
  repeat first [ apply mkdir_keeps | apply chown_keeps | apply add_file_keeps | apply keeps_call | apply keeps_push
    | apply keeps_ret | apply keeps_bind; [|intros []] | apply keeps_bind; [|intros ?] | progress keeps ].
Qed.

Lemma launch_keeps env root vmID vm p : (∀ x w, g (set_procs x w) = g w) → keeps g (launch env root vmID vm p).
Proof.
  intros Hp. unfold launch, start_vm, connect. cbv zeta.
  apply keeps_bind; [intros s a s' E; by eapply write_keeps|intros _].
  apply keeps_bind; [|intros _].
  { apply keeps_bind; [apply keeps_call|intros _]. apply keeps_bind; [apply keeps_modify; intros w; apply Hp|intros _].
    apply keeps_bind; [apply keeps_modify; intros w; apply Hg|intros _]. apply keeps_push. }
  apply keeps_bind; [keeps|intros _]. apply keeps_bind; [|intros _; by apply payload_keeps].
  intros s a s' E. unfold open_log in E. destruct (WriteFile _ _ _ s) as [r s1] eqn:Ew. simplify_eq. by eapply write_keeps.
Qed.

End files.

Lemma map_ports_keeps {T} (g : World → T) env vmID ip pms :
  (∀ n w, links n = links (w_net w) → g (set_net n w) = g w) → (∀ p w, g (set_ports p w) = g w) →
  keeps g (map_ports env vmID ip pms).
Proof.
  intros Hn Hp. induction pms as [|pm pms IH]; cbn [map_ports]; [apply keeps_ret|].
  apply keeps_bind; [|intros ?; apply keeps_bind; [done|intros ?; apply keeps_ret]].
  unfold map_port, allocate_port. apply keeps_bind; [|intros hp].
  - apply keeps_bind; [apply keeps_world|intros w]. destruct (w_ports w) as [p|]; [|apply keeps_ret].
    destruct (PortMgr.Allocate _ _ _ _ _) as [[[?|?] ?]|]; keeps.
    all: intros s a s' E; unfold modify in E; simplify_eq/=; apply Hp.
  - intros s a s' E. unfold mbind, M_bind, world, modify, push, fail, throw, mret, M_ret in E. simpl in E.
    destruct (HostNet.AddPortMapping (w_net s.1) _ _ _ _ _) as [n [e|]] eqn:Ea; simplify_eq/=.
    apply Hn. by eapply AddPortMapping_links.
Qed.

(** The steps of a spawn that succeeds. *)
Lemma spawn_steps f env vmID cfg (s s' : World * list undo) wk :
  spawn_body f env vmID cfg s = (Ok wk, s') →
  let root := chrootRoot f vmID in
  ∃ uid cmd img dev ip tap act s1 s2 s3 s4 s5 s6 s7 s8 s9,
    lease_uid s = (Ok uid, s1) ∧ warm_image (Image cfg) s1 = (Ok tt, s2) ∧ image_command cfg s2 = (Ok (cmd, img), s3) ∧
    take_snapshot vmID (Image cfg) s3 = (Ok dev, s4) ∧ inject_agent env vmID s4 = (Ok tt, s5) ∧
    build_chroot f env root dev uid s5 = (Ok tt, s6) ∧ acquire_ip s6 = (Ok ip, s7) ∧ make_tap vmID ip uid s7 = (Ok tap, s8) ∧
    launch env root vmID (new_vm f vmID ip tap uid cfg) (cmd, final_env img (range_env env (Registry.Env cfg))) s8 = (Ok tt, s9) ∧
    map_ports env vmID ip (Registry.PortMappings cfg) s9 = (Ok act, s') ∧
    wk = {| id := vmID; socketPath := FilepathJoin [root; "run"; "v.sock"]; tapName := tap; guestIP := ip;
            chrootDir := root; leasedUID := uid; portMappings := act |}.
Proof.
  unfold spawn_body. cbv zeta. intros E.
  apply bind_ok in E as (uid & s1 & E1 & E). apply bind_ok in E as ([] & s2 & E2 & E).
  apply bind_ok in E as ([cmd img] & s3 & E3 & E). apply bind_ok in E as (dev & s4 & E4 & E).
  apply bind_ok in E as ([] & s5 & E5 & E). apply bind_ok in E as ([] & s6 & E6 & E).
  apply bind_ok in E as (ip & s7 & E7 & E). apply bind_ok in E as (tap & s8 & E8 & E).
  apply bind_ok in E as ([] & s9 & E9 & E). apply bind_ok in E as (act & s10 & E10 & E).
  unfold mret, M_ret in E. simplify_eq. by repeat eexists.
Qed.

End spawn.
End FactorySteps.
