(* ===== verification/FactoryProps.v ===== *)
(** * What a spawn promises

    Built on [FactoryInv]: a spawn that fails at any step, and a worker that is closed,
    leave the host as it was found; with a machine that meets the interfaces, on which
    both are run. *)
From stdpp Require Import options.
From S2P Require Import Prelude GoStrings GoNet GoFs Rollback UidPool Ipam PortMgr Registry ImageStore HostNet Tap.
From S2P Require Import Factory FactoryInv FactorySteps.
Import Factory.Factory FactoryInv.FactoryInv FactorySteps.FactorySteps.
#[local] Open Scope Z_scope.

#[local] Existing Instances HostNet.kernel_commands HostNet.kernel_laws Tap.host_netlink
  Tap.host_laws ImageStore.store_ops ImageStore.store_laws.

(** ** A machine that meets the laws *)

Record machine := mkMachine { m_rules : HostNet.kernel; m_links : Tap.host }.

Definition on_links (r : machine → Tap.host * option string) (m : machine) : machine * option string :=
  (mkMachine (m_rules m) (r m).1, (r m).2).

#[export] Instance machine_commands : Commands machine := {|
  runCmd m name args :=
    (mkMachine (runCmd (m_rules m) name args).1 (m_links m), (runCmd (m_rules m) name args).2);
  rules m := rules (m_rules m);
  rule_kept m := rule_kept (m_rules m)
|}.

#[export] Instance machine_netlink : Netlink machine := {|
  LinkAdd m name u g := on_links (λ m, LinkAdd (m_links m) name u g) m;
  LinkByName m name := LinkByName (m_links m) name;
  AddrAdd m name a := on_links (λ m, AddrAdd (m_links m) name a) m;
  LinkSetUp m name := on_links (λ m, LinkSetUp (m_links m) name) m;
  LinkDel m name := on_links (λ m, LinkDel (m_links m) name) m;
  links m := links (m_links m);
  link_kept m := link_kept (m_links m)
|}.

#[export] Instance machine_laws : HostLaws machine.
Proof.
  split; try done; split.
  - intros h table chain spec. pose proof (append_law (m_rules h) table chain spec) as E.
    cbn [runCmd rules machine_commands]. by destruct (runCmd (m_rules h) _ _) as [k [e|]].
  - intros h. apply (append_keeps (m_rules h)).
  - intros h table chain spec. pose proof (delete_law (m_rules h) table chain spec) as E.
    cbn [runCmd rules rule_kept machine_commands]. by destruct (runCmd (m_rules h) _ _) as [k [e|]].
  - done.
  - intros h. apply (add_law (m_links h)).
  - intros h. apply (add_new (m_links h)).
  - intros h. apply (find_law (m_links h)).
  - intros h. apply (addr_law (m_links h)).
  - intros h. apply (up_law (m_links h)).
  - intros h. apply (add_keeps (m_links h)).
  - intros h. apply (addr_keeps (m_links h)).
  - intros h. apply (up_keeps (m_links h)).
  - intros h name. pose proof (del_law (m_links h) name) as E.
    cbn [LinkDel links link_kept machine_netlink on_links]. by destruct (LinkDel (m_links h) name) as [l [e|]].
Qed.

Module FactoryProps.

Section props.
Context {C N : Type} `{!Containerd C} `{!ContainerdLaws C} `{!Commands N} `{!Netlink N} `{!HostLaws N}.
Notation World := (World (C := C) (N := N)).
#[local] Set Default Proof Using "Type*".

(** ** Lemmas *)

Lemma inv_perm parents vmID b (w0 w : World) st st' :
  st ≡ₚ st' → inv parents vmID b w0 w st → inv parents vmID b w0 w st'.
Proof. intros E. unfold inv. by rewrite (pending_of_perm vmID b st st' E). Qed.

(** The connection and the context hold nothing that is counted. *)
Lemma inv_drop ps vmID b (w0 w : World) st :
  inv ps vmID b w0 w (st ++ [UndoConn; UndoCancel]) → inv ps vmID b w0 w st.
Proof.
  unfold inv. assert (pending_of vmID b (st ++ [UndoConn; UndoCancel]) = pending_of vmID b st) as ->; [|done].
  unfold pending_of, pend_uids, pend_ips, pend_ports, pend_taps, pend_dirs, pend_procs, pend_stores, pend_maps.
  rewrite !omap_app. cbn. by rewrite !app_nil_r.
Qed.

Notation parents f vmID := (ancestors (Dir (chrootRoot f vmID))).

Lemma agrees_refl dirs (w : World) :
  length (Ipam.nextIP (w_ipam w)) = 4%nat → agrees dirs (mkPending [] [] [] [] [] [] [] [] []) w w.
Proof.
  intros Hv. split; simpl; try done.
  - split; [done..|]. by rewrite app_nil_r.
  - apply agree_refl.
  - destruct (w_ports w); [|done]. split_and!; [done..|apply agree_refl|]. intros q v ?. by left.
  - apply agree_set_refl.
  - split; [by left|]. by intros d p ?%not_elem_of_nil.
  - apply agree_refl.
  - apply agree_set_refl.
  - apply agree_set_refl.
  - apply rules_refl.
  - split; [constructor|]. by intros s ?%not_elem_of_nil.
Qed.

Lemma inv_start f vmID (w : World) : ready f vmID w → inv (parents f vmID) vmID false w w [].
Proof. intros Hr. apply agrees_refl, Hr. Qed.

Lemma path_nonempty f vmID : chrootRoot f vmID ≠ "".
Proof.
  apply FilepathJoin_nonempty. exists "firecracker". split; [|done]. right. by left.
Qed.

Lemma launch_procs env root vmID vm p (s s' : World * list undo) :
  launch env root vmID vm p s = (Ok tt, s') → w_procs s'.1 !! vmID = Some (with_payload p vm).
Proof.
  unfold launch. cbv zeta. intros E. apply bind_ok in E as (? & s1 & _ & E).
  apply bind_ok in E as (? & s2 & _ & E). apply bind_ok in E as (? & s3 & _ & E).
  apply bind_ok in E as (? & s4 & _ & E). unfold send_payload, modify in E. simplify_eq/=.
  by rewrite lookup_insert_eq.
Qed.

(** What is pending of a worker that runs. *)
Lemma pend_close wk :
  let st := close_undos wk ++ [UndoConn; UndoCancel] in
  pend_uids st = [leasedUID wk] ∧ pend_ips st = [guestIP wk] ∧ pend_taps st = [tapName wk] ∧
  pend_maps st = (λ pm, mkMapping (HostInterface pm) (HostPort pm) (guestIP wk) (GuestPort pm)
                          (Protocol pm)) <$> portMappings wk.
Proof.
  cbv zeta. unfold close_undos, pend_uids, pend_ips, pend_taps, pend_maps. simpl. rewrite !omap_app. simpl.
  rewrite !app_nil_r. induction (portMappings wk) as [|pm pms IH]; simpl; [done|].
  destruct IH as (H1' & H2' & H3' & H4'). split_and!; [done..|]. exact (f_equal (cons _) H4').
Qed.

(** The storage from the lease to the command: the image was warmed, nothing else. *)
Lemma warm_storage image (s s' : World * list undo) :
  warm_image image s = (Ok tt, s') → w_storage s'.1 = (ImageStore.WarmImage (w_storage s.1) image).1.
Proof.
  intros E. unfold warm_image, mbind, M_bind, world, modify, fail, throw in E. simpl in E.
  destruct (ImageStore.WarmImage _ _) as [m [e|]]; by simplify_eq/=.
Qed.

Lemma image_command_ok cfg cmd img (s s' : World * list undo) :
  image_command cfg s = (Ok (cmd, img), s') →
  s' = s ∧ ImageStore.ExtractImageConfig (w_storage s.1) (Image cfg) = Ok img ∧
  cmd = final_command img (Command cfg) ∧ cmd ≠ [].
Proof.
  intros E. unfold image_command, mbind, M_bind, world, fail, throw, mret, M_ret in E. simpl in E.
  destruct (ImageStore.ExtractImageConfig _ _); [|done]. case_decide; by simplify_eq/=.
Qed.

(** The VM of a successful spawn. *)
Lemma spawn_vm_exact f env vmID cfg (w0 w1 : World) wk st :
  spawn_body f env vmID cfg (w0, []) = (Ok wk, (w1, st)) →
  ∃ img,
    ImageStore.ExtractImageConfig (ImageStore.WarmImage (w_storage w0) (Image cfg)).1 (Image cfg) = Ok img ∧
    final_command img (Command cfg) ≠ [] ∧
    w_procs w1 !! vmID = Some (with_payload
      (final_command img (Command cfg), final_env img (range_env env (Registry.Env cfg)))
      (new_vm f vmID (guestIP wk) (tapName wk) (leasedUID wk) cfg)) ∧
    tapName wk = tap_name vmID.
Proof.
  intros (uid & cmd & img & dev & ip & tap & act & s1 & s2 & s3 & s4 & s5 & s6 & s7 & s8 & s9 &
    E1 & E2 & E3 & _ & _ & _ & _ & E8 & E9%launch_procs & E10 & ->)%spawn_steps.
  apply (map_ports_keeps w_procs) in E10; [|done..]. simpl in E10.
  apply (lease_keeps w_storage) in E1; [|done]. apply warm_storage in E2. apply image_command_ok in E3 as (-> & Ei & -> & Hne).
  rewrite E2, E1 in Ei. exists img. split_and!; [done|done|by rewrite E10|].
  unfold make_tap, mbind, M_bind, world, modify, push, fail, throw, mret, M_ret in E8.
  cbn [fst snd] in E8. by destruct (Tap.CreatePointToPointTap _ _ _ _ _ _) as [? [?|]]; simplify_eq/=.
Qed.

Lemma spawn_vm f env vmID cfg (w0 w1 : World) wk st :
  spawn_body f env vmID cfg (w0, []) = (Ok wk, (w1, st)) →
  ∃ img vm,
    ImageStore.ExtractImageConfig (ImageStore.WarmImage (w_storage w0) (Image cfg)).1 (Image cfg) = Ok img ∧
    final_command img (Command cfg) ≠ [] ∧ w_procs w1 !! vmID = Some vm ∧
    jail vm = jailer_args f vmID (leasedUID wk) ∧ boot_ip vm = guestIP wk ∧ host_dev vm = tapName wk ∧
    0 < vcpu_count vm ∧ 0 < mem_size_mib vm ∧
    payload vm = Some (final_command img (Command cfg), final_env img (range_env env (Registry.Env cfg))).
Proof.
  intros (img & Hi & Hne & Hvm & _)%spawn_vm_exact. eexists img, _. split_and!; [done|done|exact Hvm|done..| | |done];
    cbn; unfold vcpu, mem; case_decide; lia.
Qed.

(** The links after a spawn. *)
Lemma spawn_links f env vmID cfg (w0 w1 : World) wk st :
  tap_name vmID ∉ links (w_net w0) → spawn_body f env vmID cfg (w0, []) = (Ok wk, (w1, st)) →
  links (w_net w1) = {[tap_name vmID]} ∪ links (w_net w0).
Proof.
  intros Htap (uid & cmd & img & dev & ip & tap & act & s1 & s2 & s3 & s4 & s5 & s6 & s7 & s8 & s9 &
    E1 & E2 & E3 & E4 & E5 & E6 & E7 & E8 & E9 & E10 & ->)%spawn_steps.
  apply (map_ports_keeps (λ w : World, links (w_net w))) in E10; [|done..].
  apply (launch_keeps w_net) in E9; [|done..]. simpl in E10. rewrite E10, E9. clear E9 E10.
  assert (w_net s7.1 = w_net w0) as En.
  { apply (ip_keeps w_net) in E7; [|done]. apply (chroot_keeps w_net) in E6; [|done]. apply (inject_keeps w_net) in E5; [|done].
    apply (snapshot_keeps w_net) in E4; [|done]. apply (command_keeps w_net) in E3. apply (warm_keeps w_net) in E2; [|done].
    apply (lease_keeps w_net) in E1; [|done]. by rewrite E7, E6, E5, E4, E3, E2, E1. }
  unfold make_tap, mbind, M_bind, world, modify, push, fail, throw, mret, M_ret in E8. cbn [fst snd] in E8.
  cbn [set_net w_net] in E8. rewrite En, DeleteTap_absent in E8 by done. cbn [fst] in E8.
  destruct (Tap.CreatePointToPointTap _ _ _ _ _ _) as [n [?|]] eqn:Ec; simplify_eq/=.
  by apply Tap.create_made in Ec as [_ Ec].
Qed.

(** ** Properties

    A spawn starts from a host that is [ready] for its VM: nothing is there in the VM's
    name, no file below its chroot, no link by the name of its tap, no process, port, lease
    or snapshot; the name is one element of a path, and the pools are well formed.  What a
    spawn is without that is in [FactoryFiles] and [VmConfig]. *)

(** [C13] A [Spawn] that fails, at whatever step, gives back all that it took, provided that
    no release is refused: the pools of UIDs, addresses and ports, the links, the firewall,
    the files and the processes are what they were, but that the chroot's parent
    directories, once made, stay.  In containerd at most the VM's own lease and snapshot can
    stay, and only when the failing step was the snapshot itself or the request's context
    was cancelled.  The name of the VM is a plain path element, the jailer's directory is
    absolute, and the host had nothing in the VM's name before: no file below its chroot, no
    link by its tap's name, no process, port, lease or snapshot. *)
Theorem failed_spawn_restores f env vmID cfg (w0 w : World) e :
  ready f vmID w0 → Spawn f env w0 vmID cfg = (Err e, w) → kept w = false →
  same_host (parents f vmID) w0 w ∧ only_own_storage vmID w0 w ∧
  (stage e ≠ "snapshot" → ctx_cancelled env = false → same_storage w0 w).
Proof.
  intros Hr E Hk. unfold Spawn in E.
  destruct (spawn_body f env vmID cfg (w0, [])) as [r [w1 st]] eqn:Eb.
  pose proof (spawn_triple f env vmID w0 Hr cfg w0 r w1 st (inv_start f vmID w0 Hr) Eb) as Ht.
  destruct r as [wk|e']; simplify_eq. apply (spawn_rollback_inv f env vmID w0 Hr) in Ht; [|done].
  destruct (inv_done f env vmID w0 Hr _ _ Ht) as (Hh & Ho & Hs). split_and!; [done..|].
  intros Hst Hc. apply Hs. by rewrite bool_decide_eq_false_2, Hc.
Qed.

(** [C15] What a [Spawn] that succeeds has set up, on a host that had nothing in the VM's
    name before, for a name that is a plain path element.  The VM runs under the jailer as a
    UID that was in the pool and now is not, with an address that nobody had and a tap that
    is there now and was not, and no other link has changed; its agent was sent the image's
    entrypoint and command as the request overrides them, never an empty command; and the
    NAT table translates each mapping of the worker to the VM's port and the filter lets it
    through, with no other rule added to the two chains. *)
Theorem spawn_sets_up f env vmID cfg (w0 w1 : World) wk :
  ready f vmID w0 → Spawn f env w0 vmID cfg = (Ok wk, w1) →
  (∃ img vm, ImageStore.ExtractImageConfig (ImageStore.WarmImage (w_storage w0) (Image cfg)).1 (Image cfg) = Ok img ∧
    final_command img (Command cfg) ≠ [] ∧
    w_procs w1 !! vmID = Some vm ∧
    jail vm = jailer_args f vmID (leasedUID wk) ∧ boot_ip vm = guestIP wk ∧ host_dev vm = tapName wk ∧
    0 < vcpu_count vm ∧ 0 < mem_size_mib vm ∧
    payload vm = Some (final_command img (Command cfg), final_env img (range_env env (Registry.Env cfg)))) ∧
  UidPool.ch (w_uids w1) ++ [leasedUID wk] ≡ₚ UidPool.ch (w_uids w0) ∧
  Ipam.usedIPs (w_ipam w0) !! guestIP wk = None ∧ is_Some (Ipam.usedIPs (w_ipam w1) !! guestIP wk) ∧
  tapName wk ∉ links (w_net w0) ∧ links (w_net w1) = {[tapName wk]} ∪ links (w_net w0) ∧
  rules (w_net w1) "nat" "PREROUTING" ≡ₚ rules (w_net w0) "nat" "PREROUTING" ++
    ((λ pm, HostNet.dnat_spec (HostInterface pm) (HostPort pm) (guestIP wk) (GuestPort pm)
              (HostNet.proto_of (Protocol pm))) <$> portMappings wk) ∧
  rules (w_net w1) "filter" "FORWARD" ≡ₚ rules (w_net w0) "filter" "FORWARD" ++
    ((λ pm, HostNet.forward_spec (guestIP wk) (GuestPort pm) (HostNet.proto_of (Protocol pm))) <$> portMappings wk).
Proof.
  intros Hr E. unfold Spawn in E.
  destruct (spawn_body f env vmID cfg (w0, [])) as [r [w2 st]] eqn:Eb.
  pose proof (spawn_triple f env vmID w0 Hr cfg w0 r w2 st (inv_start f vmID w0 Hr) Eb) as Ht.
  destruct r as [wk'|e']; simplify_eq. destruct Ht as (Hinv & Hid & Hroot & Hip & Hu & Htap & Hst).
  apply (inv_perm _ _ _ _ _ _ _ Hst) in Hinv. split; [by eapply spawn_vm|].
  destruct (pend_close wk) as (Pu & Pi & Pt & Pm).
  destruct Hinv as [Huids ? ? Hips ? ? Htaps ? ? ? ? Hrules Hheld]. cbn [pending_of p_uids p_ips p_taps p_maps] in *.
  assert (∀ t c, ¬ (t = "nat" ∧ c = "OUTPUT") → rules (w_net w1) t c ≡ₚ rules (w_net w0) t c ++ chain_rules t c (pend_maps (close_undos wk ++ [UndoConn; UndoCancel])))
    as Hc by (intros; by rewrite (ra_chains _ _ _ Hrules)).
  rewrite Pm in Hc. split_and!.
  - rewrite <-(ua_ch _ _ _ Huids). by rewrite Pu.
  - apply Hips. rewrite Pi. by left.
  - apply not_eq_None_Some, Hheld. rewrite Pi. by left.
  - apply Htaps. rewrite Pt. by left.
  - rewrite Htap. eapply spawn_links; [apply Hr|done].
  - rewrite Hc by (by intros [_ ?]). unfold chain_rules. rewrite decide_True by done. by rewrite <-list_fmap_compose.
  - rewrite Hc by (by intros [? _]). unfold chain_rules. rewrite decide_False, decide_True by (done || by intros [? _]).
    by rewrite <-list_fmap_compose.
Qed.

(** [C14] Closing the worker that a [Spawn] returned leaves nothing of it, provided that no
    release is refused, whatever [Close] itself reports: every pool, the links, the firewall,
    the files but for the chroot's parent directories, the processes and containerd's leases
    and snapshots are as they were before the spawn.  As for every spawn here, the VM's name
    is a plain path element and the host had nothing in that name before. *)
Theorem spawn_close_restores f env r vmID cfg (w0 w1 : World) wk :
  ready f vmID w0 → Spawn f env w0 vmID cfg = (Ok wk, w1) → kept (Close r wk w1) = false →
  same_host (parents f vmID) w0 (Close r wk w1) ∧ same_storage w0 (Close r wk w1).
Proof.
  intros Hr E Hk. unfold Spawn in E.
  destruct (spawn_body f env vmID cfg (w0, [])) as [res [w2 st]] eqn:Eb.
  pose proof (spawn_triple f env vmID w0 Hr cfg w0 res w2 st (inv_start f vmID w0 Hr) Eb) as Ht.
  destruct res as [wk'|e']; simplify_eq. destruct Ht as (Hinv & Hid & Hroot & Hip & Hu & Htap & Hst).
  apply (inv_perm _ _ _ _ _ _ _ Hst), (inv_drop _ _ _ _ _ (close_undos wk)) in Hinv.
  rewrite Close_rollback, closing_undos, Hid in * by (done || rewrite Hroot; apply path_nonempty).
  apply (spawn_rollback_inv f (close_env r) vmID w0 Hr false) in Hk; [|done].
  destruct (inv_done f env vmID w0 Hr _ _ Hk) as (Hh & _ & Hs). split; [done|]. by apply Hs.
Qed.

End props.

(** ** Witnesses: a host with one tap, one port and one rule of another VM *)

Definition demo_factory : FirecrackerFactory :=
  mkFirecrackerFactory "/usr/bin/firecracker" "/usr/bin/jailer" "/opt/vmlinux" "/opt/agent" "/srv/jailer".

(** A kernel that publishes a port of another VM, on one interface. *)
Definition published_elsewhere : HostNet.kernel :=
  (HostNet.AddPortMapping HostNet.fresh_kernel "eth0" 8080 "10.200.0.1" 80 "tcp").1.

Definition demo_world : World (C := ImageStore.store) (N := machine) :=
  mkWorld UidPool.demo (ImageStore.warm_store ∅)
    (Ipam.mkIPAM (mkIPNet [10; 200; 0; 0] [255; 255; 0; 0]) {["10.200.0.1" := true]} [10; 200; 0; 2])
    (Some PortMgr.demo_pm)
    (mkMachine published_elsewhere (Tap.mkHost {["tap-vm-a"]} ∅ ∅ false))
    {["/srv" := mkEntry IsDir 0; "/root" := mkEntry IsDir 0]}
    {["vm-a" := mkVM [] "10.200.0.1" "10.200.0.1" "tap-vm-a" 1 512 None]} false.

(** Everything is released, and a VM makes its socket in the jail. *)
Definition smooth : Release := mkRelease (λ _, false) false.
Definition demo_vm_files : gmap string entry := {["run/v.sock" := mkEntry Socket 70000; "firecracker" := mkEntry Regular 70000]}.

(** The [failing] call of the environment fails. *)
Definition demo_env (failing : string) : Env :=
  mkEnv (λ c, if decide (c = failing) then Some "EIO" else None) (λ _, 64768) map_to_list false PortMgr.demo_host
    demo_vm_files true false smooth.

Definition demo_cfg : TenantConfig :=
  mkTenantConfig "alpine" ["/bin/server"] ∅ 300 0 "" 1 256
    [mkPortMapping "" 0 80 "tcp"; mkPortMapping "10.0.0.5" 9090 90 "udp"].

Lemma demo_ready_for vmID : vmID = "vm1" ∨ vmID = "vm2" → ready demo_factory vmID demo_world.
Proof.
  intros Hv.
  assert (∀ (x : string) (X : gset string), bool_decide (x ∈ X) = false → x ∉ X) as Hno
    by (intros x X; apply bool_decide_eq_false).
  split.
  - done.
  - by repeat constructor.
  - done.
  - done.
  - intros s b Hs. change (({["10.200.0.1" := true]} : gmap string bool) !! s = Some b) in Hs. by apply lookup_singleton_Some in Hs as [_ <-].
  - exists PortMgr.demo_pm. split_and!; [done|by vm_compute..|].
    intros p Hp. change (({[30001 := "vm-a"]} : gmap Z string) !! p = Some vmID) in Hp.
    apply lookup_singleton_Some in Hp as [_ <-]. by destruct Hv.
  - apply Hno. destruct Hv as [-> | ->]; vm_compute; reflexivity.
  - done.
  - by destruct Hv as [-> | ->].
  - intros p Hp. change (({["/srv" := mkEntry IsDir 0; "/root" := mkEntry IsDir 0]} : gmap string entry) !! p = None).
    rewrite lookup_insert_ne, lookup_singleton_ne; [done|intros <-..]; by destruct Hv as [-> | ->].
  - destruct Hv as [-> | ->]; vm_compute; reflexivity.
  - apply Hno. destruct Hv as [-> | ->]; vm_compute; reflexivity.
  - apply Hno. destruct Hv as [-> | ->]; vm_compute; reflexivity.
  - intros hp ip gp proto _. apply not_elem_of_nil.
Qed.

Lemma demo_ready : ready demo_factory "vm1" demo_world.
Proof. apply demo_ready_for. by left. Qed.

Lemma failed_spawn_restores_witness :
  ∃ w, Spawn demo_factory (demo_env "mknod device") demo_world "vm1" demo_cfg =
         (Err (mkError "mknod device" "EIO"), w) ∧
    same_host (ancestors "/srv/jailer/firecracker/vm1") demo_world w ∧ only_own_storage "vm1" demo_world w ∧
    ("mknod device" ≠ "snapshot" → false = false → same_storage demo_world w).
Proof.
  eexists. split; [vm_compute; reflexivity|].
  refine (failed_spawn_restores demo_factory (demo_env "mknod device") "vm1" demo_cfg demo_world _
    (mkError "mknod device" "EIO") demo_ready _ _); vm_compute; reflexivity.
Defined.

Lemma spawn_sets_up_witness :
  ∃ wk w, Spawn demo_factory (demo_env "") demo_world "vm1" demo_cfg = (Ok wk, w) ∧
    UidPool.ch (w_uids w) ++ [leasedUID wk] ≡ₚ [70000; 70001; 70002].
Proof.
  eexists _, _. split; [vm_compute; reflexivity|].
  refine (proj1 (proj2 (spawn_sets_up demo_factory (demo_env "") "vm1" demo_cfg demo_world _ _ demo_ready _))).
  vm_compute. reflexivity.
Defined.

Lemma spawn_close_restores_witness :
  ∃ wk w, Spawn demo_factory (demo_env "") demo_world "vm1" demo_cfg = (Ok wk, w) ∧
    same_host (ancestors "/srv/jailer/firecracker/vm1") demo_world (Close smooth wk w) ∧ same_storage demo_world (Close smooth wk w).
Proof.
  eexists _, _. split; [vm_compute; reflexivity|].
  refine (spawn_close_restores demo_factory (demo_env "") smooth "vm1" demo_cfg demo_world _ _ demo_ready _ _);
    vm_compute; reflexivity.
Defined.

End FactoryProps.
