(* ===== verification/FactoryFiles.v ===== *)
(** * The files of a spawn

    What each step of [Spawn] does to the file system, and from it the contents of the
    jail in which the VM starts; with a session identifier that leads outside of it. *)
From stdpp Require Import options.
From S2P Require Import Prelude GoStrings GoNet GoFs Rollback UidPool Ipam PortMgr Registry ImageStore HostNet Tap.
From S2P Require Import Factory FactoryInv FactorySteps FactoryProps.
Import Factory.Factory FactoryInv.FactoryInv FactorySteps.FactorySteps FactoryProps.FactoryProps.
#[local] Open Scope Z_scope.

#[local] Existing Instances HostNet.kernel_commands HostNet.kernel_laws Tap.host_netlink
  Tap.host_laws ImageStore.store_ops ImageStore.store_laws.

Module FactoryFiles.

(** Opening the log creates it, unless that fails or the VM put a file of its name there. *)
Definition log_file (env : Env) (path : string) (fs : gmap string entry) : gmap string entry :=
  match os env "open log", fs !! path with
  | None, None => <[path := mkEntry Regular 0]> fs
  | _, _ => fs
  end.

(** What [Spawn] puts into the jail of a VM whose snapshot is [dev] before it starts the VM:
    what its user owns, and what root does. *)
Definition herd_files (f : FirecrackerFactory) (env : Env) (vmID dev : string) (uid : Z) : gmap string entry :=
  let root := chrootRoot f vmID in
  let own := λ x, mkEntry x uid in
  <[FilepathJoin [FilepathJoin [root; "run"]; vmID +:+ ".json"] := mkEntry Regular 0]>
  (<[FilepathJoin [FilepathJoin [root; "dev"]; "vda"] := own (BlockDev (rdev env dev))]>
  (<[FilepathJoin [FilepathJoin [root; "run"]; "vmlinux"] := mkEntry (HardLink (KernelImagePath f)) 0]>
  (<[FilepathJoin [root; "dev"] := own IsDir]>
  (<[FilepathJoin [root; "run"] := own IsDir]>
  {[root := own IsDir]})))).

(** The jail once the VM has been started in it. *)
Definition jail_files (f : FirecrackerFactory) (env : Env) (vmID dev : string) (uid : Z) : gmap string entry :=
  let root := chrootRoot f vmID in
  log_file env (FilepathJoin [root; vmID +:+ ".log"]) (populate root (vm_files env) (herd_files f env vmID dev uid)).

Lemma log_file_mono env path fs p e : fs !! p = Some e → log_file env path fs !! p = Some e.
Proof.
  intros Hp. unfold log_file. destruct (os env "open log"), (fs !! path) eqn:E; try done.
  rewrite lookup_insert_ne; [done|]. congruence.
Qed.

Lemma log_file_same env path fs fs' p :
  fs !! path = fs' !! path → fs !! p = fs' !! p → log_file env path fs !! p = log_file env path fs' !! p.
Proof.
  intros Hl Hp. unfold log_file. rewrite Hl. destruct (os env "open log"), (fs' !! path); try done. by apply insert_same.
Qed.

Lemma populate_mono root files fs p e : fs !! p = Some e → populate root files fs !! p = Some e.
Proof. apply lookup_union_Some_l. Qed.

Lemma populate_same root files fs fs' p : fs !! p = fs' !! p → populate root files fs !! p = populate root files fs' !! p.
Proof. intros E. unfold populate. by rewrite !lookup_union, E. Qed.

Section files.
Context {C N : Type} `{!Containerd C} `{!ContainerdLaws C} `{!Commands N} `{!Netlink N} `{!HostLaws N}.
Notation World := (World (C := C) (N := N)).
Notation M := (M (C := C) (N := N)).
Notation state := (World * list undo)%type.
#[local] Set Default Proof Using "Type*".

Lemma take_snapshot_ok vmID image dev (s s' : state) :
  take_snapshot vmID image s = (Ok dev, s') → (ImageStore.Snapshot (w_storage s.1) vmID image).2 = Ok dev.
Proof.
  intros E. unfold take_snapshot, mbind, M_bind, world, modify, push, fail, throw, mret, M_ret in E. simpl in E.
  destruct (ImageStore.Snapshot _ _ _) as [m [d|e]]; by simplify_eq/=.
Qed.

(** ** What the file calls do when they succeed *)

Lemma call_ok env name {A} (m : M A) s a s' :
  (call env name;; m) s = (Ok a, s') → os env name = None ∧ m s = (Ok a, s').
Proof.
  unfold call, mbind, M_bind, fail, throw, mret, M_ret. destruct (os env name); intros E; by simplify_eq.
Qed.

Lemma mkdir_ok env name path b (s s' : state) :
  mkdir_exist_ok env name path s = (Ok b, s') → w_fs s.1 !! path = None →
  w_fs s'.1 = <[path := mkEntry IsDir 0]> (w_fs s.1).
Proof.
  intros [_ E]%call_ok Hn. unfold mbind, M_bind, world, modify, mret, M_ret in E. simpl in E.
  rewrite Hn in E. by simplify_eq/=.
Qed.

Lemma make_chroot_ok env path (s s' : state) :
  make_chroot env path s = (Ok tt, s') → w_fs s.1 !! path = None →
  w_fs s'.1 = <[path := mkEntry IsDir 0]> (w_fs s.1).
Proof.
  unfold make_chroot. intros (b & s1 & E1 & E2)%bind_ok Hn.
  rewrite <-(mkdir_ok _ _ _ _ _ _ E1 Hn).
  destruct b; [by apply (keeps_push w_fs (UndoChroot path)) in E2|by apply (keeps_ret w_fs tt) in E2].
Qed.

Lemma MkdirAll_ok env name path (s s' : state) :
  MkdirAll env name path s = (Ok tt, s') → w_fs s'.1 = foldl make_missing (w_fs s.1) (ancestors path).
Proof.
  intros [_ E]%call_ok. unfold mbind, M_bind, world, modify, fail, throw in E. simpl in E.
  destruct (existsb _ _); by simplify_eq/=.
Qed.

Lemma Chown_ok env name path uid (s s' : state) :
  Chown env name path uid s = (Ok tt, s') → w_fs s'.1 = alter (set_owner uid) path (w_fs s.1).
Proof. intros [_ E]%call_ok. unfold modify in E. by simplify_eq/=. Qed.

Lemma add_file_ok name path x (s s' : state) :
  add_file name path x s = (Ok tt, s') → w_fs s'.1 = <[path := mkEntry x 0]> (w_fs s.1).
Proof.
  intros E. unfold add_file, mbind, M_bind, world, modify, fail, throw in E. simpl in E.
  destruct (w_fs s.1 !! path); by simplify_eq/=.
Qed.

Lemma WriteFile_ok env name path r (s s' : state) :
  WriteFile env name path s = (r, s') → os env name = None → w_fs s.1 !! path = None →
  w_fs s'.1 = <[path := mkEntry Regular 0]> (w_fs s.1).
Proof.
  unfold WriteFile, call, mbind, M_bind, modify, mret, M_ret. intros E Eo Hn. rewrite Eo, Hn in E.
  by simplify_eq/=.
Qed.

Lemma open_log_ok env path (s s' : state) :
  open_log env path s = (Ok tt, s') → w_fs s'.1 = log_file env path (w_fs s.1).
Proof.
  unfold open_log, WriteFile, call, log_file, fail, throw, mret, M_ret, modify, mbind, M_bind.
  destruct (os env "open log"); intros E; simplify_eq/=; [done|]. by destruct (w_fs s.1 !! path).
Qed.

Lemma start_vm_ok env root vmID vm (s s' : state) :
  start_vm env root vmID vm s = (Ok tt, s') → w_fs s'.1 = populate root (vm_files env) (w_fs s.1).
Proof. intros [_ E]%call_ok. unfold mbind, M_bind, modify, push in E. by simplify_eq/=. Qed.

Lemma connect_ok env path (s s' : state) :
  connect env path s = (Ok tt, s') → w_fs s'.1 = w_fs s.1 ∧ is_Some (w_fs s.1 !! path).
Proof.
  unfold connect, mbind, M_bind, world, push, mret, M_ret, fail, throw. cbn.
  destruct (guest_connects env && bool_decide (is_Some (w_fs s.1 !! path))) eqn:Hb; intros E; simplify_eq/=.
  apply andb_true_iff in Hb as [_ Hb%bool_decide_eq_true]. done.
Qed.

(** ** The paths of the jail *)

Section jail.
Context (f : FirecrackerFactory) (env : Env) (vmID : string) (w0 : World) (Hready : ready f vmID w0).
Notation root := (chrootRoot f vmID).
#[local] Set Default Proof Using "All".

Lemma child e : plain e → FilepathJoin [root; e] = root +:+ String "/" e.
Proof. intros He. apply (child_path f env vmID w0 Hready); [apply (root_paths f env vmID w0 Hready)|done]. Qed.

Lemma grandchild d e :
  plain d → plain e → FilepathJoin [FilepathJoin [root; d]; e] = root +:+ (String "/" d +:+ String "/" e).
Proof.
  intros Hd He. rewrite child, <-string_app_assoc by done. apply (child_path f env vmID w0 Hready); [|done].
  apply clean_abs_child; [apply (root_paths f env vmID w0 Hready)|done].
Qed.

Lemma sock_path : FilepathJoin [root; "run"; "v.sock"] = root +:+ ("/run" +:+ "/v.sock").
Proof.
  destruct (root_paths f env vmID w0 Hready) as (Hr & _).
  destruct (clean_abs_child root "run" Hr) as [_ Hr1]; [done|].
  destruct (clean_abs_child _ "v.sock" Hr1) as [_ (E & _)]; [done|].
  rewrite string_app_assoc in E. cbn [FilepathJoin]. rewrite decide_False; [exact E|].
  destruct Hr as (_ & Hp & _). intros E0. by rewrite E0 in Hp.
Qed.

Lemma below x : under root (root +:+ String "/" x) = true.
Proof. apply under_child. Qed.

(** Two names are one path only if they are the same name. *)
Lemma root_inj x y : x ≠ y → root +:+ x ≠ root +:+ y.
Proof. by intros ? ?%(inj _). Qed.

Lemma root_not_child x : root ≠ root +:+ String "/" x.
Proof.
  intros E. apply (f_equal String.length) in E. rewrite length_app_string in E. simpl in E. lia.
Qed.

Lemma name_json : vmID +:+ ".json" ≠ "vmlinux".
Proof.
  intros E. pose proof (f_equal String.length E) as El. rewrite length_app_string in El. simpl in El.
  destruct vmID as [|? [|? [|? ?]]]; simplify_eq/=; lia.
Qed.

Lemma parents_outside p : under root p = true → p ∉ ancestors (Dir root).
Proof.
  intros Hu%under_length Hin%ancestors_length. destruct (root_paths f env vmID w0 Hready) as (_ & E & _).
  rewrite E, length_app_string in Hu. simpl in Hu. lia.
Qed.

(** ** The jail, step by step *)

(** Nothing is there yet. *)
Definition empty_jail (fs : gmap string entry) : Prop := ∀ p, under root p = true → fs !! p = None.

Lemma build_chroot_ok dev uid (s s' : state) :
  empty_jail (w_fs s.1) → build_chroot f env root dev uid s = (Ok tt, s') →
  ∃ fs, empty_jail fs ∧
    w_fs s'.1 = <[root +:+ "/dev/vda" := mkEntry (BlockDev (rdev env dev)) uid]>
      (<[root +:+ "/run/vmlinux" := mkEntry (HardLink (KernelImagePath f)) 0]>
      (<[root +:+ "/dev" := mkEntry IsDir uid]> (<[root +:+ "/run" := mkEntry IsDir uid]>
      (<[root := mkEntry IsDir uid]> fs)))).
Proof.
  intros He E. unfold build_chroot, bindDeviceIntoChroot in E. cbv zeta in E.
  rewrite (grandchild "run" "vmlinux"), (grandchild "dev" "vda"), !child in E by done.
  apply bind_ok in E as ([] & s1 & E1%MkdirAll_ok & E).
  assert (empty_jail (w_fs s1.1)) as He1.
  { intros p Hp. rewrite E1, missing_elsewhere by by apply parents_outside. by apply He. }
  apply bind_ok in E as ([] & s2 & E2 & E).
  apply make_chroot_ok in E2; [|apply He1, under_self].
  apply bind_ok in E as ([] & s3 & E3%Chown_ok & E).
  rewrite E2, alter_insert_eq in E3. unfold set_owner in E3. cbn [e_file] in E3.
  apply bind_ok in E as (? & s4 & E4 & E).
  apply mkdir_ok in E4; [|rewrite E3, lookup_insert_ne by apply root_not_child; apply He1, below].
  apply bind_ok in E as ([] & s5 & E5%Chown_ok & E).
  rewrite E4, alter_insert_eq in E5. unfold set_owner in E5. cbn [e_file] in E5.
  apply bind_ok in E as (? & s6 & E6 & E).
  apply mkdir_ok in E6.
  2: { rewrite E5, lookup_insert_ne by by apply root_inj. rewrite E3, lookup_insert_ne by apply root_not_child.
       apply He1, below. }
  apply bind_ok in E as ([] & s7 & E7%Chown_ok & E).
  rewrite E6, alter_insert_eq in E7. unfold set_owner in E7. cbn [e_file] in E7.
  apply bind_ok in E as ([] & s8 & E8 & E).
  apply call_ok in E8 as [_ E8%add_file_ok]. apply call_ok in E as [_ E].
  apply bind_ok in E as ([] & s9 & E9 & E%Chown_ok).
  apply call_ok in E9 as [_ E9%add_file_ok]. rewrite E9, alter_insert_eq in E. unfold set_owner in E.
  cbn [e_file] in E. exists (w_fs s1.1). split; [done|]. by rewrite E, E8, E7, E5, E3.
Qed.

Lemma plain_name e : contains_byte "/" e = false → (2 < String.length e)%nat → plain (vmID +:+ e).
Proof. apply (plain_suffix f env vmID w0 Hready). Qed.

Lemma launch_ok vm p (s s' : state) :
  w_fs s.1 !! (root +:+ ("/run" +:+ String "/" (vmID +:+ ".json"))) = None →
  launch env root vmID vm p s = (Ok tt, s') →
  let fs := populate root (vm_files env) (<[root +:+ ("/run" +:+ String "/" (vmID +:+ ".json")) := mkEntry Regular 0]> (w_fs s.1)) in
  w_fs s'.1 = log_file env (FilepathJoin [root; vmID +:+ ".log"]) fs ∧ is_Some (fs !! FilepathJoin [root; "run"; "v.sock"]).
Proof.
  intros Hj E. unfold launch in E. cbv zeta in E.
  assert (plain (vmID +:+ ".json")) by (apply plain_name; [done|simpl; lia]).
  rewrite (grandchild "run" (vmID +:+ ".json")), (grandchild "run" "v.sock") in E by done.
  apply bind_ok in E as ([] & s1 & E1 & E).
  assert (os env "write config" = None) as Ec by by (apply call_ok in E1 as [? _]).
  apply WriteFile_ok in E1; [|done|done].
  apply bind_ok in E as ([] & s2 & E2%start_vm_ok & E).
  apply bind_ok in E as ([] & s3 & [E3 Hsock]%connect_ok & E).
  apply bind_ok in E as ([] & s4 & E4%open_log_ok & E%(payload_keeps w_fs)); [|done].
  cbv zeta. rewrite <-E1, <-E2, sock_path. split; [|done]. by rewrite E, E4, E3.
Qed.

Lemma herd_files_under dev uid p e : herd_files f env vmID dev uid !! p = Some e → under root p = true.
Proof.
  unfold herd_files. cbv zeta. assert (plain (vmID +:+ ".json")) by (apply plain_name; [done|simpl; lia]).
  rewrite !grandchild, !child by done. intros Hp.
  repeat (apply lookup_insert_Some in Hp as [[<- _]|[_ Hp]]; [apply below|]).
  apply lookup_singleton_Some in Hp as [<- _]. apply under_self.
Qed.

(** The configuration is written to a new file. *)
Lemma json_free (fs0 : gmap string entry) x1 x2 x3 x4 x5 :
  empty_jail fs0 →
  (<[root +:+ "/dev/vda" := x1]> (<[root +:+ "/run/vmlinux" := x2]> (<[root +:+ "/dev" := x3]>
         (<[root +:+ "/run" := x4]> (<[root := x5]> fs0))))) !! (root +:+ ("/run" +:+ String "/" (vmID +:+ ".json"))) = None.
Proof.
  intros Hf. rewrite !lookup_insert_ne; try apply root_not_child; try apply root_inj; try done.
  - by apply Hf, below.
  - intros [= E]. by apply name_json.
Qed.

Lemma jail_files_lookup fs dev uid p :
  empty_jail fs → under root p = true →
  log_file env (FilepathJoin [root; vmID +:+ ".log"]) (populate root (vm_files env)
    (<[root +:+ ("/run" +:+ String "/" (vmID +:+ ".json")) := mkEntry Regular 0]>
    (<[root +:+ "/dev/vda" := mkEntry (BlockDev (rdev env dev)) uid]>
    (<[root +:+ "/run/vmlinux" := mkEntry (HardLink (KernelImagePath f)) 0]>
    (<[root +:+ "/dev" := mkEntry IsDir uid]> (<[root +:+ "/run" := mkEntry IsDir uid]>
    (<[root := mkEntry IsDir uid]> fs))))))) !! p = jail_files f env vmID dev uid !! p.
Proof.
  intros Hf Hp. unfold jail_files, herd_files. cbv zeta.
  assert (plain (vmID +:+ ".json")) by (apply plain_name; [done|simpl; lia]).
  assert (plain (vmID +:+ ".log")) by (apply plain_name; [done|simpl; lia]).
  rewrite !grandchild, !child by done.
  apply log_file_same; apply populate_same; repeat apply insert_same; apply Hf; [apply below|done].
Qed.

(** [C16] What is in the jail of a VM that was spawned, file by file: the chroot and its [run]
    and [dev] belong to the leased UID, as does the block device of its own snapshot; the
    kernel is a link to the shared one and stays root's, as does the configuration.  The
    vsock's socket that the worker keeps is there.  What else is below the chroot was put
    there by the jailer or the VM, which are taken to add files and change none, or is the log.
    This is so if the session's name is a plain path element, the jailer's directory an
    absolute path, and nothing of that name was on the host. *)
Theorem jail_contents cfg (w1 : World) wk :
  Spawn f env w0 vmID cfg = (Ok wk, w1) →
  ∃ dev, (ImageStore.Snapshot (ImageStore.WarmImage (w_storage w0) (Image cfg)).1 vmID (Image cfg)).2 = Ok dev ∧
    (∀ p e, herd_files f env vmID dev (leasedUID wk) !! p = Some e → w_fs w1 !! p = Some e) ∧
    is_Some (w_fs w1 !! socketPath wk) ∧
    ∀ p, under root p = true → w_fs w1 !! p = jail_files f env vmID dev (leasedUID wk) !! p.
Proof.
  unfold Spawn. destruct (spawn_body f env vmID cfg (w0, [])) as [r [w st]] eqn:E. intros Er.
  destruct r as [wk'|e]; simplify_eq.
  apply spawn_steps in E as (uid & cmd & img & dev & ip & tap & act & s1 & s2 & s3 & s4 & s5 & s6 & s7 & s8 & s9 &
    E1 & E2 & E3 & E4 & E5 & E6 & E7 & E8 & E9 & E10 & ->).
  apply (inject_keeps w_fs) in E5; [|done]. apply (ip_keeps w_fs) in E7; [|done].
  apply (tap_keeps w_fs) in E8; [|done]. apply (map_ports_keeps w_fs) in E10; [|done..].
  cbn [socketPath leasedUID fst] in *. exists dev. split.
  - apply (lease_keeps w_storage) in E1; [|done]. apply warm_storage in E2. apply image_command_ok in E3 as (-> & _).
    rewrite E1 in E2. simpl in E2. rewrite <-E2. by apply take_snapshot_ok in E4.
  - apply build_chroot_ok in E6 as (fs & Hfs & E6).
    2: { apply (lease_keeps w_fs) in E1; [|done]. apply (warm_keeps w_fs) in E2; [|done]. apply (command_keeps w_fs) in E3.
         apply (snapshot_keeps w_fs) in E4; [|done].
         rewrite E5, E4, E3, E2, E1. exact (ready_fs _ _ _ Hready). }
    rewrite <-E7, <-E8 in E6. apply launch_ok in E9 as [E9 [e He]]; [|rewrite E6; by apply json_free].
    assert (∀ p, under root p = true → w_fs w1 !! p = jail_files f env vmID dev uid !! p) as Hall.
    { intros p Hp. rewrite E10, E9, E6. by apply jail_files_lookup. }
    split_and!; [|exists e; rewrite E10, E9; by apply log_file_mono|done].
    intros p e' Hp. rewrite Hall by by apply (herd_files_under dev uid p e').
    by apply log_file_mono, populate_mono.
Qed.

End jail.

End files.

(** ** Witnesses *)

Lemma jail_contents_witness :
  ∃ w wk, Spawn demo_factory (demo_env "") demo_world "vm1" demo_cfg = (Ok wk, w) ∧
    ∃ dev, w_fs w !! "/srv/jailer/firecracker/vm1/root/dev/vda" = Some (mkEntry (BlockDev 64768) (leasedUID wk)) ∧
      ∀ p, under (chrootRoot demo_factory "vm1") p = true →
        w_fs w !! p = jail_files demo_factory (demo_env "") "vm1" dev (leasedUID wk) !! p.
Proof.
  eexists _, _. split; [vm_compute; reflexivity|].
  edestruct (jail_contents demo_factory (demo_env "") "vm1" demo_world demo_ready demo_cfg) as (dev & _ & E);
    [vm_compute; reflexivity|].
  exists dev. split; [vm_compute; reflexivity|exact (proj2 (proj2 E))].
Defined.

(** A session identifier is a path element of the chroot and nothing checks it.  Here it
    leads out of the jailer's directory: the spawn, which fails, has given the host's own
    [/root] to the leased UID, and does not take it back. *)
Theorem session_id_escapes :
  ∃ e w, Spawn demo_factory (demo_env "mknod device") demo_world "../../.." demo_cfg = (Err e, w) ∧
    w_fs demo_world !! "/root" = Some (mkEntry IsDir 0) ∧
    w_fs w !! "/root" = Some (mkEntry IsDir 70000) ∧
    w_fs w !! "/root/dev" = Some (mkEntry IsDir 70000) ∧ UidPool.ch (w_uids w) = [70001; 70002; 70000].
Proof. eexists _, _. split_and!; vm_compute; reflexivity. Qed.

End FactoryFiles.
