(* ===== verification/Config.v ===== *)
(** * The daemon's configuration ([internal/config/config.go])

    [Load] reads a file, decodes it strictly, fills in defaults and validates.  The file
    system and the YAML decoder are parameters; a [float64] is the specification float of
    the Standard Library, NaN included. *)
From Stdlib Require Import SpecFloat.
From stdpp Require Import options.
From S2P Require Import Prelude GoStrings GoNet UidPool PortMgr.
#[local] Open Scope Z_scope.

Module Config.

Record NetworkConfig := mkNetworkConfig {
  ControlBind : string; DataBind : string; EphemeralPortStart : Z; EphemeralPortEnd : Z
}.
Record StorageConfig := mkStorageConfig { StateDir : string; SnapshotterName : string; Namespace : string }.
Record ResourceConfig := mkResourceConfig {
  MaxGlobalVMs : Z; MaxGlobalMemoryMB : Z; CPULimitCores : spec_float
}.
Record BinaryConfig := mkBinaryConfig {
  FirecrackerPath : string; JailerPath : string; KernelImagePath : string; GuestAgentPath : string
}.
Record JailerConfig := mkJailerConfig { UIDPoolStart : Z; UIDPoolSize : Z; ChrootBaseDir : string }.
Record TelemetryConfig := mkTelemetryConfig { LogFormat : string; MetricsPath : string }.
Record CloudConfig := mkCloudConfig {
  Enabled : bool; Endpoint : string; MachineToken : string; NodeKey : string; NodeKeyPath : string;
  NodeID : string; Interface : string
}.
Record Config := mkConfig {
  Network : NetworkConfig;
  Storage : StorageConfig;
  Resources : ResourceConfig;
  Binaries : BinaryConfig;
  Jailer : JailerConfig;
  Telemetry : TelemetryConfig;
  Cloud : CloudConfig
}.

Inductive error :=
  | ErrRead (e : string)
  | ErrDecode (e : string)
  | ErrRequired (field : string)
  | ErrBind (field : string)
  | ErrValue (field : string).

Definition MemoryLimitBytes (r : ResourceConfig) : Z := wrap64 (wrap64 (MaxGlobalMemoryMB r * 1024) * 1024).

(** The home of the user who called [sudo], if there is one, and else of the current user. *)
Definition GetTargetHomeDir (sudoUser : string) (Lookup : string → result string string)
    (UserHomeDir : result string string) : result string string :=
  if decide (sudoUser ≠ "") then
    match Lookup sudoUser with Ok homeDir => Ok homeDir | Err _ => UserHomeDir end
  else UserHomeDir.

(** [home] is the answer of [GetTargetHomeDir], empty when it has none. *)
Definition applyDefaults (home : string) (c : Config) : Config :=
  let t := Telemetry c in
  let n := Network c in
  let cl := Cloud c in
  {| Network := mkNetworkConfig (ControlBind n) (DataBind n)
       (if decide (EphemeralPortStart n = 0) then 10000 else EphemeralPortStart n)
       (if decide (EphemeralPortEnd n = 0) then 39999 else EphemeralPortEnd n);
     Storage := Storage c;
     Resources := Resources c;
     Binaries := Binaries c;
     Jailer := Jailer c;
     Telemetry := mkTelemetryConfig
       (if decide (LogFormat t = "") then "json" else LogFormat t)
       (if decide (MetricsPath t = "") then "/metrics" else MetricsPath t);
     Cloud := mkCloudConfig (Enabled cl) (Endpoint cl) (MachineToken cl) (NodeKey cl)
       (if decide (NodeKeyPath cl = "") then
          if decide (home ≠ "") then FilepathJoin [home; ".herd"; "node.key"] else "/etc/herd/node.key"
        else NodeKeyPath cl)
       (NodeID cl) (Interface cl) |}%string.

(** [None] when the address is acceptable. *)
Definition validateDataBind (bind : string) : option string :=
  match SplitHostPort bind with
  | Err _ => Some "must be host:port"
  | Ok (host, portStr) =>
      match Atoi portStr with
      | Err _ => Some "port must be between 1 and 65535"
      | Ok port =>
          if decide (port < 1 ∨ 65535 < port) then Some "port must be between 1 and 65535"
          else if decide (host = "localhost") then None
          else match ParseIP host with
               | None => Some "host must be loopback"
               | Some ip => if negb (IsLoopback ip) then Some "host must be loopback" else None
               end
      end
  end%string.

Definition bad_port (p : Z) : bool := bool_decide (p < 1 ∨ 65535 < p).
Definition negative (f : spec_float) : bool := SFltb f (S754_zero false).

Definition Validate (c : Config) : option error :=
  let n := Network c in
  if decide (ControlBind n = "") then Some (ErrRequired "network.control_bind") else
  if decide (validateDataBind (ControlBind n) ≠ None) then Some (ErrBind "network.control_bind") else
  if decide (DataBind n = "") then Some (ErrRequired "network.data_bind") else
  if decide (validateDataBind (DataBind n) ≠ None) then Some (ErrBind "network.data_bind") else
  if bad_port (EphemeralPortStart n) then Some (ErrValue "network.ephemeral_port_start") else
  if bad_port (EphemeralPortEnd n) then Some (ErrValue "network.ephemeral_port_end") else
  if decide (EphemeralPortEnd n < EphemeralPortStart n) then Some (ErrValue "network.ephemeral_port_start") else
  if decide (MaxGlobalVMs (Resources c) < 1) then Some (ErrValue "resources.max_global_vms") else
  if decide (MaxGlobalMemoryMB (Resources c) < 1) then Some (ErrValue "resources.max_global_memory_mb") else
  if negative (CPULimitCores (Resources c)) then Some (ErrValue "resources.cpu_limit_cores") else
  if decide (LogFormat (Telemetry c) ≠ "json" ∧ LogFormat (Telemetry c) ≠ "text")
    then Some (ErrValue "telemetry.log_format") else
  if decide (FirecrackerPath (Binaries c) = "") then Some (ErrRequired "binaries.firecracker_path") else
  if decide (JailerPath (Binaries c) = "") then Some (ErrRequired "binaries.jailer_path") else
  if decide (KernelImagePath (Binaries c) = "") then Some (ErrRequired "binaries.kernel_image_path") else
  if decide (GuestAgentPath (Binaries c) = "") then Some (ErrRequired "binaries.guest_agent_path") else
  if decide (UIDPoolStart (Jailer c) < 65536) then Some (ErrValue "jailer.uid_pool_start") else
  if decide (UIDPoolSize (Jailer c) < 1) then Some (ErrValue "jailer.uid_pool_size") else
  if decide (ChrootBaseDir (Jailer c) = "") then Some (ErrRequired "jailer.chroot_base_dir") else
  if negb (HasPrefix (MetricsPath (Telemetry c)) "/") then Some (ErrValue "telemetry.metrics_path") else
  None.

Section load.
Context (ReadFile : string → result string string) (Decode : string → result string Config) (home : string).

Definition Load (path : string) : result error Config :=
  match ReadFile path with
  | Err e => Err (ErrRead e)
  | Ok raw =>
      match Decode raw with
      | Err e => Err (ErrDecode e)
      | Ok cfg =>
          let cfg := applyDefaults home cfg in
          match Validate cfg with Some e => Err e | None => Ok cfg end
      end
  end.

End load.

(** ** What a valid configuration is *)

(** An address of this machine only. *)
Definition loopback_bind (s : string) : Prop :=
  ∃ host port p, SplitHostPort s = Ok (host, port) ∧ Atoi port = Ok p ∧ 1 ≤ p ≤ 65535 ∧
    (host = "localhost" ∨ ∃ ip, ParseIP host = Some ip ∧ IsLoopback ip = true).

Record valid (c : Config) : Prop := {
  v_control : loopback_bind (ControlBind (Network c));
  v_data : loopback_bind (DataBind (Network c));
  v_ports : 1 ≤ EphemeralPortStart (Network c) ≤ EphemeralPortEnd (Network c) ∧
            EphemeralPortEnd (Network c) ≤ 65535;
  v_vms : 1 ≤ MaxGlobalVMs (Resources c);
  v_memory : 1 ≤ MaxGlobalMemoryMB (Resources c);
  v_cpu : negative (CPULimitCores (Resources c)) = false;
  v_log : LogFormat (Telemetry c) ∈ ["json"; "text"];
  v_binaries : "" ∉ [FirecrackerPath (Binaries c); JailerPath (Binaries c);
                     KernelImagePath (Binaries c); GuestAgentPath (Binaries c)];
  v_uids : 65536 ≤ UIDPoolStart (Jailer c) ∧ 1 ≤ UIDPoolSize (Jailer c);
  v_chroot : ChrootBaseDir (Jailer c) ≠ "";
  v_metrics : ∃ rest, MetricsPath (Telemetry c) = String "/" rest
}.

(** A configuration as the documentation recommends it. *)
Definition demo : Config :=
  {| Network := mkNetworkConfig "127.0.0.1:8081" "localhost:8080" 0 0;
     Storage := mkStorageConfig "/var/lib/herd" "devmapper" "herd";
     Resources := mkResourceConfig 100 65536 (S754_zero false);
     Binaries := mkBinaryConfig "/usr/bin/firecracker" "/usr/bin/jailer" "/opt/vmlinux" "/opt/agent";
     Jailer := mkJailerConfig 300000 200 "/srv/jailer";
     Telemetry := mkTelemetryConfig "" "";
     Cloud := mkCloudConfig false "" "" "" "" "" "" |}.

(** ** Lemmas *)

Lemma validateDataBind_spec s : validateDataBind s = None ↔ loopback_bind s.
Proof.
  unfold validateDataBind, loopback_bind. split.
  - destruct (SplitHostPort s) as [[host port]|]; [|done]. destruct (Atoi port) as [p|] eqn:Ep; [|done].
    case_decide; [done|]. intros Hb. exists host, port, p. split_and!; [done|done|lia|lia|].
    case_decide as Hh; [by left|]. right. destruct (ParseIP host) as [ip|]; [|done].
    exists ip. split; [done|]. by destruct (IsLoopback ip).
  - intros (host & port & p & -> & -> & Hp & Hh). rewrite decide_False by lia.
    case_decide; [done|]. destruct Hh as [?|(ip & -> & ->)]; done.
Qed.

Lemma loopback_nonempty : ¬ loopback_bind "".
Proof. by intros (? & ? & ? & ? & _). Qed.

Lemma starts_slash s : HasPrefix s "/" = true ↔ ∃ rest, s = String "/" rest.
Proof.
  unfold HasPrefix. split; [|by intros [rest ->]; simpl; destruct rest].
  destruct s as [|c rest]; [done|]. cbn [String.prefix].
  destruct (Ascii.ascii_dec "/" c) as [<-|]; [by exists rest|done].
Qed.

Lemma Validate_valid c : Validate c = None ↔ valid c.
Proof.
  unfold Validate. cbv zeta. split.
  - repeat (case_decide || case_match); try done. intros _.
    repeat match goal with
    | H : bad_port _ = false |- _ => apply bool_decide_eq_false in H
    | H : negb _ = false |- _ => apply negb_false_iff, starts_slash in H
    end.
    split; try done; try lia.
    + by apply validateDataBind_spec.
    + by apply validateDataBind_spec.
    + rewrite !elem_of_cons. destruct (decide (LogFormat (Telemetry c) = "json")); [by left|].
      right. left. apply dec_stable. naive_solver.
    + rewrite !not_elem_of_cons. split_and!; [congruence..|apply not_elem_of_nil].
  - intros [Hc Hd Hp Hv Hm Hcpu Hl Hb Hu Hch Hmp].
    rewrite !not_elem_of_cons in Hb. destruct Hb as (? & ? & ? & ? & _).
    rewrite !elem_of_cons in Hl.
    assert (∀ s, loopback_bind s → s ≠ "" ∧ validateDataBind s = None) as Hlb.
    { intros s Hs. split; [by intros ->; apply loopback_nonempty|by apply validateDataBind_spec]. }
    destruct (Hlb _ Hc) as [? Ec]. destruct (Hlb _ Hd) as [? Ed].
    apply starts_slash in Hmp. rewrite Ec, Ed, Hcpu, Hmp. unfold bad_port.
    rewrite !bool_decide_eq_false_2 by lia.
    rewrite !decide_False; try done; try lia; try congruence.
    intros [? ?]. destruct Hl as [?|[?|?%not_elem_of_nil]]; done.
Qed.

(** ** Properties *)

Section properties.
Context (ReadFile : string → result string string) (Decode : string → result string Config) (home : string).

(** [C39] [Load] succeeds exactly when the file is read, decodes, and passes each of the
    eleven tests of [Validate], written out in [valid], once the defaults are filled in; and
    what it returns is that configuration.  That is what the code takes for valid: the
    documentation asks for more in one place (as many UIDs as VMs) and for less in another
    (it has defaults for the bind addresses). *)
Theorem load_exact path c :
  Load ReadFile Decode home path = Ok c ↔
  ∃ raw cfg, ReadFile path = Ok raw ∧ Decode raw = Ok cfg ∧ c = applyDefaults home cfg ∧ valid c.
Proof.
  unfold Load. split.
  - destruct (ReadFile path) as [raw|]; [|done]. destruct (Decode raw) as [cfg|] eqn:Ed; [|done].
    cbv zeta. destruct (Validate _) eqn:Ev; [done|]. intros. simplify_eq.
    exists raw, cfg. split_and!; [done..|]. by apply Validate_valid.
  - intros (raw & cfg & -> & -> & -> & Hv). cbv zeta. by apply Validate_valid in Hv as ->.
Qed.

End properties.

(** Of the IPv4 addresses only those of 127.0.0.0/8 can be bound, and only with a
    port between 1 and 65535. *)
Theorem bind_loopback_only a b c d port :
  is_byte a → is_byte b → is_byte c → is_byte d → 0 ≤ port ≤ int64_max →
  validateDataBind (dotted a b c d +:+ String ":" (Itoa port)) = None ↔ a = 127 ∧ 1 ≤ port ≤ 65535.
Proof.
  intros Ha Hb Hc Hd Hp. unfold validateDataBind.
  rewrite SplitHostPort_plain by (by apply dotted_no_byte || (apply Itoa_no_byte; [done|lia])).
  rewrite Atoi_Itoa by done. rewrite ParseIP_dotted by done.
  assert (dotted a b c d ≠ "localhost") as Hl.
  { intros E. pose proof (parseIPv4_dotted a b c d Ha Hb Hc Hd) as E4. by rewrite E in E4. }
  rewrite (decide_False (P := _ = "localhost")) by done.
  assert (IsLoopback (v4InV6Prefix ++ [a; b; c; d]) = bool_decide (a = 127)) as ->.
  { unfold IsLoopback. simpl. apply bool_decide_ext. split; [by intros [=]|by intros ->]. }
  case_decide; [split; [done|lia]|]. case_bool_decide; simpl; split; intros; try done; lia.
Qed.

(** What the daemon builds from a valid configuration is usable: the UID pool is
    created with one UID per slot, none of them a system one; the port manager answers
    every request, and the ports it picks itself are ephemeral ports of the configuration
    and so real ones; and the memory limit in bytes is exact below 2^43 MB. *)
Theorem valid_config_boots c :
  valid c → UIDPoolStart (Jailer c) + UIDPoolSize (Jailer c) ≤ int64_max →
  MaxGlobalMemoryMB (Resources c) < 2 ^ 43 →
  (∃ uids, UidPool.NewPool (UIDPoolStart (Jailer c)) (UIDPoolSize (Jailer c)) = Ok uids ∧
    UidPool.Available uids = UIDPoolSize (Jailer c) ∧ NoDup (UidPool.ch uids) ∧
    Forall (λ u, 65536 ≤ u) (UidPool.ch uids)) ∧
  (∀ (host : Host) req protocol iface vmID,
    let pm := PortMgr.NewPortManager (EphemeralPortStart (Network c)) (EphemeralPortEnd (Network c)) in
    ∃ r pm', PortMgr.Allocate pm req protocol iface vmID = Some (r, pm') ∧
      (req = 0 → ∀ p, r = Ok p →
        EphemeralPortStart (Network c) ≤ p ≤ EphemeralPortEnd (Network c) ∧ 1 ≤ p ≤ 65535)) ∧
  MemoryLimitBytes (Resources c) = MaxGlobalMemoryMB (Resources c) * 2 ^ 20.
Proof.
  intros [_ _ Hp _ Hm _ _ _ [Hu1 Hu2] _ _] Hmax Hmem. split_and!.
  - destruct (UidPool.NewPool (UIDPoolStart (Jailer c)) (UIDPoolSize (Jailer c))) as [uids|e] eqn:E.
    + exists uids. split; [done|]. apply UidPool.NewPool_ok in E as (_ & _ & ->); [|done].
      unfold UidPool.Available. simpl. split_and!; [apply UidPool.uid_range_length; lia|apply NoDup_seqZ|].
      apply Forall_forall. intros u Hu. apply elem_of_seqZ in Hu. lia.
    + unfold UidPool.NewPool in E. repeat case_decide; try done; lia.
  - intros host req protocol iface vmID pm.
    destruct (PortMgr.Allocate_spec pm req protocol iface vmID) as (r & pm' & Ha & Hs);
      [simpl; int_lia|simpl; int_lia|].
    exists r, pm'. split; [done|]. intros -> p ->. inversion Hs; simplify_eq/=. lia.
  - unfold MemoryLimitBytes. rewrite (wrap64_id (MaxGlobalMemoryMB (Resources c) * 1024)) by int_lia. rewrite wrap64_id by int_lia. lia.
Qed.

(** The limit is not bounded by the validation, and beyond that bound it overflows. *)
Lemma memory_limit_overflows cpu : MemoryLimitBytes (mkResourceConfig 1 (2 ^ 43) cpu) < 0.
Proof. by vm_compute. Qed.

(** ** Witnesses *)

Lemma demo_valid : valid (applyDefaults "/root" demo).
Proof. apply Validate_valid. vm_compute. reflexivity. Qed.

Lemma bind_loopback_only_witness : validateDataBind "127.0.0.1:8081" = None ↔ 127 = 127 ∧ 1 ≤ 8081 ≤ 65535.
Proof. refine (bind_loopback_only 127 0 0 1 8081 _ _ _ _ _); unfold is_byte, int64_max; lia. Defined.

Lemma valid_config_boots_witness :
  MemoryLimitBytes (Resources (applyDefaults "/root" demo)) =
    MaxGlobalMemoryMB (Resources (applyDefaults "/root" demo)) * 2 ^ 20.
Proof.
  refine (proj2 (proj2 (valid_config_boots (applyDefaults "/root" demo) demo_valid _ _)));
    vm_compute; congruence.
Defined.

End Config.
