(* ===== verification/Observer.v ===== *)
(** * Reading the host's resources ([observer/observer_linux.go], [internal/system/info.go])

    A file of [/proc] is the list of its lines, as [bufio.Scanner] yields them; a missing
    file is an error.  Reading a slice out of range panics.  The quotient of two [int64]s
    as [float64]s is left as the pair of its operands. *)
From stdpp Require Import options.
From S2P Require Import Prelude GoStrings.
#[local] Open Scope Z_scope.

Module Observer.

(** A read of a file: the lines before the scanner stopped, and its error. *)
Record scan := mkScan { lines : list string; scan_err : option string }.

Inductive error :=
  | ErrOpen (e : string)
  | ErrScan (e : string)
  | ErrFormat (line : string)
  | ErrNoCpu.

Inductive outcome (A : Type) :=
  | Done (a : A)
  | Failed (e : error)
  | Panicked.
#[global] Arguments Done {A} _.
#[global] Arguments Failed {A} _.
#[global] Arguments Panicked {A}.

(** ** /proc/meminfo *)

Record memInfo := mkMemInfo { total : Z; available : Z }.

Definition mem_line (line : string) : option (string * Z) :=
  match Fields line with
  | key :: val :: _ =>
      match ParseInt val with
      | (v, None) => Some (TrimSuffix key ":", wrap64 (v * 1024))
      | (_, Some _) => None
      end
  | _ => None
  end.

(** The loop, with the number of keys found so far.  It stops at two. *)
Fixpoint mem_loop (info : memInfo) (found : nat) (ls : list string) : memInfo :=
  match ls with
  | [] => info
  | line :: ls =>
      if decide (found < 2)%nat then
        match mem_line line with
        | None => mem_loop info found ls
        | Some (key, val) =>
            if decide (key = "MemTotal") then mem_loop (mkMemInfo val (available info)) (S found) ls
            else if decide (key = "MemAvailable") then mem_loop (mkMemInfo (total info) val) (S found) ls
            else mem_loop info found ls
        end
      else info
  end.

Definition readMemInfo (file : result string scan) : result error memInfo :=
  match file with
  | Err e => Err (ErrOpen e)
  | Ok s =>
      let info := mem_loop (mkMemInfo 0 0) 0 (lines s) in
      match scan_err s with Some e => Err (ErrScan e) | None => Ok info end
  end.

(** [getTotalMemoryMB]: the first MemTotal line with a value; 0 without one. *)
Fixpoint total_memory (ls : list string) : result num_error Z :=
  match ls with
  | [] => Ok 0
  | line :: ls =>
      if HasPrefix line "MemTotal:" then
        match Fields line with
        | _ :: val :: _ =>
            match ParseInt val with
            | (v, None) => Ok (Z.quot v 1024)
            | (_, Some e) => Err e
            end
        | _ => total_memory ls
        end
      else total_memory ls
  end.

Definition getTotalMemoryMB (file : result string scan) : result (string + num_error) Z :=
  match file with
  | Err e => Err (inl e)
  | Ok s => match total_memory (lines s) with Ok v => Ok v | Err e => Err (inr e) end
  end.

Record Info := mkInfo { CPUCores : Z; TotalMemoryMB : Z }.

Definition GetInfo (numCPU : Z) (file : result string scan) : result (string + num_error) Info :=
  match getTotalMemoryMB file with Err e => Err e | Ok mb => Ok (mkInfo numCPU mb) end.

(** ** /proc/stat *)

Definition cpu_core_line (line : string) : bool :=
  HasPrefix line "cpu" &&
  match drop_bytes 3 line with String c _ => is_digit c | EmptyString => false end.

Definition readCPUCount (file : result string scan) : result error Z :=
  match file with
  | Err e => Err (ErrOpen e)
  | Ok s =>
      let count := Z.of_nat (length (filter (λ l, cpu_core_line l = true) (lines s))) in
      Ok (if decide (count = 0) then 1 else count)
  end.

Record cpuStat := mkCpuStat {
  user : Z; nice : Z; system : Z; idle : Z; iowait : Z; irq : Z; softirq : Z; steal : Z
}.

(** [(cpuStat).total] and [(cpuStat).idleTotal]: sums that wrap. *)
Definition add64 (a b : Z) : Z := wrap64 (a + b).
Definition cpu_total (s : cpuStat) : Z :=
  add64 (add64 (add64 (add64 (add64 (add64 (add64 (user s) (nice s)) (system s)) (idle s)) (iowait s))
    (irq s)) (softirq s)) (steal s).
Definition idleTotal (s : cpuStat) : Z := add64 (idle s) (iowait s).

Definition parse_field (fields : list string) (i : nat) : option Z := fst ∘ ParseInt <$> fields !! i.

Definition cpu_line (line : string) : outcome cpuStat :=
  let fields := Fields line in
  if decide (length fields < 5)%nat then Failed (ErrFormat line)
  else match parse_field fields 1, parse_field fields 2, parse_field fields 3, parse_field fields 4,
             parse_field fields 5, parse_field fields 6, parse_field fields 7, parse_field fields 8 with
       | Some u, Some n, Some s, Some i, Some io, Some ir, Some so, Some st =>
           Done (mkCpuStat u n s i io ir so st)
       | _, _, _, _, _, _, _, _ => Panicked
       end.

Fixpoint first_cpu (ls : list string) : outcome cpuStat :=
  match ls with
  | [] => Failed ErrNoCpu
  | line :: ls => if HasPrefix line "cpu " then cpu_line line else first_cpu ls
  end.

Definition readCPUStat (file : result string scan) : outcome cpuStat :=
  match file with Err e => Failed (ErrOpen e) | Ok s => first_cpu (lines s) end.

(** A fraction of [float64]s, by its operands. *)
Inductive fraction := Whole | Quotient (num den : Z).

Definition measureCPUIdle (file1 file2 : result string scan) : outcome fraction :=
  match readCPUStat file1 with
  | Failed e => Failed e
  | Panicked => Panicked
  | Done before =>
      match readCPUStat file2 with
      | Failed e => Failed e
      | Panicked => Panicked
      | Done after =>
          let totalDelta := wrap64 (cpu_total after - cpu_total before) in
          let idleDelta := wrap64 (idleTotal after - idleTotal before) in
          if decide (totalDelta ≤ 0) then Done Whole else Done (Quotient idleDelta totalDelta)
      end
  end.

Record NodeStats := mkNodeStats {
  TotalMemoryBytes : Z; AvailableMemoryBytes : Z; CPUIdle : fraction; CPUCount : Z
}.

(** [/proc/stat] is opened three times. *)
Definition pollNodeStats (meminfo stat1 stat2 stat3 : result string scan) : outcome NodeStats :=
  match readMemInfo meminfo with
  | Err e => Failed e
  | Ok mem =>
      match measureCPUIdle stat1 stat2 with
      | Failed e => Failed e
      | Panicked => Panicked
      | Done cpu =>
          match readCPUCount stat3 with
          | Err e => Failed e
          | Ok count => Done (mkNodeStats (total mem) (available mem) cpu count)
          end
      end
  end.

(** ** The text the kernel prints *)

(** At least one space. *)
Fixpoint spaces (n : nat) : string := match n with O => " " | S n => String " " (spaces n) end.

(** A line of [/proc/meminfo], like [MemTotal:       16384000 kB]. *)
Definition mem_text (key : string) (n : nat) (kB : Z) : string :=
  key +:+ ":" +:+ spaces n +:+ Itoa kB +:+ " kB".

(** The first line of [/proc/stat], like [cpu  264230 882 69154 ...]. *)
Definition cpu_text (ticks : list Z) : string := "cpu  " +:+ Join " " (Itoa <$> ticks).

(** A line that is about something else. *)
Definition other_line (line : string) : Prop :=
  HasPrefix line "MemTotal:" = false ∧
  ∀ key val, mem_line line = Some (key, val) → key ≠ "MemTotal" ∧ key ≠ "MemAvailable".

Definition other_line_b (line : string) : bool :=
  negb (HasPrefix line "MemTotal:") &&
  match mem_line line with
  | Some (key, _) => bool_decide (key ≠ "MemTotal" ∧ key ≠ "MemAvailable")
  | None => true
  end.

(** A snapshot of counters that do not overflow, and a later one. *)
Definition counters (s : cpuStat) : list Z :=
  [user s; nice s; system s; idle s; iowait s; irq s; softirq s; steal s].
Definition sane (s : cpuStat) : Prop := Forall (λ x, 0 ≤ x < 2 ^ 59) (counters s).
Definition later (s s' : cpuStat) : Prop := Forall2 Z.le (counters s) (counters s').

(** ** Lemmas *)

Lemma Fields_spaces n s : Fields (spaces n +:+ s) = Fields s.
Proof. induction n as [|n IH]; simpl; by rewrite Fields_space. Qed.

Lemma Fields_mem key n v :
  no_space key = true → 0 ≤ v → Fields (mem_text key n v) = [key +:+ ":"; Itoa v; "kB"].
Proof.
  intros Hk Hv. unfold mem_text.
  replace (key +:+ ":" +:+ spaces n +:+ Itoa v +:+ " kB")
    with ((key +:+ ":") +:+ spaces n +:+ Itoa v +:+ " kB") by by rewrite !string_app_assoc.
  destruct (spaces n) as [|c sp] eqn:E; [by destruct n|].
  assert (c = " "%char) as -> by (destruct n; by simplify_eq/=).
  assert (Fields (sp +:+ Itoa v +:+ " kB") = Fields (Itoa v +:+ " kB")) as Es.
  { rewrite <-(Fields_spaces n (Itoa v +:+ " kB")), E. simpl. by rewrite Fields_space. }
  simpl. rewrite Fields_word; [|by rewrite no_space_app, Hk|by destruct key|done].
  rewrite Es. f_equal. change (Itoa v +:+ " kB") with (Itoa v +:+ String " " "kB").
  rewrite Fields_word; [done|by apply Itoa_no_space|by apply Itoa_not_empty|done].
Qed.

Lemma mem_line_text key n v :
  no_space key = true → 0 ≤ v < 2 ^ 53 → mem_line (mem_text key n v) = Some (TrimSuffix (key +:+ ":") ":", v * 1024).
Proof.
  intros Hk Hv. unfold mem_line. rewrite Fields_mem by (done || lia).
  rewrite ParseInt_Itoa by int_lia. by rewrite wrap64_id by int_lia.
Qed.

Lemma mem_loop_other info found pre ls :
  (found < 2)%nat → Forall other_line pre → mem_loop info found (pre ++ ls) = mem_loop info found ls.
Proof.
  intros Hf. induction 1 as [|l pre [_ Hl] _ IH]; [done|]. simpl. rewrite decide_True by done.
  destruct (mem_line l) as [[key val]|]; [|done]. destruct (Hl key val eq_refl).
  by rewrite !decide_False.
Qed.

Lemma total_memory_other pre ls : Forall other_line pre → total_memory (pre ++ ls) = total_memory ls.
Proof. induction 1 as [|l pre [Hl _] _ IH]; [done|]. simpl. by rewrite Hl. Qed.

Lemma other_line_dec line : other_line_b line = true → other_line line.
Proof.
  unfold other_line_b. intros [Hp Hm]%andb_true_iff. split; [by apply negb_true_iff|].
  intros key val E. rewrite E in Hm. by apply bool_decide_eq_true in Hm.
Qed.

Lemma Fields_cpu ticks :
  Forall (λ x, 0 ≤ x ≤ int64_max) ticks → Fields (cpu_text ticks) = "cpu" :: (Itoa <$> ticks).
Proof.
  intros Ht. change (cpu_text ticks) with ("cpu" +:+ String " " (String " " (Join " " (Itoa <$> ticks)))).
  rewrite Fields_word by done. rewrite Fields_space by done. f_equal. apply Fields_Join.
  apply Forall_fmap. eapply Forall_impl; [exact Ht|]. intros x Hx.
  simpl in Hx. split; [apply Itoa_no_space|apply Itoa_not_empty]; lia.
Qed.

Lemma parse_ticks ticks i :
  Forall (λ x, 0 ≤ x ≤ int64_max) ticks → parse_field ("cpu" :: (Itoa <$> ticks)) (S i) = ticks !! i.
Proof.
  intros Ht. unfold parse_field. simpl. rewrite list_lookup_fmap.
  destruct (ticks !! i) as [x|] eqn:E; [|done]. simpl. rewrite ParseInt_Itoa; [done|].
  by apply (Forall_lookup_1 _ _ _ _ Ht E).
Qed.

Lemma add64_id a b : in_int64 (a + b) → add64 a b = a + b.
Proof. apply wrap64_id. Qed.

Lemma sane_total s :
  sane s → cpu_total s = user s + nice s + system s + idle s + iowait s + irq s + softirq s + steal s ∧
  idleTotal s = idle s + iowait s.
Proof.
  unfold sane, counters. rewrite !Forall_cons. intros Hs. destruct_and!.
  assert (2 ^ 59 = 576460752303423488) as E by done. rewrite E in *.
  unfold cpu_total, idleTotal. rewrite (add64_id (user s)) by int_lia.
  do 6 (rewrite (add64_id (_ + _)) by int_lia). split; [lia|]. apply add64_id. int_lia.
Qed.

(** ** Properties *)

(** From the text that the kernel prints, with whatever other lines before and
    between, the memory readers find the two values: in bytes for the node statistics, in
    MB for the system information; a kernel without MemAvailable counts as having none. *)
Theorem mem_info_exact pre mid post nt na t a :
  Forall other_line pre → Forall other_line mid → 0 ≤ t < 2 ^ 53 → 0 ≤ a < 2 ^ 53 →
  let total_line := mem_text "MemTotal" nt t in
  let file := pre ++ total_line :: mid ++ mem_text "MemAvailable" na a :: post in
  readMemInfo (Ok (mkScan file None)) = Ok (mkMemInfo (t * 1024) (a * 1024)) ∧
  readMemInfo (Ok (mkScan (pre ++ total_line :: mid) None)) = Ok (mkMemInfo (t * 1024) 0) ∧
  getTotalMemoryMB (Ok (mkScan file None)) = Ok (t `div` 1024).
Proof.
  intros Hpre Hmid Ht Ha. cbv zeta. unfold readMemInfo, getTotalMemoryMB. cbn [lines scan_err]. split_and!.
  - rewrite mem_loop_other by (done || lia). cbn [mem_loop]. rewrite mem_line_text by done.
    simpl. rewrite mem_loop_other by (done || lia). cbn [mem_loop]. rewrite mem_line_text by done. simpl.
    by destruct post.
  - rewrite mem_loop_other by (done || lia). cbn [mem_loop]. rewrite mem_line_text by done.
    simpl. rewrite <-(app_nil_r mid). by rewrite mem_loop_other by (done || lia).
  - rewrite total_memory_other by done. cbn [total_memory]. rewrite Fields_mem by (done || lia).
    rewrite ParseInt_Itoa by int_lia. simpl.
    rewrite HasPrefix_nil. by rewrite Z.quot_div_nonneg by lia.
Qed.

(** The first line of [/proc/stat] decides by its number of counters: with eight or
    more the eight that count are read in order, with fewer than four it is an error, and
    with four to seven, as kernels before 2.6.11 print, the reader passes its length check
    and panics. *)
Theorem cpu_stat_fields ticks rest :
  Forall (λ x, 0 ≤ x ≤ int64_max) ticks →
  readCPUStat (Ok (mkScan (cpu_text ticks :: rest) None)) =
    match ticks with
    | u :: n :: s :: i :: io :: ir :: so :: st :: _ => Done (mkCpuStat u n s i io ir so st)
    | _ :: _ :: _ :: _ :: _ => Panicked
    | _ => Failed (ErrFormat (cpu_text ticks))
    end.
Proof.
  intros Ht. unfold readCPUStat. cbn [lines first_cpu].
  replace (HasPrefix (cpu_text ticks) "cpu ") with true by done.
  unfold cpu_line. cbv zeta. rewrite Fields_cpu by done. rewrite !parse_ticks by done.
  cbn [length]. rewrite length_fmap.
  destruct ticks as [|t1 [|t2 [|t3 [|t4 [|t5 [|t6 [|t7 [|t8 ticks]]]]]]]]; done.
Qed.

(** [C40] Between two snapshots whose counters do not go back, and are between 0 and
    2^59, the idle share is a fraction between 0 and 1: the idle and iowait ticks over all
    ticks; and it is taken as 1 when no tick passed. *)
Theorem idle_fraction file1 file2 s1 s2 :
  readCPUStat file1 = Done s1 → readCPUStat file2 = Done s2 → sane s1 → sane s2 → later s1 s2 →
  let all := foldr Z.add 0 (zip_with Z.sub (counters s2) (counters s1)) in
  let idle_ticks := (idle s2 - idle s1) + (iowait s2 - iowait s1) in
  (all = 0 ∧ measureCPUIdle file1 file2 = Done Whole) ∨
  (0 ≤ idle_ticks ≤ all ∧ 0 < all ∧ measureCPUIdle file1 file2 = Done (Quotient idle_ticks all)).
Proof.
  intros E1 E2 H1 H2 Hl. cbv zeta. unfold measureCPUIdle. rewrite E1, E2. cbv zeta.
  destruct (sane_total s1 H1) as [-> ->]. destruct (sane_total s2 H2) as [-> ->].
  unfold sane, later, counters in *. rewrite !Forall_cons in H1, H2. rewrite !Forall2_cons in Hl.
  destruct_and!. cbn [zip_with foldr].
  rewrite !wrap64_id by int_lia. case_decide.
  - left. split; [lia|done].
  - right. split_and!; [lia..|]. f_equal. f_equal; lia.
Qed.

(** ** Witnesses *)

Definition demo_meminfo : list string :=
  ["MemTotal:       16384000 kB"; "MemFree:         1000000 kB"; "MemAvailable:    8000000 kB"; "Cached: 1 kB"].

Lemma mem_info_exact_witness :
  readMemInfo (Ok (mkScan demo_meminfo None)) = Ok (mkMemInfo (16384000 * 1024) (8000000 * 1024)) ∧
  readMemInfo (Ok (mkScan (take 2 demo_meminfo) None)) = Ok (mkMemInfo (16384000 * 1024) 0) ∧
  getTotalMemoryMB (Ok (mkScan demo_meminfo None)) = Ok (16384000 `div` 1024).
Proof.
  refine (mem_info_exact [] ["MemFree:         1000000 kB"] ["Cached: 1 kB"] 6 3 16384000 8000000 _ _ _ _);
    [done| |lia|lia].
  constructor; [|done]. apply other_line_dec. vm_compute. reflexivity.
Defined.

Lemma cpu_stat_fields_witness :
  readCPUStat (Ok (mkScan ["cpu  264230 882 69154 1490779 3965 0 3080"; "cpu0 1 2 3"] None)) = Panicked.
Proof.
  refine (cpu_stat_fields [264230; 882; 69154; 1490779; 3965; 0; 3080] ["cpu0 1 2 3"] _).
  repeat constructor; vm_compute; congruence.
Defined.

Lemma idle_fraction_witness :
  measureCPUIdle (Ok (mkScan ["cpu  10 0 5 80 5 0 0 0"] None))
    (Ok (mkScan ["cpu  20 0 5 160 10 0 0 5 0 0"] None)) = Done (Quotient 85 100).
Proof.
  destruct (idle_fraction (Ok (mkScan ["cpu  10 0 5 80 5 0 0 0"] None))
    (Ok (mkScan ["cpu  20 0 5 160 10 0 0 5 0 0"] None))
    (mkCpuStat 10 0 5 80 5 0 0 0) (mkCpuStat 20 0 5 160 10 0 0 5)) as [[E _]|(_ & _ & E)];
    [vm_compute; reflexivity|vm_compute; reflexivity|..].
  - repeat constructor; vm_compute; congruence.
  - repeat constructor; vm_compute; congruence.
  - repeat constructor; vm_compute; congruence.
  - vm_compute in E. congruence.
  - exact E.
Defined.

End Observer.
