(* ===== verification/Service.v ===== *)
(** * The pool as its clients see it

    The proxy and the daemon use the pool one call at a time: [SessionPool] is the part of
    [pool.go] they call, [PoolLaws] what each call does to the sessions, and [MapPool] a
    pool that meets the laws.  A worker is what its methods answer; [None] means that it
    does not implement the optional interface. *)
From stdpp Require Import options.
From S2P Require Import Prelude Registry Lifecycle.
#[local] Open Scope Z_scope.

Record WorkerView := mkWorkerView {
  v_id : string;
  v_address : string;
  v_mappings : option (list PortMapping);
  v_guestIP : option string;
  v_vsock : option string
}.

Class SessionPool (P : Type) := {
  pool_reaper :: WorkerReaper P;
  AcquireSession : P → string → TenantConfig → P * result string WorkerView;
  LookupSession : P → string → result string (option WorkerView);
  WarmPoolImage : P → string → P * option string;
  live : P → gmap string WorkerView
}.

Class PoolLaws (P : Type) `{SessionPool P} := {
  acquire_law p id cfg :
    match AcquireSession p id cfg with
    | (p', Ok v) =>
        (live p !! id = Some v ∧ live p' = live p) ∨ (live p !! id = None ∧ live p' = <[id := v]> (live p))
    | (p', Err _) => live p' = live p
    end;
  lookup_law p id v : LookupSession p id = Ok v → v = live p !! id;
  warm_law p image : live (WarmPoolImage p image).1 = live p;
  kill_law p id reason :
    match KillWorker p id reason with
    | (p', None) => live p' = delete id (live p)
    | (p', Some _) => live p' = live p ∨ live p' = delete id (live p)
    end
}.

(** A pool that spawns nothing but [template], with failing images and sessions that
    cannot be killed. *)
Record MapPool := mkMapPool {
  mp_live : gmap string WorkerView;
  mp_bad_images : gset string;
  mp_stuck : gset string
}.

Definition template (id : string) (pms : list PortMapping) : WorkerView :=
  mkWorkerView id "http://10.200.0.2:80" (Some pms) (Some "10.200.0.2") (Some "/run/v.sock").

#[export] Instance map_pool : SessionPool MapPool := {|
  pool_reaper := {| KillWorker p id _ :=
    if decide (id ∈ mp_stuck p) then (p, Some "registry lookup failed")
    else (mkMapPool (delete id (mp_live p)) (mp_bad_images p) (mp_stuck p), None) |};
  AcquireSession p id cfg :=
    match mp_live p !! id with
    | Some v => (p, Ok v)
    | None =>
        if decide (Image cfg ∈ mp_bad_images p) then (p, Err "spawn failed")
        else let v := template id (PortMappings cfg) in
             (mkMapPool (<[id := v]> (mp_live p)) (mp_bad_images p) (mp_stuck p), Ok v)
    end;
  LookupSession p id := Ok (mp_live p !! id);
  WarmPoolImage p image := (p, if decide (image ∈ mp_bad_images p) then Some "pull failed" else None);
  live := mp_live
|}.

#[export] Instance map_pool_laws : PoolLaws MapPool.
Proof.
  split; simpl.
  - intros p id cfg. destruct (mp_live p !! id) eqn:E; [by left|]. case_decide; [done|]. by right.
  - intros p id v [=]. done.
  - done.
  - intros p id reason. case_decide; [by left|done].
Qed.
