(* ===== verification/Proxy.v ===== *)
(** * The data-plane proxy ([proxy/proxy.go], [internal/daemon/runtime.go])

    A request is its session ID; the lifecycle manager holds the pool as its reaper.  The
    upstream round trip and [url.Parse] are answered by [Env]; the reply is a status the
    proxy makes up itself, or what the worker answered. *)
From stdpp Require Import options.
From S2P Require Import Prelude Registry Lifecycle Service.
#[local] Open Scope Z_scope.

Module Proxy.

Inductive reply :=
  | Error (status : Z) (body : string)
  | Forwarded (response : string).

Record Env := mkEnv {
  ParseURL : string → result string string;
  RoundTrip : string → result string string
}.

Record ReverseProxy := mkReverseProxy { has_manager : bool; LookupOnly : bool }.

Definition NewReverseProxy : ReverseProxy := mkReverseProxy false false.
Definition WithLifecycleManager (rp : ReverseProxy) : ReverseProxy := mkReverseProxy true (LookupOnly rp).
Definition WithLookupOnly (rp : ReverseProxy) : ReverseProxy := mkReverseProxy (has_manager rp) true.

(** [TenantConfig{}]. *)
Definition no_config : TenantConfig := mkTenantConfig "" [] ∅ 0 0 "" 0 0 [].

Section proxy.
Context {P : Type} `{SessionPool P}.
Notation Manager := (Lifecycle.Manager (K := P)).

Definition set_pool (p : P) (m : Manager) : Manager :=
  Lifecycle.mkManager (Lifecycle.registry m) p (Lifecycle.heap m) (Lifecycle.next_ptr m).

Definition forward (env : Env) (v : WorkerView) : reply :=
  match ParseURL env (v_address v) with
  | Err _ => Error 500 "bad worker address"
  | Ok target =>
      match RoundTrip env target with
      | Ok response => Forwarded response
      | Err _ => Error 502 "upstream error"
      end
  end.

(** Between the request's begin and its end. *)
Definition route (env : Env) (rp : ReverseProxy) (m : Manager) (sessionID : string) : Manager * reply :=
  if LookupOnly rp then
    match LookupSession (Lifecycle.reaper m) sessionID with
    | Err _ => (m, Error 500 "could not lookup worker")
    | Ok None => (m, Error 404 "session not found")
    | Ok (Some v) => (m, forward env v)
    end
  else
    match AcquireSession (Lifecycle.reaper m) sessionID no_config with
    | (p, Err _) => (set_pool p m, Error 503 "could not acquire worker")
    | (p, Ok v) => (set_pool p m, forward env v)
    end.

(** The two locked calls around the request. *)
Definition enter (rp : ReverseProxy) (m : Manager) (sessionID : string) : Manager :=
  if has_manager rp then Lifecycle.BeginRequest m sessionID else m.

Definition leave (rp : ReverseProxy) (m : Manager) (now : Z) (sessionID : string) (deadline : bool) : Manager :=
  if has_manager rp then Lifecycle.EndRequest m now sessionID deadline else m.

(** [meanwhile] is what the rest of the daemon does to the manager while the request is with
    its worker; [now] and [deadline] are the time and the context's error at the end. *)
Definition ServeHTTP (env : Env) (rp : ReverseProxy) (m : Manager) (now : Z) (sessionID : string)
    (deadline : bool) (meanwhile : Manager → Manager) : Manager * reply :=
  if decide (sessionID = "") then (m, Error 400 "missing session ID") else
  let '(m, r) := route env rp (enter rp m sessionID) sessionID in
  (leave rp (meanwhile m) now sessionID deadline, r).

(** A request while nothing else happens. *)
Definition alone : Manager → Manager := λ m, m.

End proxy.

(** The data plane's handler: lookups only, with the daemon's manager. *)
Definition NewDataPlaneHandler : ReverseProxy := WithLookupOnly (WithLifecycleManager NewReverseProxy).

(** ** Lemmas *)

Section lemmas.
Context {P : Type} `{PoolLaws P}.
#[local] Set Default Proof Using "Type*".
Implicit Types m : Lifecycle.Manager (K := P).



Lemma begin_frame m id :
  Lifecycle.registry (Lifecycle.BeginRequest m id) = Lifecycle.registry m ∧
  Lifecycle.reaper (Lifecycle.BeginRequest m id) = Lifecycle.reaper m ∧
  Lifecycle.heap (Lifecycle.BeginRequest m id) =
    match Lifecycle.registry m !! id with
    | Some ptr => alter Lifecycle.begin_conn ptr (Lifecycle.heap m)
    | None => Lifecycle.heap m
    end.
Proof. unfold Lifecycle.BeginRequest. by destruct (Lifecycle.registry m !! id). Qed.

(** With lookups only the pool is not touched. *)
Lemma route_lookup env rp m id : LookupOnly rp = true → (route env rp m id).1 = m.
Proof. unfold route. intros ->. by destruct (LookupSession _ id) as [[v|]|]. Qed.

Lemma route_data env m id v :
  LookupSession (Lifecycle.reaper m) id = Ok v →
  (route env NewDataPlaneHandler m id).2 =
    match live (Lifecycle.reaper m) !! id with
    | Some w => forward env w
    | None => Error 404 "session not found"
    end.
Proof. unfold route. simpl. intros E. rewrite E. apply lookup_law in E. rewrite <-E. by destruct v. Qed.

Lemma serve_eq env m now id deadline meanwhile :
  id ≠ "" →
  ServeHTTP env NewDataPlaneHandler m now id deadline meanwhile =
    (Lifecycle.EndRequest (meanwhile (Lifecycle.BeginRequest m id)) now id deadline,
     (route env NewDataPlaneHandler (Lifecycle.BeginRequest m id) id).2).
Proof.
  intros Hid. unfold ServeHTTP, enter, leave. rewrite decide_False by done. simpl.
  pose proof (route_lookup env NewDataPlaneHandler (Lifecycle.BeginRequest m id) id eq_refl) as E.
  destruct (route _ _ _ _) as [m1 r]. simpl in E. by subst.
Qed.

(** ** Properties *)

(** What a client of the data plane gets, whatever else the daemon does meanwhile: 400
    without a session ID, 404 for a session that has no worker when it is looked up, and
    otherwise the worker's own answer, or 502 when it cannot be reached; never another
    session's worker. *)
Theorem proxy_replies env m now id deadline meanwhile v :
  LookupSession (Lifecycle.reaper m) id = Ok v →
  (ServeHTTP env NewDataPlaneHandler m now id deadline meanwhile).2 =
    if decide (id = "") then Error 400 "missing session ID"
    else match live (Lifecycle.reaper m) !! id with
         | Some w => forward env w
         | None => Error 404 "session not found"
         end.
Proof.
  intros Hv. destruct (begin_frame m id) as (_ & Er & _). case_decide as Hid.
  - unfold ServeHTTP. by rewrite decide_True.
  - rewrite serve_eq by done. simpl. rewrite (route_data env _ id v); by rewrite Er.
Qed.


End lemmas.

(** ** Witnesses *)

Definition demo_env : Env :=
  mkEnv (λ a, Ok a) (λ t, if decide (t = "http://10.200.0.2:80") then Ok "hello" else Err "refused").

(** One session, leased for an hour. *)
Definition demo : Lifecycle.Manager (K := MapPool) :=
  Lifecycle.Register (Lifecycle.NewManager (mkMapPool {["a" := template "a" []]} ∅ ∅)) 0 "a"
    (Lifecycle.demo_config 0 3600) [].

Lemma proxy_replies_witness : (ServeHTTP demo_env NewDataPlaneHandler demo 7 "a" false alone).2 = Forwarded "hello".
Proof. exact (proxy_replies demo_env demo 7 "a" false alone (Some (template "a" [])) eq_refl). Defined.


End Proxy.
