(* ===== verification/Daemon.v ===== *)
(** * The daemon's control plane ([internal/daemon])

    The controller holds the lifecycle manager, whose reaper is the pool, and the
    counters.  A handler takes the request after routing and JSON decoding and gives the
    new state and the reply; [Env] answers for the time, fresh UUIDs, log files, the
    hijacked connection and the vsock. *)
From stdpp Require Import options.
From S2P Require Import Prelude GoStrings Registry Lifecycle Service Proxy.
#[local] Open Scope Z_scope.

Module Daemon.

(** ** telemetry.go, runtime_policy.go and the socket of runtime.go *)

Record Counters := mkCounters {
  AcquireRequests : Z; AcquireFailures : Z; SessionsStarted : Z; SessionsKilled : Z; SessionsDraining : Z
}.

Definition addUint64 (a d : Z) : Z := (a + d) `mod` 2 ^ 64.

Definition RecordAcquireRequest (c : Counters) : Counters :=
  mkCounters (addUint64 (AcquireRequests c) 1) (AcquireFailures c) (SessionsStarted c) (SessionsKilled c)
    (SessionsDraining c).
Definition RecordAcquireFailure (c : Counters) : Counters :=
  mkCounters (AcquireRequests c) (addUint64 (AcquireFailures c) 1) (SessionsStarted c) (SessionsKilled c)
    (SessionsDraining c).
Definition RecordSessionStarted (c : Counters) : Counters :=
  mkCounters (AcquireRequests c) (AcquireFailures c) (addUint64 (SessionsStarted c) 1) (SessionsKilled c)
    (SessionsDraining c).
Definition RecordSessionKilled (c : Counters) : Counters :=
  mkCounters (AcquireRequests c) (AcquireFailures c) (SessionsStarted c) (addUint64 (SessionsKilled c) 1)
    (SessionsDraining c).

(** The gauge of sessions in their grace period. *)
Definition RecordSessionDraining (c : Counters) : Counters :=
  mkCounters (AcquireRequests c) (AcquireFailures c) (SessionsStarted c) (SessionsKilled c)
    (wrap64 (SessionsDraining c + 1)).
Definition RecordSessionResumed (c : Counters) : Counters :=
  mkCounters (AcquireRequests c) (AcquireFailures c) (SessionsStarted c) (SessionsKilled c)
    (wrap64 (SessionsDraining c - 1)).

(** The lines of [MetricsHandler] that are not comments: a name and a value. *)
Definition metrics (total active inflight : Z) (c : Counters) : list (string * Z) :=
  [("herd_total_workers", total); ("herd_active_sessions", active);
   ("herd_sessions_draining", SessionsDraining c); ("herd_inflight_acquires", inflight);
   ("herd_acquire_requests_total", AcquireRequests c);
   ("herd_acquire_failures_total", AcquireFailures c);
   ("herd_sessions_started_total", SessionsStarted c);
   ("herd_sessions_killed_total", SessionsKilled c)].

Definition EnforceRuntimePolicy (goos : string) : result string unit :=
  if decide (goos = "linux") then Ok tt
  else if decide (goos = "darwin") then Ok tt
  else Err "unsupported platform".

(** What [os.Remove] answers: nothing, that there is no such file, or another error. *)
Inductive remove_result := Removed | NotExist | RemoveError (e : string).

Definition RemoveUnixSocket (r : remove_result) : option string :=
  match r with Removed | NotExist => None | RemoveError e => Some e end.

(** The listener, or the error; a listener whose file cannot be protected is closed. *)
Definition ListenUnixSocket (remove : remove_result) (listen chmod : option string) : result string unit :=
  match RemoveUnixSocket remove with
  | Some _ => Err "remove stale socket"
  | None =>
      match listen with
      | Some _ => Err "listen on unix socket"
      | None => match chmod with Some _ => Err "chmod socket" | None => Ok tt end
      end
  end.

(** ** controller.go *)

Record SessionCreateRequest := mkRequest {
  SessionID : string;
  rq_Image : string;
  rq_Command : list string;
  rq_Env : gmap string string;
  rq_IdleTimeoutSeconds : Z;
  rq_TTLSeconds : Z;
  rq_HealthInterval : string;
  Warm : bool;
  rq_VCPUs : Z;
  rq_MemoryMB : Z;
  rq_PortMappings : list PortMapping
}.

Record SessionCreateResponse := mkResponse {
  rs_SessionID : string;
  InternalIP : string;
  ProxyAddress : string;
  rs_PortMappings : list PortMapping
}.

Definition tenantConfig (req : SessionCreateRequest) : TenantConfig :=
  mkTenantConfig (rq_Image req) (rq_Command req) (rq_Env req) (rq_IdleTimeoutSeconds req)
    (rq_TTLSeconds req) (rq_HealthInterval req) (rq_VCPUs req) (rq_MemoryMB req) (rq_PortMappings req).

Record Env := mkEnv {
  now : Z;
  uuid : string;
  proxyAddress : string;
  OpenFile : string → result string string;
  CanHijack : bool;
  Hijack : option string;                     (* its error *)
  WriteUpgrade : option string;
  DialVsock : string → Z → option string
}.

Section controller.
Context {P : Type} `{SessionPool P}.

Record Controller := mkController {
  lifecycleManager : Lifecycle.Manager (K := P);
  counters : Counters
}.

Definition pool (c : Controller) : P := Lifecycle.reaper (lifecycleManager c).
Definition set_manager (m : Lifecycle.Manager (K := P)) (c : Controller) : Controller :=
  mkController m (counters c).
Definition count (f : Counters → Counters) (c : Controller) : Controller :=
  mkController (lifecycleManager c) (f (counters c)).
Definition on_pool (p : P) (c : Controller) : Controller :=
  set_manager (Proxy.set_pool p (lifecycleManager c)) c.

(** The reservation of a session and its registration. *)
Definition acquire_and_register (env : Env) (c : Controller) (sessionID : string)
    (req : SessionCreateRequest) : Controller * result string SessionCreateResponse :=
  match AcquireSession (pool c) sessionID (tenantConfig req) with
  | (p, Err _) => (count RecordAcquireFailure (on_pool p c), Err "failed to acquire session")
  | (p, Ok w) =>
      let c := on_pool p c in
      let mappings := default [] (v_mappings w) in
      let c := set_manager (Lifecycle.Register (lifecycleManager c) (now env) sessionID
                 (tenantConfig req) mappings) c in
      let c := count RecordSessionStarted c in
      (c, Ok {| rs_SessionID := sessionID; InternalIP := default "" (v_guestIP w);
                ProxyAddress := proxyAddress env;
                rs_PortMappings := default (rq_PortMappings req) (v_mappings w) |})
  end.

Definition CreateSession (env : Env) (c : Controller) (req : SessionCreateRequest)
    : Controller * result string SessionCreateResponse :=
  let c := count RecordAcquireRequest c in
  let '(p, warm_err) :=
    if Warm req then WarmPoolImage (pool c) (rq_Image req) else (pool c, None) in
  let c := on_pool p c in
  match warm_err with
  | Some _ => (c, Err "failed to warm image")
  | None =>
      let sessionID := if decide (SessionID req = "") then uuid env else SessionID req in
      acquire_and_register env c sessionID req
  end.

Definition DeleteSession (c : Controller) (sessionID reason : string) : Controller * option string :=
  let '(m, err) := Lifecycle.UnregisterAndKill (lifecycleManager c) sessionID reason in
  let c := set_manager m c in
  match err with
  | Some e => (c, Some e)
  | None => (count RecordSessionKilled c, None)
  end.

Definition ListSessions (c : Controller) (order : list (string * nat)) : list Lifecycle.SessionState :=
  Lifecycle.ListSessions (lifecycleManager c) order.

Definition UpdateHeartbeat (env : Env) (c : Controller) (sessionID : string) : Controller :=
  set_manager (Lifecycle.UpdateHeartbeat (lifecycleManager c) (now env) sessionID) c.

Definition GetLogs (env : Env) (c : Controller) (sessionID : string) : result string string :=
  match LookupSession (pool c) sessionID with
  | Err _ | Ok None => Err "session not found"
  | Ok (Some w) =>
      match OpenFile env ("/tmp/" +:+ v_id w +:+ ".log") with
      | Err _ => Err "logs not available"
      | Ok f => Ok f
      end
  end.

Definition WarmImage (c : Controller) (image : string) : Controller * option string :=
  let '(p, err) := WarmPoolImage (pool c) image in (on_pool p c, err).

(** ** api.go *)

(** A decoded body, or the decoder's error; [None] is a request without a body. *)
Inductive request :=
  | HealthCheck
  | Create (body : option (result string SessionCreateRequest))
  | List_ (order : list (string * nat)) (encodes : bool)
  | Delete (id : string)
  | Logs (id : string)
  | Exec (id : string)
  | Heartbeat (id : string)
  | WarmUp (body : result string string).

Inductive reply :=
  | Plain (status : Z) (body : string)
  | Created (resp : SessionCreateResponse)
  | Listed (sessions : list Lifecycle.SessionState)
  | LogFile (content : string)
  | Closed                                    (* hijacked, and closed without an upgrade *)
  | DialFailed (e : string)                   (* upgraded, and told so *)
  | Relayed (socketPath : string) (port : Z). (* upgraded, and copied both ways *)

(** [http.StatusOK] and the like, of a reply. *)
Definition status (r : reply) : Z :=
  match r with
  | Plain s _ => s
  | Created _ | Listed _ | LogFile _ => 200
  | Closed => 0
  | DialFailed _ | Relayed _ _ => 101
  end.

Definition socket_path (w : WorkerView) : option string :=
  match v_vsock w with
  | Some path => Some path
  | None =>
      if HasPrefix (v_address w) "unix://" then Some (TrimPrefix (v_address w) "unix://") else None
  end.

Definition handleExecSession (env : Env) (c : Controller) (id : string) : reply :=
  if decide (id = "") then Plain 400 "invalid session id" else
  match LookupSession (pool c) id with
  | Err _ | Ok None => Plain 404 "session not found"
  | Ok (Some w) =>
      match socket_path w with
      | None => Plain 400 "worker does not support local vsock exec"
      | Some socketPath =>
          if decide (socketPath = "") then Plain 400 "worker vsock path unavailable" else
          if negb (CanHijack env) then Plain 500 "webserver doesn't support hijacking" else
          match Hijack env with
          | Some e => Plain 500 e
          | None =>
              match WriteUpgrade env with
              | Some _ => Closed
              | None =>
                  match DialVsock env socketPath 5001 with
                  | Some e => DialFailed e
                  | None => Relayed socketPath 5001
                  end
              end
          end
      end
  end.

Definition handleCreateSession (env : Env) (c : Controller)
    (body : option (result string SessionCreateRequest)) : Controller * reply :=
  match body with
  | None => (c, Plain 400 "missing request body")
  | Some (Err _) => (c, Plain 400 "invalid json body")
  | Some (Ok req) =>
      if decide (rq_Image req = "") then (c, Plain 400 "missing image field") else
      match CreateSession env c req with
      | (c, Err e) => (c, Plain 500 e)
      | (c, Ok resp) => (c, Created resp)
      end
  end.

Definition handle (env : Env) (c : Controller) (r : request) : Controller * reply :=
  match r with
  | HealthCheck => (c, Plain 200 "OK")
  | Create body => handleCreateSession env c body
  | List_ order encodes =>
      (c, if encodes : bool then Listed (ListSessions c order) else Plain 500 "internal error")
  | Delete id =>
      if decide (id = "") then (c, Plain 400 "invalid session id") else
      match DeleteSession c id "api_requested" with
      | (c, Some e) => (c, Plain 500 e)
      | (c, None) => (c, Plain 200 "")
      end
  | Logs id =>
      if decide (id = "") then (c, Plain 400 "invalid session id") else
      match GetLogs env c id with
      | Err e => (c, Plain 404 e)
      | Ok content => (c, LogFile content)
      end
  | Exec id => (c, handleExecSession env c id)
  | Heartbeat id =>
      if decide (id = "") then (c, Plain 400 "invalid session id")
      else (UpdateHeartbeat env c id, Plain 200 "")
  | WarmUp (Err _) => (c, Plain 400 "invalid json")
  | WarmUp (Ok image) =>
      if decide (image = "") then (c, Plain 400 "image required") else
      match WarmImage c image with
      | (c, Some e) => (c, Plain 500 e)
      | (c, None) => (c, Plain 200 "")
      end
  end.

(** ** Histories: control plane, data plane and reaper, in any order

    A proxied request takes two steps, and anything may happen between them, further
    requests included: the calls with which [Proxy.ServeHTTP] begins and ends. *)

Inductive step : Controller → Controller → Prop :=
  | step_request env c r c' reply : handle env c r = (c', reply) → step c c'
  | step_proxy_begin c id :
      id ≠ "" → step c (set_manager (Proxy.enter Proxy.NewDataPlaneHandler (lifecycleManager c) id) c)
  | step_proxy_end c t id deadline :
      id ≠ "" → step c (set_manager (Proxy.leave Proxy.NewDataPlaneHandler (lifecycleManager c) t id deadline) c)
  | step_sweep c t order :
      order ≡ₚ map_to_list (Lifecycle.registry (lifecycleManager c)) →
      step c (set_manager (Lifecycle.sweep (lifecycleManager c) t order) c).

Definition start (p : P) : Controller :=
  mkController (Lifecycle.NewManager p) (mkCounters 0 0 0 0 0).

(** The sessions with a lease are those with a worker. *)
Definition matched (m : Lifecycle.Manager (K := P)) : Prop :=
  dom (Lifecycle.registry m) = dom (live (Lifecycle.reaper m)).

End controller.

(** ** Lemmas *)

Section lemmas.
Context {P : Type} `{PoolLaws P}.
#[local] Set Default Proof Using "Type*".
Implicit Types (m : Lifecycle.Manager (K := P)) (c : Controller (P := P)).

Lemma matched_same m m' :
  Lifecycle.registry m' = Lifecycle.registry m → live (Lifecycle.reaper m') = live (Lifecycle.reaper m) →
  matched m → matched m'.
Proof. unfold matched. by intros -> ->. Qed.

Lemma heartbeat_matched m t id : matched m → matched (Lifecycle.UpdateHeartbeat m t id).
Proof. apply matched_same; unfold Lifecycle.UpdateHeartbeat; by destruct (Lifecycle.registry m !! id). Qed.

Lemma begin_matched m id : matched m → matched (Lifecycle.BeginRequest m id).
Proof. apply matched_same; unfold Lifecycle.BeginRequest; by destruct (Lifecycle.registry m !! id). Qed.

(** What a creation does, by the outcome of the acquisition. *)
Lemma create_cases env c req c' r :
  CreateSession env c req = (c', r) →
  let id := if decide (SessionID req = "") then uuid env else SessionID req in
  match r with
  | Err _ => Lifecycle.registry (lifecycleManager c') = Lifecycle.registry (lifecycleManager c) ∧
             Lifecycle.heap (lifecycleManager c') = Lifecycle.heap (lifecycleManager c) ∧
             live (pool c') = live (pool c)
  | Ok resp => ∃ w, live (pool c') !! id = Some w ∧
      ((live (pool c) !! id = Some w ∧ live (pool c') = live (pool c)) ∨
       (live (pool c) !! id = None ∧ live (pool c') = <[id := w]> (live (pool c)))) ∧
      Lifecycle.registry (lifecycleManager c') =
        <[id := Lifecycle.next_ptr (lifecycleManager c)]> (Lifecycle.registry (lifecycleManager c)) ∧
      lifecycleManager c' = Lifecycle.Register (Proxy.set_pool (pool c') (lifecycleManager c)) (now env) id
        (tenantConfig req) (default [] (v_mappings w)) ∧
      resp = {| rs_SessionID := id; InternalIP := default "" (v_guestIP w); ProxyAddress := proxyAddress env;
                rs_PortMappings := default (rq_PortMappings req) (v_mappings w) |} ∧
      SessionsStarted (counters c') = addUint64 (SessionsStarted (counters c)) 1
  end.
Proof.
  unfold CreateSession. cbv zeta. set (id := if decide _ then _ else _).
  assert (∃ p e, (if Warm req then WarmPoolImage (pool (count RecordAcquireRequest c)) (rq_Image req)
    else (pool (count RecordAcquireRequest c), None)) = (p, e) ∧ live p = live (pool c)) as (p & e & -> & Hp).
  { pose proof (warm_law (pool c) (rq_Image req)) as Hw. destruct (Warm req); [|by eexists _, _].
    change (pool (count _ c)) with (pool c). destruct (WarmPoolImage _ _) as [p e]. by exists p, e. }
  destruct e as [e|]; [intros; by simplify_eq/=|].
  unfold acquire_and_register. pose proof (acquire_law p id (tenantConfig req)) as Ha.
  change (pool (on_pool p _)) with p. destruct (AcquireSession p id (tenantConfig req)) as [p' [w|e]];
    intros; simplify_eq/=;
    [|split_and!; [done..|]; unfold pool in *; simpl in *; congruence].
  rewrite Hp in Ha. exists w. split_and!; try done.
  unfold pool. simpl. destruct Ha as [[Hl ->]|[_ ->]]; [done|]. apply lookup_insert_eq.
Qed.

Lemma create_matched env c req :
  matched (lifecycleManager c) → matched (lifecycleManager (CreateSession env c req).1).
Proof.
  destruct (CreateSession env c req) as [c' r] eqn:E. apply create_cases in E. cbv zeta in E.
  unfold matched, pool in *. simpl. destruct r as [resp|e].
  - destruct E as (w & Hw & Hl & -> & _). intros Hm. rewrite dom_insert_L, Hm.
    destruct Hl as [[Hin ->]|[_ ->]]; [apply elem_of_dom_2 in Hin; set_solver|by rewrite dom_insert_L].
  - destruct E as (-> & _ & ->). done.
Qed.

(** ** Kills that do not fail *)

Context (kill_ok : ∀ (p : P) id reason, (KillWorker p id reason).2 = None).

Lemma kill_live (p : P) id reason : live (KillWorker p id reason).1 = delete id (live p).
Proof using H0 kill_ok.
  pose proof (kill_law p id reason) as Hk. pose proof (kill_ok p id reason) as Ho.
  destruct (KillWorker p id reason) as [p' [e|]]; done.
Qed.

Lemma unregister_matched m id reason :
  matched m → matched (Lifecycle.UnregisterAndKill m id reason).1 ∧
  (Lifecycle.UnregisterAndKill m id reason).2 = None.
Proof using H0 kill_ok.
  intros Hm. unfold Lifecycle.UnregisterAndKill, Lifecycle.kill, matched.
  pose proof (kill_live (Lifecycle.reaper m) id reason) as Hk. pose proof (kill_ok (Lifecycle.reaper m) id reason) as Ho.
  simpl. destruct (KillWorker (Lifecycle.reaper m) id reason) as [p e]. simpl in *. split; [|done].
  by rewrite Hk, !dom_delete_L, Hm.
Qed.

Lemma end_matched m t id deadline : matched m → matched (Lifecycle.EndRequest m t id deadline).
Proof using H0 kill_ok.
  intros Hm. unfold Lifecycle.EndRequest. destruct (Lifecycle.registry m !! id) as [ptr|]; [|done].
  assert (matched (Lifecycle.update m ptr (Lifecycle.end_conn t))) as Hu by done.
  destruct deadline; [|done]. unfold Lifecycle.kill, matched in *. simpl in *.
  pose proof (kill_live (Lifecycle.reaper m) id "data_plane_deadlock") as Hk.
  destruct (KillWorker (Lifecycle.reaper m) id _) as [p e]. simpl in *.
  by rewrite Hk, !dom_delete_L, Hu.
Qed.

Lemma sweep_matched m t order : matched m → matched (Lifecycle.sweep m t order).
Proof using H0 kill_ok.
  unfold Lifecycle.sweep. revert m. induction order as [|[id ptr] order IH]; intros m Hm; [done|]. simpl.
  destruct (_ ≫= _); apply IH; [by apply unregister_matched|done].
Qed.

Lemma handle_matched env c r :
  matched (lifecycleManager c) → matched (lifecycleManager (handle env c r).1).
Proof using H0 kill_ok.
  intros Hm. destruct r as [|body|order encodes|id|id|id|id|[image|]]; cbn [handle]; try done.
  - unfold handleCreateSession. destruct body as [[req|]|]; try done. case_decide; [done|].
    pose proof (create_matched env c req Hm) as Hc. by destruct (CreateSession env c req) as [c' [|]].
  - case_decide; [done|]. unfold DeleteSession.
    destruct (unregister_matched (lifecycleManager c) id "api_requested" Hm) as [Hu Hn].
    destruct (Lifecycle.UnregisterAndKill _ _ _) as [m e]. simpl in *. by subst.
  - case_decide; [done|]. by destruct (GetLogs env c id).
  - case_decide; [done|]. by apply heartbeat_matched.
  - case_decide; [done|]. unfold WarmImage. pose proof (warm_law (pool c) image) as Hw.
    destruct (WarmPoolImage (pool c) image) as [p [e|]];
      by apply (matched_same (lifecycleManager c)).
Qed.

Lemma step_matched c c' : step c c' → matched (lifecycleManager c) → matched (lifecycleManager c').
Proof using H0 kill_ok.
  intros Hstep Hm. destruct Hstep as [env c1 r c' reply E|c1 id Hid|c1 t id deadline Hid|c1 t order Ho].
  - pose proof (handle_matched env c1 r Hm) as Hh. by rewrite E in Hh.
  - by apply begin_matched.
  - by apply end_matched.
  - by apply sweep_matched.
Qed.

Lemma steps_matched (p : P) c : live p = ∅ → rtc step (start p) c → matched (lifecycleManager c).
Proof using H0 kill_ok.
  intros Hp Hrtc. eapply (invariant_rtc step (λ c, matched (lifecycleManager c))); [|exact Hrtc|].
  - intros c1 c2 Hstep. by apply step_matched.
  - unfold matched, start. simpl. by rewrite Hp, !dom_empty_L.
Qed.

(** ** Properties *)

Lemma create_typed env c req :
  Lifecycle.typed (lifecycleManager c) → Lifecycle.typed (lifecycleManager (CreateSession env c req).1).
Proof using Type.
  intros Hm. unfold CreateSession. cbv zeta. destruct (if Warm req then _ else _) as [p [e|]]; [done|].
  unfold acquire_and_register. destruct (AcquireSession _ _ _) as [p' [w|e]]; [|done].
  simpl. by apply Lifecycle.typed_register.
Qed.

Lemma handle_typed env c r :
  Lifecycle.typed (lifecycleManager c) → Lifecycle.typed (lifecycleManager (handle env c r).1).
Proof using Type.
  intros Hm. destruct r as [|body|order encodes|id|id|id|id|[image|]]; cbn [handle]; try done.
  - unfold handleCreateSession. destruct body as [[req|]|]; try done. case_decide; [done|].
    pose proof (create_typed env c req Hm). by destruct (CreateSession env c req) as [c' [|]].
  - case_decide; [done|]. unfold DeleteSession.
    pose proof (Lifecycle.typed_unregister (lifecycleManager c) id "api_requested" Hm).
    by destruct (Lifecycle.UnregisterAndKill _ _ _) as [m [e|]].
  - case_decide; [done|]. by destruct (GetLogs env c id).
  - case_decide; [done|]. by apply Lifecycle.typed_heartbeat.
  - case_decide; [done|]. unfold WarmImage. by destruct (WarmPoolImage (pool c) image) as [p [e|]].
Qed.

Lemma steps_typed (p : P) c : rtc step (start p) c → Lifecycle.typed (lifecycleManager c).
Proof using H0.
  intros Hrtc. eapply (invariant_rtc step (λ c, Lifecycle.typed (lifecycleManager c))); [|exact Hrtc|].
  - intros c1 c2 Hstep Hm. destruct Hstep as [env c1 r c' reply E|c1 id Hid|c1 t id deadline Hid|c1 t order Ho].
    + pose proof (handle_typed env c1 r Hm) as Hh. by rewrite E in Hh.
    + by apply Lifecycle.typed_begin.
    + by apply Lifecycle.typed_end.
    + by apply Lifecycle.typed_sweep.
  - apply Lifecycle.typed_new.
Qed.

(** [C27] Leases and workers match.  In every history of control-plane requests, sweeps and
    proxied requests, which begin and end at any time, over a pool whose [KillWorker] reports
    no error (the factory's [Close] returns none), the sessions that have a lease are exactly
    those that have a worker: none is forgotten by the reaper and none is kept on the books
    without a worker; and each lease is an object of its own that carries the session's
    name. *)
Theorem leases_match (p : P) c :
  live p = ∅ → rtc step (start p) c →
  dom (Lifecycle.registry (lifecycleManager c)) = dom (live (pool c)) ∧
  (∀ id ptr, Lifecycle.registry (lifecycleManager c) !! id = Some ptr →
    ∃ st, Lifecycle.heap (lifecycleManager c) !! ptr = Some st ∧ Lifecycle.SessionID st = id).
Proof using H0 kill_ok.
  intros Hp Hrtc. split; [by apply (steps_matched p)|]. apply (steps_typed p c Hrtc).
Qed.

(** Deleting a session that a creation has made new takes back what the creation did. *)
Lemma delete_created env c req c1 resp reason :
  CreateSession env c req = (c1, Ok resp) →
  live (pool c) !! rs_SessionID resp = None → Lifecycle.registry (lifecycleManager c) !! rs_SessionID resp = None →
  let r := DeleteSession c1 (rs_SessionID resp) reason in
  r.2 = None ∧ live (pool r.1) = live (pool c) ∧
  Lifecycle.registry (lifecycleManager r.1) = Lifecycle.registry (lifecycleManager c) ∧
  SessionsKilled (counters r.1) = addUint64 (SessionsKilled (counters c1)) 1.
Proof using H0 kill_ok.
  intros E%create_cases. cbv zeta in *. destruct E as (w & _ & Hl & Hr & _ & Hresp & _).
  set (id := if decide _ then _ else _) in *. assert (rs_SessionID resp = id) as -> by by rewrite Hresp.
  intros Hnone Hreg. destruct Hl as [[Hin _]|[_ Hl]]; [congruence|].
  unfold DeleteSession, Lifecycle.UnregisterAndKill, Lifecycle.kill. simpl.
  pose proof (kill_live (pool c1) id reason) as Hk. pose proof (kill_ok (pool c1) id reason) as Ho.
  unfold pool in *. destruct (KillWorker _ id reason) as [p e]. simpl in *. subst e. simpl.
  rewrite Hk, Hl, Hr, !delete_insert_id by done. done.
Qed.

(** A creation that fails leaves no lease, no session and no worker behind.  One that
    succeeds answers with the address and the active port mappings of the session's worker,
    under the ID asked for or a fresh one, and starts its lease now with no request in
    flight; deleting a session that was new takes all of that back. *)
Theorem create_delete_roundtrip env c req c1 r :
  CreateSession env c req = (c1, r) →
  match r with
  | Err _ => Lifecycle.registry (lifecycleManager c1) = Lifecycle.registry (lifecycleManager c) ∧
             live (pool c1) = live (pool c)
  | Ok resp =>
      let id := rs_SessionID resp in
      id = (if decide (SessionID req = "") then uuid env else SessionID req) ∧
      (∃ w st, live (pool c1) !! id = Some w ∧
        InternalIP resp = default "" (v_guestIP w) ∧
        rs_PortMappings resp = default (rq_PortMappings req) (v_mappings w) ∧
        Lifecycle.lookup_state (lifecycleManager c1) id = Some st ∧
        Lifecycle.CreatedAt st = now env ∧ Lifecycle.ActiveConns st = 0) ∧
      ∀ reason, live (pool c) !! id = None → Lifecycle.registry (lifecycleManager c) !! id = None →
        let c2 := (DeleteSession c1 id reason).1 in
        live (pool c2) = live (pool c) ∧
        Lifecycle.registry (lifecycleManager c2) = Lifecycle.registry (lifecycleManager c) ∧
        SessionsKilled (counters c2) = addUint64 (SessionsKilled (counters c1)) 1
  end.
Proof using H0 kill_ok.
  intros Hc. pose proof Hc as E%create_cases. cbv zeta in *. destruct r as [resp|e]; [|naive_solver].
  destruct E as (w & Hw & _ & _ & Hm & Hresp & _).
  split_and!; [by rewrite Hresp| |].
  - set (id := if decide _ then _ else _) in *. assert (rs_SessionID resp = id) as -> by by rewrite Hresp.
    assert (∃ st, Lifecycle.lookup_state (lifecycleManager c1) id = Some st ∧
      Lifecycle.CreatedAt st = now env ∧ Lifecycle.ActiveConns st = 0) as Hst.
    { rewrite Hm. unfold Lifecycle.lookup_state, Lifecycle.GetSession. simpl.
      rewrite lookup_insert_eq. simpl. rewrite lookup_insert_eq. by eexists. }
    destruct Hst as (st & Hst). by exists w, st; rewrite Hresp.
  - intros reason Hnone Hreg. apply (delete_created _ _ _ _ _ reason Hc Hnone Hreg).
Qed.

End lemmas.

(** A request that is refused as the client's fault (a 4xx) changes nothing at all:
    no counter, no lease and no call that changes the pool. *)
Theorem client_error_harmless {P} `{SessionPool P} env (c c' : Controller (P := P)) r reply :
  handle env c r = (c', reply) → 400 ≤ status reply < 500 → c' = c.
Proof.
  intros E Hs. destruct r as [|body|order encodes|id|id|id|id|[image|]]; cbn [handle] in E.
  - by simplify_eq.
  - unfold handleCreateSession in E. destruct body as [[req|]|]; [|by simplify_eq..].
    case_decide; [by simplify_eq|]. destruct (CreateSession env c req) as [c1 [|]]; simplify_eq/=; lia.
  - by simplify_eq.
  - case_decide; [by simplify_eq|]. destruct (DeleteSession c id _) as [c1 [|]]; simplify_eq/=; lia.
  - case_decide; [by simplify_eq|]. by destruct (GetLogs env c id); simplify_eq.
  - by simplify_eq.
  - case_decide; simplify_eq/=; [done|lia].
  - case_decide; [by simplify_eq|]. destruct (WarmImage c image) as [c1 [|]]; simplify_eq/=; lia.
  - by simplify_eq.
Qed.

(** ** Witnesses *)

Definition demo_env : Env :=
  mkEnv 5 "3f2c" "127.0.0.1:8080" (λ _, Err "no such file") true None None (λ _ _, None).

Definition demo_request (id image : string) : SessionCreateRequest :=
  mkRequest id image [] ∅ 0 3600 "" false 1 256 [mkPortMapping "" 0 80 "tcp"].

Definition demo_start : Controller (P := MapPool) := start (mkMapPool ∅ ∅ ∅).

(** A pool whose kills never fail. *)
Record SafePool := mkSafePool { sp_live : gmap string WorkerView }.

#[export] Instance safe_pool : SessionPool SafePool := {|
  pool_reaper := {| KillWorker p id _ := (mkSafePool (delete id (sp_live p)), None) |};
  AcquireSession p id cfg :=
    match sp_live p !! id with
    | Some v => (p, Ok v)
    | None => (mkSafePool (<[id := template id (PortMappings cfg)]> (sp_live p)),
               Ok (template id (PortMappings cfg)))
    end;
  LookupSession p id := Ok (sp_live p !! id);
  WarmPoolImage p _ := (p, None);
  live := sp_live
|}.

#[export] Instance safe_pool_laws : PoolLaws SafePool.
Proof.
  split; simpl; try done.
  - intros p id cfg. destruct (sp_live p !! id) eqn:E; [by left|by right].
  - intros p id v [=]. done.
Qed.

Definition demo_created : Controller (P := SafePool) :=
  (CreateSession demo_env (start (mkSafePool ∅)) (demo_request "" "alpine")).1.

Lemma leases_match_witness :
  dom (Lifecycle.registry (lifecycleManager demo_created)) = dom (live (pool demo_created)) ∧
  ∃ st, Lifecycle.lookup_state (lifecycleManager demo_created) "3f2c" = Some st ∧ Lifecycle.SessionID st = "3f2c".
Proof.
  assert (rtc step (start (mkSafePool ∅)) demo_created) as Hr.
  { eapply rtc_l; [|apply rtc_refl].
    apply (step_request demo_env _ (Create (Some (Ok (demo_request "" "alpine")))) _
      (snd (handle demo_env (start (mkSafePool ∅)) (Create (Some (Ok (demo_request "" "alpine"))))))).
    vm_compute. reflexivity. }
  assert (∀ (p : SafePool) id reason, (KillWorker p id reason).2 = None) as Hk by done.
  destruct (leases_match (P := SafePool) Hk (mkSafePool ∅) demo_created eq_refl Hr) as [Hd Ht].
  split; [exact Hd|]. destruct (Ht "3f2c" O) as (st & Hst & Hid); [vm_compute; reflexivity|].
  exists st. split; [exact Hst|exact Hid].
Defined.

Lemma create_delete_roundtrip_witness :
  live (pool (DeleteSession demo_created "3f2c" "bye").1) = ∅.
Proof.
  destruct (CreateSession demo_env (start (mkSafePool ∅)) (demo_request "" "alpine")) as [c1 r] eqn:E.
  pose proof (create_delete_roundtrip (P := SafePool) (λ _ _ _, eq_refl) demo_env _ _ _ _ E) as Hr.
  unfold demo_created. rewrite E. vm_compute in E. injection E as Ec Er. subst r. cbv zeta in Hr.
  exact (proj1 (proj2 (proj2 Hr) "bye" eq_refl eq_refl)).
Defined.

Lemma client_error_harmless_witness :
  (handle demo_env demo_start (Create (Some (Ok (demo_request "a" ""))))).1 = demo_start.
Proof.
  refine (client_error_harmless demo_env demo_start _ (Create (Some (Ok (demo_request "a" ""))))
    (Plain 400 "missing image field") _ _); [reflexivity|simpl; lia].
Defined.

End Daemon.
