(* ===== verification/Telemetry.v ===== *)
(** * The event log of the daemon ([internal/daemon/telemetry.go])

    One line for an event: in the format [json] the object of its fields with the time, the
    level and the name; otherwise words, the fields in the order of their keys.  A value is
    kept as what [fmt] and [encoding/json] make of it. *)
From stdpp Require Import options sorting.
From S2P Require Import Prelude GoStrings GoJson Json.
#[local] Open Scope Z_scope.

Module Telemetry.

(** A field's value: what the verb [%v] prints, and its JSON, unless it has none. *)
Record value := mkValue { text : string; encoded : option string }.

Definition str (s : string) : value := mkValue s (Some (print_string s)).

(** An error of [errors.New] or [fmt.Errorf]: a struct whose fields are not exported. *)
Definition err (message : string) : value := mkValue message (Some "{}").

Definition Fields : Type := gmap string value.

Record EventLogger := mkEventLogger { format : string }.

Definition NewEventLogger (format : string) : EventLogger :=
  mkEventLogger (if negb (bool_decide (format = "json")) && negb (bool_decide (format = "text")) then "text" else format).

(** ** Sorted keys *)

Definition str_le (a b : string) : Prop := String.leb a b = true.

#[export] Instance str_le_dec a b : Decision (str_le a b) := decide (String.leb a b = true).

(** [sort.Strings]; [encoding/json] sorts the keys of a map in the same order. *)
Definition Strings (keys : list string) : list string := merge_sort str_le keys.

(** ** A line *)

(** A member of an object, if its value can be encoded. *)
Definition member (kv : string * option string) : option string :=
  v ← kv.2; Some (print_string kv.1 +:+ ":" +:+ v).

(** [json.Marshal] of a map. *)
Definition Marshal (record : gmap string value) : option string :=
  ms ← mapM (λ k, member (k, record !! k ≫= encoded)) (Strings (elements (dom record)));
  Some ("{" +:+ separated ms +:+ "}").

(** The fields of the caller overwrite those of the logger. *)
Definition record (ts level event : string) (fields : gmap string value) : gmap string value :=
  fields ∪ {["ts" := str ts; "level" := str level; "event" := str event]}.

Definition text_line (level event : string) (keys : list string) (fields : gmap string value) : string :=
  Join " " (("level=" +:+ level) :: ("event=" +:+ event) ::
    ((λ k, k +:+ "=" +:+ (text (default (mkValue "" None) (fields !! k)))) <$> Strings keys)).

(** What is handed to the logger's [Print]; [keys] is the order in which the map of the
    fields is ranged over. *)
Definition emit (l : EventLogger) (ts level event : string) (keys : list string) (fields : gmap string value) : string :=
  match (if decide (format l = "json") then Marshal (record ts level event fields) else None) with
  | Some b => b
  | None => text_line level event keys fields
  end.

Definition Info (l : EventLogger) (ts : string) := emit l ts "info".
Definition Warn (l : EventLogger) (ts : string) := emit l ts "warn".
Definition Error (l : EventLogger) (ts : string) := emit l ts "error".

(** ** Lemmas *)

#[local] Instance str_le_antisymm : AntiSymm (=) str_le.
Proof. intros a b. apply String.leb_antisym. Qed.

#[local] Instance str_le_total : Total str_le.
Proof. intros a b. apply String.leb_total. Qed.

Lemma ascii_compare_lt a b : Ascii.compare a b = Lt ↔ (Ascii.N_of_ascii a < Ascii.N_of_ascii b)%N.
Proof. unfold Ascii.compare. apply N.compare_lt_iff. Qed.

Lemma str_le_cons a b s t :
  str_le (String a s) (String b t) ↔
    (Ascii.N_of_ascii a < Ascii.N_of_ascii b)%N ∨ a = b ∧ str_le s t.
Proof.
  unfold str_le, String.leb. cbn [String.compare]. unfold Ascii.compare.
  destruct (N.compare_spec (Ascii.N_of_ascii a) (Ascii.N_of_ascii b)) as [E|E|E].
  - apply (f_equal Ascii.ascii_of_N) in E. rewrite !Ascii.ascii_N_embedding in E. subst b.
    split; [by right|]. intros [?|[_ ?]]; [lia|done].
  - split; [by left|done].
  - split; [done|]. intros [?|[-> _]]; lia.
Qed.

#[local] Instance str_le_trans : Transitive str_le.
Proof.
  intros s t u. revert t u. induction s as [|a s IH]; intros [|b t] [|c u]; try done.
  rewrite !str_le_cons. intros [?|[-> Hst]] [?|[-> Htu]]; [left; lia|by left|by left|right].
  split; [done|]. by eapply IH.
Qed.

Lemma Strings_perm keys : Strings keys ≡ₚ keys.
Proof. apply merge_sort_Permutation. Qed.

(** Sorting forgets the order in which a map was ranged over. *)
Lemma Strings_order keys keys' : keys ≡ₚ keys' → Strings keys = Strings keys'.
Proof.
  intros E. apply (StronglySorted_unique str_le).
  - by apply (StronglySorted_merge_sort str_le).
  - by apply (StronglySorted_merge_sort str_le).
  - by rewrite !Strings_perm.
Qed.

(** A value of a field, and what a reader of the record finds. *)
Definition shows (v : value) (j : json) : Prop := ∃ t, encoded v = Some t ∧ reads t j.

Lemma shows_str s : valid_utf8 s = true → shows (str s) (JString s).
Proof.
  intros Hs. eexists. split; [done|]. intros fuel c r Hf _. apply read_value_string; [lia|done].
Qed.

Lemma shows_err message : shows (err message) (JObject []).
Proof. eexists. split; [done|]. intros [|fuel] c r Hf _; [simpl in Hf; lia|done]. Qed.

(** Two maps with the same keys, the JSON of each value and what is read from it. *)
Definition shown (fields : gmap string value) (vals : gmap string json) : Prop :=
  ∀ k, match fields !! k, vals !! k with
       | Some v, Some j => valid_utf8 k = true ∧ shows v j
       | None, None => True
       | _, _ => False
       end.

Lemma shown_union f1 f2 v1 v2 : shown f1 v1 → shown f2 v2 → shown (f1 ∪ f2) (v1 ∪ v2).
Proof.
  intros H1 H2 k. specialize (H1 k). specialize (H2 k). rewrite !lookup_union.
  destruct (f1 !! k), (v1 !! k), (f2 !! k), (v2 !! k); done.
Qed.

Lemma shown_insert k v j fields vals :
  valid_utf8 k = true → shows v j → shown fields vals → shown (<[k := v]> fields) (<[k := j]> vals).
Proof.
  intros Hk Hv H k'. specialize (H k'). destruct (decide (k = k')) as [->|Hne].
  - by rewrite !lookup_insert_eq.
  - by rewrite !lookup_insert_ne by done.
Qed.

Lemma shown_empty : shown ∅ ∅.
Proof. intros k. by rewrite !lookup_empty. Qed.

Lemma shown_keys fields vals : shown fields vals → elements (dom fields) ≡ₚ elements (dom vals).
Proof.
  intros H. assert (dom fields = dom vals) as ->; [|done]. apply set_eq. intros k. rewrite !elem_of_dom.
  specialize (H k). destruct (fields !! k), (vals !! k); try done; split; by intros [? ?].
Qed.

(** The members of some keys, each with its text and with what is read from it. *)
Lemma member_texts rec vals keys :
  shown rec vals → (∀ k, k ∈ keys → is_Some (rec !! k)) →
  ∃ kvs js, mapM (λ k, member (k, rec !! k ≫= encoded)) keys = Some (printed_member <$> kvs) ∧ kvs.*1 = keys ∧
    Forall2 (λ kv j, valid_utf8 kv.1 = true ∧ reads kv.2 j) kvs js ∧
    ∀ k j, (k, j) ∈ zip keys js ↔ k ∈ keys ∧ vals !! k = Some j.
Proof.
  intros H. induction keys as [|k keys IH]; intros Hin.
  - exists [], []. split_and!; [done..|constructor|]. intros k j.
    split; [by intros ?%not_elem_of_nil|by intros [?%not_elem_of_nil _]].
  - destruct IH as (kvs & js & E & E1 & H2 & Hz); [intros; apply Hin; by right|].
    destruct (Hin k) as [v Hv]; [by left|]. pose proof (H k) as Hk. rewrite Hv in Hk.
    destruct (vals !! k) as [j|] eqn:Ej; [|done]. destruct Hk as [Hk (t & Et & Ht)].
    exists ((k, t) :: kvs), (j :: js). split_and!.
    + simpl. rewrite Hv, E. unfold member. simpl. by rewrite Et.
    + by rewrite fmap_cons, E1.
    + by constructor.
    + intros k' j'. cbn [zip zip_with]. rewrite !elem_of_cons, Hz. naive_solver.
Qed.

(** An object that was marshalled is read member by member, in the order of its keys. *)
Lemma read_Marshal rec vals :
  rec ≠ ∅ → shown rec vals →
  ∃ line ms, Marshal rec = Some line ∧ read_json line = Some (JObject ms, "") ∧
    ms.*1 = Strings (elements (dom rec)) ∧ ∀ k j, (k, j) ∈ ms ↔ vals !! k = Some j.
Proof.
  intros Hne H. assert (∀ k, k ∈ Strings (elements (dom rec)) ↔ is_Some (rec !! k)) as Hin.
  { intros k. by rewrite Strings_perm, elem_of_elements, elem_of_dom. }
  destruct (member_texts rec vals (Strings (elements (dom rec))) H) as (kvs & js & E & E1 & H2 & Hz);
    [intros; by apply Hin|].
  assert (kvs ≠ []) as Hkv.
  { intros ->. apply map_choose in Hne as (k & v & Hk). apply (not_elem_of_nil k). simpl in E1.
    rewrite E1. apply Hin. by exists v. }
  exists ("{" +:+ separated (printed_member <$> kvs) +:+ "}"), (zip kvs.*1 js).
  unfold Marshal. rewrite E. split_and!; [done| | |].
  - set (l := separated (printed_member <$> kvs)). unfold read_json. cbn [String.append String.length].
    assert (∃ x, l = String quote x) as [x Ex].
    { unfold l. destruct kvs as [|[k t] [|]]; [done|..]; by eexists. }
    rewrite (read_object _ (l +:+ "}") (x +:+ "}")) by by rewrite Ex.
    unfold l. rewrite (read_members_print kvs js); [done|done|done|]. fold l. rewrite length_app_string. simpl. lia.
  - rewrite <-E1. apply fst_zip. rewrite length_fmap. apply Forall2_length in H2. lia.
  - intros k j. rewrite E1, Hz, Hin. split; [by intros [_ ?]|]. intros Hj. split; [|done].
    specialize (H k). rewrite Hj in H. by destruct (rec !! k).
Qed.

(** A line does not depend on the order in which the map of the fields was ranged over. *)
Lemma emit_order l ts level event keys keys' fields :
  keys ≡ₚ keys' → emit l ts level event keys fields = emit l ts level event keys' fields.
Proof. intros E. unfold emit, text_line. by rewrite (Strings_order _ _ E). Qed.

(** ** Properties *)

(** A line in the format [json] is one JSON object and nothing behind it: its keys are
    sorted and distinct, and what a reader finds under them is, for each field of the
    caller, its value, and for the time, the level and the event, unless the caller has a
    field of that name, these. *)
Theorem json_log_record l ts level event keys fields vals :
  format l = "json" → valid_utf8 ts = true → valid_utf8 level = true → valid_utf8 event = true →
  shown fields vals →
  ∃ ms, read_json (emit l ts level event keys fields) = Some (JObject ms, "") ∧
    StronglySorted str_le ms.*1 ∧ NoDup ms.*1 ∧
    ∀ k j, (k, j) ∈ ms ↔
      (vals ∪ {["ts" := JString ts; "level" := JString level; "event" := JString event]}) !! k = Some j.
Proof.
  intros Hl Ht Hlv He Hs. unfold emit. rewrite decide_True by done.
  assert (shown {["ts" := str ts; "level" := str level; "event" := str event]}
    {["ts" := JString ts; "level" := JString level; "event" := JString event]}) as Hb
    by (repeat apply shown_insert; try done; by apply shows_str || apply shown_empty).
  pose proof (shown_union _ _ _ _ Hs Hb) as Hu. fold (record ts level event fields) in Hu.
  assert (record ts level event fields ≠ ∅) as Hn.
  { intros Hn. apply (f_equal (lookup "ts")) in Hn. rewrite lookup_empty in Hn.
    unfold record in Hn. rewrite lookup_union in Hn. by destruct (fields !! "ts"). }
  destruct (read_Marshal _ _ Hn Hu) as (line & ms & -> & Hr & Hk & Hin).
  exists ms. rewrite Hk. split_and!; [done| | |done].
  - by apply (StronglySorted_merge_sort str_le).
  - rewrite Strings_perm. apply NoDup_elements.
Qed.

(** In the format [json] what an error says is lost: the record is the same for all of them. *)
Lemma json_errors_lost l ts level event keys fields k m1 m2 :
  format l = "json" → Marshal (record ts level event (<[k := err m1]> fields)) ≠ None →
  emit l ts level event keys (<[k := err m1]> fields) = emit l ts level event keys (<[k := err m2]> fields).
Proof.
  intros Hl Hm. unfold emit. rewrite !decide_True by done.
  assert (Marshal (record ts level event (<[k := err m1]> fields)) =
    Marshal (record ts level event (<[k := err m2]> fields))) as E; [|rewrite <-E; destruct (Marshal _) eqn:Em; [done|congruence]].
  unfold Marshal, record. rewrite !dom_union_L, !dom_insert_L.
  set (ks := Strings _). set (base := {["ts" := str ts; "level" := str level; "event" := str event]} : gmap string value).
  assert (∀ k', (<[k := err m1]> fields ∪ base) !! k' ≫= encoded =
    (<[k := err m2]> fields ∪ base) !! k' ≫= encoded) as Hk.
  { intros k'. rewrite !lookup_union. destruct (decide (k = k')) as [->|?].
    - rewrite !lookup_insert_eq. by destruct (base !! k').
    - by rewrite !lookup_insert_ne by done. }
  f_equal. induction ks as [|k' ks IH]; [done|]. simpl. by rewrite Hk, IH.
Qed.

(** ** Witnesses *)

Definition example_fields : gmap string value := {["session_id" := str "vm1"; "error" := err "no capacity"]}.

Definition example_values : gmap string json := {["session_id" := JString "vm1"; "error" := JObject []]}.

Lemma example_shown : shown example_fields example_values.
Proof.
  apply shown_insert; [done|by apply shows_str|]. apply shown_insert; [done|apply shows_err|apply shown_empty].
Qed.

Example example_line :
  Error (NewEventLogger "text") "" "session_acquire_failed" ["session_id"; "error"] example_fields =
    "level=error event=session_acquire_failed error=no capacity session_id=vm1".
Proof. vm_compute. reflexivity. Qed.

Lemma json_log_record_witness :
  ∃ ms, read_json (Error (NewEventLogger "json") "2026-01-01T00:00:00Z" "session_acquire_failed"
      ["session_id"; "error"] example_fields) = Some (JObject ms, "") ∧
    ("session_id", JString "vm1") ∈ ms ∧ ("error", JObject []) ∈ ms ∧ ("level", JString "error") ∈ ms.
Proof.
  destruct (json_log_record (NewEventLogger "json") "2026-01-01T00:00:00Z" "error" "session_acquire_failed"
    ["session_id"; "error"] example_fields example_values) as (ms & Hr & _ & _ & Hin);
    [vm_compute; reflexivity..|exact example_shown|].
  exists ms. split; [exact Hr|]. split; [|split]; apply Hin; vm_compute; reflexivity.
Defined.

End Telemetry.
