(* ===== verification/Node.v ===== *)
(** * A node: the pool over the factory, one call at a time

    [Service] says what the proxy, the reaper and the daemon rely on when they call the
    pool.  Here the pool of [Pool] runs its goroutines one at a time, each to its end, and
    its workers are those of [Factory]; a call that would block has its context end.  Such a
    pool meets the laws of [Service], so all that is proved of the daemon against them holds
    of the program as it is put together. *)
From stdpp Require Import options.
From S2P Require Import Prelude GoStrings GoNet GoFs Rollback UidPool Ipam PortMgr Registry Pool ImageStore HostNet Tap Lifecycle Service Factory.
Import Factory.Factory.
#[local] Open Scope Z_scope.

Module Node.

(** A worker of the factory, as its methods answer. *)
Definition view (wk : FirecrackerWorker) : WorkerView :=
  mkWorkerView (id wk) (Address wk) (Some (portMappings wk)) (Some (guestIP wk)) (Some (socketPath wk)).

Section node.
Context {C N : Type} `{Containerd C} `{Commands N} `{Netlink N}.
Context (f : FirecrackerFactory) (envs : nat → Factory.Env) (late : nat → bool) (downs : nat → Release).

(** The pool, the host, the worker objects made so far, and how many turns there were: a
    turn is a request that comes to wait for a ticket.  [late] says whether its context has
    ended by then, so that the select may take that branch although there is a ticket;
    [envs] what the environment answers if it spawns; and [downs] what goes wrong when the
    worker with a given object is closed. *)
Record Node := mkNode {
  n_pool : Pool.Pool (R := Registry.localRegistry);
  n_host : World (C := C) (N := N);
  n_objects : gmap nat FirecrackerWorker;
  n_turns : nat
}.

Definition set_host (w : World (C := C) (N := N)) (n : Node) : Node :=
  mkNode (n_pool n) w (n_objects n) (n_turns n).
Definition sessions (n : Node) : gmap string Worker := Registry.sessions (Pool.registry (n_pool n)).

(** One turn more. *)
Definition next_turn (n : Node) : Node := mkNode (n_pool n) (n_host n) (n_objects n) (S (n_turns n)).

(** A step of the pool that is not a call. *)
Definition pool_step (n : Node) (c : Pool.pc) (ev : Pool.event) : option (Node * Pool.pc) :=
  '(p, c) ← Pool.step (n_pool n) c ev; Some (mkNode p (n_host n) (n_objects n) (n_turns n), c).

(** [Close] of a worker never fails. *)
Definition closed_worker (n : Node) (w : Worker) : Node :=
  match n_objects n !! w_obj w with
  | Some wk => set_host (Close (downs (w_obj w)) wk (n_host n)) n
  | None => n
  end.

(** The next step of a goroutine that runs alone. *)
Definition move (cfg : TenantConfig) (n : Node) (c : Pool.pc) : option (Node * Pool.pc) :=
  match c with
  | Pool.A_wait _ _ => pool_step n c Pool.EvCtxDone
  | Pool.A_ticket _ _ =>
      if bool_decide (Pool.tickets (n_pool n) = O) || late (n_turns n) then pool_step (next_turn n) c Pool.EvCtxDone
      else pool_step n c Pool.EvRun
  | Pool.A_spawn sid _ =>
      match Spawn f (envs (n_turns n)) (n_host n) sid cfg with
      | (Ok wk, w) =>
          pool_step (mkNode (n_pool n) w (<[Pool.next_obj (n_pool n) := wk]> (n_objects n)) (S (n_turns n)))
            c (Pool.EvSpawned (id wk))
      | (Err e, w) => pool_step (mkNode (n_pool n) w (n_objects n) (S (n_turns n))) c (Pool.EvSpawnErr (stage e))
      end
  | Pool.K_close w | Pool.R_close w | Pool.A_unpinned_kill w | Pool.S_close (w :: _) => pool_step (closed_worker n w) c Pool.EvRun
  | _ => pool_step n c Pool.EvRun
  end.

Fixpoint run (fuel : nat) (cfg : TenantConfig) (n : Node) (c : Pool.pc) : option (Node * Pool.outcome) :=
  match c, fuel with
  | Pool.Returned o, _ => Some (n, o)
  | _, O => None
  | _, S fuel => '(n, c) ← move cfg n c; run fuel cfg n c
  end.

(** The longest operation, an [Acquire] that spawns, takes eight steps. *)
Definition run_fuel : nat := 12.

(** [Shutdown] takes a step for each worker. *)
Definition shutdown (n : Node) : option (Node * Pool.outcome) :=
  run (3 + length (Pool.workers (n_pool n))) (mkTenantConfig "" [] ∅ 0 0 "" 0 0 []) n Pool.S_done.

(** The clients' calls, and what they make of an outcome. *)
Definition acquire (n : Node) (sid : string) (cfg : TenantConfig) : Node * result string WorkerView :=
  match run run_fuel cfg n (Pool.A_lock sid) with
  | Some (n', Pool.RetSession s) =>
      match n_objects n' !! w_obj (Pool.s_Worker s) with
      | Some wk => (n', Ok (view wk))
      | None => (n', Err "no such worker")
      end
  | Some (n', Pool.RetErr e) => (n', Err e)
  | Some (n', Pool.RetNil) => (n', Err "no session")
  | None => (n, Err "no result")
  end.

Definition lookup (n : Node) (sid : string) : result string (option WorkerView) :=
  match Pool.get_section sid (n_pool n) with
  | (_, Pool.Returned (Pool.RetSession s)) => Ok (view <$> n_objects n !! w_obj (Pool.s_Worker s))
  | (_, Pool.Returned (Pool.RetErr e)) => Err e
  | _ => Ok None
  end.

Definition kill (n : Node) (sid : string) : Node * option string :=
  match run run_fuel (mkTenantConfig "" [] ∅ 0 0 "" 0 0 []) n (Pool.K_lock sid) with
  | Some (n', Pool.RetErr e) => (n', Some e)
  | Some (n', _) => (n', None)
  | None => (n, Some "no result")
  end.

Definition warm (n : Node) (image : string) : Node * option string :=
  let '(m, e) := ImageStore.WarmImage (w_storage (n_host n)) image in
  (set_host (set_storage m (n_host n)) n, e).

Definition workers_of (n : Node) : gmap string FirecrackerWorker :=
  omap (λ w, n_objects n !! w_obj w) (sessions n).

(** A node that is not shut down and on which no call is under way. *)
Record quiet (n : Node) : Prop := {
  q_inflight : Pool.inflight (n_pool n) = ∅;
  q_closed ch : ch ∈ Pool.closed (n_pool n) → (ch < Pool.next_chan (n_pool n))%nat;
  q_objects sid w : sessions n !! sid = Some w →
    w_ID w = sid ∧ (w_obj w < Pool.next_obj (n_pool n))%nat ∧ ∃ wk, n_objects n !! w_obj w = Some wk ∧ id wk = sid;
  q_workers : Pool.workers (n_pool n) ≡ₚ (map_to_list (sessions n)).*2;
  q_tickets : (Pool.tickets (n_pool n) + length (Pool.workers (n_pool n)) = Pool.max (n_pool n))%nat;
  q_open : Pool.done (n_pool n) = false
}.

(** ** Lemmas *)

#[local] Arguments Close : simpl never.
#[local] Arguments Spawn : simpl never.

Lemma run_returned fuel cfg n o : run fuel cfg n (Pool.Returned o) = Some (n, o).
Proof. by destruct fuel. Qed.

Lemma spawn_id env w sid cfg wk w' : Spawn f env w sid cfg = (Ok wk, w') → id wk = sid.
Proof.
  unfold Spawn. destruct (spawn_body _ _ _ _ _) as [[wk'|e] [w1 st]] eqn:E; intros; simplify_eq.
  unfold spawn_body in E. cbv zeta in E.
  do 2 (apply bind_ok in E as (? & ? & _ & E)). apply bind_ok in E as ([? ?] & ? & _ & E).
  do 7 (apply bind_ok in E as (? & ? & _ & E)). unfold mret, M_ret in E. by simplify_eq/=.
Qed.

Definition is_running (c : Pool.pc) : bool := match c with Pool.Returned _ => false | _ => true end.

Lemma run_move fuel cfg n c n' c' :
  is_running c = true → move cfg n c = Some (n', c') → run (S fuel) cfg n c = run fuel cfg n' c'.
Proof. intros Hc E. destruct c; try done; cbn [run]; by rewrite E. Qed.

(** What becomes of a call of [Acquire] on a quiet node. *)
Inductive acquired (n : Node) (sid : string) (cfg : TenantConfig) (n' : Node) : Pool.outcome → Prop :=
  | acquired_bound w :
      sessions n !! sid = Some w → n' = n → acquired n sid cfg n' (Pool.RetSession (Pool.mkSession sid w))
  | acquired_none msg :
      sessions n !! sid = None → Pool.tickets (n_pool n) = O ∨ late (n_turns n) = true →
      sessions n' = sessions n → n_host n' = n_host n → n_objects n' = n_objects n →
      acquired n sid cfg n' (Pool.RetErr msg)
  | acquired_failed e msg :
      sessions n !! sid = None → Spawn f (envs (n_turns n)) (n_host n) sid cfg = (Err e, n_host n') →
      sessions n' = sessions n → n_objects n' = n_objects n →
      acquired n sid cfg n' (Pool.RetErr msg)
  | acquired_new wk obj :
      obj = Pool.next_obj (n_pool n) →
      sessions n !! sid = None → Spawn f (envs (n_turns n)) (n_host n) sid cfg = (Ok wk, n_host n') →
      sessions n' = <[sid := mkWorker obj sid]> (sessions n) →
      n_objects n' = <[obj := wk]> (n_objects n) →
      acquired n sid cfg n' (Pool.RetSession (Pool.mkSession sid (mkWorker obj sid))).

Lemma run_acquire n sid cfg :
  quiet n → ∃ n' o, run run_fuel cfg n (Pool.A_lock sid) = Some (n', o) ∧ quiet n' ∧ acquired n sid cfg n' o.
Proof.
  intros Hq. unfold run_fuel.
  destruct n as [[reg inf ws tk mx dn cl nc lv wd no] w objs k].
  destruct Hq as [Hinf Hcl Hobj Hws Htk Hdn]. unfold sessions in *. cbn in Hinf, Hcl, Hobj, Hws, Htk, Hdn. subst inf.
  assert (nc ∉ cl) as Hnc by (intros ?%Hcl; lia).
  destruct (Registry.sessions reg !! sid) as [wk|] eqn:Es.
  { eexists _, _. erewrite run_move; [|done|].
    2: { cbn [move]. unfold pool_step, Pool.step, Pool.acquire_section. cbn. by rewrite Es. }
    split; [apply run_returned|]. split; [by split|]. by apply acquired_bound. }
  erewrite run_move; [|done|].
  2: { cbn [move]. unfold pool_step, Pool.step, Pool.acquire_section. cbn. by rewrite Es, lookup_empty. }
  assert (∀ ch, ch ∈ {[nc]} ∪ cl → (ch < S nc)%nat) as Hcl'
    by (intros ch [->%elem_of_singleton|?%Hcl]%elem_of_union; lia).
  destruct (bool_decide (tk = O) || late k) eqn:Elate.
  { eexists _, _. erewrite run_move; [|done|cbn; rewrite Elate; reflexivity]. erewrite run_move; [|done|by cbn].
    erewrite run_move; [|done|by cbn; unfold Pool.close_chan; cbn; rewrite decide_False by done].
    split; [apply run_returned|]. split.
    - split; cbn; try done. apply delete_insert_id. apply lookup_empty.
    - apply acquired_none; try done. apply orb_true_iff in Elate as [?%bool_decide_eq_true|?]; auto. }
  pose proof Elate as [Htk0%bool_decide_eq_false Hlate]%orb_false_iff.
  destruct tk as [|tk]; [done|]. erewrite run_move; [|done|cbn; rewrite Hlate; reflexivity].
  destruct (Spawn f (envs k) w sid cfg) as [[wk|e] w'] eqn:Esp.
  - pose proof (spawn_id _ _ _ _ _ _ Esp) as Hid.
    eexists _, _. erewrite run_move; [|done|cbn; rewrite Esp; by cbn].
    do 3 (erewrite run_move; [|done|by cbn]).
    erewrite run_move; [|done|by cbn; unfold Pool.close_chan; cbn; rewrite decide_False by done].
    rewrite Hid. split; [apply run_returned|]. split; [|by eapply acquired_new].
    split; unfold sessions; cbn.
    + apply delete_insert_id, lookup_empty.
    + done.
    + intros sid' w0. destruct (decide (sid' = sid)) as [->|Hne].
      * rewrite lookup_insert_eq. intros [= <-]. cbn. split_and!; [done|lia|]. exists wk. by rewrite lookup_insert_eq.
      * rewrite lookup_insert_ne by done. intros (Hw & Ho & wk0 & Hk & Hi)%Hobj. split_and!; [done|lia|].
        exists wk0. by rewrite lookup_insert_ne by lia.
    + rewrite map_to_list_insert by done. cbn. by rewrite Hws, <-Permutation_cons_append.
    + rewrite length_app. cbn. lia.
    + done.
  - eexists _, _. erewrite run_move; [|done|cbn; rewrite Esp; by cbn].
    erewrite run_move; [|done|cbn; unfold Pool.send_ticket; cbn; rewrite decide_True by lia; done].
    erewrite run_move; [|done|by cbn].
    erewrite run_move; [|done|by cbn; unfold Pool.close_chan; cbn; rewrite decide_False by done].
    split; [apply run_returned|]. split; [|by eapply acquired_failed].
    split; cbn; try done. apply delete_insert_id, lookup_empty.
Qed.

Lemma remove_first_perm w ws :
  w ∈ ws → NoDup (w_ID <$> ws) → ws ≡ₚ w :: Pool.remove_first w ws.
Proof.
  induction ws as [|x ws IH]; [by intros ?%not_elem_of_nil|].
  intros [<-|Hin]%elem_of_cons; cbn [fmap list_fmap Pool.remove_first]; intros [Hx Hnd]%NoDup_cons.
  - by rewrite decide_True.
  - rewrite decide_False; [rewrite (IH Hin Hnd) at 1; apply Permutation_swap|].
    intros E. apply Hx. rewrite E. by apply list_elem_of_fmap_2.
Qed.

(** The workers of a quiet pool have different names: those of their sessions. *)
Lemma quiet_names n : quiet n → NoDup (w_ID <$> Pool.workers (n_pool n)).
Proof.
  intros Hq. rewrite (q_workers n Hq), <-list_fmap_compose.
  assert ((w_ID ∘ snd) <$> map_to_list (sessions n) = (map_to_list (sessions n)).*1) as ->; [|apply NoDup_fst_map_to_list].
  apply list_fmap_ext. intros i [sid w] Hi%list_elem_of_lookup_2%elem_of_map_to_list.
  by destruct (q_objects n Hq sid w Hi).
Qed.

Lemma run_kill n cfg sid :
  quiet n → ∃ n', run run_fuel cfg n (Pool.K_lock sid) = Some (n', Pool.RetNil) ∧ quiet n' ∧
    match sessions n !! sid with
    | None => n' = n
    | Some w => sessions n' = delete sid (sessions n) ∧ n_objects n' = n_objects n ∧
        ∃ wk, n_objects n !! w_obj w = Some wk ∧ n_host n' = Close (downs (w_obj w)) wk (n_host n)
    end.
Proof.
  intros Hq. pose proof (quiet_names n Hq) as Hnd. unfold run_fuel.
  destruct n as [[reg inf ws tk mx dn cl nc lv wd no] w objs k].
  destruct Hq as [Hinf Hcl Hobj Hws Htk Hdn]. unfold sessions in *. cbn in Hinf, Hcl, Hobj, Hws, Htk, Hdn, Hnd. subst inf.
  cbn [n_pool Pool.registry n_objects n_host].
  destruct (Registry.sessions reg !! sid) as [x|] eqn:Es.
  2: { eexists. erewrite run_move; [|done|].
       2: { cbn [move]. unfold pool_step, Pool.step, Pool.kill_section. cbn. by rewrite Es. }
       split; [apply run_returned|]. split; [by split|done]. }
  destruct (Hobj _ _ Es) as (Hx & Ho & wk & Hk & Hid).
  assert (x ∈ ws) as Hin.
  { rewrite Hws. apply list_elem_of_fmap. exists (sid, x). split; [done|]. by apply elem_of_map_to_list. }
  pose proof (remove_first_perm x ws Hin Hnd) as Hrm. pose proof (Permutation_length Hrm) as Hlen. cbn in Hlen.
  eexists. erewrite run_move; [|done|].
  2: { cbn [move]. unfold pool_step, Pool.step, Pool.kill_section. cbn. by rewrite Es. }
  erewrite run_move; [|done|cbn [move]; unfold closed_worker; cbn [n_objects]; rewrite Hk; reflexivity].
  erewrite run_move; [|done|by cbn].
  erewrite run_move; [|done|cbn; unfold Pool.send_ticket; cbn; rewrite decide_True by lia; done].
  split; [apply run_returned|]. split; [|split; [reflexivity|split; [reflexivity|exists wk; split; [exact Hk|reflexivity]]]].
  split; unfold sessions; cbn; try done.
  - intros sid' w0. destruct (decide (sid' = sid)) as [->|Hne]; [by rewrite lookup_delete_eq|].
    rewrite lookup_delete_ne by done. apply Hobj.
  - apply (Permutation_cons_inv (a := x)). rewrite <-Hrm, Hws.
    rewrite <-(insert_delete_id (Registry.sessions reg) sid x) at 1 by done.
    by rewrite map_to_list_insert by apply lookup_delete_eq.
  - lia.
Qed.

Lemma workers_of_bound n sid w :
  quiet n → sessions n !! sid = Some w →
  ∃ wk, n_objects n !! w_obj w = Some wk ∧ workers_of n !! sid = Some wk ∧ id wk = sid.
Proof.
  intros Hq Hs. destruct (q_objects n Hq sid w Hs) as (_ & _ & wk & Hk & Hid).
  exists wk. unfold workers_of. by rewrite lookup_omap, Hs.
Qed.

Lemma workers_of_none n sid : quiet n → workers_of n !! sid = None ↔ sessions n !! sid = None.
Proof.
  intros Hq. destruct (sessions n !! sid) as [w|] eqn:Hs.
  - by destruct (workers_of_bound n sid w Hq Hs) as (wk & _ & -> & _).
  - unfold workers_of. by rewrite lookup_omap, Hs.
Qed.

Lemma workers_of_ids n sid wk : quiet n → workers_of n !! sid = Some wk → id wk = sid.
Proof.
  intros Hq Hw. destruct (sessions n !! sid) as [w|] eqn:Hs.
  - destruct (workers_of_bound n sid w Hq Hs) as (wk' & _ & E & Hid). congruence.
  - by rewrite (proj2 (workers_of_none n sid Hq) Hs) in Hw.
Qed.

Lemma size_workers_of n : quiet n → size (workers_of n) = length (map_to_list (sessions n)).
Proof.
  intros Hq. rewrite <-!size_dom. rewrite length_map_to_list, <-size_dom. f_equal.
  apply set_eq. intros sid. rewrite !elem_of_dom, <-!not_eq_None_Some. by rewrite workers_of_none.
Qed.

Lemma workers_of_same n n' : sessions n' = sessions n → n_objects n' = n_objects n → workers_of n' = workers_of n.
Proof. unfold workers_of. by intros -> ->. Qed.

Lemma workers_of_new n n' sid wk obj :
  quiet n → obj = Pool.next_obj (n_pool n) →
  sessions n' = <[sid := mkWorker obj sid]> (sessions n) → n_objects n' = <[obj := wk]> (n_objects n) →
  workers_of n' = <[sid := wk]> (workers_of n).
Proof.
  intros Hq Ho Hs Hb. apply map_eq. intros sid'. unfold workers_of. rewrite lookup_omap, Hs, Hb.
  destruct (decide (sid' = sid)) as [->|Hne].
  - by rewrite !lookup_insert_eq; cbn; rewrite lookup_insert_eq.
  - rewrite !lookup_insert_ne, lookup_omap by done. destruct (sessions n !! sid') as [w|] eqn:E; [|done]. cbn.
    destruct (q_objects n Hq sid' w E) as (_ & ? & _). by rewrite lookup_insert_ne by lia.
Qed.

Lemma workers_of_killed n n' sid :
  sessions n' = delete sid (sessions n) → n_objects n' = n_objects n → workers_of n' = delete sid (workers_of n).
Proof. unfold workers_of. intros -> ->. apply omap_delete. Qed.

(** A call of [Acquire], by what it finds and what [Spawn] answers. *)
Lemma acquire_cases n sid cfg :
  quiet n → let n' := (acquire n sid cfg).1 in
  quiet n' ∧
  match (acquire n sid cfg).2 with
  | Ok v => ∃ wk, v = view wk ∧
      ((workers_of n !! sid = Some wk ∧ n' = n) ∨
       (workers_of n !! sid = None ∧ workers_of n' = <[sid := wk]> (workers_of n) ∧
        Spawn f (envs (n_turns n)) (n_host n) sid cfg = (Ok wk, n_host n')))
  | Err _ => workers_of n !! sid = None ∧ workers_of n' = workers_of n ∧
      (((Pool.tickets (n_pool n) = O ∨ late (n_turns n) = true) ∧ n_host n' = n_host n) ∨
       ∃ e, Spawn f (envs (n_turns n)) (n_host n) sid cfg = (Err e, n_host n'))
  end.
Proof.
  intros Hq. unfold acquire. destruct (run_acquire n sid cfg Hq) as (n' & o & -> & Hq' & Ha).
  destruct Ha as [w Hs ->|msg Hs Ht Hs' Hh Hb|e msg Hs He Hs' Hb|wk obj Ho Hs He Hs' Hb]; cbn [Pool.s_Worker].
  - destruct (workers_of_bound n sid w Hq Hs) as (wk & Hk & Hw & _). rewrite Hk. split; [done|].
    exists wk. split; [done|]. by left.
  - split; [done|]. split_and!; [by apply workers_of_none|by apply workers_of_same|by left].
  - split; [done|]. split_and!; [by apply workers_of_none|by apply workers_of_same|right; by exists e].
  - rewrite Hb, lookup_insert_eq. split; [done|]. exists wk. split; [done|]. right.
    split_and!; [by apply workers_of_none|by eapply workers_of_new|done].
Qed.

Lemma kill_cases n sid :
  quiet n → let n' := (kill n sid).1 in
  quiet n' ∧ (kill n sid).2 = None ∧ workers_of n' = delete sid (workers_of n) ∧
  match workers_of n !! sid with
  | None => n' = n
  | Some wk => ∃ o, n_host n' = Close (downs o) wk (n_host n)
  end.
Proof.
  intros Hq. unfold kill. destruct (run_kill n (mkTenantConfig "" [] ∅ 0 0 "" 0 0 []) sid Hq) as (n' & -> & Hq' & Hk).
  cbn [fst snd]. split; [done|]. split; [done|]. destruct (sessions n !! sid) as [w|] eqn:Hs.
  - destruct Hk as (Hs' & Hb & wk & Hk & Hh). destruct (workers_of_bound n sid w Hq Hs) as (wk' & Hk' & -> & _).
    rewrite Hk in Hk'. simplify_eq. split; [by apply workers_of_killed|by eexists].
  - subst n'. apply (workers_of_none n sid Hq) in Hs. rewrite Hs. split; [|done]. by rewrite delete_id.
Qed.

Lemma lookup_spec n sid : quiet n → lookup n sid = Ok (view <$> workers_of n !! sid).
Proof.
  intros Hq. unfold lookup, Pool.get_section. cbn [reg_Get Registry.localRegistry_ops]. unfold Registry.Get.
  fold (sessions n). destruct (sessions n !! sid) as [w|] eqn:Hs.
  - destruct (workers_of_bound n sid w Hq Hs) as (wk & Hk & -> & _). cbn. by rewrite Hk.
  - by rewrite (proj2 (workers_of_none n sid Hq) Hs).
Qed.

Lemma warm_quiet n image : quiet n → quiet (warm n image).1 ∧ workers_of (warm n image).1 = workers_of n.
Proof. unfold warm. destruct (ImageStore.WarmImage _ _) as [m e]. intros []. split; [by split|done]. Qed.

(** *** Shutdown *)

(** The workers of the pool as objects, in the order in which they are closed, and what
    goes wrong then. *)
Definition with_downs (n : Node) (ws : list Worker) : list (Release * FirecrackerWorker) :=
  omap (λ w, (λ wk, (downs (w_obj w), wk)) <$> n_objects n !! w_obj w) ws.
Definition tracked (n : Node) : list (Release * FirecrackerWorker) := with_downs n (Pool.workers (n_pool n)).

Lemma run_closes cfg ws n :
  ∃ n', run (S (length ws)) cfg n (Pool.S_close ws) = Some (n', Pool.RetNil) ∧
    sessions n' = sessions n ∧ n_objects n' = n_objects n ∧
    n_host n' = foldl (λ h rw, Close rw.1 rw.2 h) (n_host n) (with_downs n ws).
Proof.
  revert n. induction ws as [|w ws IH]; intros n.
  - exists n. destruct n. erewrite run_move; [|done|by cbn]. split; [apply run_returned|done].
  - destruct (IH (mkNode (Pool.close_worker w (n_pool n)) (n_host (closed_worker n w)) (n_objects n) (n_turns n)))
      as (n' & E & Hs & Hb & Hh). exists n'. split; [|split; [by rewrite Hs|split; [by rewrite Hb|]]].
    + cbn [length]. erewrite run_move; [exact E|done|]. unfold closed_worker. cbn [move]. unfold pool_step, closed_worker.
      by destruct (n_objects n !! w_obj w).
    + rewrite Hh. unfold closed_worker, with_downs. cbn [n_host n_objects omap list_omap]. by destruct (n_objects n !! w_obj w).
Qed.

Lemma shutdown_closes n : quiet n →
  ∃ n', shutdown n = Some (n', Pool.RetNil) ∧ workers_of n' = workers_of n ∧
    n_host n' = foldl (λ h rw, Close rw.1 rw.2 h) (n_host n) (tracked n).
Proof.
  intros Hq. unfold shutdown. cbn [Nat.add].
  erewrite run_move; [|done|cbn [move]; unfold pool_step, Pool.step; cbn; rewrite (q_open n Hq); reflexivity].
  erewrite run_move; [|done|cbn [move]; unfold pool_step, Pool.step; cbn; reflexivity].
  match goal with |- context [run _ _ ?m (Pool.S_close _)] => destruct (run_closes (mkTenantConfig "" [] ∅ 0 0 "" 0 0 []) (Pool.workers (n_pool n)) m)
    as (n' & E & Hs & Hb & Hh) end.
  exists n'. split; [exact E|]. split; [by apply workers_of_same|done].
Qed.

Lemma omap_map_to_list {A B} (g : A → option B) (m : gmap string A) :
  omap g (map_to_list m).*2 ≡ₚ (map_to_list (omap g m)).*2.
Proof.
  induction m as [|i x m Hi IH] using map_ind; [by rewrite omap_empty, !map_to_list_empty|].
  rewrite map_to_list_insert by done. cbn [fmap list_fmap omap list_omap snd]. destruct (g x) as [y|] eqn:E.
  - rewrite (omap_insert_Some _ _ _ _ y) by done. rewrite map_to_list_insert by by rewrite lookup_omap, Hi.
    cbn [fmap list_fmap snd]. by rewrite IH.
  - rewrite omap_insert_None, delete_id by (done || by rewrite lookup_omap, Hi). done.
Qed.

(** These are the workers of the sessions. *)
Lemma tracked_workers n : quiet n → (tracked n).*2 ≡ₚ (map_to_list (workers_of n)).*2.
Proof.
  intros Hq. assert (∀ ws, (with_downs n ws).*2 = omap (λ w, n_objects n !! w_obj w) ws) as E.
  { intros ws. unfold with_downs. induction ws as [|w ws IH]; [done|]. rewrite !omap_cons.
    destruct (n_objects n !! w_obj w); cbn; by rewrite ?IH. }
  unfold tracked. rewrite E, (q_workers n Hq). apply omap_map_to_list.
Qed.

(** ** Properties *)

(** [C6] The pool implements a map from names to workers.  Run on its own, step by step,
    an [Acquire] and a [KillWorker] come to an end.  [Acquire] answers with the worker of
    the name, or spawns one and binds it; it fails only if the spawn does, if no ticket is
    free, or if the request's context has ended when it comes to wait for one, which the
    select may prefer to a free ticket, and then changes no session.  [KillWorker] closes
    the worker of the name and unbinds it; [GetSession] reads the map, and tickets and
    sessions add up to the capacity. *)
Theorem pool_serves n :
  quiet n →
  (∀ sid cfg, is_Some (run run_fuel cfg n (Pool.A_lock sid)) ∧
    let n' := (acquire n sid cfg).1 in
    quiet n' ∧
    match (acquire n sid cfg).2 with
    | Ok v => ∃ wk, v = view wk ∧
        ((workers_of n !! sid = Some wk ∧ n' = n) ∨
         (workers_of n !! sid = None ∧ workers_of n' = <[sid := wk]> (workers_of n) ∧
          Spawn f (envs (n_turns n)) (n_host n) sid cfg = (Ok wk, n_host n')))
    | Err _ => workers_of n !! sid = None ∧ workers_of n' = workers_of n ∧
        (((Pool.tickets (n_pool n) = O ∨ late (n_turns n) = true) ∧ n_host n' = n_host n) ∨
         ∃ e, Spawn f (envs (n_turns n)) (n_host n) sid cfg = (Err e, n_host n'))
    end) ∧
  (∀ sid cfg, is_Some (run run_fuel cfg n (Pool.K_lock sid)) ∧
    let n' := (kill n sid).1 in
    quiet n' ∧ (kill n sid).2 = None ∧ workers_of n' = delete sid (workers_of n) ∧
    match workers_of n !! sid with
    | Some wk => ∃ o, n_host n' = Close (downs o) wk (n_host n)
    | None => n' = n
    end) ∧
  (∀ sid, lookup n sid = Ok (view <$> workers_of n !! sid)) ∧
  (Pool.tickets (n_pool n) + size (workers_of n) = Pool.max (n_pool n))%nat.
Proof.
  intros Hq. split_and!.
  - intros sid cfg. split; [|by apply acquire_cases].
    destruct (run_acquire n sid cfg Hq) as (n' & o & -> & _). done.
  - intros sid cfg. split; [by destruct (run_kill n cfg sid Hq) as (n' & -> & _)|].
    destruct (kill_cases n sid Hq) as (H1' & H2' & H3' & H4'). split_and!; [done..|].
    by destruct (workers_of n !! sid).
  - intros sid. by apply lookup_spec.
  - rewrite <-(q_tickets n Hq), (q_workers n Hq), length_fmap. f_equal. by rewrite size_workers_of.
Qed.

End node.

(** ** The node as the pool of the daemon *)

(** The factory, the answers to its calls, the requests whose context ends while they wait,
    and what goes wrong when a worker is closed. *)
Definition Serving {C N : Type} `{Containerd C} (f : FirecrackerFactory) (envs : nat → Factory.Env)
    (late : nat → bool) (downs : nat → Release) : Type :=
  { n : Node (C := C) (N := N) | quiet n }.

Section serving.
Context {C N : Type} `{Containerd C} `{Commands N} `{Netlink N}.
Context (f : FirecrackerFactory) (envs : nat → Factory.Env) (late : nat → bool) (downs : nat → Release).
Notation Serving := (Serving (C := C) (N := N) f envs late downs).
#[local] Notation acquire := (acquire f envs late downs).
#[local] Notation kill := (kill f envs late downs).
#[local] Notation acquire_cases := (acquire_cases f envs late downs).
#[local] Notation kill_cases := (kill_cases f envs late downs).

#[export] Instance serving_pool : SessionPool Serving := {|
  pool_reaper := {| KillWorker p id _ :=
    (exist _ (kill (`p) id).1 (proj1 (kill_cases (`p) id (proj2_sig p))), (kill (`p) id).2) |};
  AcquireSession p id cfg :=
    (exist _ (acquire (`p) id cfg).1 (proj1 (acquire_cases (`p) id cfg (proj2_sig p))),
     (acquire (`p) id cfg).2);
  LookupSession p id := lookup (`p) id;
  WarmPoolImage p image :=
    (exist _ (warm (`p) image).1 (proj1 (warm_quiet (`p) image (proj2_sig p))), (warm (`p) image).2);
  live p := view <$> workers_of (`p)
|}.

#[export] Instance serving_laws : PoolLaws Serving.
Proof.
  split; cbn [AcquireSession LookupSession WarmPoolImage KillWorker pool_reaper serving_pool live proj1_sig].
  - intros [n Hq] id cfg. cbn [proj1_sig proj2_sig]. destruct (acquire_cases n id cfg Hq) as [_ Ha].
    destruct (acquire n id cfg).2 as [v|e].
    + destruct Ha as (wk & -> & [[Hw ->]|(Hw & -> & _)]); [left|right]; rewrite lookup_fmap, Hw.
      * done.
      * split; [done|]. apply fmap_insert.
    + by destruct Ha as (_ & -> & _).
  - intros [n Hq] id v. cbn [proj1_sig]. rewrite (lookup_spec n id Hq), lookup_fmap. by intros [= <-].
  - intros [n Hq] image. cbn [proj1_sig proj2_sig fst]. by rewrite (proj2 (warm_quiet n image Hq)).
  - intros [n Hq] id reason. cbn [proj1_sig proj2_sig]. destruct (kill_cases n id Hq) as (_ & -> & -> & _).
    apply fmap_delete.
Qed.

End serving.
End Node.
