(* ===== verification/NodeInv.v ===== *)
(** * What the sessions of a node hold of its host

    A host from which several workers were spawned and not closed is the host of before but
    for what these workers hold: [held] adds up the pending resources of [FactoryInv] over
    the workers.  A spawn adds its own, whether it succeeds or fails, and a close takes them
    away; so the books of a node balance after any history of the daemon in which
    the host refused no release. *)
From stdpp Require Import options.
From S2P Require Import Prelude GoStrings GoNet GoFs Rollback UidPool Ipam PortMgr Registry Pool ImageStore HostNet Tap Lifecycle Service Proxy Daemon Factory FactoryInv FactorySteps FactoryProps Node.
Import Factory.Factory FactoryInv.FactoryInv FactorySteps.FactorySteps.
#[local] Open Scope Z_scope.

Module NodeInv.

(** ** What is pending in two steps *)

Definition pending_app (P Q : pending) : pending := {|
  p_uids := p_uids P ++ p_uids Q; p_ips := p_ips P ++ p_ips Q; p_ports := p_ports P ++ p_ports Q;
  p_taps := p_taps P ++ p_taps Q; p_dirs := p_dirs P ++ p_dirs Q; p_procs := p_procs P ++ p_procs Q;
  p_leases := p_leases P ++ p_leases Q; p_snaps := p_snaps P ++ p_snaps Q; p_maps := p_maps P ++ p_maps Q
|}.

Lemma agree_trans {K V} `{Countable K} (p1 p2 : list K) (m0 m1 m2 : gmap K V) :
  agree p1 m1 m0 → agree p2 m2 m1 → agree (p2 ++ p1) m2 m0.
Proof.
  intros [Ha1 Hn1] [Ha2 Hn2]. split; intros k.
  - intros [H2 H1]%not_elem_of_app. by rewrite Ha2, Ha1.
  - intros [H2|H1]%elem_of_app; [|by apply Hn1]. destruct (decide (k ∈ p1)); [by apply Hn1|].
    rewrite <-Ha1 by done. by apply Hn2.
Qed.

Lemma agree_set_trans p1 p2 X0 X1 X2 :
  agree_set p1 X1 X0 → agree_set p2 X2 X1 → agree_set (p2 ++ p1) X2 X0.
Proof.
  intros [Ha1 Hn1] [Ha2 Hn2]. split; intros k.
  - intros [H2 H1]%not_elem_of_app. by rewrite Ha2, Ha1.
  - intros [H2|H1]%elem_of_app; [|by apply Hn1]. destruct (decide (k ∈ p1)); [by apply Hn1|].
    rewrite <-Ha1 by done. by apply Hn2.
Qed.

Lemma ports_trans p1 p2 m0 m1 m2 : ports_agree p1 m1 m0 → ports_agree p2 m2 m1 → ports_agree (p2 ++ p1) m2 m0.
Proof.
  destruct m0, m1, m2; simpl; try done. intros (? & ? & Ha1 & Hv1) (? & ? & Ha2 & Hv2).
  split_and!; [congruence..| |].
  - rewrite fmap_app. by eapply agree_trans.
  - intros q v Hq. rewrite elem_of_app. destruct (Hv2 q v Hq) as [Hq1|]; [|by right; left].
    destruct (Hv1 q v Hq1); [by left|by right; right].
Qed.

Lemma fs_trans d1 d2 p1 p2 fs0 fs1 fs2 :
  fs_agree d1 p1 fs1 fs0 → fs_agree d2 p2 fs2 fs1 → fs_agree (d2 ++ d1) (p2 ++ p1) fs2 fs0.
Proof.
  intros [Ha1 Hn1] [Ha2 Hn2]. split.
  - intros p Hp. assert (same_file d1 fs1 fs0 p) as S1 by (apply Ha1; intros d Hd; apply Hp, elem_of_app; by right).
    assert (same_file d2 fs2 fs1 p) as S2 by (apply Ha2; intros d Hd; apply Hp, elem_of_app; by left).
    unfold same_file in *. rewrite elem_of_app.
    destruct S1 as [E1|(? & ? & E1)], S2 as [E2|(? & ? & E2)]; rewrite ?E2, ?E1 in *; try done; auto.
  - intros d p [Hd|Hd]%elem_of_app Hu; [|by eapply Hn1].
    destruct (existsb (λ d', under d' p) p1) eqn:Ee.
    + apply existsb_exists in Ee as (d' & Hd'%list_elem_of_In & Hu'). by eapply Hn1.
    + pose proof (Hn2 d p Hd Hu) as E1. destruct (Ha1 p) as [E|(? & ? & E)]; [|congruence..].
      intros d' Hd'. destruct (under d' p) eqn:E; [|done]. exfalso.
      assert (existsb (λ d', under d' p) p1 = true); [|congruence].
      apply existsb_exists. exists d'. by rewrite <-list_elem_of_In.
Qed.

Lemma held_trans p1 p2 i1 i2 :
  agree p2 (Ipam.usedIPs i2) (Ipam.usedIPs i1) → ips_held p1 i1 → ips_held p2 i2 → ips_held (p2 ++ p1) i2.
Proof.
  intros [Ha Hno] [Hn1 Hu1] [Hn2 Hu2]. split.
  - apply NoDup_app. split_and!; [done| |done]. intros s Hs2 Hs1. by apply (Hu1 s Hs1), Hno.
  - intros s [Hs|Hs]%elem_of_app; [by apply Hu2|]. destruct (decide (s ∈ p2)); [by apply Hu2|].
    rewrite Ha by done. by apply Hu1.
Qed.

Lemma chain_rules_app t c ms ms' : chain_rules t c (ms ++ ms') = chain_rules t c ms ++ chain_rules t c ms'.
Proof. unfold chain_rules. repeat case_decide; by rewrite ?fmap_app. Qed.

(** ** What workers hold *)

Definition mappings_of (wk : FirecrackerWorker) : list mapping :=
  (λ pm, mkMapping (HostInterface pm) (HostPort pm) (guestIP wk) (GuestPort pm) (Protocol pm)) <$> portMappings wk.

(** [leaked]: the VMs of failed spawns whose snapshot and lease may be there. *)
Definition held (leaked : list string) (ws : list FirecrackerWorker) : pending := {|
  p_uids := leasedUID <$> ws; p_ips := guestIP <$> ws;
  p_ports := flat_map (λ wk, (λ pm, (HostPort pm, id wk)) <$> portMappings wk) ws;
  p_taps := tapName <$> ws; p_dirs := chrootDir <$> ws; p_procs := id <$> ws;
  p_leases := (ImageStore.leaseKey ∘ id <$> ws) ++ (ImageStore.leaseKey <$> leaked);
  p_snaps := (ImageStore.snapshotKey ∘ id <$> ws) ++ (ImageStore.snapshotKey <$> leaked);
  p_maps := flat_map mappings_of ws
|}.

Lemma held_perm leaked ws ws' : ws ≡ₚ ws' → held leaked ws ≡ held leaked ws'.
Proof.
  intros E. unfold equiv, pending_equiv, held.
  cbn [p_uids p_ips p_ports p_taps p_dirs p_procs p_leases p_snaps p_maps]. split_and!; by rewrite E.
Qed.

(** What the undo actions of a worker's [Close] take back is what it holds. *)
Lemma close_pending leaked wk ws :
  foldr (undo_pending (id wk)) (held leaked ws) (close_undos wk) = held leaked (wk :: ws).
Proof.
  unfold close_undos. rewrite !foldr_app. cbn [foldr].
  set (l := flat_map _ _). assert (foldr (undo_pending (id wk)) (held leaked ws) l =
    mkPending (p_uids (held leaked ws)) (p_ips (held leaked ws))
      (((λ pm, (HostPort pm, id wk)) <$> portMappings wk) ++ p_ports (held leaked ws)) (p_taps (held leaked ws))
      (p_dirs (held leaked ws)) (p_procs (held leaked ws)) (p_leases (held leaked ws)) (p_snaps (held leaked ws))
      (mappings_of wk ++ p_maps (held leaked ws))) as ->; [|done].
  unfold l, mappings_of. induction (portMappings wk) as [|pm pms IH]; [done|].
  cbn [flat_map]. rewrite foldr_app, IH. done.
Qed.

(** ** Paths of different jails *)

Definition jail_base (f : FirecrackerFactory) : string := Clean (JailerChrootBaseDir f +:+ "/firecracker").

Lemma root_path f v :
  HasPrefix (JailerChrootBaseDir f) "/" = true → plain v →
  Dir (chrootRoot f v) = jail_base f +:+ String "/" v ∧ chrootRoot f v = jail_base f +:+ String "/" (v +:+ "/root").
Proof.
  intros Hb Hv. set (y := JailerChrootBaseDir f +:+ "/firecracker").
  assert (plain "root" ∧ plain "firecracker") as [Hr Hf] by done.
  assert (HasPrefix y "/" = true) as Hy by by apply HasPrefix_slash_app.
  assert (Clean y ≠ "/") as Hy' by by apply (Clean_snoc_not_root (JailerChrootBaseDir f) "firecracker").
  assert (clean_abs (jail_base f +:+ String "/" v)) as Hc by (apply clean_abs_child; [by apply clean_abs_Clean|done]).
  assert (chrootRoot f v = (jail_base f +:+ String "/" v) +:+ String "/" "root") as E.
  { unfold jail_base. fold y. rewrite <-Clean_snoc by done. rewrite <-Clean_snoc; [|by apply HasPrefix_slash_app| |done].
    - unfold chrootRoot. cbn [FilepathJoin]. rewrite decide_False by by destruct (JailerChrootBaseDir f). f_equal.
      cbn [Join]. unfold y. by rewrite !string_app_assoc.
    - by apply Clean_snoc_not_root. }
  split; [rewrite E; by apply Dir_child|]. rewrite E. by rewrite string_app_assoc.
Qed.

Lemma under_inv d p : under d p = true → ∃ t, p = d +:+ t.
Proof.
  unfold under. intros [->%bool_decide_eq_true|[t ->]%HasPrefix_inv]%orb_true_iff.
  - exists "". by rewrite string_app_nil_r.
  - rewrite string_app_assoc. by eexists.
Qed.

Lemma Join_take sep ps k : ∃ t, Join sep ps = Join sep (take k ps) +:+ t.
Proof.
  revert k. induction ps as [|p ps IH]; intros k; [exists ""; by rewrite take_nil|].
  destruct k as [|k]; [by eexists|]. cbn [take]. destruct ps as [|p' ps]; [exists ""; by rewrite take_nil, string_app_nil_r|].
  rewrite (Join_cons _ p (p' :: ps)) by done. destruct k as [|k]; [by eexists|].
  rewrite (Join_cons _ p (take (S k) (p' :: ps))) by done. destruct (IH (S k)) as [t ->]. exists t. by rewrite string_app_assoc.
Qed.

Lemma ancestors_inv q p : q ∈ ancestors p → ∃ t, p = q +:+ t.
Proof.
  unfold ancestors. intros [_ (k & -> & _)%list_elem_of_fmap]%list_elem_of_filter.
  destruct (Join_take "/" (Split "/" p) k) as [t E]. rewrite Join_Split in E. by exists t.
Qed.

(** Jails do not overlap, and the directories above one are in no other. *)
Lemma roots_disjoint f v v' p :
  HasPrefix (JailerChrootBaseDir f) "/" = true → plain v → plain v' →
  under (chrootRoot f v) p = true → under (chrootRoot f v') p = true → v = v'.
Proof.
  intros Hb Hv Hv' [t Ht]%under_inv [t' Ht']%under_inv. rewrite Ht in Ht'.
  rewrite (proj2 (root_path f v Hb Hv)), (proj2 (root_path f v' Hb Hv')), !string_app_assoc in Ht'.
  apply (inj (String.append (jail_base f))) in Ht'. simpl in Ht'. injection Ht' as Ht'.
  rewrite !string_app_assoc in Ht'. apply first_byte in Ht' as [? _]; [done|apply Hv|apply Hv'].
Qed.

Lemma jails_outside f v v' q :
  HasPrefix (JailerChrootBaseDir f) "/" = true → plain v → plain v' →
  q ∈ ancestors (Dir (chrootRoot f v)) → under (chrootRoot f v') q = false.
Proof.
  intros Hb Hv Hv' [t Ht]%ancestors_inv. destruct (under (chrootRoot f v') q) eqn:E; [|done]. exfalso.
  apply under_inv in E as [u ->]. rewrite (proj1 (root_path f v Hb Hv)), (proj2 (root_path f v' Hb Hv')), !string_app_assoc in Ht.
  apply (inj (String.append (jail_base f))) in Ht. simpl in Ht. injection Ht as ->.
  destruct Hv as [_ Hv]. rewrite string_app_assoc, contains_byte_app in Hv. simpl in Hv. by rewrite orb_true_r in Hv.
Qed.

Section world.
Context {C N : Type} `{!Containerd C} `{!ContainerdLaws C} `{!Commands N} `{!Netlink N} `{!HostLaws N}.
Notation World := (World (C := C) (N := N)).
#[local] Set Default Proof Using "Type*".

Lemma rules_trans ms1 ms2 (n0 n1 n2 : N) :
  rules_agree ms1 n1 n0 → rules_agree ms2 n2 n1 → rules_agree (ms2 ++ ms1) n2 n0.
Proof.
  intros [Hc1 (x1 & Ho1 & Hx1) Hf1] [Hc2 (x2 & Ho2 & Hx2) Hf2]. split.
  - intros t c Hne. rewrite Hc2, Hc1, chain_rules_app by done.
    rewrite <-app_assoc. f_equiv. apply Permutation_app_comm.
  - exists (x2 ++ x1). split; [by rewrite Ho2, Ho1, <-app_assoc, (Permutation_app_comm x1)|].
    unfold out_rules. rewrite omap_app. by apply submseteq_app.
  - apply Forall_app. split; [|done]. eapply Forall_impl; [exact Hf2|]. intros m Hm Hin. apply Hm.
    rewrite Ho1. apply elem_of_app. by left.
Qed.

Lemma agrees_trans d1 d2 P1 P2 (w0 w1 w2 : World) :
  agrees d1 P1 w0 w1 → agrees d2 P2 w1 w2 → agrees (d2 ++ d1) (pending_app P2 P1) w0 w2.
Proof.
  intros [U1 N1 V1 I1 S1 O1 T1 F1 R1 L1 K1 M1 H1] [U2 N2 V2 I2 S2 O2 T2 F2 R2 L2 K2 M2 H2].
  split; cbn [pending_app p_uids p_ips p_ports p_taps p_dirs p_procs p_leases p_snaps p_maps];
    try (by eapply agree_trans); try (by eapply agree_set_trans); try (by eapply ports_trans);
    try (by eapply fs_trans); try (by eapply rules_trans); [|congruence|done|auto|by eapply held_trans].
  destruct U1 as [C1 B1 E1 X1], U2 as [C2 B2 E2 X2]. split; [congruence..|]. by rewrite app_assoc, X2.
Qed.

(** *** Closing a worker *)

(** A worker whose fields [Close] does not skip. *)
Definition closable (wk : FirecrackerWorker) : Prop := chrootDir wk ≠ "" ∧ guestIP wk ≠ "" ∧ leasedUID wk ≠ 0.

Lemma close_held dirs r leaked wk ws (w0 w : World) :
  uids_ok w0 → closable wk → kept (Close r wk w) = false → agrees dirs (held leaked (wk :: ws)) w0 w →
  agrees dirs (held leaked ws) w0 (Close r wk w).
Proof.
  intros Hu (Hd & Hi & Hl) Hk Ha. rewrite Close_rollback, closing_undos in * by done.
  rewrite <-(close_pending leaked wk ws) in Ha. revert Hk. unfold rollback.
  apply (rollback_inv _ (λ w st, kept w = false → agrees dirs (foldr (undo_pending (id wk)) (held leaked ws) st) w0 w)); [|done].
  intros w' u st Hw Hk. apply run_undo_agrees; [done..|]. apply Hw. by eapply run_undo_mono.
Qed.

(** *** The books of a host

    [U]: the names that sessions may have.  The host [w0] of the beginning had nothing in any
    of them ([ready]: each is one element of a path, and there is no file below its chroot, no
    link by its tap's name, no process, port, lease or snapshot of it), and no two have the
    same tap, which is named by their last eight bytes. *)
Record fits (f : FirecrackerFactory) (U : string → Prop) (w0 : World) : Prop := {
  fit_v4 : length (Ipam.nextIP (w_ipam w0)) = 4%nat;
  fit_ready v : U v → ready f v w0;
  fit_taps v v' : U v → U v' → tap_name v = tap_name v' → v = v'
}.

Definition own (f : FirecrackerFactory) (U : string → Prop) (wk : FirecrackerWorker) : Prop :=
  U (id wk) ∧ chrootDir wk = chrootRoot f (id wk) ∧ tapName wk = tap_name (id wk) ∧ closable wk.

Definition outside (f : FirecrackerFactory) (U : string → Prop) (dirs : list string) : Prop :=
  ∀ q v, q ∈ dirs → U v → under (chrootRoot f v) q = false.

Definition books (f : FirecrackerFactory) (U : string → Prop) (w0 : World) (leaked : list string)
    (ws : list FirecrackerWorker) (w : World) : Prop :=
  Forall (own f U) ws ∧ ∃ dirs, outside f U dirs ∧ agrees dirs (held leaked ws) w0 w.

Lemma Itoa_no_colon z : contains_byte ":" (Itoa z) = false.
Proof.
  destruct (decide (0 ≤ z)); [by apply Itoa_no_byte|]. destruct z as [|p|p]; [lia..|].
  change (Itoa (Z.neg p)) with ("-" +:+ Itoa (Z.pos p)). rewrite contains_byte_app, Itoa_no_byte by done. done.
Qed.

(** The address of an OUTPUT rule can be read off it. *)
Lemma output_spec_ip hp ip gp proto hp' ip' gp' proto' :
  HostNet.output_spec hp ip gp proto = HostNet.output_spec hp' ip' gp' proto' → ip = ip'.
Proof. intros [= _ _ E]. by apply last_byte in E as [-> _]; [|apply Itoa_no_colon..]. Qed.

(** A new session finds its part of the host as it was in the beginning. *)
Lemma books_ready f U w0 leaked ws w v :
  fits f U w0 → books f U w0 leaked ws w → U v → v ∉ id <$> ws → v ∉ leaked → ready f v w.
Proof.
  intros [_ Hfit Htaps] [Hown (dirs & Hdirs & [Hu Hn Hv Hi Hus Hp Ht Hd Hpr Hl Hs Hr Hh])] HU Hids Hleak.
  pose proof (Hfit v HU) as H0. rewrite Forall_forall in Hown.
  cbn [held p_uids p_ips p_ports p_taps p_dirs p_procs p_leases p_snaps p_maps] in *.
  destruct Hu as [Ec Es Ee Ech]. split.
  - rewrite Es. apply H0.
  - rewrite Es, Ee. pose proof (ready_range f v w0 H0) as Hr0. rewrite <-Ech in Hr0. by apply Forall_app in Hr0 as [? _].
  - rewrite Ec. pose proof (ready_cap f v w0 H0). apply Permutation_length in Ech. rewrite length_app in Ech. lia.
  - split; [done|]. rewrite Hn. apply H0.
  - apply Hus, H0.
  - destruct (ready_ports f v w0 H0) as (p0 & E0 & Hp1 & Hp2 & Hp3). rewrite E0 in Hp.
    destruct (w_ports w) as [p|]; [|done]. destruct Hp as (E1 & E2 & _ & Hpv). exists p.
    split_and!; [done|congruence|congruence|]. intros q Hq. destruct (Hpv q v Hq) as [?|Hin]; [by eapply Hp3|].
    apply Hids. apply list_elem_of_In, in_flat_map in Hin as (wk & Hwk%list_elem_of_In & Hin%list_elem_of_In).
    apply list_elem_of_fmap in Hin as (pm & [= _ ->] & _). by apply list_elem_of_fmap_2.
  - destruct Ht as [Ht _]. rewrite Ht; [apply H0|]. intros (wk & E & Hwk)%list_elem_of_fmap.
    destruct (Hown wk Hwk) as (HUk & _ & Etap & _). rewrite Etap in E. apply Hids.
    rewrite (Htaps _ _ HU HUk E). by apply list_elem_of_fmap_2.
  - apply H0.
  - apply H0.
  - intros p Hup. destruct Hd as [Hd _]. destruct (Hd p) as [->|(Hin & _)]; [|by apply H0|by rewrite (Hdirs p v) in Hup].
    intros d (wk & -> & Hwk)%list_elem_of_fmap. destruct (Hown wk Hwk) as (HUk & -> & _).
    destruct (under (chrootRoot f (id wk)) p) eqn:E; [|done]. exfalso. apply Hids.
    rewrite (roots_disjoint f v (id wk) p); [by apply list_elem_of_fmap_2|apply H0|apply H0|apply (Hfit _ HUk)|done|done].
  - destruct Hpr as [Hpr _]. rewrite Hpr by done. apply H0.
  - destruct Hl as [Hl _]. rewrite Hl; [apply H0|]. rewrite not_elem_of_app. split.
    + intros (wk & E & Hwk)%list_elem_of_fmap. apply Hids. simpl in E. unfold ImageStore.leaseKey in E.
      apply (inj (String.append "lease-vm-")) in E as ->. by apply list_elem_of_fmap_2.
    + intros (v' & E & Hv')%list_elem_of_fmap. apply (inj (String.append "lease-vm-")) in E as ->. done.
  - destruct Hs as [Hs _]. rewrite Hs; [apply H0|]. rewrite not_elem_of_app. split.
    + intros (wk & E & Hwk)%list_elem_of_fmap. apply Hids. simpl in E. unfold ImageStore.snapshotKey in E.
      apply (inj (String.append "herd-vm-")) in E as ->. by apply list_elem_of_fmap_2.
    + intros (v' & E & Hv')%list_elem_of_fmap. apply (inj (String.append "herd-vm-")) in E as ->. done.
  - intros hp ip gp proto Hip. destruct Hr as [_ (x & Ho & Hx) _]. rewrite Ho, not_elem_of_app. split.
    + apply H0. destruct Hi as [Hi1 Hi2]. destruct (decide (ip ∈ guestIP <$> ws)); [by apply Hi2|]. by rewrite <-Hi1.
    + intros Hin. apply (elem_of_submseteq _ _ _ Hin), list_elem_of_omap in Hx as (m & Hm & E).
      case_match; [|done]. apply (inj Some), output_spec_ip in E. apply list_elem_of_In, in_flat_map in Hm as (wk & Hwk & Hm).
      apply list_elem_of_In, list_elem_of_fmap in Hm as (pm & -> & _). cbn in E. subst ip.
      destruct Hh as [_ Hh]. apply (Hh (guestIP wk)); [|done]. apply list_elem_of_fmap_2. by apply list_elem_of_In.
Qed.

(** *** The operations of the pool keep the books *)

Lemma pending_of_close v wk :
  id wk = v → pending_of v false (close_undos wk) = held [] [wk].
Proof.
  intros <-. rewrite <-close_pending. generalize (close_undos wk). intros st.
  induction st as [|u st IH]; [done|]. cbn [foldr]. rewrite <-IH. by destruct u.
Qed.

Lemma pending_app_held leaked leaked' ws ws' :
  pending_app (held leaked ws) (held leaked' ws') ≡ held (leaked ++ leaked') (ws ++ ws').
Proof.
  unfold equiv, pending_equiv, pending_app, held.
  cbn [p_uids p_ips p_ports p_taps p_dirs p_procs p_leases p_snaps p_maps].
  rewrite !fmap_app, !flat_map_app. split_and!; try done.
  all: by rewrite <-!app_assoc, (app_assoc (_ <$> leaked)), (Permutation_app_comm (_ <$> leaked)), <-app_assoc.
Qed.

Lemma books_perm f U w0 leaked ws ws' w : ws ≡ₚ ws' → books f U w0 leaked ws w → books f U w0 leaked ws' w.
Proof.
  intros E [Ho (dirs & Hd & Ha)]. split; [by rewrite <-E|]. exists dirs. by rewrite <-(held_perm leaked _ _ E).
Qed.

(** What a step on the host adds to the books. *)
Lemma books_step f U w0 leaked ws w v leaked' ws' (w' : World) :
  fits f U w0 → U v → Forall (own f U) ws' → agrees (ancestors (Dir (chrootRoot f v))) (held leaked' ws') w w' →
  books f U w0 leaked ws w → books f U w0 (leaked' ++ leaked) (ws' ++ ws) w'.
Proof.
  intros [_ Hfit _] HU Hown Ha [Ho (dirs & Hd & Hb)]. split; [by apply Forall_app|].
  exists (ancestors (Dir (chrootRoot f v)) ++ dirs). split.
  - intros q v' [Hq|Hq]%elem_of_app HU'; [|by apply Hd].
    apply (jails_outside f v v' q); [apply (Hfit v HU)|apply (Hfit v HU)|apply (Hfit v' HU')|done].
  - rewrite <-pending_app_held. by eapply agrees_trans.
Qed.

Lemma books_spawn f U w0 leaked ws env w v cfg :
  fits f U w0 → books f U w0 leaked ws w → U v → v ∉ id <$> ws → v ∉ leaked →
  match Spawn f env w v cfg with
  | (Ok wk, w') => books f U w0 leaked (wk :: ws) w'
  | (Err _, w') => kept w' = false → books f U w0 (v :: leaked) ws w'
  end.
Proof.
  intros Hf Hb HU Hids Hleak. pose proof (books_ready f U w0 leaked ws w v Hf Hb HU Hids Hleak) as Hr.
  unfold Spawn. destruct (spawn_body f env v cfg (w, [])) as [r [w1 st]] eqn:Eb.
  pose proof (spawn_triple f env v w Hr cfg w r w1 st (FactoryProps.FactoryProps.inv_start f v w Hr) Eb) as Ht.
  destruct r as [wk|e].
  - destruct Ht as (Hinv & Hid & Hroot & Hip & Hu & Htap & Hst).
    apply (FactoryProps.FactoryProps.inv_perm _ _ _ _ _ _ _ Hst), FactoryProps.FactoryProps.inv_drop in Hinv. unfold inv in Hinv.
    rewrite pending_of_close in Hinv by done. apply (books_step f U w0 leaked ws w v [] [wk]); try done.
    apply Forall_singleton. unfold own, closable. rewrite Hid, Hroot. split_and!; try done.
    apply FactoryProps.FactoryProps.path_nonempty.
  - intros Hk. apply (spawn_rollback_inv f env v w Hr) in Ht; [|done]. apply (inv_leak_or f env v w Hr _ true) in Ht. rewrite orb_true_r in Ht.
    by apply (books_step f U w0 leaked ws w v [v] []).
Qed.

Lemma books_leak f U w0 leaked ws w v :
  fits f U w0 → books f U w0 leaked ws w → U v → v ∉ id <$> ws → v ∉ leaked → books f U w0 (v :: leaked) ws w.
Proof.
  intros Hf Hb HU Hids Hleak. pose proof (books_ready f U w0 leaked ws w v Hf Hb HU Hids Hleak) as Hr.
  apply (books_step f U w0 leaked ws w v [v] []); try done.
  apply (inv_leak f (close_env (mkRelease (λ _, false) false)) v w Hr true w []). by apply FactoryProps.FactoryProps.inv_start.
Qed.

Lemma books_close f U w0 r leaked wk ws w :
  fits f U w0 → kept (Close r wk w) = false → books f U w0 leaked (wk :: ws) w → books f U w0 leaked ws (Close r wk w).
Proof.
  intros [_ Hfit _] Hk [[Hwk Ho]%Forall_cons (dirs & Hd & Ha)]. split; [done|]. exists dirs. split; [done|].
  destruct Hwk as (HU & _ & _ & Hc). apply close_held; [|done..].
  pose proof (Hfit _ HU) as Hr. split; apply Hr.
Qed.

Lemma books_warm f U w0 leaked ws w image :
  books f U w0 leaked ws w →
  books f U w0 leaked ws (set_storage (ImageStore.WarmImage (w_storage w) image).1 w).
Proof.
  intros [Ho (dirs & Hd & Ha)]. split; [done|]. exists dirs. split; [done|].
  destruct (ImageStore.WarmImage (w_storage w) image) as [m e] eqn:Ew. apply ImageStore.WarmImage_spec in Ew as [Es El].
  destruct Ha. split; simpl in *; rewrite ?El, ?Es; done.
Qed.

(** *** What the books say *)

(** Two workers with different names share nothing. *)
Lemma books_isolated f U w0 leaked ws w :
  fits f U w0 → books f U w0 leaked ws w → NoDup (id <$> ws) → NoDup (UidPool.ch (w_uids w0)) →
  NoDup (leasedUID <$> ws) ∧ NoDup (guestIP <$> ws) ∧ NoDup (tapName <$> ws) ∧
  ∀ wk wk' p, wk ∈ ws → wk' ∈ ws → under (chrootDir wk) p = true → under (chrootDir wk') p = true → wk = wk'.
Proof.
  intros Hfits [Hown (dirs & _ & Ha)] Hids Hnd. rewrite Forall_forall in Hown.
  split; [|split; [apply (inv_held _ _ _ _ Ha)|split]].
  - rewrite <-(ua_ch _ _ _ (inv_uids _ _ _ _ Ha)) in Hnd. by apply NoDup_app in Hnd as (_ & _ & ?).
  - apply NoDup_fmap_2_strong; [|by apply NoDup_fmap_1 in Hids].
    intros wk wk' Hin Hin'. destruct (Hown wk Hin) as (HU & _ & -> & _), (Hown wk' Hin') as (HU' & _ & -> & _).
    intros E%(fit_taps _ _ _ Hfits); [|done..]. by eapply NoDup_fmap_eq.
  - intros wk wk' p Hin Hin'. destruct (Hown wk Hin) as (HU & -> & _), (Hown wk' Hin') as (HU' & -> & _).
    intros Hp Hp'. eapply (NoDup_fmap_eq id); [done..|].
    pose proof (fit_ready _ _ _ Hfits _ HU) as Hr. pose proof (fit_ready _ _ _ Hfits _ HU') as Hr'.
    by apply (roots_disjoint f _ _ p); [apply Hr|apply Hr|apply Hr'|..].
Qed.

(** What is taken is what the workers have. *)
Lemma books_accounts f U w0 leaked ws w :
  books f U w0 leaked ws w →
  let ms := flat_map mappings_of ws in
  UidPool.ch (w_uids w) ++ (leasedUID <$> ws) ≡ₚ UidPool.ch (w_uids w0) ∧
  (∀ s, is_Some (Ipam.usedIPs (w_ipam w) !! s) ↔ is_Some (Ipam.usedIPs (w_ipam w0) !! s) ∨ s ∈ guestIP <$> ws) ∧
  (∀ wk, wk ∈ ws → Ipam.usedIPs (w_ipam w0) !! guestIP wk = None ∧ tapName wk ∉ links (w_net w0)) ∧
  (∀ x, x ∉ tapName <$> ws → (x ∈ links (w_net w) ↔ x ∈ links (w_net w0))) ∧
  (∀ v, v ∉ id <$> ws → w_procs w !! v = w_procs w0 !! v) ∧
  rules (w_net w) "nat" "PREROUTING" ≡ₚ rules (w_net w0) "nat" "PREROUTING" ++ (m_dnat <$> ms) ∧
  rules (w_net w) "filter" "FORWARD" ≡ₚ rules (w_net w0) "filter" "FORWARD" ++ (m_forward <$> ms).
Proof.
  intros [_ (dirs & _ & Ha)] ms.
  destruct Ha as [Hu _ _ [Hi Hno] _ _ [Ht Htno] _ [Hp _] _ _ Hr [_ Hheld]].
  cbn [held p_uids p_ips p_taps p_procs p_maps] in *. fold ms in Hr.
  split_and!; [apply Hu|..].
  - intros s. destruct (decide (s ∈ guestIP <$> ws)) as [Hin|Hin].
    + split; [by right|]. intros _. by apply not_eq_None_Some, Hheld.
    + rewrite Hi by done. naive_solver.
  - intros wk Hwk. split; [apply Hno|apply Htno]; by apply list_elem_of_fmap_2.
  - intros x Hx. by rewrite Ht.
  - done.
  - by rewrite (ra_chains _ _ _ Hr) by (by intros [_ ?]).
  - by rewrite (ra_chains _ _ _ Hr) by (by intros [? _]).
Qed.

(** With no worker, what is there is what was there. *)
Lemma books_idle f U w0 leaked w :
  books f U w0 leaked [] w →
  (∃ dirs, outside f U dirs ∧ same_host dirs w0 w) ∧
  agree_set (ImageStore.leaseKey <$> leaked) (leases (ImageStore.client (w_storage w)))
    (leases (ImageStore.client (w_storage w0))) ∧
  agree_set (ImageStore.snapshotKey <$> leaked) (snapshots (ImageStore.client (w_storage w)))
    (snapshots (ImageStore.client (w_storage w0))) ∧
  (leaked = [] → same_storage w0 w).
Proof.
  intros [_ (dirs & Hout & Ha)]. split; [exists dirs; split; [done|by apply (agrees_same_host _ (held leaked []))]|].
  destruct Ha as [? ? ? ? ? ? ? ? ? Hl Hs ? ?]. split; [done|]. split; [done|]. intros ->.
  split; by apply agree_set_nil.
Qed.

(** Workers that are closed one after the other, each with what may go wrong then. *)
Lemma closes_mono (l : list (Release * FirecrackerWorker)) (w : World) :
  kept (foldl (λ h rw, Close rw.1 rw.2 h) w l) = false → kept w = false.
Proof. revert w. induction l as [|[r wk] l IH]; intros w; [done|]. cbn [foldl]. by intros ?%IH%Close_mono. Qed.

Lemma books_closes f U w0 leaked (l : list (Release * FirecrackerWorker)) (w : World) :
  fits f U w0 → kept (foldl (λ h rw, Close rw.1 rw.2 h) w l) = false → books f U w0 leaked l.*2 w →
  books f U w0 leaked [] (foldl (λ h rw, Close rw.1 rw.2 h) w l).
Proof.
  intros Hf. revert w. induction l as [|[r wk] l IH]; intros w Hk Hb; [done|]. cbn [foldl] in *. apply IH; [done|].
  apply books_close; [done|by apply closes_mono in Hk|done].
Qed.

End world.
End NodeInv.
