(* ===== verification/NodeProps.v ===== *)
(** * What holds of a node in every history

    The daemon of [Daemon] on the pool of [Node] over the host of [Factory]: sessions are
    created, deleted, proxied to and reaped in any order, and the host's books balance all
    the way.  This puts the whole program together: nothing about the pool is assumed, and of
    the host that what it is asked to release is released, as far as the world remembers
    ([Factory.kept]).

    The histories are those over session names that the factory can keep apart ([fits] of
    [NodeInv]): each is one element of a path, no two have the same last eight bytes, by which
    the tap is named, and the host had nothing in any of them before.  The code checks none of
    that; [FactoryFiles.session_id_escapes] and [VmConfig.taps_collide] are what happens
    otherwise.  And a name is not used again after a creation under it has failed, since its
    snapshot may still be there. *)
From stdpp Require Import options.
From S2P Require Import Prelude GoStrings GoNet GoFs Rollback UidPool Ipam PortMgr Registry Pool ImageStore HostNet Tap Lifecycle Service Proxy Daemon Factory FactoryInv FactorySteps FactoryProps Node NodeInv.
Import Factory.Factory FactoryInv.FactoryInv FactorySteps.FactorySteps NodeInv.NodeInv.
#[local] Open Scope Z_scope.

#[local] Existing Instances Node.serving_pool Node.serving_laws.

Module NodeProps.

(** ** Histories of a daemon over any pool *)

Section daemon.
Context {P : Type} `{PoolLaws P} (U : string → Prop).
Implicit Types (m : Lifecycle.Manager (K := P)) (c : Daemon.Controller (P := P)).

(** The names that the environment makes up and the clients ask for are those of [U].  A
    session may come back under the name of one that is gone, but not under one whose
    creation failed: its snapshot may be there still. *)
Definition asked (env : Daemon.Env) (r : Daemon.request) : list string :=
  match r with
  | Daemon.Create (Some (Ok req)) =>
      [if decide (Daemon.SessionID req = "") then Daemon.uuid env else Daemon.SessionID req]
  | _ => []
  end.

Definition leaks (env : Daemon.Env) (r : Daemon.request) (a : Daemon.reply) : list string :=
  match a with
  | Daemon.Plain _ msg => if decide (msg = "failed to acquire session") then asked env r else []
  | _ => []
  end.

Inductive history (n0 : P) : list string → Daemon.Controller (P := P) → Prop :=
  | history_start : history n0 [] (Daemon.start n0)
  | history_request leaked c env r c' a :
      history n0 leaked c → Forall (λ v, U v ∧ v ∉ leaked) (asked env r) → Daemon.handle env c r = (c', a) →
      history n0 (leaks env r a ++ leaked) c'
  | history_proxy_begin leaked c id :
      history n0 leaked c → id ≠ "" →
      history n0 leaked (Daemon.set_manager (Proxy.enter Proxy.NewDataPlaneHandler (Daemon.lifecycleManager c) id) c)
  | history_proxy_end leaked c t id deadline :
      history n0 leaked c → id ≠ "" →
      history n0 leaked (Daemon.set_manager (Proxy.leave Proxy.NewDataPlaneHandler (Daemon.lifecycleManager c) t id deadline) c)
  | history_sweep leaked c t order :
      history n0 leaked c → order ≡ₚ map_to_list (Lifecycle.registry (Daemon.lifecycleManager c)) →
      history n0 leaked (Daemon.set_manager (Lifecycle.sweep (Daemon.lifecycleManager c) t order) c).

Lemma history_steps n0 leaked c : history n0 leaked c → rtc Daemon.step (Daemon.start n0) c.
Proof.
  induction 1; [apply rtc_refl|eapply rtc_r; [done|]..]; by econstructor.
Qed.

(** *** What the calls of the pool keep, the daemon keeps *)

Context (Q : list string → P → Prop).
Context (Q_kill : ∀ leaked p id reason, Q leaked p → Q leaked (KillWorker p id reason).1).
Context (Q_warm : ∀ leaked p image, Q leaked p → Q leaked (WarmPoolImage p image).1).
Context (Q_acquire : ∀ leaked p v cfg, U v → v ∉ leaked → Q leaked p →
  match AcquireSession p v cfg with (p', Ok _) => Q leaked p' | (p', Err _) => Q (v :: leaked) p' end).
#[local] Set Default Proof Using "All".

Lemma kill_keeps leaked m id reason : Q leaked (Lifecycle.reaper m) → Q leaked (Lifecycle.reaper (Lifecycle.kill m id reason).1).
Proof.
  intros Hm%(Q_kill _ _ id reason). unfold Lifecycle.kill. by destruct (KillWorker (Lifecycle.reaper m) id reason).
Qed.

Lemma unregister_keeps leaked m id reason :
  Q leaked (Lifecycle.reaper m) → Q leaked (Lifecycle.reaper (Lifecycle.UnregisterAndKill m id reason).1).
Proof. apply (kill_keeps leaked (Lifecycle.Remove m id)). Qed.

Lemma sweep_keeps leaked m t order : Q leaked (Lifecycle.reaper m) → Q leaked (Lifecycle.reaper (Lifecycle.sweep m t order)).
Proof.
  unfold Lifecycle.sweep. revert m. induction order as [|[id ptr] order IH]; intros m Hm; [done|]. simpl.
  destruct (_ ≫= _); apply IH; [by apply unregister_keeps|done].
Qed.

Lemma enter_keeps leaked m id :
  Q leaked (Lifecycle.reaper m) → Q leaked (Lifecycle.reaper (Proxy.enter Proxy.NewDataPlaneHandler m id)).
Proof. intros Hm. cbn. unfold Lifecycle.BeginRequest. by destruct (Lifecycle.registry m !! id). Qed.

Lemma leave_keeps leaked m t id deadline :
  Q leaked (Lifecycle.reaper m) → Q leaked (Lifecycle.reaper (Proxy.leave Proxy.NewDataPlaneHandler m t id deadline)).
Proof.
  intros Hm. cbn. unfold Lifecycle.EndRequest.
  destruct (Lifecycle.registry m !! id); [|done]. destruct deadline; [|done]. by apply kill_keeps.
Qed.

Lemma create_keeps leaked (c : Daemon.Controller (P := P)) env req :
  let v := if decide (Daemon.SessionID req = "") then Daemon.uuid env else Daemon.SessionID req in
  U v → v ∉ leaked → Q leaked (Daemon.pool c) →
  match Daemon.CreateSession env c req with
  | (c', Ok _) => Q leaked (Daemon.pool c')
  | (c', Err msg) => Q ((if decide (msg = "failed to acquire session") then [v] else []) ++ leaked) (Daemon.pool c')
  end.
Proof.
  intros v HU Hleak Hb. unfold Daemon.CreateSession. fold v. cbv zeta.
  set (w := if Daemon.Warm req then _ else _).
  assert (Q leaked w.1) as Hw by (unfold w; destruct (Daemon.Warm req); [by apply Q_warm|done]).
  destruct w as [p [e|]]; [by rewrite decide_False|]. unfold Daemon.acquire_and_register.
  pose proof (Q_acquire leaked p v (Daemon.tenantConfig req) HU Hleak Hw) as Ha.
  change (Daemon.pool (Daemon.on_pool p _)) with p.
  destruct (AcquireSession p v (Daemon.tenantConfig req)) as [p' [vw|e]]; [done|]. by rewrite decide_True.
Qed.

Lemma handle_keeps leaked (c c' : Daemon.Controller (P := P)) env r a :
  Forall (λ v, U v ∧ v ∉ leaked) (asked env r) → Daemon.handle env c r = (c', a) →
  Q leaked (Daemon.pool c) → Q (leaks env r a ++ leaked) (Daemon.pool c').
Proof.
  intros Hasked E Hb. destruct r as [|body|order encodes|v|v|v|v|[image|]]; cbn [Daemon.handle asked] in *.
  - by simplify_eq.
  - unfold Daemon.handleCreateSession in E. destruct body as [[req|]|]; [|by simplify_eq..].
    case_decide; [by simplify_eq|]. apply Forall_singleton in Hasked as [HU Hleak].
    pose proof (create_keeps leaked c env req HU Hleak Hb) as Hc.
    destruct (Daemon.CreateSession env c req) as [c1 [resp|e]]; by simplify_eq.
  - destruct encodes; by simplify_eq.
  - case_decide; [by simplify_eq|]. unfold Daemon.DeleteSession in E.
    pose proof (unregister_keeps leaked (Daemon.lifecycleManager c) v "api_requested" Hb) as Hu.
    destruct (Lifecycle.UnregisterAndKill _ _ _) as [m [e|]] eqn:Eu; simplify_eq/=; [|done].
    case_decide; [|done]. done.
  - case_decide; [by simplify_eq|]. destruct (Daemon.GetLogs env c v); simplify_eq; [done|].
    cbn [leaks asked]. by case_decide.
  - simplify_eq. by destruct (Daemon.handleExecSession _ _ _); cbn [leaks asked]; try case_decide.
  - case_decide; simplify_eq; [done|]. unfold Daemon.UpdateHeartbeat, Lifecycle.UpdateHeartbeat.
    by destruct (Lifecycle.registry _ !! v).
  - case_decide; [by simplify_eq|]. unfold Daemon.WarmImage in E.
    pose proof (Q_warm leaked (Daemon.pool c) image Hb) as Hw.
    destruct (WarmPoolImage (Daemon.pool c) image) as [p [e|]]; simplify_eq; [|done].
    cbn [leaks asked]. by case_decide.
  - by simplify_eq.
Qed.

Lemma history_keeps n0 leaked c : Q [] n0 → history n0 leaked c → Q leaked (Daemon.pool c).
Proof.
  intros H0'. induction 1 as [|leaked c env r c' a _ IH Hasked E|leaked c id _ IH Hid|leaked c t id deadline _ IH Hid|leaked c t order _ IH Ho].
  - done.
  - by eapply handle_keeps.
  - by apply enter_keeps.
  - by apply leave_keeps.
  - by apply sweep_keeps.
Qed.

End daemon.

Section node.
Context {C N : Type} `{!Containerd C} `{!ContainerdLaws C} `{!Commands N} `{!Netlink N} `{!HostLaws N}.
Context (f : FirecrackerFactory) (envs : nat → Factory.Env) (late : nat → bool) (downs : nat → Release).
Context (U : string → Prop) (w0 : World (C := C) (N := N)).
Context (Hfits : fits f U w0).
#[local] Set Default Proof Using "Type*".
Notation Node := (Node.Node (C := C) (N := N)).
Notation Serving := (Node.Serving (C := C) (N := N) f envs late downs).

(** The node of a daemon. *)
Notation node_of c := (proj1_sig (Daemon.pool (P := Serving) c)).

(** ** The books of a node *)

Definition crew (n : Node) : list FirecrackerWorker := (map_to_list (Node.workers_of n)).*2.

(** They balance if nothing was kept that was to be released. *)
Definition balanced (leaked : list string) (n : Serving) : Prop :=
  kept (Node.n_host (`n)) = false → books f U w0 leaked (crew (`n)) (Node.n_host (`n)).

Lemma crew_ids n v : Node.quiet n → v ∈ id <$> crew n → ∃ wk, Node.workers_of n !! v = Some wk.
Proof.
  intros Hq (wk & -> & ([v' wk'] & -> & Hin%elem_of_map_to_list)%list_elem_of_fmap)%list_elem_of_fmap.
  cbn [snd]. exists wk'. by rewrite (Node.workers_of_ids n v' wk' Hq Hin).
Qed.

Lemma crew_fst n : Node.quiet n → id <$> crew n = (map_to_list (Node.workers_of n)).*1.
Proof.
  intros Hq. unfold crew. rewrite <-list_fmap_compose. apply list_fmap_ext. intros i [v wk] Hi%list_elem_of_lookup_2%elem_of_map_to_list.
  by apply (Node.workers_of_ids n v wk Hq).
Qed.

Lemma crew_NoDup n : Node.quiet n → NoDup (id <$> crew n).
Proof. intros Hq. rewrite (crew_fst n Hq). apply NoDup_fst_map_to_list. Qed.

Lemma balanced_kill leaked (n : Serving) v reason : balanced leaked n → balanced leaked (KillWorker n v reason).1.
Proof.
  destruct n as [n Hq]. unfold balanced. cbn [KillWorker pool_reaper Node.serving_pool proj1_sig proj2_sig fst].
  destruct (Node.kill_cases f envs late downs n v Hq) as (_ & _ & Hw & Hh). unfold crew. rewrite Hw.
  destruct (Node.workers_of n !! v) as [wk|] eqn:E.
  - destruct Hh as [o ->]. intros Hb Hk. pose proof (Close_mono _ _ _ Hk) as Hk0.
    apply (books_close f U w0 _ leaked wk); [done|done|].
    eapply books_perm; [|exact (Hb Hk0)]. unfold crew. by rewrite <-(map_to_list_delete _ _ _ E).
  - by rewrite Hh, delete_id.
Qed.

Lemma balanced_warm leaked (n : Serving) image : balanced leaked n → balanced leaked (WarmPoolImage n image).1.
Proof.
  destruct n as [n Hq]. unfold balanced. cbn [WarmPoolImage Node.serving_pool proj1_sig fst].
  unfold crew. rewrite (proj2 (Node.warm_quiet n image Hq)). unfold Node.warm.
  pose proof (ImageStore.WarmImage_kept (w_storage (Node.n_host n)) image) as Ek. intros Hb.
  pose proof (λ Hk, books_warm _ _ _ _ _ _ image (Hb Hk)) as Hb'. revert Ek Hb'.
  destruct (ImageStore.WarmImage _ image) as [m e]. intros Ek Hb' Hk. apply Hb'. by apply (kept_storage _ m).
Qed.

Lemma balanced_acquire leaked (n : Serving) v cfg :
  U v → v ∉ leaked → balanced leaked n →
  match AcquireSession n v cfg with
  | (n', Ok _) => balanced leaked n'
  | (n', Err _) => balanced (v :: leaked) n'
  end.
Proof.
  intros HU Hleak. destruct n as [n Hq]. unfold balanced. cbn [AcquireSession Node.serving_pool proj1_sig proj2_sig].
  destruct (Node.acquire_cases f envs late downs n v cfg Hq) as [_ Ha]. intros Hb.
  assert (Node.workers_of n !! v = None → v ∉ id <$> crew n) as Hids.
  { intros Hn Hin. apply crew_ids in Hin as [wk Hwk]; [|done]. congruence. }
  pose proof (λ Hk, books_spawn f U w0 leaked (crew n) (envs (Node.n_turns n)) (Node.n_host n) v cfg Hfits (Hb Hk) HU) as Hs.
  pose proof (Spawn_mono f (envs (Node.n_turns n)) (Node.n_host n) v cfg) as Hm.
  destruct (Node.acquire f envs late downs n v cfg).2 as [vw|e].
  - destruct Ha as (wk & _ & [[_ ->]|(Hn & Hw & Esp)]); [done|]. rewrite Esp in Hs, Hm. intros Hk.
    eapply books_perm; [|apply (Hs (Hm Hk)); [by apply Hids|done]]. unfold crew. by rewrite Hw, map_to_list_insert.
  - destruct Ha as (Hn & Hw & Hh). unfold crew. rewrite Hw. intros Hk. destruct Hh as [[_ Eh]|[e' Esp]].
    + rewrite Eh in *. apply books_leak; [done|by apply Hb|done|by apply Hids|done].
    + rewrite Esp in Hs, Hm. apply (Hs (Hm Hk)); [by apply Hids|done..].
Qed.

Lemma history_balanced (n0 : Serving) leaked c :
  Node.n_host (`n0) = w0 → Node.workers_of (`n0) = ∅ → history U n0 leaked c → balanced leaked (Daemon.pool c).
Proof.
  intros Hh Hw. apply history_keeps.
  - apply balanced_kill.
  - apply balanced_warm.
  - apply balanced_acquire.
  - unfold balanced, crew. rewrite Hh, Hw, map_to_list_empty. intros _. split; [done|]. exists [].
    split; [by intros q v ?%not_elem_of_nil|]. apply FactoryProps.FactoryProps.agrees_refl, Hfits.
Qed.

Lemma serving_live (n : Serving) : live n = Node.view <$> Node.workers_of (`n).
Proof. reflexivity. Qed.

Lemma serving_kill n Hq v reason : (KillWorker (K := Serving) (exist _ n Hq) v reason).2 = (Node.kill f envs late downs n v).2.
Proof. exact (snd_pair _ _). Qed.

Lemma serving_kill_ok (n : Serving) v reason : (KillWorker n v reason).2 = None.
Proof.
  destruct n as [n Hq]. rewrite serving_kill. apply (Node.kill_cases f envs late downs n v Hq).
Qed.

Lemma history_matched (n0 : Serving) leaked c :
  Node.workers_of (`n0) = ∅ → history U n0 leaked c →
  dom (Lifecycle.registry (Daemon.lifecycleManager c)) = list_to_set (id <$> crew (node_of c)).
Proof.
  intros Hw Hh%history_steps.
  assert (live n0 = ∅) as Hl by by rewrite serving_live, Hw, fmap_empty.
  pose proof (Daemon.steps_matched serving_kill_ok n0 c Hl Hh) as Hm. unfold Daemon.matched in Hm.
  rewrite Hm, serving_live, dom_fmap_L, (crew_fst _ (proj2_sig _)). apply leibniz_equiv, dom_alt.
Qed.

(** ** Properties *)

Context (n0 : Serving) (Hhost : Node.n_host (`n0) = w0) (Hidle : Node.workers_of (`n0) = ∅).

(** [C1] Sessions share nothing.  In every history of control-plane requests, sweeps and
    proxied requests, which begin and end at any time, over the real pool and the real
    factory, the sessions with a lease are exactly the workers that run; and if the host
    refused no release, no two of these have a UID, an address, a tap or a file of their
    jails in common.  The sessions' names are plain path elements that differ in their last
    eight bytes, the host had nothing in any of them before, and none is used again after a
    creation under it has failed. *)
Theorem sessions_isolated leaked c :
  NoDup (UidPool.ch (w_uids w0)) → history U n0 leaked c →
  let ws := crew (node_of c) in
  dom (Lifecycle.registry (Daemon.lifecycleManager c)) = list_to_set (id <$> ws) ∧ NoDup (id <$> ws) ∧
  (kept (Node.n_host (node_of c)) = false →
    NoDup (leasedUID <$> ws) ∧ NoDup (guestIP <$> ws) ∧ NoDup (tapName <$> ws) ∧
    ∀ wk wk' p, wk ∈ ws → wk' ∈ ws → under (chrootDir wk) p = true → under (chrootDir wk') p = true → wk = wk').
Proof.
  intros Hnd Hh ws. assert (NoDup (id <$> ws)) as Hids by (apply crew_NoDup; apply (proj2_sig (Daemon.pool c))).
  split; [by eapply history_matched|]. split; [done|]. intros Hk.
  by apply (books_isolated f U w0 leaked ws (Node.n_host (node_of c))); [|apply (history_balanced n0)|..].
Qed.

(** [C3] The host's books balance after any history in which it refused no release: the UIDs
    that are free and those of the running workers are those of the beginning; the addresses
    in use are those of the beginning and those of the workers, and a worker's address and
    tap were nobody's; but for the workers' own, links and processes are untouched; and the
    firewall publishes and forwards, beyond what it did, exactly the workers' mappings.  The
    sessions' names are plain path elements that differ in their last eight bytes, the host
    had nothing in any of them before, and none is used again after a creation under it has
    failed. *)
Theorem host_accounts leaked c :
  history U n0 leaked c →
  let ws := crew (node_of c) in
  let w := Node.n_host (node_of c) in
  let ms := flat_map mappings_of ws in
  kept w = false →
  UidPool.ch (w_uids w) ++ (leasedUID <$> ws) ≡ₚ UidPool.ch (w_uids w0) ∧
  (∀ s, is_Some (Ipam.usedIPs (w_ipam w) !! s) ↔ is_Some (Ipam.usedIPs (w_ipam w0) !! s) ∨ s ∈ guestIP <$> ws) ∧
  (∀ wk, wk ∈ ws → Ipam.usedIPs (w_ipam w0) !! guestIP wk = None ∧ tapName wk ∉ links (w_net w0)) ∧
  (∀ x, x ∉ tapName <$> ws → (x ∈ links (w_net w) ↔ x ∈ links (w_net w0))) ∧
  (∀ v, v ∉ id <$> ws → w_procs w !! v = w_procs w0 !! v) ∧
  rules (w_net w) "nat" "PREROUTING" ≡ₚ rules (w_net w0) "nat" "PREROUTING" ++ (m_dnat <$> ms) ∧
  rules (w_net w) "filter" "FORWARD" ≡ₚ rules (w_net w0) "filter" "FORWARD" ++ (m_forward <$> ms).
Proof. intros Hh ws w ms Hk. by apply (books_accounts f U w0 leaked), (history_balanced n0). Qed.

(** [C5] Nothing is leaked: whenever no session has a lease, whatever was created, used,
    expired and deleted before and whichever creations failed half way, if the host refused
    no release then the pools, links, files, processes and firewall rules are those of the
    beginning, but for parent directories outside all jails.  In containerd at most leases
    and snapshots of failed creations can remain, and none if there was no failed one.  The
    sessions' names are plain path elements that differ in their last eight bytes, the host
    had nothing in any of them before, and none is used again after a creation under it has
    failed. *)
Theorem idle_host_clean leaked c :
  history U n0 leaked c → Lifecycle.registry (Daemon.lifecycleManager c) = ∅ →
  let w := Node.n_host (node_of c) in
  kept w = false →
  (∃ dirs, outside f U dirs ∧ same_host dirs w0 w) ∧
  agree_set (ImageStore.leaseKey <$> leaked) (leases (ImageStore.client (w_storage w)))
    (leases (ImageStore.client (w_storage w0))) ∧
  agree_set (ImageStore.snapshotKey <$> leaked) (snapshots (ImageStore.client (w_storage w)))
    (snapshots (ImageStore.client (w_storage w0))) ∧
  (leaked = [] → same_storage w0 w).
Proof.
  intros Hh Hreg w Hk. pose proof (history_matched n0 leaked c Hidle Hh) as Hd. rewrite Hreg, dom_empty_L in Hd.
  assert (crew (node_of c) = []) as E.
  { destruct (crew _) as [|wk ws]; [done|]. set_solver. }
  pose proof (history_balanced n0 leaked c Hhost Hidle Hh Hk) as Hb. rewrite E in Hb.
  by apply books_idle in Hb.
Qed.

(** [C4] A daemon that is stopped leaves the host as it found it, if the host refuses no
    release.  After any history [Pool.Shutdown], which closes the workers one after the
    other without looking at the sessions, comes to an end without an error, whatever was
    refused; and if nothing was, then, whatever sessions still had a lease, the pools, links,
    files, processes and firewall rules are those of the beginning, but for parent
    directories outside all jails, and so are containerd's leases and snapshots, but for
    those of failed creations.  The sessions' names are plain path elements that differ in
    their last eight bytes, the host had nothing in any of them before, and none is used
    again after a creation under it has failed. *)
Theorem shutdown_restores_host leaked c :
  history U n0 leaked c →
  ∃ n', Node.shutdown f envs late downs (node_of c) = Some (n', Pool.RetNil) ∧
    let w := Node.n_host n' in
    (kept w = false →
      (∃ dirs, outside f U dirs ∧ same_host dirs w0 w) ∧
      agree_set (ImageStore.leaseKey <$> leaked) (leases (ImageStore.client (w_storage w)))
        (leases (ImageStore.client (w_storage w0))) ∧
      agree_set (ImageStore.snapshotKey <$> leaked) (snapshots (ImageStore.client (w_storage w)))
        (snapshots (ImageStore.client (w_storage w0)))).
Proof.
  intros Hh. pose proof (proj2_sig (Daemon.pool c)) as Hq.
  destruct (Node.shutdown_closes f envs late downs _ Hq) as (n' & E & _ & Hw). exists n'. split; [done|]. cbv zeta.
  rewrite Hw. intros Hk. pose proof (history_balanced n0 leaked c Hhost Hidle Hh (closes_mono _ _ Hk)) as Hb.
  apply (books_perm f U w0 leaked _ (Node.tracked downs (node_of c)).*2) in Hb; [|symmetry; by apply Node.tracked_workers].
  apply (books_closes f U w0 _ _ _ Hfits Hk) in Hb. by apply books_idle in Hb as (? & ? & ? & _).
Qed.

End node.

(** ** Witnesses: a host on which two sessions are created, and one is deleted *)

#[local] Existing Instances HostNet.kernel_commands HostNet.kernel_laws Tap.host_netlink
  Tap.host_laws ImageStore.store_ops ImageStore.store_laws.

Definition two_names (v : string) : Prop := v = "vm1" ∨ v = "vm2".

Lemma demo_fits : fits FactoryProps.FactoryProps.demo_factory two_names FactoryProps.FactoryProps.demo_world.
Proof.
  split; [done|apply FactoryProps.FactoryProps.demo_ready_for|].
  by intros v v' [-> | ->] [-> | ->].
Qed.

Definition demo_envs : nat → Factory.Env := λ _, FactoryProps.FactoryProps.demo_env "".
Definition never : nat → bool := λ _, false.
Definition demo_downs : nat → Release := λ _, FactoryProps.FactoryProps.smooth.

Definition demo_fresh : Node.Node (C := ImageStore.store) (N := machine) :=
  Node.mkNode (Pool.New Registry.NewLocalRegistry []) FactoryProps.FactoryProps.demo_world ∅ 0.

Lemma demo_quiet : Node.quiet demo_fresh.
Proof. by split. Qed.

Definition demo_node : Node.Serving (N := machine) FactoryProps.FactoryProps.demo_factory demo_envs never demo_downs :=
  exist _ demo_fresh demo_quiet.

Definition demo_create (v : string) : Daemon.request := Daemon.Create (Some (Ok (Daemon.demo_request v "alpine"))).

Definition demo_two : Daemon.Controller (P := Node.Serving (N := machine) FactoryProps.FactoryProps.demo_factory demo_envs never demo_downs) :=
  (Daemon.handle Daemon.demo_env (Daemon.handle Daemon.demo_env (Daemon.start demo_node) (demo_create "vm1")).1
    (demo_create "vm2")).1.

Definition demo_done : Daemon.Controller (P := Node.Serving (N := machine) FactoryProps.FactoryProps.demo_factory demo_envs never demo_downs) :=
  (Daemon.handle Daemon.demo_env (Daemon.handle Daemon.demo_env demo_two (Daemon.Delete "vm1")).1
    (Daemon.Delete "vm2")).1.

Lemma history_do {P} `{PoolLaws P} U (n0 : P) leaked c env r :
  history U n0 leaked c → Forall (λ v, U v ∧ v ∉ leaked) (asked env r) →
  history U n0 (leaks env r (Daemon.handle env c r).2 ++ leaked) (Daemon.handle env c r).1.
Proof. intros Hh Hu. eapply history_request; [done..|]. apply surjective_pairing. Qed.

Lemma leaks_asked env r a v : v ∈ leaks env r a → v ∈ asked env r.
Proof. unfold leaks. destruct a; try by intros ?%not_elem_of_nil. case_decide; [done|by intros ?%not_elem_of_nil]. Qed.

Lemma demo_two_history : ∃ leaked, history two_names demo_node leaked demo_two.
Proof.
  eexists. apply history_do; [apply history_do; [apply history_start|]|].
  - apply Forall_singleton. split; [by left|apply not_elem_of_nil].
  - apply Forall_singleton. split; [by right|]. rewrite app_nil_r. intros Hin%leaks_asked. by apply list_elem_of_singleton in Hin.
Qed.

Lemma demo_done_history : ∃ leaked, history two_names demo_node leaked demo_done.
Proof. destruct demo_two_history as [leaked Hh]. eexists. apply history_do; [apply history_do; [exact Hh|done]|done]. Qed.

Lemma demo_two_crew :
  (λ wk, (id wk, leasedUID wk, guestIP wk)) <$> crew (proj1_sig (Daemon.pool demo_two)) =
  [("vm1", 70000, "10.200.0.2"); ("vm2", 70001, "10.200.0.3")].
Proof. vm_compute. reflexivity. Qed.

Lemma demo_uids : NoDup (UidPool.ch (w_uids FactoryProps.FactoryProps.demo_world)).
Proof. apply (bool_decide_eq_true_1 (NoDup [70000; 70001; 70002])). vm_compute. reflexivity. Qed.

Lemma demo_done_idle : Lifecycle.registry (Daemon.lifecycleManager demo_done) = ∅.
Proof. vm_compute. reflexivity. Qed.

Lemma pool_serves_witness : Node.lookup demo_fresh "vm1" = Ok None.
Proof.
  exact (proj1 (proj2 (proj2 (Node.pool_serves FactoryProps.FactoryProps.demo_factory demo_envs never demo_downs demo_fresh demo_quiet))) "vm1").
Defined.

Lemma sessions_isolated_witness :
  ∃ leaked, history two_names demo_node leaked demo_two ∧
    NoDup (guestIP <$> crew (proj1_sig (Daemon.pool demo_two))).
Proof.
  destruct demo_two_history as [leaked Hh]. exists leaked. split; [exact Hh|].
  refine (proj1 (proj2 (proj2 (proj2 (sessions_isolated _ _ _ _ _ _ demo_fits demo_node eq_refl eq_refl leaked demo_two _ Hh)) _))).
  - exact demo_uids.
  - vm_compute. reflexivity.
Defined.

Lemma host_accounts_witness :
  ∃ leaked, history two_names demo_node leaked demo_two ∧
    UidPool.ch (w_uids (Node.n_host (proj1_sig (Daemon.pool demo_two)))) ++
      (leasedUID <$> crew (proj1_sig (Daemon.pool demo_two))) ≡ₚ [70000; 70001; 70002].
Proof.
  destruct demo_two_history as [leaked Hh]. exists leaked. split; [exact Hh|].
  refine (proj1 (host_accounts _ _ _ _ _ _ demo_fits demo_node eq_refl eq_refl leaked demo_two Hh _)).
  vm_compute. reflexivity.
Defined.

Lemma idle_host_clean_witness :
  ∃ dirs, same_host dirs FactoryProps.FactoryProps.demo_world (Node.n_host (proj1_sig (Daemon.pool demo_done))).
Proof.
  destruct demo_done_history as [leaked Hh].
  assert (kept (Node.n_host (proj1_sig (Daemon.pool demo_done))) = false) as Hk by (vm_compute; reflexivity).
  destruct (idle_host_clean _ _ _ _ _ _ demo_fits demo_node eq_refl eq_refl leaked demo_done Hh demo_done_idle Hk) as [(dirs & _ & Hs) _].
  exists dirs. exact Hs.
Defined.

Lemma demo_shutdown_kept :
  (λ r, kept (Node.n_host r.1)) <$>
    Node.shutdown FactoryProps.FactoryProps.demo_factory demo_envs never demo_downs (proj1_sig (Daemon.pool demo_two)) = Some false.
Proof. vm_compute. reflexivity. Qed.

Lemma shutdown_restores_host_witness :
  ∃ n' dirs, Node.shutdown FactoryProps.FactoryProps.demo_factory demo_envs never demo_downs (proj1_sig (Daemon.pool demo_two)) = Some (n', Pool.RetNil) ∧
    same_host dirs FactoryProps.FactoryProps.demo_world (Node.n_host n').
Proof.
  destruct demo_two_history as [leaked Hh].
  destruct (shutdown_restores_host _ _ _ _ _ _ demo_fits demo_node eq_refl eq_refl leaked demo_two Hh)
    as (n' & E & Hn). cbv zeta in Hn.
  pose proof demo_shutdown_kept as Ek. rewrite E in Ek. cbn [fmap option_fmap option_map fst] in Ek.
  assert (kept (Node.n_host n') = false) as Hk by (apply (inj Some); exact Ek).
  destruct (Hn Hk) as ((dirs & _ & Hs) & _). exists n', dirs. split; [exact E|exact Hs].
Defined.

End NodeProps.
