(* ===== verification/Crowd.v ===== *)
(** * A node with many goroutines

    The pool of [Pool] over the factory of [Factory], with any number of [Acquire],
    [GetSession] and [KillWorker] calls in any interleaving of their steps.  [Spawn] and
    [Close] run outside the pool's lock, but here each of them is one step of the host: the
    allocators, the store and the tables that they use have locks of their own.  What can
    happen when a [Close] is cut in two is at the end.

    Nothing in the pool keeps a name from being spawned while a worker of that name still
    waits to be closed, or after a creation under it has failed: [step] lets it happen, as
    the code does.  What the pool alone ensures holds of all runs; that the virtual machines
    share nothing is shown of the [orderly] ones, in which it does not happen. *)
From stdpp Require Import options.
From S2P Require Import Prelude GoStrings GoNet GoFs Rollback UidPool Ipam PortMgr Registry Pool PoolInv ImageStore HostNet Tap Lifecycle Service Factory FactoryInv FactorySteps FactoryProps Node NodeInv NodeProps.
Import Factory.Factory FactoryInv.FactoryInv FactorySteps.FactorySteps NodeInv.NodeInv Pool.Pool PoolInv.PoolInv.
#[local] Open Scope Z_scope.

Module Crowd.

(** ** The workers of some objects *)

Lemma running_spawned (objs : gmap nat FirecrackerWorker) (lv : gset nat) o wk :
  o ∉ lv → omap (λ o', <[o := wk]> objs !! o') (elements ({[o]} ∪ lv)) ≡ₚ wk :: omap (λ o', objs !! o') (elements lv).
Proof.
  intros Ho. rewrite elements_union_singleton, omap_cons, lookup_insert_eq by done. f_equiv.
  rewrite (omap_agree _ (λ o', objs !! o')); [done|].
  intros o' Hin%elem_of_elements. rewrite lookup_insert_ne; [done|]. by intros ->.
Qed.

Lemma running_closed (objs : gmap nat FirecrackerWorker) (lv : gset nat) o wk :
  o ∈ lv → objs !! o = Some wk →
  omap (λ o', objs !! o') (elements lv) ≡ₚ wk :: omap (λ o', objs !! o') (elements (lv ∖ {[o]})).
Proof.
  intros Ho Hk. rewrite (union_difference_singleton_L o lv) at 1 by done.
  by rewrite elements_union_singleton, omap_cons, Hk by set_solver.
Qed.

Section crowd.
Context {C N : Type} `{!Containerd C} `{!ContainerdLaws C} `{!Commands N} `{!Netlink N} `{!HostLaws N}.
Context (f : FirecrackerFactory) (envs : nat → Factory.Env) (downs : nat → Factory.Factory.Release) (U : string → Prop).
#[local] Set Default Proof Using "Type*".
Notation World := (World (C := C) (N := N)).

(** The pool with its goroutines, the host, the workers by their objects, the calls of
    [Spawn] so far, and the names whose creation failed. *)
Record Crowd := mkCrowd {
  c_sys : Sys (R := Registry.localRegistry);
  c_host : World;
  c_objects : gmap nat FirecrackerWorker;
  c_spawns : nat;
  c_leaked : list string
}.

Definition with_sys (s : Sys (R := Registry.localRegistry)) (c : Crowd) : Crowd :=
  mkCrowd s (c_host c) (c_objects c) (c_spawns c) (c_leaked c).

(** The workers that were spawned and not closed. *)
Definition running (c : Crowd) : list FirecrackerWorker :=
  omap (λ o, c_objects c !! o) (elements (live (pool (c_sys c)))).

(** Steps of a goroutine that call neither [Spawn] nor [Close]. *)
Definition internal (c : pc) : bool :=
  match c with A_spawn _ _ | K_close _ => false | _ => true end.

Definition call (a : action) : bool :=
  match a with Acquire _ | GetSession _ | KillWorker _ => true | _ => false end.

(** A step, with the name that it spawns, if it does. *)
Inductive step : Crowd → option string → Crowd → Prop :=
  | step_call c a s :
      call a = true → exec (c_sys c) a = Some s → step c None (with_sys s c)
  | step_run c tid pc ev s :
      threads (c_sys c) !! tid = Some pc → internal pc = true → daemon_action (Run tid ev) = true →
      exec (c_sys c) (Run tid ev) = Some s → step c None (with_sys s c)
  | step_spawned c tid sid ch cfg wk w s :
      threads (c_sys c) !! tid = Some (A_spawn sid ch) →
      Spawn f (envs (c_spawns c)) (c_host c) sid cfg = (Ok wk, w) →
      exec (c_sys c) (Run tid (EvSpawned (id wk))) = Some s →
      step c (Some sid) (mkCrowd s w (<[next_obj (pool (c_sys c)) := wk]> (c_objects c)) (S (c_spawns c)) (c_leaked c))
  | step_failed c tid sid ch cfg e w s :
      threads (c_sys c) !! tid = Some (A_spawn sid ch) →
      Spawn f (envs (c_spawns c)) (c_host c) sid cfg = (Err e, w) →
      exec (c_sys c) (Run tid (EvSpawnErr (stage e))) = Some s →
      step c (Some sid) (mkCrowd s w (c_objects c) (S (c_spawns c)) (sid :: c_leaked c))
  | step_closed c tid w wk s :
      threads (c_sys c) !! tid = Some (K_close w) → c_objects c !! w_obj w = Some wk →
      exec (c_sys c) (Run tid EvRun) = Some s →
      step c None (mkCrowd s (Close (downs (w_obj w)) wk (c_host c)) (c_objects c) (c_spawns c) (c_leaked c)).

Definition any_step (c c' : Crowd) : Prop := ∃ l, step c l c'.

(** A name that may be spawned: one of those the host can keep apart, of which no worker
    runs and no creation has failed. *)
Definition free (c : Crowd) (sid : string) : Prop := U sid ∧ sid ∉ c_leaked c ∧ sid ∉ id <$> running c.

Definition orderly (c c' : Crowd) : Prop := ∃ l, step c l c' ∧ ∀ sid, l = Some sid → free c sid.

Lemma orderly_any c c' : rtc orderly c c' → rtc any_step c c'.
Proof. induction 1 as [|c1 c2 c3 (l & Hs & _) _ IH]; [apply rtc_refl|]. eapply rtc_l; [by exists l|done]. Qed.

Definition start (opts : list (config → config)) (w : World) : Crowd :=
  mkCrowd (initial Registry.NewLocalRegistry opts) w ∅ 0 [].

(** *** The same, to run *)







(** ** The pool's side *)

Lemma step_pool c l c' : step c l c' → daemon_step (c_sys c) (c_sys c').
Proof.
  destruct 1 as [c a s Ha E|c tid pc ev s _ _ Ha E|c tid sid ch cfg wk w s _ _ E|c tid sid ch cfg e w s _ _ E|c tid w wk s _ _ E];
    (eexists; split; [|exact E]); try done. by destruct a.
Qed.

(** Only the two steps that the factory takes change which workers run. *)
Lemma internal_live (p p' : Pool (R := Registry.localRegistry)) pc ev pc' :
  daemon_pc pc = true → internal pc = true → Pool.step p pc ev = Some (p', pc') → live p' = live p.
Proof.
  intros Hd Hi E. destruct pc, ev; try done; cbn [Pool.step] in E;
    unfold acquire_section, put_section, get_section, kill_section, recv_ticket, send_ticket, close_chan in E;
    repeat case_match; by simplify_eq/=.
Qed.

Lemma exec_run (s s' : Sys (R := Registry.localRegistry)) tid ev pc :
  threads s !! tid = Some pc → exec s (Run tid ev) = Some s' →
  ∃ pc', Pool.step (pool s) pc ev = Some (pool s', pc') ∧ threads s' = <[tid := pc']> (threads s).
Proof.
  intros Ht E. cbn [exec] in E. rewrite Ht in E. cbn [mbind option_bind] in E.
  destruct (Pool.step (pool s) pc ev) as [[p' pc']|] eqn:Es; [|done]. simplify_eq/=. by exists pc'.
Qed.

(** What every run keeps: the pool's own invariant, and an object for every worker. *)
Record pool_inv (max0 : nat) (c : Crowd) : Prop := {
  pi_pool : inv max0 (pool (c_sys c)) (threads (c_sys c));
  pi_objects o : o ∈ live (pool (c_sys c)) → is_Some (c_objects c !! o)
}.

Lemma pool_inv_step max0 c c' : any_step c c' → pool_inv max0 c → pool_inv max0 c'.
Proof.
  intros [l Hstep] [Hp Ho]. pose proof (inv_daemon_step max0 _ _ (step_pool _ _ _ Hstep) Hp) as Hp'.
  split; [done|].
  destruct Hstep as [c a s Ha E|c tid pc ev s Ht Hi Ha E|c tid sid ch cfg wk w s Ht Hs E|c tid sid ch cfg e w s Ht Hs E|c tid w wk s Ht Hk E];
    cbn [with_sys c_sys c_objects] in *.
  - assert (live (pool s) = live (pool (c_sys c))) as -> by (by destruct a; cbn in E; simplify_eq/=). done.
  - destruct (exec_run _ _ _ _ _ Ht E) as (pc' & Es & _).
    by rewrite (internal_live _ _ _ _ _ (Forall_lookup_1 _ _ _ _ (inv_pcs _ _ _ Hp) Ht) Hi Es).
  - destruct (exec_run _ _ _ _ _ Ht E) as (pc' & Es & _). cbn [Pool.step] in Es. injection Es as El _.
    apply (f_equal live) in El. cbn in El. rewrite <-El. intros o [->%elem_of_singleton|Hin]%elem_of_union; [by rewrite lookup_insert_eq|].
    destruct (decide (o = next_obj (pool (c_sys c)))) as [->|Hne]; [by rewrite lookup_insert_eq|].
    rewrite lookup_insert_ne by done. by apply Ho.
  - destruct (exec_run _ _ _ _ _ Ht E) as (pc' & Es & _). cbn [Pool.step] in Es. injection Es as El _.
    apply (f_equal live) in El. cbn in El. by rewrite <-El.
  - destruct (exec_run _ _ _ _ _ Ht E) as (pc' & Es & _). cbn [Pool.step] in Es. injection Es as El _.
    apply (f_equal live) in El. cbn in El. rewrite <-El. intros o [Ho' _]%elem_of_difference. by apply Ho.
Qed.

Lemma carried_live max0 (s : Sys (R := Registry.localRegistry)) tid w :
  inv max0 (pool s) (threads s) → threads s !! tid = Some (K_close w) → w_obj w ∈ live (pool s).
Proof.
  intros Hinv Ht%list_elem_of_lookup_2. apply elem_of_elements. rewrite (world_live _ _ _ _ _ _ (inv_world _ _ _ Hinv)).
  apply list_elem_of_fmap_2, elem_of_app. right. apply list_elem_of_omap. by exists (K_close w).
Qed.

(** What a step does to the workers that run. *)
Lemma step_running max0 c l c' :
  step c l c' → pool_inv max0 c →
  match l with
  | None => (running c' = running c ∧ c_host c' = c_host c) ∨
            ∃ o wk, running c ≡ₚ wk :: running c' ∧ c_host c' = Close (downs o) wk (c_host c)
  | Some sid => ∃ cfg, match Spawn f (envs (c_spawns c)) (c_host c) sid cfg with
      | (Ok wk, w) => running c' ≡ₚ wk :: running c ∧ c_host c' = w ∧ c_leaked c' = c_leaked c ∧ id wk = sid
      | (Err _, w) => running c' = running c ∧ c_host c' = w ∧ c_leaked c' = sid :: c_leaked c
      end
  end ∧ (l = None → c_leaked c' = c_leaked c).
Proof.
  intros Hstep [Hp Ho].
  destruct Hstep as [c a s Ha E|c tid pc ev s Ht Hi Ha E|c tid sid ch cfg wk w s Ht Hs E|c tid sid ch cfg e w s Ht Hs E|c tid w wk s Ht Hk E];
    (split; [|done]); cbn [with_sys c_sys c_objects c_host c_leaked].
  - left. split; [|done]. unfold running; cbn.
    assert (live (pool s) = live (pool (c_sys c))) as -> by (by destruct a; cbn in E; simplify_eq/=). done.
  - left. split; [|done]. destruct (exec_run _ _ _ _ _ Ht E) as (pc' & Es & _). unfold running; cbn.
    by rewrite (internal_live _ _ _ _ _ (Forall_lookup_1 _ _ _ _ (inv_pcs _ _ _ Hp) Ht) Hi Es).
  - exists cfg. rewrite Hs. split; [|split_and!; [done..|by rewrite (Node.Node.spawn_id f _ _ _ _ _ _ Hs)]].
    destruct (exec_run _ _ _ _ _ Ht E) as (pc' & Es & _). cbn [Pool.step] in Es. injection Es as El _.
    apply (f_equal live) in El. cbn in El. unfold running; cbn. rewrite <-El. apply running_spawned.
    intros Hin%(world_fresh _ _ _ _ _ _ (inv_world _ _ _ Hp)). lia.
  - exists cfg. rewrite Hs. split; [|done]. destruct (exec_run _ _ _ _ _ Ht E) as (pc' & Es & _).
    cbn [Pool.step] in Es. injection Es as El _. apply (f_equal live) in El. cbn in El. unfold running; cbn. by rewrite <-El.
  - right. exists (w_obj w), wk. split; [|done]. destruct (exec_run _ _ _ _ _ Ht E) as (pc' & Es & _).
    cbn [Pool.step] in Es. injection Es as El _. apply (f_equal live) in El. cbn in El.
    unfold running at 2; cbn. rewrite <-El. apply running_closed; [|done]. by apply (carried_live max0 _ tid).
Qed.

(** ** The invariant of the orderly runs *)

Context (w0 : World) (Hfits : fits f U w0).

Record crowd_inv (max0 : nat) (c : Crowd) : Prop := {
  ci_pool : pool_inv max0 c;
  ci_names : NoDup (id <$> running c);
  ci_books : kept (c_host c) = false → books f U w0 (c_leaked c) (running c) (c_host c)
}.

Lemma crowd_inv_step max0 c c' : orderly c c' → crowd_inv max0 c → crowd_inv max0 c'.
Proof.
  intros (l & Hstep & Hfree) [Hp Hn Hb]. destruct (step_running max0 c l c' Hstep Hp) as [Hrun Hleak].
  assert (pool_inv max0 c') as Hp' by (eapply pool_inv_step; [by exists l|done]).
  destruct l as [sid|].
  - destruct (Hfree sid eq_refl) as (HU & Hl & Hr). destruct Hrun as (cfg & Hrun).
    pose proof (λ Hk, books_spawn f U w0 (c_leaked c) (running c) (envs (c_spawns c)) (c_host c) sid cfg Hfits (Hb Hk) HU Hr Hl) as Hbs.
    pose proof (Spawn_mono f (envs (c_spawns c)) (c_host c) sid cfg) as Hm.
    destruct (Spawn f _ _ sid cfg) as [[wk|e] w].
    + destruct Hrun as (Er & Eh & El & Hid). split; [done| |]; rewrite ?Eh, ?El.
      * rewrite Er. cbn. rewrite Hid. by apply NoDup_cons.
      * intros Hk. eapply books_perm; [symmetry; exact Er|]. exact (Hbs (Hm Hk)).
    + destruct Hrun as (Er & Eh & El). split; rewrite ?Er, ?Eh, ?El; [done..|]. intros Hk. exact (Hbs (Hm Hk) Hk).
  - destruct Hrun as [[Er Eh]|(o & wk & Er & Eh)].
    { split; rewrite ?Er, ?Eh, ?(Hleak eq_refl); done. }
    split; [done| |]; rewrite ?Eh, ?(Hleak eq_refl).
    + rewrite Er in Hn. by apply NoDup_cons in Hn as [_ ?].
    + intros Hk. pose proof (Close_mono _ _ _ Hk) as Hk0. apply (books_close _ _ _ _ _ wk); [done..|].
      eapply books_perm; [exact Er|]. exact (Hb Hk0).
Qed.

Lemma pool_inv_reachable opts c : rtc any_step (start opts w0) c → pool_inv (max (New Registry.NewLocalRegistry opts)) c.
Proof using ContainerdLaws0 HostLaws0.
  intros Hr. apply (invariant_rtc any_step (pool_inv (max (New Registry.NewLocalRegistry opts))) (start opts w0)); [|done|].
  - intros c1 c2. apply pool_inv_step.
  - split; [by apply inv_initial|]. by intros o ?%not_elem_of_empty.
Qed.

Lemma crowd_inv_reachable opts c :
  rtc orderly (start opts w0) c → crowd_inv (max (New Registry.NewLocalRegistry opts)) c.
Proof.
  intros Hr. apply (invariant_rtc orderly (crowd_inv (max (New Registry.NewLocalRegistry opts))) (start opts w0)); [|done|].
  - intros c1 c2. apply crowd_inv_step.
  - assert (running (start opts w0) = []) as E by done.
    split; rewrite ?E; [apply pool_inv_reachable, rtc_refl|constructor|]. intros _.
    split; [done|]. exists []. split; [by intros q v ?%not_elem_of_nil|].
    apply FactoryProps.FactoryProps.agrees_refl, Hfits.
Qed.


(** When no goroutine is on its way and no session is bound, no worker runs. *)
Lemma rest_idle max0 c :
  pool_inv max0 c → forallb at_rest (threads (c_sys c)) = true → reg_contents (registry (pool (c_sys c))) = ∅ → running c = [].
Proof using ContainerdLaws0 HostLaws0.
  intros [Hp _] Hrest Hreg. pose proof (world_live _ _ _ _ _ _ (inv_world _ _ _ Hp)) as Hl.
  rewrite Hreg in Hl. unfold bound in Hl. rewrite map_to_list_empty in Hl.
  assert (omap carries (threads (c_sys c)) = []) as Ec.
  { revert Hrest. clear. induction (threads (c_sys c)) as [|t ts IH]; [done|]. cbn [forallb]. intros [Ht Hts]%andb_true_iff.
    rewrite omap_cons, IH by done. by destruct t. }
  rewrite Ec in Hl. apply Permutation_nil_r in Hl. unfold running. by rewrite Hl.
Qed.

(** ** Properties *)


(** When all calls of an orderly run have returned and no session is bound, the host is as it
    was, if it refused no release. *)
Lemma crowd_clean opts c :
  rtc orderly (start opts w0) c → forallb at_rest (threads (c_sys c)) = true →
  reg_contents (registry (pool (c_sys c))) = ∅ → c_leaked c = [] → kept (c_host c) = false →
  (∃ dirs, outside f U dirs ∧ same_host dirs w0 (c_host c)) ∧ same_storage w0 (c_host c).
Proof.
  intros Hr Hrest Hreg Hl Hk. destruct (crowd_inv_reachable opts c Hr) as [Hp _ Hb].
  pose proof (rest_idle _ _ Hp Hrest Hreg) as E. specialize (Hb Hk). rewrite E in Hb.
  apply books_idle in Hb as (Hh & _ & _ & Hs). split; [done|by apply Hs].
Qed.

End crowd.

(** ** A [Close] that is overtaken

    [KillWorker] unbinds the session before it closes the worker, so the name can be
    acquired again while the old worker is still being closed.
    [Close] is here cut behind the removal of the jail. *)
Definition close_first {C N : Type} (r : Factory.Factory.Release) (wk : FirecrackerWorker) (w : World (C := C) (N := N)) : World (C := C) (N := N) :=
  remove_dir r (chrootDir wk) (kill_process r (id wk) w).

Definition close_rest {C N : Type} `{Containerd C} `{Commands N} `{Netlink N} (wk : FirecrackerWorker)
    (w : World (C := C) (N := N)) : World (C := C) (N := N) :=
  let w := delete_tap (tapName wk) w in
  let w := if decide (guestIP wk ≠ "") then release_ip (guestIP wk) w else w in
  let w := teardown_storage false (id wk) w in
  let w := if decide (leasedUID wk ≠ 0) then return_uid (leasedUID wk) w else w in
  foldl (close_mapping (guestIP wk)) w (portMappings wk).

Lemma close_cut {C N : Type} `{Containerd C} `{Commands N} `{Netlink N} r wk (w : World (C := C) (N := N)) :
  chrootDir wk ≠ "" → Close r wk w = close_rest wk (close_first r wk w).
Proof. intros Hd. unfold Close, close_rest, close_first. cbv zeta. by rewrite (decide_True (P := chrootDir wk ≠ "")). Qed.

(** The pool lets a session be spawned while its old worker waits to be closed. *)
Lemma pool_overtakes :
  ∃ s, execs (initial Registry.NewLocalRegistry [])
    [Acquire "vm1"; Run 0 EvRun; Run 0 EvRun; Run 0 (EvSpawned "vm1"); Run 0 EvRun; Run 0 EvRun; Run 0 EvRun; Run 0 EvRun;
     KillWorker "vm1"; Run 1 EvRun; Acquire "vm1"; Run 2 EvRun; Run 2 EvRun] = Some s ∧
    threads s !! 1%nat = Some (K_close (mkWorker 0 "vm1")) ∧ ∃ ch, threads s !! 2%nat = Some (A_spawn "vm1" ch).
Proof. eexists. split; [vm_compute; reflexivity|]. split; [reflexivity|]. eexists. reflexivity. Qed.

(** ** Witness: two sessions whose creations overlap *)

#[local] Existing Instances HostNet.kernel_commands HostNet.kernel_laws Tap.host_netlink
  Tap.host_laws ImageStore.store_ops ImageStore.store_laws.







(** The new VM then loses its tap, its snapshot and its lease to the old one's [Close], and
    goes on to run without them. *)
Lemma overtaken_close_breaks_vm :
  let f := FactoryProps.FactoryProps.demo_factory in
  let env := FactoryProps.FactoryProps.demo_env "" in
  let cfg := mkTenantConfig "alpine" ["/bin/server"] ∅ 300 0 "" 1 256 [] in
  let '(r1, w1) := Spawn f env FactoryProps.FactoryProps.demo_world "vm1" cfg in
  match r1 with
  | Ok old =>
      let '(r2, w2) := Spawn f env (close_first FactoryProps.FactoryProps.smooth old w1) "vm1" cfg in
      let w3 := close_rest old w2 in
      match r2 with
      | Ok new =>
          bool_decide (is_Some (w_procs w3 !! "vm1")) = true ∧
          bool_decide (tapName new ∈ links (w_net w2)) = true ∧ bool_decide (tapName new ∈ links (w_net w3)) = false ∧
          bool_decide (ImageStore.snapshotKey "vm1" ∈ snapshots (ImageStore.client (w_storage w3))) = false ∧
          bool_decide (ImageStore.leaseKey "vm1" ∈ leases (ImageStore.client (w_storage w3))) = false
      | Err _ => False
      end
  | Err _ => False
  end.
Proof. vm_compute. repeat split. Qed.

End Crowd.
