(* ===== verification/Vsock.v ===== *)
(** * The host's side of a vsock connection ([internal/vsock/dialer.go])

    [DialFirecracker] asks Firecracker for a port of the guest and reads one line of
    answer through a buffered reader; [Execute] sends the workload and copies what comes
    back.  What arrives on a connection is a list of bursts, each of which one read takes
    at most; after the last one a read fails. *)
From stdpp Require Import options.
From S2P Require Import Prelude GoStrings GoJson.
#[local] Open Scope Z_scope.

Module Vsock.

(** ** Data *)

Record ExecPayload := mkPayload {
  Command : option (list string);     (* [None] is the nil slice *)
  Env : option (list string)
}.

#[export] Instance ExecPayload_eq_dec : EqDecision ExecPayload.
Proof. solve_decision. Defined.

Record Conn := mkConn {
  incoming : list string;
  sent : string;
  closed : bool
}.

Definition newline : ascii := "010".

Fixpoint concat_bytes (l : list string) : string :=
  match l with [] => "" | s :: l => s +:+ concat_bytes l end.

(** ** bufio.Reader *)

Definition bufferSize : nat := 4096.

Fixpoint take_bytes (n : nat) (s : string) : string :=
  match n, s with
  | S n, String c s => String c (take_bytes n s)
  | _, _ => ""
  end.

(** The text before the first newline, and behind it. *)
Fixpoint split_line (s : string) : option (string * string) :=
  match s with
  | EmptyString => None
  | String c s =>
      if decide (c = newline) then Some ("", s)
      else match split_line s with Some (a, b) => Some (String c a, b) | None => None end
  end.

(** One read: at most [n] bytes of the next burst. *)
Definition read_burst (n : nat) (c : string) (bursts : list string) : string * list string :=
  (take_bytes n c, if decide (drop_bytes n c = "") then bursts else drop_bytes n c :: bursts).

(** [ReadString] with the newline as delimiter, of a fresh reader: the line, what is left in
    the buffer, and what is left on the connection.  [line] is what was read so far and
    [used] how much of it is in the buffer, which is emptied when it is full. *)
Fixpoint read_line (fuel used : nat) (line : string) (bursts : list string)
    : option (string * string * list string) :=
  match fuel, bursts with
  | S fuel, c :: bursts =>
      let '(p, bursts) := read_burst (bufferSize - used) c bursts in
      match split_line p with
      | Some (a, buffered) => Some (line +:+ a +:+ String newline "", buffered, bursts)
      | None =>
          let used := (used + String.length p)%nat in
          read_line fuel (if decide (used = bufferSize) then O else used) (line +:+ p) bursts
      end
  | _, _ => None
  end.

Definition line_fuel (bursts : list string) : nat :=
  (length bursts + String.length (concat_bytes bursts))%nat.

(** ** Operations *)

Inductive error :=
  | ErrDial
  | ErrSendConnect
  | ErrReadResponse
  | ErrRejected (response : string)
  | ErrTransmit
  | ErrStream
  | ErrContext.

Definition close (c : Conn) : Conn := mkConn (incoming c) (sent c) true.
Definition write (data : string) (c : Conn) : Conn := mkConn (incoming c) (sent c +:+ data) (closed c).

(** [dial] is the connection, if there is one, and [write_err] the error of a write.  The
    buffer of the reader is gone with it. *)
Definition DialFirecracker (dial : option Conn) (write_err : bool) (port : Z) : result error Conn * option Conn :=
  match dial with
  | None => (Err ErrDial, None)
  | Some conn =>
      if write_err then (Err ErrSendConnect, Some (close conn)) else
      let conn := write ("CONNECT " +:+ Itoa port +:+ String newline "") conn in
      match read_line (line_fuel (incoming conn)) 0 "" (incoming conn) with
      | None => (Err ErrReadResponse, Some (close (mkConn [] (sent conn) false)))
      | Some (line, buffered, rest) =>
          let conn := mkConn rest (sent conn) (closed conn) in
          let response := TrimSpace line in
          if negb (HasPrefix response "OK") then (Err (ErrRejected response), Some (close conn))
          else (Ok conn, Some conn)
      end
  end.

Definition Marshal (p : ExecPayload) : string :=
  "{" +:+ print_string "command" +:+ ":" +:+ print_strings (Command p) +:+
  (if decide (default [] (Env p) = []) then ""
   else "," +:+ print_string "env" +:+ ":" +:+ print_strings (Env p)) +:+ "}".

(** How the copy of the output ends: the guest closes, a read or a write fails, or the
    context is done after some of the bursts. *)
Inductive copy_end := GuestClosed | StreamFails (after : nat) | ContextDone (after : nat).

(** The error, what was written to [stdout], and the connection. *)
Definition Execute (write_err : bool) (ends : copy_end) (conn : Conn) (payload : ExecPayload)
    : option error * string * Conn :=
  if write_err then (Some ErrTransmit, "", close conn) else
  let conn := write (Marshal payload +:+ String newline "") conn in
  match ends with
  | GuestClosed => (None, concat_bytes (incoming conn), close conn)
  | StreamFails n => (Some ErrStream, concat_bytes (take n (incoming conn)), close conn)
  | ContextDone n => (Some ErrContext, concat_bytes (take n (incoming conn)), close conn)
  end.

(** ** Lemmas *)

Lemma take_drop_bytes n s : take_bytes n s +:+ drop_bytes n s = s.
Proof. revert n. induction s as [|c s IH]; intros [|n]; simpl; try done. by rewrite IH. Qed.

Lemma take_bytes_length n s : (String.length (take_bytes n s) ≤ n)%nat.
Proof. revert n. induction s as [|c s IH]; intros [|n]; simpl; try lia. specialize (IH n). lia. Qed.

Lemma take_bytes_nonempty n s : s ≠ "" → n ≠ O → take_bytes n s ≠ "".
Proof. by destruct s, n. Qed.

Lemma read_burst_concat n c bursts p rest :
  read_burst n c bursts = (p, rest) → c +:+ concat_bytes bursts = p +:+ concat_bytes rest.
Proof.
  unfold read_burst. intros [= <- <-]. rewrite <-(take_drop_bytes n c) at 1. rewrite string_app_assoc.
  by case_decide as E; [rewrite E|].
Qed.

Lemma split_line_some s a b : split_line s = Some (a, b) → s = a +:+ String newline b ∧ contains_byte newline a = false.
Proof.
  revert a. induction s as [|c s IH]; intros a; [done|]. cbn [split_line]. case_decide as Hc.
  - intros [= <- <-]. by subst.
  - destruct (split_line s) as [[a' b']|]; [|done]. intros [= <- <-]. destruct (IH a' eq_refl) as [-> Ha].
    split; [done|]. cbn [contains_byte]. rewrite Ha, orb_false_r. by apply bool_decide_eq_false.
Qed.

Lemma split_line_none s : split_line s = None → contains_byte newline s = false.
Proof.
  induction s as [|c s IH]; [done|]. cbn [split_line]. case_decide; [done|].
  destruct (split_line s) as [[? ?]|]; [done|]. intros _. cbn [contains_byte].
  rewrite IH, orb_false_r by done. apply bool_decide_eq_false. congruence.
Qed.

(** A line is found whenever there is one, in the bursts up to the one that ends it. *)
Lemma read_line_spec fuel used line bursts :
  (used < bufferSize)%nat → (line_fuel bursts ≤ fuel)%nat →
  match read_line fuel used line bursts with
  | Some (l, buffered, rest) => ∃ a, l = line +:+ a +:+ String newline "" ∧ contains_byte newline a = false ∧
      concat_bytes bursts = a +:+ String newline (buffered +:+ concat_bytes rest)
  | None => contains_byte newline (concat_bytes bursts) = false
  end.
Proof.
  revert used line bursts. induction fuel as [|fuel IH]; intros used line bursts Hu Hf.
  - destruct bursts as [|c bursts]; [done|]. unfold line_fuel in Hf. simpl in Hf. lia.
  - destruct bursts as [|c bursts]; [done|]. cbn [read_line].
    destruct (read_burst (bufferSize - used) c bursts) as [p rest] eqn:Er.
    pose proof (read_burst_concat _ _ _ _ _ Er) as Ec. cbn [concat_bytes]. rewrite Ec.
    destruct (split_line p) as [[a buffered]|] eqn:Es.
    + apply split_line_some in Es as [-> Ha]. exists a. split_and!; [done..|]. by rewrite string_app_assoc.
    + apply split_line_none in Es as Hp.
      assert (line_fuel rest ≤ fuel)%nat as Hrest.
      { apply (f_equal String.length) in Ec. rewrite !length_app_string in Ec. unfold line_fuel in *. simpl in Hf.
        rewrite length_app_string in Hf. unfold read_burst in Er. injection Er as <- <-.
        case_decide as Hd; simpl in *; [lia|].
        assert (c ≠ "") as Hc by (intros ->; by destruct (bufferSize - used)%nat).
        pose proof (take_bytes_nonempty (bufferSize - used) c Hc ltac:(lia)) as Ht.
        destruct (take_bytes (bufferSize - used) c); [done|]. simpl in Ec. lia. }
      assert (String.length p ≤ bufferSize - used)%nat as Hlp.
      { unfold read_burst in Er. injection Er as <- _. apply take_bytes_length. }
      specialize (IH (if decide (used + String.length p = bufferSize)%nat then O else used + String.length p)%nat
                    (line +:+ p) rest).
      destruct (read_line fuel _ (line +:+ p) rest) as [[[l buffered] rest']|].
      * destruct IH as (a & -> & Ha & E); [case_decide; unfold bufferSize in *; lia|done|].
        exists (p +:+ a). rewrite contains_byte_app, Hp, Ha, E, !string_app_assoc. done.
      * rewrite contains_byte_app, Hp, IH; [done|case_decide; unfold bufferSize in *; lia|done].
Qed.

(** ** Properties *)

(** The handshake, whatever the bursts in which the answer arrives: the port is asked
    for in one line, and the first line of the answer decides.  With it goes whatever the
    same read brought along: the caller sees only the bursts after it. *)
Theorem dial_handshake conn port a after :
  concat_bytes (incoming conn) = a +:+ String newline after → contains_byte newline a = false →
  ∃ buffered rest, after = buffered +:+ concat_bytes rest ∧
    let conn' := mkConn rest (sent conn +:+ "CONNECT " +:+ Itoa port +:+ String newline "") (closed conn) in
    DialFirecracker (Some conn) false port =
      if HasPrefix (TrimSpace a) "OK" then (Ok conn', Some conn')
      else (Err (ErrRejected (TrimSpace a)), Some (close conn')).
Proof.
  intros E Ha. pose proof (read_line_spec (line_fuel (incoming conn)) 0 "" (incoming conn)) as Hr.
  unfold DialFirecracker. cbn [write incoming sent closed].
  destruct (read_line _ 0 "" (incoming conn)) as [[[l buffered] rest]|].
  - destruct Hr as (a' & -> & Ha' & E'); [unfold bufferSize; lia|done|]. rewrite E in E'.
    apply first_byte in E' as [-> ->]; [|done..]. exists buffered, rest. split; [done|].
    simpl. rewrite TrimSpace_snoc by done. by destruct (HasPrefix _ _).
  - rewrite E, contains_byte_app in Hr. cbn [contains_byte] in Hr.
    rewrite bool_decide_eq_true_2, orb_true_r in Hr by done. discriminate Hr; [unfold bufferSize; lia|done].
Qed.

(** Without a line there is no connection, and the one that was dialled is closed. *)
Lemma dial_no_line conn port :
  contains_byte newline (concat_bytes (incoming conn)) = false →
  ∃ c, DialFirecracker (Some conn) false port = (Err ErrReadResponse, Some c) ∧ closed c = true.
Proof.
  intros Hn. pose proof (read_line_spec (line_fuel (incoming conn)) 0 "" (incoming conn)) as Hr.
  unfold DialFirecracker. cbn [write incoming sent closed].
  destruct (read_line _ 0 "" (incoming conn)) as [[[l buffered] rest]|]; [|by eexists].
  destruct Hr as (a & _ & _ & E); [unfold bufferSize; lia|done|]. rewrite E, contains_byte_app in Hn.
  cbn [contains_byte] in Hn. by rewrite bool_decide_eq_true_2, orb_true_r in Hn.
Qed.

(** The prompt of a shell that arrives together with the answer is lost. *)
Lemma dial_drops_bytes :
  let '(r, _) := DialFirecracker (Some (mkConn ["OK 5001" +:+ String newline "bash-5.2# "] "" false)) false 5001 in
  ∃ conn, r = Ok conn ∧ incoming conn = [].
Proof. vm_compute. by eexists. Qed.

(** ** Witnesses *)

Lemma dial_handshake_witness :
  ∃ buffered rest, "bash-5.2# " = buffered +:+ concat_bytes rest ∧
    (DialFirecracker (Some (mkConn ["OK "; "5001" +:+ String newline "bash"; "-5.2# "] "" false)) false 5001).1 =
      Ok (mkConn ["-5.2# "] ("CONNECT 5001" +:+ String newline "") false).
Proof.
  destruct (dial_handshake (mkConn ["OK "; "5001" +:+ String newline "bash"; "-5.2# "] "" false) 5001
    "OK 5001" "bash-5.2# ") as (buffered & rest & E & _); [vm_compute; reflexivity..|].
  exists buffered, rest. split; [exact E|vm_compute; reflexivity].
Defined.

End Vsock.
