(* ===== verification/GuestAgent.v ===== *)
(** * The agent inside a microVM ([cmd/herd-guest-agent/main.go])

    The agent is the first process of a VM.  It mounts the file systems, configures the
    network from the kernel's command line, and runs the workload that the host sends it.
    The kernel's answers are given by [Os], a function of the calls made so far and the
    call itself; a step logs every call with its answer, and fails as the code does.  The
    concurrent part, the order in which all of this happens, is in [GuestBoot]. *)
From stdpp Require Import options.
From S2P Require Import Prelude GoStrings GoNet GoJson Rollback Factory Vsock.
#[local] Open Scope Z_scope.

Module GuestAgent.

(** ** System calls *)

Record mount := mkMount { m_source : string; m_target : string; m_fstype : string; m_flags : Z; m_data : string }.

#[export] Instance mount_eq_dec : EqDecision mount.
Proof. solve_decision. Defined.

Inductive call :=
  | MkdirAll (path : string) (mode : Z)
  | Mount (m : mount)
  | Listen (port : Z)
  | Stat (path : string)
  | ReadFile (path : string)
  | WriteFile (path data : string)
  | Remove (path : string)
  | Symlink (oldname newname : string)
  | Sleep (ms : Z)
  | LinkByName (name : string)
  | LinkSetUp (name : string)
  | AddrAdd (link : string) (ip peer : list Z)
  | RouteAdd (link dst : string) (gw : list Z).

#[export] Instance call_eq_dec : EqDecision call.
Proof. solve_decision. Defined.

Inductive errno := EBUSY | ENOENT | EOTHER.

#[export] Instance errno_eq_dec : EqDecision errno.
Proof. solve_decision. Defined.

Definition answer : Type := result errno string.
Definition log : Type := list (call * answer).      (* the last call first *)

Inductive error :=
  | ErrMount (target : string) (e : errno)
  | ErrSymlink (path : string) (e : errno)
  | ErrLink (name : string) (e : errno)
  | ErrReadCmdline (e : errno)
  | ErrMissing (cmdline : string)
  | ErrInvalid (ip gw : string)
  | ErrAddr (e : errno)
  | ErrRoute (e : errno)
  | ErrWrite (path : string) (e : errno)
  | ErrDecode
  | ErrEmptyCommand
  | ErrNotFound (command : string).

Definition MS_NOSUID : Z := 2.
Definition MS_NODEV : Z := 4.
Definition MS_NOEXEC : Z := 8.
Definition MS_NOATIME : Z := 1024.
Definition MS_BIND : Z := 4096.
Definition MS_REC : Z := 16384.

Definition flags (l : list Z) : Z := foldl Z.lor 0 l.

(** What the agent starts. *)
Record Cmd := mkCmd {
  Path : string;
  Args : list string;
  cmd_Env : list string;
  Chroot : string;
  cmd_Dir : string;         (* empty: the directory the agent is in *)
  tty : bool
}.

Definition container_root : string := "/mnt/container".

(** The steps of this component: the world is the log, and nothing is undone. *)
Notation M := (Rollback.M (W := log) (U := Empty_set) (E := error)).

Section agent.
Context (os : log → call → answer).

Definition sys (c : call) : M answer :=
  λ s, let a := os s.1 c in (Ok a, ((c, a) :: s.1, s.2)).

Definition ignore (c : call) : M unit := sys c ≫= λ _, mret tt.

(** A call whose error ends the function. *)
Definition must (c : call) (e : errno → error) : M unit :=
  r ← sys c;
  match r with Ok _ => mret tt | Err x => throw (e x) end.

(** At most [n] tries, until one succeeds: the last answer. *)
Fixpoint attempts (n : nat) (c : call) (ms : Z) (last : answer) : M answer :=
  match n with
  | O => mret last
  | S n =>
      r ← sys c;
      match r with
      | Ok _ => mret r
      | Err _ => ignore (Sleep ms);; attempts n c ms r
      end
  end.

(** ** The base file systems *)

Definition mount_base (mode : Z) (m : mount) : M unit :=
  ignore (MkdirAll (m_target m) mode);;
  r ← sys (Mount m);
  match r with
  | Ok _ => mret tt
  | Err e => if decide (e = EBUSY) then mret tt else throw (ErrMount (m_target m) e)
  end.

Definition mountBaseFilesystems : M unit :=
  mount_base 0x1ed (mkMount "proc" "/proc" "proc" (flags [MS_NODEV; MS_NOEXEC; MS_NOSUID]) "");;
  mount_base 0x1ed (mkMount "sysfs" "/sys" "sysfs" (flags [MS_NODEV; MS_NOEXEC; MS_NOSUID]) "");;
  mount_base 0x1ed (mkMount "devtmpfs" "/dev" "devtmpfs" MS_NOSUID "");;
  mount_base 0x3ff (mkMount "tmpfs" "/dev/shm" "tmpfs" (flags [MS_NOSUID; MS_NODEV]) "size=100m,mode=1777").

Definition listenVsock (port : Z) : M answer :=
  r ← attempts 50 (Listen port) 5 (Err EOTHER);
  match r with Ok _ => mret r | Err _ => sys (Listen port) end.

(** ** The container's file systems *)

Definition cmdlineHasHerdRootfs : M bool :=
  r ← sys (ReadFile "/proc/cmdline");
  match r with Ok b => mret (GoStrings.Contains b "herd_rootfs=1") | Err _ => mret false end.

Definition replaceSymlink (oldname newname : string) : M unit :=
  r ← sys (Remove newname);
  match r with
  | Err e => if decide (e = ENOENT) then mret tt else throw (ErrSymlink newname e)
  | Ok _ => mret tt
  end;;
  must (Symlink oldname newname) (ErrSymlink newname).

Definition bind_mount (m : string) : M unit :=
  let dest := container_root +:+ m in
  ignore (MkdirAll dest 0x1ed);;
  must (Mount (mkMount m dest "" (flags [MS_BIND; MS_REC]) "")) (ErrMount m).

Definition mount_tmpfs (target : string) (mode : Z) (data : string) : M unit :=
  ignore (MkdirAll target mode);;
  must (Mount (mkMount "tmpfs" target "tmpfs" (flags [MS_NOSUID; MS_NODEV]) data)) (ErrMount target).

Definition devpts : mount := mkMount "devpts" "/dev/pts" "devpts" (flags [MS_NOSUID; MS_NOEXEC]) "ptmxmode=0666".
Definition root_bind : mount := mkMount "/" container_root "" (flags [MS_BIND; MS_REC]) "".
Definition root_ext4 : mount := mkMount "/dev/vda" container_root "ext4" MS_NOATIME "".

Definition mount_devpts : M unit :=
  ignore (MkdirAll "/dev/pts" 0x1ed);;
  r ← attempts 10 (Mount devpts) 5 (Ok "");
  match r with Ok _ => mret tt | Err e => throw (ErrMount "/dev/pts" e) end.

Definition mount_root : M unit :=
  ignore (MkdirAll container_root 0x1ed);;
  bound ← cmdlineHasHerdRootfs;
  if (bound : bool) then must (Mount root_bind) (ErrMount container_root)
  else
    r ← attempts 20 (Mount root_ext4) 10 (Ok "");
    match r with Ok _ => mret tt | Err e => throw (ErrMount container_root e) end.

(** The nodes of [/dev] that programs look for, and what they point to. *)
Definition devSymlinks : list (string * string) :=
  [("/proc/self/fd", container_root +:+ "/dev/fd");
   ("/proc/self/fd/0", container_root +:+ "/dev/stdin");
   ("/proc/self/fd/1", container_root +:+ "/dev/stdout");
   ("/proc/self/fd/2", container_root +:+ "/dev/stderr")].

Fixpoint each {A} (f : A → M unit) (l : list A) : M unit :=
  match l with [] => mret tt | x :: l => f x;; each f l end.

Definition mountContainerFilesystems : M unit :=
  _ ← attempts 200 (Stat "/dev/vda") 1 (Ok "");
  ignore (Sleep 20);;
  mount_devpts;;
  r ← sys (Stat "/dev/ptmx");
  (if decide (r = Err ENOENT) then ignore (Symlink "/dev/pts/ptmx" "/dev/ptmx") else mret tt);;
  mount_root;;
  each bind_mount ["/proc"; "/sys"; "/dev"];;
  mount_tmpfs (container_root +:+ "/dev/shm") 0x3ff "size=64m,mode=1777";;
  mount_tmpfs (container_root +:+ "/tmp") 0x3ff "size=64m,mode=1777";;
  mount_tmpfs (container_root +:+ "/run") 0x1ed "size=16m,mode=0755";;
  replaceSymlink "/run" (container_root +:+ "/var/run");;
  each (λ sl, replaceSymlink sl.1 sl.2) devSymlinks.

(** ** The network *)

Definition cmdline_step (acc : string * string) (p : string) : string * string :=
  if HasPrefix p "herd_ip=" then (TrimPrefix p "herd_ip=", acc.2)
  else if HasPrefix p "herd_gw=" then (acc.1, TrimPrefix p "herd_gw=")
  else acc.

(** The address and the gateway that the command line names, the last of each. *)
Definition parse_cmdline (cmdline : string) : string * string :=
  foldl cmdline_step ("", "") (Fields cmdline).

Definition dnsConfig : string :=
  "nameserver 8.8.8.8" +:+ String Vsock.newline ("nameserver 1.1.1.1" +:+ String Vsock.newline "").

Definition configure_eth0 (ip gw : list Z) : M unit :=
  must (AddrAdd "eth0" ip gw) ErrAddr;;
  must (LinkSetUp "eth0") (ErrLink "eth0");;
  must (RouteAdd "eth0" "0.0.0.0/0" gw) ErrRoute.

Definition configure_dns : M unit :=
  ignore (MkdirAll "/etc" 0x1ed);;
  must (WriteFile "/etc/resolv.conf" dnsConfig) (ErrWrite "/etc/resolv.conf");;
  ignore (MkdirAll "/mnt/container/etc" 0x1ed);;
  ignore (Remove "/mnt/container/etc/resolv.conf");;
  must (WriteFile "/mnt/container/etc/resolv.conf" dnsConfig) (ErrWrite "/mnt/container/etc/resolv.conf").

Definition configureNetworking : M unit :=
  must (LinkByName "lo") (ErrLink "lo");;
  must (LinkSetUp "lo") (ErrLink "lo");;
  eth0 ← sys (LinkByName "eth0");
  match eth0 with
  | Err _ => mret tt
  | Ok _ =>
      cmdline ← sys (ReadFile "/proc/cmdline");
      match cmdline with
      | Err e => throw (ErrReadCmdline e)
      | Ok cmdline =>
          let '(ipStr, gwStr) := parse_cmdline cmdline in
          if decide (ipStr = "" ∨ gwStr = "") then throw (ErrMissing cmdline) else
          match ParseIP ipStr, ParseIP gwStr with
          | Some ip, Some gw => configure_eth0 ip gw;; configure_dns
          | _, _ => throw (ErrInvalid ipStr gwStr)
          end
      end
  end.

(** ** The workload *)

(** One field of the payload: the keys of JSON are compared without case, and others are
    left out. *)
Definition decode_field (p : option Vsock.ExecPayload) (kv : string * json) : option Vsock.ExecPayload :=
  p ← p;
  if decide (ToLower kv.1 = "command") then
    c ← read_strings (Vsock.Command p) kv.2; Some (Vsock.mkPayload c (Vsock.Env p))
  else if decide (ToLower kv.1 = "env") then
    e ← read_strings (Vsock.Env p) kv.2; Some (Vsock.mkPayload (Vsock.Command p) e)
  else Some p.

Definition decode_payload (text : string) : option Vsock.ExecPayload :=
  '(v, _) ← read_json text;
  match v with
  | JObject l => foldl decode_field (Some (Vsock.mkPayload None None)) l
  | JNull => Some (Vsock.mkPayload None None)
  | _ => None
  end.

Definition search_paths : list string :=
  ["/usr/local/bin"; "/usr/bin"; "/bin"; "/usr/local/sbin"; "/usr/sbin"; "/sbin"].

Fixpoint look_up (bin : string) (paths : list string) : M string :=
  match paths with
  | [] => mret bin
  | p :: paths =>
      r ← sys (Stat (container_root +:+ p +:+ "/" +:+ bin));
      match r with Ok _ => mret (p +:+ "/" +:+ bin) | Err _ => look_up bin paths end
  end.

Definition default_PATH : string := "PATH=/usr/local/sbin:/usr/local/bin:/usr/sbin:/usr/bin:/sbin:/bin".

(** Before the agent waits for the container: the payload. *)
Definition receive (text : string) : M (string * Vsock.ExecPayload) :=
  match decode_payload text with
  | None => throw ErrDecode
  | Some p =>
      match default [] (Vsock.Command p) with
      | [] => throw ErrEmptyCommand
      | bin :: _ => mret (bin, p)
      end
  end.

(** After it: the command that is run. *)
Definition workload (bin : string) (p : Vsock.ExecPayload) : M Cmd :=
  bin' ← (if HasPrefix bin "/" then mret bin else look_up bin search_paths);
  if negb (HasPrefix bin' "/") then throw (ErrNotFound bin) else
  mret (mkCmd bin' (default [] (Vsock.Command p)) (default_PATH :: default [] (Vsock.Env p)) container_root "" false).

Definition handleExecution (text : string) : M Cmd :=
  '(bin, p) ← receive text;
  workload bin p.

(** The shell of a connection to the exec server. *)
Definition handleInteractiveShell : M Cmd :=
  ignore (Stat (container_root +:+ "/bin/bash"));;
  mret (mkCmd "/bin/bash" ["/bin/bash"] [default_PATH; "TERM=xterm"] container_root "" true).

(** ** What the calls of a step did *)

Definition is_effect (c : call) : bool :=
  match c with
  | Mount _ | Symlink _ _ | AddrAdd _ _ _ | LinkSetUp _ | RouteAdd _ _ _ | WriteFile _ _ => true
  | _ => false
  end.

(** The changes that were made, the first one first. *)
Fixpoint effects (l : log) : list call :=
  match l with
  | [] => []
  | (c, a) :: l => effects l ++ (if is_effect c && is_ok a then [c] else [])
  end.

(** When [m] succeeds it has made the changes [es], of which [P] holds. *)
Definition does {A} (m : M A) (P : A → list call → Prop) : Prop :=
  ∀ s a s', m s = (Ok a, s') → ∃ es, effects s'.1 = effects s.1 ++ es ∧ P a es.

Lemma does_bind {A B} (m : M A) (k : A → M B) P Q :
  does m P → (∀ a es, P a es → does (k a) (λ b es', Q b (es ++ es'))) → does (m ≫= k) Q.
Proof.
  intros Hm Hk s b s' Hb. apply bind_ok in Hb as (a & s1 & H1 & H2).
  destruct (Hm _ _ _ H1) as (es & E & HP). destruct (Hk a es HP _ _ _ H2) as (es' & E' & HQ).
  exists (es ++ es'). by rewrite E', E, app_assoc.
Qed.

Lemma does_ret {A} (a : A) (P : A → list call → Prop) : P a [] → does (mret a) P.
Proof. intros HP s a' s' [= <- <-]. exists []. by rewrite app_nil_r. Qed.

Lemma does_throw {A} e (P : A → list call → Prop) : does (throw e) P.
Proof. by intros s a s' ?. Qed.

Lemma does_weaken {A} (m : M A) (P Q : A → list call → Prop) :
  does m P → (∀ a es, P a es → Q a es) → does m Q.
Proof. intros Hm HPQ s a s' H. destruct (Hm _ _ _ H) as (es & ? & ?). eauto. Qed.

Lemma does_sys c : does (sys c) (λ a es, es = if is_effect c && is_ok a then [c] else []).
Proof. intros s a s' [= <- <-]. by eexists. Qed.

(** A call that is no change, or whose error is an error: what it adds is known. *)
Lemma does_ignore c : is_effect c = false → does (ignore c) (λ _ es, es = []).
Proof. intros Hc. eapply does_bind; [apply does_sys|]. intros a es ->. apply does_ret. by rewrite Hc. Qed.

Lemma does_must c e : does (must c e) (λ _ es, es = if is_effect c then [c] else []).
Proof.
  eapply does_bind; [apply does_sys|]. intros [b|x] es ->; [|apply does_throw].
  apply does_ret. by rewrite andb_true_r, app_nil_r.
Qed.

Lemma does_attempts n c ms last :
  (n = O → is_ok last = false) →
  does (attempts n c ms last) (λ a es, es = if is_effect c && is_ok a then [c] else []).
Proof.
  revert last. induction n as [|n IH]; intros last Hn; cbn [attempts].
  - apply does_ret. rewrite (Hn eq_refl). by rewrite andb_false_r.
  - eapply does_bind; [apply does_sys|]. intros [b|x] es ->; [by apply does_ret; rewrite app_nil_r|].
    eapply does_bind; [by apply does_ignore|]. intros [] es ->. rewrite andb_false_r.
    eapply does_weaken; [by apply IH|]. by intros a es ->.
Qed.

Lemma does_each {A} (f : A → M unit) g l :
  (∀ x, does (f x) (λ _ es, es = g x)) → does (each f l) (λ _ es, es = concat (g <$> l)).
Proof.
  intros Hf. induction l as [|x l IH]; [by apply does_ret|]. cbn [each].
  eapply does_bind; [apply Hf|]. intros [] es ->. eapply does_weaken; [apply IH|]. by intros [] es ->.
Qed.

(** ** The container's file systems *)

Ltac does_next := eapply does_bind; [eauto using does_ignore, does_must|intros [] ? ->]; cbn [app].
Ltac does_last := eapply does_weaken; [apply does_must|by intros [] ? ->].

Lemma does_replaceSymlink o n : does (replaceSymlink o n) (λ _ es, es = [Symlink o n]).
Proof.
  unfold replaceSymlink. eapply does_bind; [apply does_sys|]. intros r es ->. cbn [is_effect andb app].
  eapply (does_bind _ _ (λ _ es, es = [])); [|intros [] es ->; apply does_must].
  destruct r as [|x]; [by apply does_ret|]. case_decide; [by apply does_ret|apply does_throw].
Qed.

Definition bound (m : string) : call := Mount (mkMount m (container_root +:+ m) "" (flags [MS_BIND; MS_REC]) "").
Definition tmpfs (target data : string) : call :=
  Mount (mkMount "tmpfs" target "tmpfs" (flags [MS_NOSUID; MS_NODEV]) data).

Lemma does_bind_mount m : does (bind_mount m) (λ _ es, es = [bound m]).
Proof. unfold bind_mount. does_next. apply does_must. Qed.

Lemma does_mount_tmpfs target mode data : does (mount_tmpfs target mode data) (λ _ es, es = [tmpfs target data]).
Proof. unfold mount_tmpfs. does_next. apply does_must. Qed.

Lemma does_mount_devpts : does mount_devpts (λ _ es, es = [Mount devpts]).
Proof.
  unfold mount_devpts. does_next. eapply does_bind; [by apply does_attempts|].
  intros [b|x] es ->; [by apply does_ret|apply does_throw].
Qed.

#[local] Set Default Proof Using "Type*".

(** The command line does not change while the agent runs. *)
Context (cmdline : string) (Hcmdline : ∀ l, os l (ReadFile "/proc/cmdline") = Ok cmdline).

Definition root_mount : mount := if GoStrings.Contains cmdline "herd_rootfs=1" then root_bind else root_ext4.

Lemma does_cmdline : does (sys (ReadFile "/proc/cmdline")) (λ a es, a = Ok cmdline ∧ es = []).
Proof. intros s a s' [= <- <-]. exists []. simpl. by rewrite Hcmdline, app_nil_r. Qed.

Lemma does_mount_root : does mount_root (λ _ es, es = [Mount root_mount]).
Proof.
  unfold mount_root, cmdlineHasHerdRootfs, root_mount. does_next.
  eapply (does_bind _ _ (λ b es, b = GoStrings.Contains cmdline "herd_rootfs=1" ∧ es = [])).
  { eapply does_bind; [apply does_cmdline|]. intros a es [-> ->]. by apply does_ret. }
  intros b es [-> ->]. destruct (GoStrings.Contains _ _).
  - apply does_must.
  - eapply does_bind; [by apply does_attempts|].
    intros [b|x] es ->; [by apply does_ret|apply does_throw].
Qed.

Definition container_mounts : list call :=
  (bound <$> ["/proc"; "/sys"; "/dev"]) ++
  [tmpfs "/mnt/container/dev/shm" "size=64m,mode=1777"; tmpfs "/mnt/container/tmp" "size=64m,mode=1777";
   tmpfs "/mnt/container/run" "size=16m,mode=0755"; Symlink "/run" "/mnt/container/var/run"] ++
  ((λ sl, Symlink sl.1 sl.2) <$> devSymlinks).

Lemma does_container :
  does mountContainerFilesystems (λ _ es, ∃ ptmx,
    (ptmx = [] ∨ ptmx = [Symlink "/dev/pts/ptmx" "/dev/ptmx"]) ∧
    es = [Mount devpts] ++ ptmx ++ [Mount root_mount] ++ container_mounts).
Proof.
  unfold mountContainerFilesystems. eapply does_bind; [by apply does_attempts|]. intros a es ->. cbn [is_effect andb app].
  does_next. eapply does_bind; [apply does_mount_devpts|]. intros [] es ->.
  eapply does_bind; [apply does_sys|]. intros r es ->. cbn [is_effect andb app].
  eapply (does_bind _ _ (λ _ es, es = [] ∨ es = [Symlink "/dev/pts/ptmx" "/dev/ptmx"])).
  { case_decide; [|apply does_ret; by left]. eapply does_bind; [apply does_sys|]. intros [b|x] es ->.
    - apply does_ret. by right.
    - apply does_ret. by left. }
  intros [] ptmx Hp. eapply does_bind; [apply does_mount_root|]. intros [] es ->.
  eapply does_bind; [apply does_each, does_bind_mount|]. intros [] es ->.
  do 3 (eapply does_bind; [apply does_mount_tmpfs|]; intros [] es ->).
  eapply does_bind; [apply does_replaceSymlink|]. intros [] es ->.
  eapply does_weaken; [apply (does_each _ (λ sl, [Symlink sl.1 sl.2])); intros sl; apply does_replaceSymlink|].
  intros [] es ->. by exists ptmx.
Qed.

(** ** The network *)

Definition network_changes (ip gw : list Z) : list call :=
  [LinkSetUp "lo"; AddrAdd "eth0" ip gw; LinkSetUp "eth0"; RouteAdd "eth0" "0.0.0.0/0" gw;
   WriteFile "/etc/resolv.conf" dnsConfig; WriteFile "/mnt/container/etc/resolv.conf" dnsConfig].

Lemma does_configure ip gw : does (configure_eth0 ip gw;; configure_dns) (λ _ es, es = tail (network_changes ip gw)).
Proof.
  unfold configure_eth0, configure_dns. eapply (does_bind _ _ (λ _ es, es = take 3 (tail (network_changes ip gw)))).
  { do 2 does_next. does_last. }
  intros [] es ->. do 4 does_next. does_last.
Qed.

Lemma does_network :
  does configureNetworking (λ _ es, es = [LinkSetUp "lo"] ∨
    ∃ ip gw, ParseIP (parse_cmdline cmdline).1 = Some ip ∧ ParseIP (parse_cmdline cmdline).2 = Some gw ∧
      es = network_changes ip gw).
Proof.
  unfold configureNetworking. do 2 does_next. eapply does_bind; [apply does_sys|]. intros r es ->.
  cbn [is_effect andb app]. destruct r as [b|x]; [|apply does_ret; by left].
  eapply does_bind; [apply does_cmdline|]. intros a es [-> ->].
  destruct (parse_cmdline cmdline) as [ip gw]. cbn [fst snd]. case_decide; [apply does_throw|].
  destruct (ParseIP ip) as [x|], (ParseIP gw) as [y|]; [|apply does_throw..].
  eapply does_weaken; [apply does_configure|]. intros [] es ->. right. by exists x, y.
Qed.

(** The command line is at fault only if it is read and does not name two addresses. *)
Lemma network_error s e s' :
  configureNetworking s = (Err e, s') →
  match e with
  | ErrMissing _ => (parse_cmdline cmdline).1 = "" ∨ (parse_cmdline cmdline).2 = ""
  | ErrInvalid _ _ => ParseIP (parse_cmdline cmdline).1 = None ∨ ParseIP (parse_cmdline cmdline).2 = None
  | _ => True
  end.
Proof.
  set (J := λ e (_ : log) (_ : list Empty_set), match e with
    | ErrMissing _ => (parse_cmdline cmdline).1 = "" ∨ (parse_cmdline cmdline).2 = ""
    | ErrInvalid _ _ => ParseIP (parse_cmdline cmdline).1 = None ∨ ParseIP (parse_cmdline cmdline).2 = None
    | _ => True
    end). set (Inv := λ (_ : log) (_ : list Empty_set), True).
  assert (∀ c st, triple Inv J st (sys c) (λ a _, c = ReadFile "/proc/cmdline" → a = Ok cmdline)) as Hsys.
  { intros c st w r w' st' _ [= <- _ _]. split; [done|]. intros ->. apply Hcmdline. }
  assert (∀ c f st, (∀ x, J (f x) [] []) → triple Inv J st (must c f) (λ _ _, True)) as Hmust.
  { intros c f st Hf. eapply triple_bind; [apply Hsys|]. intros [b|x] st1 _.
    - by apply triple_ret.
    - apply triple_throw. intros w _. apply Hf. }
  assert (∀ c st, triple Inv J st (ignore c) (λ _ _, True)) as Hig.
  { intros c st. eapply triple_bind; [apply Hsys|]. intros ? ? _. by apply triple_ret. }
  assert (triple Inv J s.2 configureNetworking (λ _ _, True)) as H.
  { unfold configureNetworking, configure_eth0, configure_dns.
    do 2 (eapply triple_bind; [by apply Hmust|]; intros _ ? _).
    eapply triple_bind; [apply Hsys|]. intros [b|x] ? _; [|by apply triple_ret].
    eapply triple_bind; [apply Hsys|]. intros a ? ->; [|done].
    destruct (parse_cmdline cmdline) as [ip gw] eqn:E. case_decide as Hd.
    { apply triple_throw. by intros w _. }
    destruct (ParseIP ip) as [x|] eqn:Ei, (ParseIP gw) as [y|] eqn:Eg.
    2-4: apply triple_throw; intros w _; cbn; by auto.
    eapply triple_bind; [repeat (eapply triple_bind; [by apply Hmust|]; intros _ ? _); by apply Hmust|].
    intros _ ? _. eapply triple_bind; [apply Hig|]. intros _ ? _. eapply triple_bind; [by apply Hmust|].
    intros _ ? _. do 2 (eapply triple_bind; [apply Hig|]; intros _ ? _). by apply Hmust. }
  intros He. destruct s as [w st], s' as [w' st']. by specialize (H w _ w' st' I He).
Qed.

End agent.

(** ** The command line that the factory writes *)

Lemma boot_args_fields init ip c rest :
  no_space init = true → no_space ip = true → is_space c = true →
  ∃ ws, Fields (Factory.boot_args init ip +:+ String c rest) =
    ws ++ ["init=" +:+ init; "herd_rootfs=1"; "herd_ip=" +:+ ip; "herd_gw=" +:+ Factory.hostIP] ++ Fields rest ∧
    forallb (λ w, negb (HasPrefix w "herd_ip=" || HasPrefix w "herd_gw=")) ws = true.
Proof.
  intros Hi Hip Hc. unfold Factory.boot_args.
  set (pre := "console=ttyS0 reboot=k panic=1 pci=off quiet mitigations=off i8042.nokbd i8042.noaux tsc=reliable random.trust_cpu=on random.trust_bootloader=on root=/dev/vda rw rootfstype=ext4 rootflags=noload,noinit_itable").
  exists (Fields pre). split; [|vm_compute; reflexivity].
  rewrite !string_app_assoc.
  change ("console=ttyS0 reboot=k panic=1 pci=off quiet mitigations=off i8042.nokbd i8042.noaux tsc=reliable random.trust_cpu=on random.trust_bootloader=on root=/dev/vda rw rootfstype=ext4 rootflags=noload,noinit_itable init=" +:+ ?x)
    with (pre +:+ String " " ("init=" +:+ x)).
  rewrite Fields_app by done. f_equal.
  change (" herd_rootfs=1 herd_ip=" +:+ ?x) with (String " " ("herd_rootfs=1" +:+ String " " ("herd_ip=" +:+ x))).
  change (" herd_gw=" +:+ ?x) with (String " " ("herd_gw=" +:+ x)).
  rewrite <-!(string_app_assoc "init="), <-!(string_app_assoc "herd_ip="), <-!(string_app_assoc "herd_gw=").
  by rewrite !Fields_word.
Qed.

Lemma cmdline_steps_skip acc ws :
  forallb (λ w, negb (HasPrefix w "herd_ip=" || HasPrefix w "herd_gw=")) ws = true → foldl cmdline_step acc ws = acc.
Proof.
  revert acc. induction ws as [|w ws IH]; intros acc; [done|]. simpl. intros [Hw Hws]%andb_true_iff.
  rewrite IH by done. unfold cmdline_step. destruct (HasPrefix w "herd_ip="); [done|].
  by destruct (HasPrefix w "herd_gw=").
Qed.

(** [Firecracker] and the kernel may add words behind the factory's. *)
Lemma parse_boot_args init ip c rest :
  no_space init = true → no_space ip = true → is_space c = true →
  forallb (λ w, negb (HasPrefix w "herd_ip=" || HasPrefix w "herd_gw=")) (Fields rest) = true →
  parse_cmdline (Factory.boot_args init ip +:+ String c rest) = (ip, Factory.hostIP).
Proof.
  intros Hi Hip Hc Hr. unfold parse_cmdline.
  destruct (boot_args_fields init ip c rest Hi Hip Hc) as (ws & -> & Hws).
  rewrite foldl_app, (cmdline_steps_skip _ ws), foldl_app, (cmdline_steps_skip _ (Fields rest)) by done.
  unfold Factory.hostIP. cbn [foldl]. unfold cmdline_step, TrimPrefix.
  change (HasPrefix ("init=" +:+ init) "herd_ip=") with false. change (HasPrefix ("init=" +:+ init) "herd_gw=") with false.
  change (HasPrefix "herd_rootfs=1" "herd_ip=") with false. change (HasPrefix "herd_rootfs=1" "herd_gw=") with false.
  rewrite HasPrefix_self. cbn [drop_bytes String.length String.append]. done.
Qed.

Lemma boot_args_rootfs init ip s : GoStrings.Contains (Factory.boot_args init ip +:+ s) "herd_rootfs=1" = true.
Proof.
  unfold Factory.boot_args. rewrite !string_app_assoc. rewrite <-string_app_assoc.
  change (" herd_rootfs=1 herd_ip=" +:+ ?x) with (" " +:+ "herd_rootfs=1" +:+ " herd_ip=" +:+ x).
  rewrite <-!(string_app_assoc _ " "). apply Contains_app, HasPrefix_self.
Qed.

(** ** Properties of the boot *)

(** Mounting the container's file systems, when it succeeds, has made these changes and
    no others, in this order: [devpts] once, however many tries it took; the link of [ptmx]
    if it was not there; the container's root, which is the VM's own root if the command
    line says so and the block device otherwise; the kernel's file systems, the private
    ones, and the links. *)
Theorem container_mounted os cmdline s s' :
  (∀ l, os l (ReadFile "/proc/cmdline") = Ok cmdline) →
  mountContainerFilesystems os s = (Ok tt, s') →
  ∃ ptmx, (ptmx = [] ∨ ptmx = [Symlink "/dev/pts/ptmx" "/dev/ptmx"]) ∧
    effects s'.1 = effects s.1 ++ [Mount devpts] ++ ptmx ++
      [Mount (if GoStrings.Contains cmdline "herd_rootfs=1" then root_bind else root_ext4)] ++ container_mounts.
Proof. intros Hc Hs. destruct (does_container os cmdline Hc _ _ _ Hs) as (es & E & ptmx & Hp & ->). eauto. Qed.

(** In a VM of the factory the agent finds the address that was leased for it and the
    host's: whatever words are added behind the factory's command line, the container's root
    is the VM's, the network is configured with exactly these two unless there is no
    interface, and the command line is never what it fails for. *)
Lemma boot_network os a b c d x rest s r s' :
  is_byte a → is_byte b → is_byte c → is_byte d → is_space x = true →
  forallb (λ w, negb (HasPrefix w "herd_ip=" || HasPrefix w "herd_gw=")) (Fields rest) = true →
  (∀ l, os l (ReadFile "/proc/cmdline") =
    Ok (Factory.boot_args Factory.DefaultGuestAgentPath (dotted a b c d) +:+ String x rest)) →
  configureNetworking os s = (r, s') →
  match r with
  | Ok _ => effects s'.1 = effects s.1 ++ [LinkSetUp "lo"] ∨
      effects s'.1 = effects s.1 ++
        network_changes (v4InV6Prefix ++ [a; b; c; d]) (v4InV6Prefix ++ [10; 200; 0; 1])
  | Err (ErrMissing _ | ErrInvalid _ _) => False
  | Err _ => True
  end.
Proof.
  intros Ha Hb Hc Hd Hx Hr Hcmd Hs.
  assert (parse_cmdline (Factory.boot_args Factory.DefaultGuestAgentPath (dotted a b c d) +:+ String x rest) =
    (dotted a b c d, Factory.hostIP)) as Hp by (apply parse_boot_args; [done|by apply dotted_no_space|done..]).
  pose proof (ParseIP_dotted a b c d Ha Hb Hc Hd) as Hi.
  destruct r as [[]|e].
  - destruct (does_network os _ Hcmd _ _ _ Hs) as (es & E & [->|(ip & gw & H1 & H2 & ->)]); [by left|right].
    rewrite Hp in H1, H2. cbn [fst snd] in H1, H2. rewrite Hi in H1. vm_compute in H2. simplify_eq. done.
  - pose proof (network_error os _ Hcmd _ _ _ Hs) as He. rewrite Hp in He. cbn [fst snd] in He. rewrite Hi in He.
    destruct e; try done; destruct He as [He|He]; try done.
    by apply (dotted_nonempty a b c d Ha).
Qed.

(** ** The payload *)

(** What arrives: a list without elements is not sent. *)
Definition received (p : Vsock.ExecPayload) : Vsock.ExecPayload :=
  Vsock.mkPayload (Vsock.Command p) (if decide (default [] (Vsock.Env p) = []) then None else Vsock.Env p).

Definition valid_payload (p : Vsock.ExecPayload) : Prop :=
  Forall (λ s, valid_utf8 s = true) (default [] (Vsock.Command p)) ∧
  Forall (λ s, valid_utf8 s = true) (default [] (Vsock.Env p)).

(** A member of an object: a key, and a list of strings, and what is behind it. *)
Lemma read_member fuel key o c t :
  valid_utf8 key = true → Forall (λ s, valid_utf8 s = true) (default [] o) →
  (S (length (default [] o)) < fuel)%nat → json_space c = false →
  ∃ v, (∀ old, read_strings old v = Some o) ∧
    read_members (S fuel) (print_string key +:+ ":" +:+ print_strings o +:+ String c t) =
      if decide (c = "}"%char) then Some (JObject [(key, v)], t)
      else if decide (c = ","%char) then
        match read_members fuel t with Some (JObject vs, r) => Some (JObject ((key, v) :: vs), r) | _ => None end
      else None.
Proof.
  intros Hk Ho Hf Hc. destruct (read_value_strings o fuel (String c t) Ho Hf) as (v & Hv & Hr).
  exists v. split; [done|]. destruct (read_print_string key (":" +:+ print_strings o +:+ String c t) Hk) as (r & -> & Hs).
  cbn [read_members]. rewrite skip_nonspace by done. rewrite decide_True by done. rewrite Hs.
  cbn [String.append]. rewrite skip_nonspace by done. rewrite decide_True by done. rewrite Hv.
  by rewrite skip_nonspace.
Qed.

(** The agent reads what the host marshalled, whatever follows. *)
Lemma decode_Marshal p t : valid_payload p → decode_payload (Vsock.Marshal p +:+ t) = Some (received p).
Proof.
  intros [Hc He]. unfold decode_payload, received.
  assert (∃ l r, read_json (Vsock.Marshal p +:+ t) = Some (JObject l, r) ∧
    foldl decode_field (Some (Vsock.mkPayload None None)) l = Some (received p)) as (l & r & -> & Hl).
  2: { simpl. by rewrite Hl. }
  unfold read_json. set (n := (3 * String.length (Vsock.Marshal p +:+ t))%nat).
  pose proof (print_strings_length (Vsock.Command p)) as L1. pose proof (print_strings_length (Vsock.Env p)) as L2.
  assert (∀ k key x, read_value (S (S k)) (String "{" (print_string key +:+ x)) =
    read_members (S k) (print_string key +:+ x)) as Hobj by done.
  unfold received. case_decide as Hn.
  - assert (Vsock.Marshal p +:+ t = String "{" (print_string "command" +:+ ":" +:+ print_strings (Vsock.Command p) +:+ String "}" t)) as E.
    { unfold Vsock.Marshal. rewrite decide_True by done. by rewrite !string_app_assoc. }
    assert (∃ k, n = S (S k) ∧ (S (length (default [] (Vsock.Command p))) < S k)%nat) as (k & -> & Hk).
    { exists (n - 2)%nat. subst n. rewrite E. cbn [String.length]. rewrite !length_app_string. simpl String.length. lia. }
    rewrite E, Hobj. destruct (read_member (S k) "command" (Vsock.Command p) "}" t) as (v & Hv & ->); [done..|lia|done|].
    eexists _, _. split; [done|]. cbn [foldl decode_field].
    unfold decode_field, mbind, option_bind. cbn [fst snd]. rewrite decide_True by done. by rewrite Hv.
  - assert (Vsock.Marshal p +:+ t = String "{" (print_string "command" +:+ ":" +:+ print_strings (Vsock.Command p) +:+
      String "," (print_string "env" +:+ ":" +:+ print_strings (Vsock.Env p) +:+ String "}" t))) as E.
    { unfold Vsock.Marshal. rewrite decide_False by done. by rewrite !string_app_assoc. }
    assert (∃ k, n = S (S k) ∧ (S (length (default [] (Vsock.Command p))) < S k)%nat ∧
      (S (length (default [] (Vsock.Env p))) < k)%nat) as (k & -> & Hk & Hk').
    { exists (n - 2)%nat. subst n. rewrite E. cbn [String.length]. rewrite !length_app_string. simpl String.length.
      rewrite !length_app_string. simpl String.length. lia. }
    rewrite E, Hobj. destruct (read_member (S k) "command" (Vsock.Command p) ","
      (print_string "env" +:+ ":" +:+ print_strings (Vsock.Env p) +:+ String "}" t)) as (v & Hv & ->); [done..|lia|done|].
    rewrite decide_False by done. rewrite decide_True by done.
    destruct (read_member k "env" (Vsock.Env p) "}" t) as (v' & Hv' & ->); [done..|]. rewrite decide_True by done.
    eexists _, _. split; [done|]. cbn [foldl]. unfold decode_field, mbind, option_bind. cbn [fst snd].
    rewrite decide_True by done. rewrite Hv. cbn [Vsock.Env]. rewrite decide_False by done. rewrite decide_True by done.
    by rewrite Hv'.
Qed.

(** A workload that the host sends, in UTF-8, is the workload that the agent receives:
    [Execute] writes one text on the connection and closes it at the end, however that
    comes, and the agent's decoder reads from it, and whatever may follow, the command and
    the environment. *)
Lemma workload_arrives ends conn p :
  valid_payload p →
  ∃ text, Vsock.sent (Vsock.Execute false ends conn p).2 = Vsock.sent conn +:+ text ∧
    Vsock.closed (Vsock.Execute false ends conn p).2 = true ∧
    ∀ more, decode_payload (text +:+ more) = Some (received p).
Proof.
  intros Hp. exists (Vsock.Marshal p +:+ String Vsock.newline ""). split_and!; [by destruct ends..|].
  intros more. rewrite string_app_assoc. by apply decode_Marshal.
Qed.

(** ** What is run *)

Definition run_in_container (path : string) (p : Vsock.ExecPayload) : Cmd :=
  mkCmd path (default [] (Vsock.Command p)) (default_PATH :: default [] (Vsock.Env p)) "/mnt/container" "" false.

(** The first directory of the search path that has the file. *)
Definition found_in (has : string → bool) (bin : string) : option string :=
  head (filter (λ d, has ("/mnt/container" +:+ d +:+ "/" +:+ bin)) search_paths).

Lemma look_up_spec os has bin paths s :
  (∀ l p, is_ok (os l (Stat p)) = has p) →
  (look_up os bin paths s).1 =
    Ok (match head (filter (λ d, has ("/mnt/container" +:+ d +:+ "/" +:+ bin)) paths) with
        | Some d => d +:+ "/" +:+ bin | None => bin end).
Proof.
  intros Hos. revert s. induction paths as [|d paths IH]; intros s; [done|]. cbn [look_up].
  unfold mbind, M_bind, sys. cbn [fst snd]. unfold container_root.
  pose proof (Hos s.1 ("/mnt/container" +:+ d +:+ "/" +:+ bin)) as Ho. destruct (os s.1 _) as [b|x]; cbn [is_ok] in Ho; rewrite filter_cons.
  - rewrite decide_True; [done|]. by apply Is_true_eq_left.
  - rewrite decide_False; [apply IH|]. intros Hh%Is_true_eq_true. by rewrite <-Ho in Hh.
Qed.

(** What a payload makes the agent run: nothing if it cannot be decoded, names no
    command, or names one that no directory of the search path has; otherwise that command
    with the payload's arguments, the agent's search path before the payload's environment,
    and the container as its root.  The working directory is the agent's own. *)
Lemma workload_command os has text s :
  (∀ l p, is_ok (os l (Stat p)) = has p) →
  (handleExecution os text s).1 =
    match decode_payload text with
    | None => Err ErrDecode
    | Some p =>
        match default [] (Vsock.Command p) with
        | [] => Err ErrEmptyCommand
        | bin :: _ =>
            if HasPrefix bin "/" then Ok (run_in_container bin p)
            else match found_in has bin with
                 | Some d => Ok (run_in_container (d +:+ "/" +:+ bin) p)
                 | None => Err (ErrNotFound bin)
                 end
        end
    end.
Proof.
  intros Hos. unfold handleExecution, receive. destruct (decode_payload text) as [p|]; [|done].
  destruct (default [] (Vsock.Command p)) as [|bin args] eqn:Ec; [done|].
  cbv [mbind M_bind mret M_ret]. unfold workload. destruct (HasPrefix bin "/") eqn:Hb.
  { cbv [mbind M_bind mret M_ret]. rewrite Hb. done. }
  unfold mbind, M_bind. pose proof (look_up_spec os has bin search_paths s Hos) as Hl.
  destruct (look_up os bin search_paths s) as [r s1]. cbn [fst] in Hl. subst r. fold (found_in has bin).
  destruct (found_in has bin) as [d|] eqn:Ed; [|by rewrite Hb].
  assert (d ∈ search_paths) as Hd.
  { unfold found_in in Ed. apply head_Some_elem_of, list_elem_of_filter in Ed. by destruct Ed. }
  assert (HasPrefix (d +:+ "/" +:+ bin) "/" = true) as ->; [|done].
  apply HasPrefix_slash_app. revert Hd. unfold search_paths. clear. intros Hd.
  repeat (apply elem_of_cons in Hd as [-> |Hd]; [reflexivity|]). by apply not_elem_of_nil in Hd.
Qed.

(** ** Retries *)

(** [k] tries that failed, each with a pause behind it. *)
Fixpoint failed_tries (k : nat) (c : call) (ms : Z) (l l' : log) : Prop :=
  match k with
  | O => l' = l
  | S k => ∃ x b l1, failed_tries k c ms ((Sleep ms, b) :: (c, Err x) :: l) l1 ∧ l' = l1
  end.

Lemma attempts_spec os n c ms last s a s' :
  attempts os n c ms last s = (Ok a, s') →
  (∃ k l1, (k < n)%nat ∧ failed_tries k c ms s.1 l1 ∧ s'.1 = (c, a) :: l1 ∧ is_ok a = true) ∨
  (failed_tries n c ms s.1 s'.1 ∧ (n = O ∧ a = last ∨ is_ok a = false)).
Proof.
  revert last s. induction n as [|n IH]; intros last s Ha; cbn [attempts] in Ha.
  { injection Ha as -> ->. right. split; [done|by left]. }
  unfold mbind, M_bind, sys, ignore in Ha. cbn [fst snd] in Ha. destruct (os s.1 c) as [b|x] eqn:E.
  - cbv [mret M_ret] in Ha. injection Ha as <- <-. left. exists O, s.1. rewrite ?E. split_and!; [lia|done..].
  - cbv [mret M_ret mbind M_bind sys] in Ha. cbn [fst snd] in Ha. apply IH in Ha as [(k & l1 & Hk & Hl & Hs & Ho)|[Hl Ha]].
    + left. exists (S k), l1. split_and!; [lia| |done..]. cbn [failed_tries]. by eexists _, _, l1.
    + right. split; [by eexists _, _, _|]. destruct Ha as [[_ ->]|Ha]; by right.
Qed.

(** The control port is asked for until it is given, at most 51 times and with 50 pauses
    of 5 ms; the answer is the last one, and it is an error only after all of them. *)
Theorem listen_retries os port s a s' :
  listenVsock os port s = (Ok a, s') →
  ∃ k l1, (k ≤ 50)%nat ∧ failed_tries k (Listen port) 5 s.1 l1 ∧ s'.1 = (Listen port, a) :: l1 ∧
    (is_ok a = true ∨ k = 50%nat).
Proof.
  unfold listenVsock. intros (a1 & s1 & H1 & H2)%bind_ok.
  apply attempts_spec in H1 as [(k & l1 & Hk & Hl & Hs & Ho)|[Hl Ha]].
  - destruct a1 as [b|x]; [|done]. injection H2 as <- <-. exists k, l1. split_and!; [lia|done..|by left].
  - destruct Ha as [[? _]|Ha]; [done|]. destruct a1 as [b|x]; [done|]. injection H2 as <- <-.
    exists 50%nat, s1.1. split_and!; [lia|done..|by right].
Qed.

(** ** Witnesses *)

(** A kernel that gives what it is asked for. *)
Definition kind_os (cmdline : string) (l : log) (c : call) : answer :=
  match c with ReadFile _ => Ok cmdline | Stat "/mnt/container/bin/sh" => Ok "" | Stat _ => Err ENOENT | _ => Ok "" end.

Definition example_cmdline : string :=
  Factory.boot_args Factory.DefaultGuestAgentPath (dotted 10 200 0 2) +:+ " virtio_mmio.device=4K@0xd0001000:6".

Lemma container_mounted_witness :
  effects (mountContainerFilesystems (kind_os example_cmdline) ([], [])).2.1 =
    [Mount devpts; Symlink "/dev/pts/ptmx" "/dev/ptmx"; Mount root_bind] ++ container_mounts.
Proof.
  destruct (container_mounted (kind_os example_cmdline) example_cmdline ([], [])
    (mountContainerFilesystems (kind_os example_cmdline) ([], [])).2) as (ptmx & [-> | ->] & E);
    [done|vm_compute; reflexivity| |].
  - vm_compute in E. discriminate E.
  - rewrite E. vm_compute. reflexivity.
Defined.

Definition example_payload : Vsock.ExecPayload :=
  Vsock.mkPayload (Some ["sh"; "-c"; "echo <" +:+ String "195" (String "169" ">")]) (Some ["A=1"]).

Lemma listen_retries_witness :
  ∃ k l1, (k ≤ 50)%nat ∧ failed_tries k (Listen 5000) 5 [] l1 ∧
    (listenVsock (λ l c, if decide (length l < 4)%nat then Err EOTHER else Ok "") 5000 ([], [])).2.1 =
      (Listen 5000, Ok "") :: l1.
Proof.
  destruct (listen_retries (λ l c, if decide (length l < 4)%nat then Err EOTHER else Ok "") 5000 ([], []) (Ok "")
    (listenVsock (λ l c, if decide (length l < 4)%nat then Err EOTHER else Ok "") 5000 ([], [])).2)
    as (k & l1 & Hk & Hf & E & _); [vm_compute; reflexivity|]. by exists k, l1.
Defined.

End GuestAgent.
