(* ===== verification/EndToEnd.v ===== *)
(** * From a spawn to the process in the VM

    The composition of the models of the host and of the guest: the address that the
    allocator grants is, through the VM's command line, the address that the agent gives to
    the interface; the command of the request, or of the image, is, through the payload on
    the vsock connection, the process that the agent starts. *)
From stdpp Require Import options.
From S2P Require Import Prelude GoStrings GoNet GoJson Rollback UidPool Ipam PortMgr Registry ImageStore HostNet Tap Factory FactoryInv FactorySteps FactoryProps Vsock GuestAgent.
Import Factory.Factory FactorySteps.FactorySteps FactoryProps.FactoryProps.
#[local] Open Scope Z_scope.

#[local] Existing Instances HostNet.kernel_commands HostNet.kernel_laws Tap.host_netlink
  Tap.host_laws ImageStore.store_ops ImageStore.store_laws.

Module EndToEnd.

Section spawn.
Context {C N : Type} `{!Containerd C} `{!ContainerdLaws C} `{!Commands N} `{!Netlink N} `{!HostLaws N}.
Notation World := (World (C := C) (N := N)).
Notation M := (M (C := C) (N := N)).
#[local] Set Default Proof Using "Type*".

(** The allocator after a spawn is the allocator after its one acquisition. *)
Lemma spawn_acquires f env vmID cfg (w0 w1 : World) wk st :
  spawn_body f env vmID cfg (w0, []) = (Ok wk, (w1, st)) →
  Ipam.Acquire (w_ipam w0) = Some (Ok (guestIP wk), w_ipam w1).
Proof.
  intros (uid & cmd & img & dev & ip & tap & act & s1 & s2 & s3 & s4 & s5 & s6 & s7 & s8 & s9 &
    E1 & E2 & E3 & E4 & E5 & E6 & E7 & E8 & E9 & E10 & ->)%spawn_steps.
  apply (lease_keeps w_ipam) in E1; [|done]. apply (warm_keeps w_ipam) in E2; [|done]. apply (command_keeps w_ipam) in E3.
  apply (snapshot_keeps w_ipam) in E4; [|done]. apply (inject_keeps w_ipam) in E5; [|done].
  apply (chroot_keeps w_ipam) in E6; [|done]. apply (tap_keeps w_ipam) in E8; [|done].
  apply (launch_keeps w_ipam) in E9; [|done..]. apply (map_ports_keeps w_ipam) in E10; [|done..].
  cbn [fst guestIP] in *. rewrite E10, E9, E8, <-E1, <-E2, <-E3, <-E4, <-E5, <-E6.
  unfold acquire_ip, mbind, M_bind, world, modify, push, fail, throw, mret, M_ret in E7. simpl in E7.
  destruct (Ipam.Acquire (w_ipam s6.1)) as [[[?|?] ?]|]; by simplify_eq/=.
Qed.

Lemma spawn_ok f env vmID cfg (w0 w1 : World) wk :
  Spawn f env w0 vmID cfg = (Ok wk, w1) → ∃ st, spawn_body f env vmID cfg (w0, []) = (Ok wk, (w1, st)).
Proof. unfold Spawn. intros E. destruct (spawn_body _ _ _ _ _) as [[wk'|e] [w st]]; simplify_eq. by exists st. Qed.

(** ** The network *)

(** [C18] The address of a VM, from the pool to the interface.  A spawn that succeeds has
    made one acquisition of the abstract allocator, and so has the first free address in
    the rotor's order; and in the VM that it started the agent, whatever words Firecracker
    and the kernel add behind the command line, none of which begins with [herd_ip=] or
    [herd_gw=], gives [eth0] exactly this address and the host's as its gateway, unless there
    is no such interface, and never fails for want of either. *)
Theorem spawned_vm_network base k f env vmID cfg (w0 w1 : World) wk a :
  Ipam.net_ok base k → Ipam.represents base k (w_ipam w0) a →
  Spawn f env w0 vmID cfg = (Ok wk, w1) →
  ∃ v a' vm, Ipam.alloc_acquire base k a (Ok v) a' ∧ Ipam.represents base k (w_ipam w1) a' ∧
    guestIP wk = Ipam.addr_string v ∧ w_procs w1 !! vmID = Some vm ∧
    ∀ os x rest s r s',
      is_space x = true →
      forallb (λ w, negb (HasPrefix w "herd_ip=" || HasPrefix w "herd_gw=")) (Fields rest) = true →
      (∀ l, os l (GuestAgent.ReadFile "/proc/cmdline") =
        Ok (boot_args DefaultGuestAgentPath (boot_ip vm) +:+ String x rest)) →
      GuestAgent.configureNetworking os s = (r, s') →
      match r with
      | Ok _ => GuestAgent.effects s'.1 = GuestAgent.effects s.1 ++ [GuestAgent.LinkSetUp "lo"] ∨
          GuestAgent.effects s'.1 = GuestAgent.effects s.1 ++
            GuestAgent.network_changes (v4InV6Prefix ++ Ipam.addr_bytes v) (v4InV6Prefix ++ [10; 200; 0; 1])
      | Err (GuestAgent.ErrMissing _ | GuestAgent.ErrInvalid _ _) => False
      | Err _ => True
      end.
Proof.
  intros Hok Hrep Hs. apply spawn_ok in Hs as [st Hs].
  pose proof (spawn_acquires _ _ _ _ _ _ _ _ Hs) as Ha.
  destruct (spawn_vm _ _ _ _ _ _ _ _ Hs) as (img & vm & _ & _ & Hvm & _ & Hip & _).
  destruct (Ipam.Acquire_spec base k Hok _ _ Hrep) as (r & i & a' & Ha' & Hacq & Hrep'). rewrite Ha in Ha'.
  destruct r as [v|e]; simpl in Ha'; [|done]. injection Ha' as Hv <-. exists v, a', vm. split_and!; [done..|].
  intros os x rest s r s' Hx Hr Hc. rewrite Hip, Hv in Hc.
  pose proof (Ipam.addr_bytes_byte v) as Hb. unfold Ipam.addr_bytes in Hb |- *.
  rewrite !Forall_cons in Hb. destruct Hb as (B1 & B2 & B3 & B4 & _).
  by eapply (GuestAgent.boot_network os _ _ _ _ x rest s r s').
Qed.

(** ** The process *)

(** The process that the agent starts: the command itself if it is a path, and otherwise
    the one that the first directory of the search path has. *)
Definition process (has : string → bool) (cmd vars : list string) : result GuestAgent.error GuestAgent.Cmd :=
  match cmd with
  | [] => Err GuestAgent.ErrEmptyCommand
  | bin :: _ =>
      match (if HasPrefix bin "/" then Some bin else (λ d, d +:+ "/" +:+ bin) <$> GuestAgent.found_in has bin) with
      | Some path => Ok (GuestAgent.mkCmd path cmd (GuestAgent.default_PATH :: vars) "/mnt/container" "" false)
      | None => Err (GuestAgent.ErrNotFound bin)
      end
  end.

(** [C17] The command of a session, from the request to the process.  What a spawn that
    succeeds has sent to its VM is the image's entrypoint and command as the request
    overrides them, and their environment; and if these are UTF-8, the agent that reads what
    was written on the connection, however the copy of the output ends and whatever may
    follow, starts this very command, from the image's root, with the agent's search path
    before this environment; or, if no directory of that path has it, refuses. *)
Theorem spawned_command_runs f env vmID cfg (w0 w1 : World) wk :
  Spawn f env w0 vmID cfg = (Ok wk, w1) →
  ∃ img vm cmd vars,
    ImageStore.ExtractImageConfig (ImageStore.WarmImage (w_storage w0) (Image cfg)).1 (Image cfg) = Ok img ∧
    w_procs w1 !! vmID = Some vm ∧ payload vm = Some (cmd, vars) ∧
    cmd = final_command img (Command cfg) ∧ vars = final_env img (range_env env (Registry.Env cfg)) ∧
    ∀ os has ends conn more s,
      let p := Vsock.mkPayload (Some cmd) (Some vars) in
      GuestAgent.valid_payload p → (∀ l p, is_ok (os l (GuestAgent.Stat p)) = has p) →
      ∃ text, Vsock.sent (Vsock.Execute false ends conn p).2 = Vsock.sent conn +:+ text ∧
        (GuestAgent.handleExecution os (text +:+ more) s).1 = process has cmd vars.
Proof.
  intros Hs. apply spawn_ok in Hs as [st Hs].
  destruct (spawn_vm _ _ _ _ _ _ _ _ Hs) as (img & vm & Hi & Hne & Hvm & _ & _ & _ & _ & _ & Hp).
  exists img, vm, (final_command img (Command cfg)), (final_env img (range_env env (Registry.Env cfg))).
  split_and!; [done..|]. intros os has ends conn more s p Hv Hos.
  exists (Vsock.Marshal p +:+ String Vsock.newline ""). split; [by destruct ends|].
  rewrite string_app_assoc, (GuestAgent.workload_command os has), GuestAgent.decode_Marshal by done.
  unfold GuestAgent.received, GuestAgent.run_in_container, process. simpl.
  destruct (final_command img (Command cfg)) as [|bin args]; [done|].
  assert (default [] (if decide (final_env img (range_env env (Registry.Env cfg)) = []) then None
    else Some (final_env img (range_env env (Registry.Env cfg)))) =
    final_env img (range_env env (Registry.Env cfg))) as -> by by case_decide.
  destruct (HasPrefix bin "/"); [done|]. by destruct (GuestAgent.found_in has bin).
Qed.

End spawn.

(** ** Witnesses: the host of [FactoryProps] with a new allocator *)

Definition host : World (C := ImageStore.store) (N := machine) := set_ipam Ipam.default_ipam demo_world.

Definition demo_image : ImageStore.ImageConfig :=
  match ImageStore.ExtractImageConfig (ImageStore.WarmImage (w_storage host) "alpine").1 "alpine" with
  | Ok img => img
  | Err _ => ImageStore.mkImageConfig [] [] []
  end.

Lemma demo_spawn :
  ∃ wk w, Spawn demo_factory (demo_env "") host "vm1" demo_cfg = (Ok wk, w) ∧ guestIP wk = "10.200.0.2" ∧
    (boot_ip <$> w_procs w !! "vm1") = Some "10.200.0.2".
Proof. eexists _, _. split; [vm_compute; reflexivity|]. split; vm_compute; reflexivity. Qed.

Lemma spawned_vm_network_witness :
  ∃ wk w v, Spawn demo_factory (demo_env "") host "vm1" demo_cfg = (Ok wk, w) ∧
    guestIP wk = "10.200.0.2" ∧ guestIP wk = Ipam.addr_string v ∧
    GuestAgent.effects (GuestAgent.configureNetworking (GuestAgent.kind_os GuestAgent.example_cmdline) ([], [])).2.1 =
      GuestAgent.network_changes (v4InV6Prefix ++ Ipam.addr_bytes v) (v4InV6Prefix ++ [10; 200; 0; 1]).
Proof.
  destruct demo_spawn as (wk & w & Hs & Hg & Hb). exists wk, w.
  destruct (spawned_vm_network (Ipam.network_of 10 200 0 0 16) 16 demo_factory (demo_env "") "vm1" demo_cfg
    host w wk (Ipam.mkAlloc (Ipam.lo (Ipam.network_of 10 200 0 0 16)) ∅))
    as (v & a' & vm & _ & _ & Hip & Hvm & H).
  - apply (Ipam.net_ok_network 10 200 0 0 16); vm_compute; split; congruence.
  - apply (Ipam.NewIPAM_represents 10 200 0 0 16); [vm_compute; split; congruence..|]. vm_compute. reflexivity.
  - exact Hs.
  - exists v. split; [exact Hs|]. split; [exact Hg|]. split; [exact Hip|].
    rewrite Hvm in Hb. injection Hb as Hb. rewrite Hb in H.
    destruct (H (GuestAgent.kind_os GuestAgent.example_cmdline) " "%char "virtio_mmio.device=4K@0xd0001000:6" ([], [])
      (Ok tt) (GuestAgent.configureNetworking (GuestAgent.kind_os GuestAgent.example_cmdline) ([], [])).2)
      as [E|E]; [reflexivity|vm_compute; reflexivity|intros l; reflexivity|vm_compute; reflexivity| |].
    + vm_compute in E. discriminate E.
    + exact E.
Defined.

(** A guest whose only file is its shell. *)
Definition has_shell (p : string) : bool := bool_decide (p = "/mnt/container/bin/sh").
Definition shell_os (l : GuestAgent.log) (c : GuestAgent.call) : GuestAgent.answer :=
  match c with GuestAgent.Stat p => if has_shell p then Ok "" else Err GuestAgent.ENOENT | _ => Ok "" end.

Lemma spawned_command_runs_witness :
  ∃ wk w cmd vars text, Spawn demo_factory (demo_env "") host "vm1" demo_cfg = (Ok wk, w) ∧
    (payload <$> w_procs w !! "vm1") = Some (Some (cmd, vars)) ∧ cmd = ["/bin/server"] ∧
    (GuestAgent.handleExecution shell_os text ([], [])).1 = process has_shell cmd vars.
Proof.
  destruct demo_spawn as (wk & w & Hs & _ & _).
  destruct (spawned_command_runs demo_factory (demo_env "") "vm1" demo_cfg host w wk Hs)
    as (img & vm & cmd & vars & Hi & Hvm & Hp & Hcmd & Hvars & H).
  assert (img = demo_image) as -> by (vm_compute in Hi; vm_compute; congruence).
  assert (cmd = ["/bin/server"]) as Hc by (rewrite Hcmd; vm_compute; reflexivity).
  assert (vars = final_env demo_image []) as Hv by (rewrite Hvars; vm_compute; reflexivity).
  destruct (H shell_os has_shell Vsock.GuestClosed (Vsock.mkConn [] "" false) "" ([], [])) as (text & _ & E).
  - rewrite Hc, Hv. split; vm_compute; repeat constructor.
  - intros l p. simpl. by destruct (has_shell p).
  - exists wk, w, cmd, vars, (text +:+ ""). split; [exact Hs|]. split; [|split; [exact Hc|exact E]].
    rewrite Hvm. simpl. by rewrite Hp.
Defined.

End EndToEnd.
