(* ===== verification/VmConfig.v ===== *)
(** * The configuration of a VM ([firecracker_factory.go], the text that [Spawn] writes)

    Firecracker reads its configuration from a JSON text that [Spawn] formats with [%s] and
    [%d].  [configData] is this text, and the theorem says that a JSON reader finds in it
    the VM that [Factory] starts, as long as the name of the tap needs no escape. *)
From stdpp Require Import options.
From S2P Require Import Prelude GoStrings GoNet GoJson Json Rollback UidPool Ipam Registry ImageStore HostNet Tap Factory FactoryInv FactoryProps EndToEnd.
Import Factory.Factory FactoryProps.FactoryProps.
#[local] Open Scope Z_scope.

#[local] Existing Instances HostNet.kernel_commands HostNet.kernel_laws Tap.host_netlink
  Tap.host_laws ImageStore.store_ops ImageStore.store_laws.

Module VmConfig.

(** Apostrophes stand for the quotes of the source. *)
Fixpoint quotes (s : string) : string :=
  match s with
  | EmptyString => ""
  | String c s => String (if decide (c = "'"%char) then quote else c) (quotes s)
  end.

(** A line of the text behind [n] tabs. *)
Definition line (n : nat) (s : string) : string := newline n +:+ s.

(** [fmt.Sprintf] of [%02x], of the time modulo 256. *)
Definition macByte (nano : Z) : string :=
  let b := nano `mod` 256 in String (hex_digit (b `div` 16)) (String (hex_digit (b `mod` 16)) "").

Definition configData (initPath guestIP macByte tapName : string) (vcpu mem : Z) : string :=
  "{" +:+
  line 2 (quotes "'boot-source': {") +:+
  line 3 (quotes "'kernel_image_path': '/run/vmlinux',") +:+
  line 3 (quotes "'boot_args': '" +:+ boot_args initPath guestIP +:+ quotes "'") +:+
  line 2 "}," +:+
  line 2 (quotes "'drives': [") +:+
  line 3 "{" +:+
  line 4 (quotes "'drive_id': 'rootfs',") +:+
  line 4 (quotes "'path_on_host': '/dev/vda',") +:+
  line 4 (quotes "'is_root_device': true,") +:+
  line 4 (quotes "'is_read_only': false") +:+
  line 3 "}" +:+
  line 2 "]," +:+
  line 2 (quotes "'network-interfaces': [") +:+
  line 3 "{" +:+
  line 4 (quotes "'iface_id': 'eth0',") +:+
  line 4 (quotes "'guest_mac': 'AA:FC:00:00:00:" +:+ macByte +:+ quotes "',") +:+
  line 4 (quotes "'host_dev_name': '" +:+ tapName +:+ quotes "'") +:+
  line 3 "}" +:+
  line 2 "]," +:+
  line 2 (quotes "'machine-config': {") +:+
  line 3 (quotes "'vcpu_count': " +:+ Itoa vcpu +:+ ",") +:+
  line 3 (quotes "'mem_size_mib': " +:+ Itoa mem) +:+
  line 2 "}," +:+
  line 2 (quotes "'vsock': {") +:+
  line 3 (quotes "'guest_cid': 3,") +:+
  line 3 (quotes "'uds_path': '/run/v.sock'") +:+
  line 2 "}," +:+
  line 2 (quotes "'entropy': {}") +:+
  line 1 "}".

(** The text for a VM of [Factory], at a time. *)
Definition config_of (vm : VM) (nano : Z) : string :=
  configData DefaultGuestAgentPath (boot_ip vm) (macByte nano) (host_dev vm) (vcpu_count vm) (mem_size_mib vm).

(** ** What is in the text *)

Definition config_tree (initPath guestIP macByte tapName : string) (vcpu mem : Z) : json :=
  JObject [
    ("boot-source", JObject [("kernel_image_path", JString "/run/vmlinux"); ("boot_args", JString (boot_args initPath guestIP))]);
    ("drives", JArray [JObject [("drive_id", JString "rootfs"); ("path_on_host", JString "/dev/vda");
                                ("is_root_device", JBool true); ("is_read_only", JBool false)]]);
    ("network-interfaces", JArray [JObject [("iface_id", JString "eth0"); ("guest_mac", JString ("AA:FC:00:00:00:" +:+ macByte));
                                            ("host_dev_name", JString tapName)]]);
    ("machine-config", JObject [("vcpu_count", JInt vcpu); ("mem_size_mib", JInt mem)]);
    ("vsock", JObject [("guest_cid", JInt 3); ("uds_path", JString "/run/v.sock")]);
    ("entropy", JObject [])].

(** ** The machine that Firecracker makes of it *)

(** What the text says, by the names of Firecracker's documentation. *)
Record machine_config := mkMachine {
  kernel_image_path : string;
  cmdline : string;
  root_drive : string;
  guest_mac : string;
  host_dev_name : string;
  vcpus : Z;
  mem_size : Z;
  uds_path : string
}.

Definition get (k : string) (j : json) : option json :=
  match j with JObject l => snd <$> find (λ kv, String.eqb kv.1 k) l | _ => None end.
Definition text (k : string) (j : json) : option string :=
  v ← get k j; match v with JString s => Some s | _ => None end.
Definition int (k : string) (j : json) : option Z :=
  v ← get k j; match v with JNumber l => match ParseInt l with (z, None) => Some z | _ => None end | _ => None end.
Definition only (k : string) (j : json) : option json :=
  v ← get k j; match v with JArray [x] => Some x | _ => None end.

Definition read_machine (config : string) : option machine_config :=
  j ← fst <$> read_json config;
  boot ← get "boot-source" j; drive ← only "drives" j; net ← only "network-interfaces" j;
  size ← get "machine-config" j; sock ← get "vsock" j;
  kernel ← text "kernel_image_path" boot; args ← text "boot_args" boot;
  path ← text "path_on_host" drive; mac ← text "guest_mac" net; dev ← text "host_dev_name" net;
  n ← int "vcpu_count" size; m ← int "mem_size_mib" size; uds ← text "uds_path" sock;
  Some (mkMachine kernel args path mac dev n m uds).

(** ** Texts that are printed as they are *)

Definition verbatim (c : ascii) : bool := html_safe c && (code c <? 128).

Lemma body_verbatim s : all_bytes verbatim s = true → string_body 0 0 s = s.
Proof.
  induction s as [|c s IH]; [done|]. cbn [all_bytes string_body]. intros [[Hc Ha]%andb_true_iff Hs]%andb_true_iff.
  rewrite Ha. unfold escape. rewrite Hc. cbn [String.append]. by rewrite IH.
Qed.

Lemma print_verbatim s : all_bytes verbatim s = true → print_string s = String quote (s +:+ String quote "").
Proof. intros Hs. unfold print_string. by rewrite body_verbatim. Qed.

Lemma valid_verbatim s : all_bytes verbatim s = true → valid_utf8 s = true.
Proof.
  unfold valid_utf8. induction s as [|c s IH]; [done|]. cbn [all_bytes valid_from utf8_size].
  intros [[_ Ha]%andb_true_iff Hs]%andb_true_iff. rewrite Ha. by apply IH.
Qed.

Lemma verbatim_digit c : is_digit c = true → verbatim c = true.
Proof.
  unfold is_digit, verbatim, html_safe. intros [H1%Z.leb_le H2%Z.leb_le]%andb_true_iff.
  rewrite !andb_true_iff, negb_true_iff, bool_decide_eq_false, Z.leb_le, Z.ltb_lt. split; [split; [lia|]|lia].
  rewrite !elem_of_cons. intros Hin. repeat (destruct Hin as [->|Hin]; [by vm_compute in H1, H2|]). by apply not_elem_of_nil in Hin.
Qed.

Lemma addr_verbatim v : all_bytes verbatim (Ipam.addr_string v) = true.
Proof.
  pose proof (Ipam.addr_bytes_byte v) as Hb. unfold Ipam.addr_string, Ipam.addr_bytes in Hb |- *.
  rewrite IP_String_dotted. unfold dotted. rewrite !Forall_cons in Hb. destruct Hb as (B1 & B2 & B3 & B4 & _).
  unfold is_byte in *. rewrite !all_bytes_app, !Itoa_bytes by (apply verbatim_digit || lia). done.
Qed.

Lemma hex_digit_verbatim d : 0 ≤ d < 16 → verbatim (hex_digit d) = true.
Proof.
  intros Hd. assert (forallb (λ d, verbatim (hex_digit d)) (seqZ 0 16) = true) as Hall by (vm_compute; reflexivity).
  rewrite forallb_forall in Hall. apply Hall, list_elem_of_In, elem_of_seqZ. lia.
Qed.

Lemma mac_verbatim nano : all_bytes verbatim (macByte nano) = true.
Proof.
  unfold macByte. pose proof (Z.mod_pos_bound nano 256 ltac:(lia)) as Hm. cbn [all_bytes].
  rewrite !hex_digit_verbatim; [done|apply Z.mod_pos_bound; lia|].
  split; [apply Z.div_pos; lia|apply Z.div_lt_upper_bound; lia].
Qed.

(** ** The text is that of the tree *)

Lemma config_printed initPath ip mac tap vcpu mem :
  all_bytes verbatim initPath = true → all_bytes verbatim ip = true → all_bytes verbatim mac = true → all_bytes verbatim tap = true →
  configData initPath ip mac tap vcpu mem = print_indent 1 (config_tree initPath ip mac tap vcpu mem).
Proof.
  intros H0 H1 H2 H3. unfold config_tree, JInt.
  cbn [print_indent print map separated fst snd].
  assert (all_bytes verbatim (boot_args initPath ip) = true) as Hb
    by (unfold boot_args; rewrite !all_bytes_app, H0, H1; vm_compute; reflexivity).
  rewrite (print_verbatim (boot_args initPath ip)), (print_verbatim tap), (print_verbatim ("AA:FC:00:00:00:" +:+ mac)) by
    (done || (rewrite all_bytes_app, H2; vm_compute; reflexivity)).
  unfold configData, line. generalize (boot_args initPath ip). intros args.
  generalize (Itoa vcpu) (Itoa mem). clear. intros n m. rewrite !string_app_assoc. cbn [String.append].
  rewrite !string_app_assoc. vm_compute. reflexivity.
Qed.

(** ** Properties *)

Lemma read_config initPath ip mac tap n m :
  all_bytes verbatim initPath = true → all_bytes verbatim ip = true → all_bytes verbatim mac = true → all_bytes verbatim tap = true →
  in_int64 n → in_int64 m →
  read_machine (configData initPath ip mac tap n m) =
    Some (mkMachine "/run/vmlinux" (boot_args initPath ip) "/dev/vda" ("AA:FC:00:00:00:" +:+ mac) tap n m "/run/v.sock").
Proof.
  intros H0 H1 H2 H3 Hn Hm. unfold read_machine. rewrite config_printed by done.
  assert (printable (config_tree initPath ip mac tap n m) = true) as Hp.
  { assert (all_bytes verbatim (boot_args initPath ip) = true) as Hb
      by (unfold boot_args; rewrite !all_bytes_app, H0, H1; vm_compute; reflexivity).
    assert (all_bytes verbatim ("AA:FC:00:00:00:" +:+ mac) = true) as Hmac by (rewrite all_bytes_app, H2; vm_compute; reflexivity).
    unfold config_tree. cbn [printable forallb fst snd]. rewrite !valid_verbatim by done.
    rewrite !printable_int by (done || by vm_compute). reflexivity. }
  rewrite (read_indent_json 1 (config_tree initPath ip mac tap n m)) by done.
  pose proof (ParseInt_print n Hn) as En. pose proof (ParseInt_print m Hm) as Em. unfold config_tree, JInt.
  revert En Em. generalize (Itoa n) (Itoa m) (boot_args initPath ip). clear. intros l1 l2 args En Em.
  lazy -[ParseInt String.append]. by rewrite En, Em.
Qed.

(** [C31] The configuration that [Spawn] writes is the VM that it means.  Whatever the time,
    the text is one JSON value, and in it the kernel, the command line with the address
    that was acquired, the root drive, the tap of the worker and the numbers of processors
    and megabytes of the tenant's configuration or the defaults are what the reader finds,
    provided that the end of the session's name, which the tap is named by, holds no
    character that JSON escapes. *)
Theorem config_describes_vm {C N : Type} `{!Containerd C} `{!ContainerdLaws C} `{!Commands N} `{!Netlink N} `{!HostLaws N}
    base k f env vmID cfg (w0 w1 : World (C := C) (N := N)) wk a nano :
  Ipam.net_ok base k → Ipam.represents base k (w_ipam w0) a →
  all_bytes verbatim (tap_name vmID) = true → in_int64 (VCPUs cfg) → in_int64 (MemoryMB cfg) →
  Spawn f env w0 vmID cfg = (Ok wk, w1) →
  ∃ vm, w_procs w1 !! vmID = Some vm ∧
    read_machine (config_of vm nano) =
      Some (mkMachine "/run/vmlinux" (boot_args DefaultGuestAgentPath (guestIP wk)) "/dev/vda"
              ("AA:FC:00:00:00:" +:+ macByte nano) (tapName wk) (vcpu cfg) (mem cfg) "/run/v.sock").
Proof.
  intros Hok Hrep Htap Hc Hm Hs. apply EndToEnd.EndToEnd.spawn_ok in Hs as [st Hs].
  pose proof (EndToEnd.EndToEnd.spawn_acquires _ _ _ _ _ _ _ _ Hs) as Ha.
  destruct (spawn_vm_exact _ _ _ _ _ _ _ _ Hs) as (img & _ & _ & Hvm & Et).
  destruct (Ipam.Acquire_spec base k Hok _ _ Hrep) as (r & i & a' & Ha' & _). rewrite Ha in Ha'.
  destruct r as [v|e]; simpl in Ha'; [|done]. injection Ha' as Hv _. eexists. split; [exact Hvm|].
  unfold config_of. cbn [with_payload new_vm boot_ip host_dev vcpu_count mem_size_mib].
  apply read_config; [reflexivity|rewrite Hv; apply addr_verbatim|apply mac_verbatim|by rewrite Et| |].
  - unfold vcpu. by case_decide.
  - unfold mem. by case_decide.
Qed.

Lemma spawn_tap {C N : Type} `{!Containerd C} `{!ContainerdLaws C} `{!Commands N} `{!Netlink N} `{!HostLaws N}
    f env vmID cfg (w0 w1 : World (C := C) (N := N)) wk :
  Spawn f env w0 vmID cfg = (Ok wk, w1) → tapName wk = tap_name vmID.
Proof. intros [st Hs]%EndToEnd.EndToEnd.spawn_ok. by destruct (spawn_vm_exact _ _ _ _ _ _ _ _ Hs) as (img & _ & _ & _ & ?). Qed.

(** A name that ends with a quote makes a text that is no JSON, and no VM starts from it. *)
Lemma quote_breaks_config :
  tap_name (quotes "session-'1") = quotes "tap-ssion-'1" ∧
  read_machine (configData DefaultGuestAgentPath "10.200.0.2" "00" (tap_name (quotes "session-'1")) 1 512) = None.
Proof. split; vm_compute; reflexivity. Qed.

(** ** The taps of two sessions *)

Definition no_ports : TenantConfig := mkTenantConfig "alpine" ["/bin/server"] ∅ 0 0 "" 0 0 [].

(** Only the last eight bytes of a session's name count for its tap: the second spawn
    takes the tap of the first away, and closing the first worker takes the second's. *)
Lemma taps_collide :
  let '(r1, w1) := Spawn demo_factory (demo_env "") EndToEnd.EndToEnd.host "web-00000001" no_ports in
  let '(r2, w2) := Spawn demo_factory (demo_env "") w1 "api-00000001" no_ports in
  match r1, r2 with
  | Ok wk1, Ok wk2 =>
      (tapName wk1, tapName wk2) = ("tap-00000001", "tap-00000001") ∧ guestIP wk1 ≠ guestIP wk2 ∧
      bool_decide (tapName wk2 ∈ links (w_net w2)) = true ∧
      bool_decide (tapName wk2 ∈ links (w_net (Close smooth wk1 w2))) = false
  | _, _ => False
  end.
Proof. vm_compute. split_and!; [reflexivity|discriminate|reflexivity|reflexivity]. Qed.

(** ** Witness *)

Lemma config_describes_vm_witness :
  ∃ wk w vm, Spawn demo_factory (demo_env "") EndToEnd.EndToEnd.host "vm1" demo_cfg = (Ok wk, w) ∧
    w_procs w !! "vm1" = Some vm ∧
    read_machine (config_of vm 1700000000) =
      Some (mkMachine "/run/vmlinux" (boot_args DefaultGuestAgentPath "10.200.0.2") "/dev/vda"
              "AA:FC:00:00:00:00" "tap-vm1" (vcpu demo_cfg) (mem demo_cfg) "/run/v.sock").
Proof.
  destruct EndToEnd.EndToEnd.demo_spawn as (wk & w & Hs & Hg & _). exists wk, w.
  destruct (config_describes_vm (Ipam.network_of 10 200 0 0 16) 16 demo_factory (demo_env "") "vm1" demo_cfg
    EndToEnd.EndToEnd.host w wk (Ipam.mkAlloc (Ipam.lo (Ipam.network_of 10 200 0 0 16)) ∅) 1700000000)
    as (vm & Hvm & E).
  - apply (Ipam.net_ok_network 10 200 0 0 16); vm_compute; split; congruence.
  - apply (Ipam.NewIPAM_represents 10 200 0 0 16); [vm_compute; split; congruence..|]. vm_compute. reflexivity.
  - vm_compute. reflexivity.
  - split; vm_compute; discriminate.
  - split; vm_compute; discriminate.
  - exact Hs.
  - exists vm. split; [exact Hs|]. split; [exact Hvm|]. rewrite Hg in E.
    replace (tapName wk) with "tap-vm1" in E; [exact E|]. symmetry. exact (spawn_tap _ _ _ _ _ _ _ Hs).
Defined.

End VmConfig.
