(* ===== verification/GuestReap.v ===== *)
(** * The reaper of the guest's init ([reapZombies] of [cmd/herd-guest-agent/main.go])

    The agent is process 1: every orphan becomes its child.  A goroutine waits for any
    child whenever SIGCHLD arrives, through a channel of one place, so signals may be lost;
    [cmd.Run] waits for its own child at the same time. *)
From stdpp Require Import options.
From S2P Require Import Prelude.
#[local] Open Scope Z_scope.

Module GuestReap.

Inductive reaper_pc := Idle | Draining.

(** What a wait for one's own child ends with: its status, or no such child. *)
Inductive waited := Status | ErrChild.

Record Sys := mkSys {
  running : list Z;
  zombies : list Z;           (* ended, and nobody has waited for them *)
  pending : bool;             (* SIGCHLD is on its way *)
  channel : bool;             (* the one place of the channel is taken *)
  reaper : reaper_pc;
  reaped : list Z;            (* those that the goroutine waited for *)
  runs : list (Z * waited)    (* the calls of [cmd.Run] that have returned *)
}.

(** The goroutine listens before [main] starts a process. *)
Definition init : Sys := mkSys [] [] false false Idle [] [].

(** [Wait4(-1, WNOHANG)]: a zombie, or none. *)
Inductive step : Sys → Sys → Prop :=
  | step_fork s pid : pid ∉ running s → pid ∉ zombies s → pid ∉ reaped s → pid ∉ (runs s).*1 →
      step s (mkSys (pid :: running s) (zombies s) (pending s) (channel s) (reaper s) (reaped s) (runs s))
  | step_exit s pid r : running s ≡ₚ pid :: r →
      step s (mkSys r (pid :: zombies s) true (channel s) (reaper s) (reaped s) (runs s))
  | step_deliver s : pending s = true →
      step s (mkSys (running s) (zombies s) false true (reaper s) (reaped s) (runs s))
  | step_wake s : reaper s = Idle → channel s = true →
      step s (mkSys (running s) (zombies s) (pending s) false Draining (reaped s) (runs s))
  | step_reap s pid z : reaper s = Draining → zombies s ≡ₚ pid :: z →
      step s (mkSys (running s) z (pending s) (channel s) Draining (pid :: reaped s) (runs s))
  | step_none s : reaper s = Draining → zombies s = [] →
      step s (mkSys (running s) [] (pending s) (channel s) Idle (reaped s) (runs s))
  | step_run s pid z : zombies s ≡ₚ pid :: z →
      step s (mkSys (running s) z (pending s) (channel s) (reaper s) (reaped s) ((pid, Status) :: runs s))
  | step_run_late s pid : pid ∈ reaped s →
      step s (mkSys (running s) (zombies s) (pending s) (channel s) (reaper s) (reaped s) ((pid, ErrChild) :: runs s)).

(** ** Properties *)

Definition noticed (s : Sys) : Prop :=
  zombies s ≠ [] → pending s = true ∨ channel s = true ∨ reaper s = Draining.

Lemma noticed_step s s' : step s s' → noticed s → noticed s'.
Proof.
  assert (∀ zs (pid : Z) z, zs ≡ₚ pid :: z → zs ≠ []) as Hcons by (intros zs pid z E ->; by apply Permutation_nil_cons in E).
  unfold noticed. destruct 1; cbn; intros Hn; try tauto. intros _. by eapply Hn, Hcons.
Qed.

(** No zombie stays: although signals are merged and dropped, in every interleaving, when
    no signal is under way and the goroutine sleeps, every child that ended was waited for. *)
Theorem no_zombie_stays s :
  rtc step init s → pending s = false → channel s = false → reaper s = Idle → zombies s = [].
Proof.
  intros Hr Hp Hc Hi. assert (noticed s) as Hn.
  { apply (invariant_rtc step noticed init); [apply noticed_step|exact Hr|]. intros Hz. by destruct Hz. }
  destruct (zombies s) eqn:E; [done|]. unfold noticed in Hn. rewrite E, Hp, Hc, Hi in Hn. by destruct Hn as [?|[?|?]].
Qed.

(** The status of the workload can be lost: the reaper waits for it first, and [cmd.Run]
    returns an error for a process that ended well. *)
Lemma status_lost pid : ∃ s, rtc step init s ∧ (pid, ErrChild) ∈ runs s.
Proof.
  eexists. split.
  - eapply rtc_l; [apply (step_fork _ pid); apply not_elem_of_nil|].
    eapply rtc_l; [by apply (step_exit _ pid [])|].
    eapply rtc_l; [by apply step_deliver|]. eapply rtc_l; [by apply step_wake|].
    eapply rtc_l; [by apply (step_reap _ pid [])|].
    eapply rtc_l; [apply (step_run_late _ pid); by left|]. apply rtc_refl.
  - by left.
Qed.

End GuestReap.
