(* ===== verification/GuestBoot.v ===== *)
(** * How the guest agent's goroutines boot a VM ([main] of [cmd/herd-guest-agent/main.go])

    [main], the goroutine that prepares the container, the exec server's connections and
    the host at the other end of the control connection take turns; a step is what one of
    them does between two points at which it waits.  Before the container is ready nobody
    but the boot goroutine changes anything in the kernel, so its two phases are single
    steps.  A VM that is switched off takes no step. *)
From stdpp Require Import options.
From S2P Require Import Prelude GoStrings GoNet GoJson Rollback Factory Vsock GuestAgent.
Import GuestAgent.
#[local] Open Scope Z_scope.

Module GuestBoot.

Inductive main_pc :=
  | MBase                                             (* mounts the base file systems *)
  | MListen                                           (* listens on port 5000 *)
  | MAccept
  | MReceive                                          (* decodes the payload *)
  | MWait (bin : string) (p : Vsock.ExecPayload)      (* for the container *)
  | MRun (exited : bool)                              (* in [cmd.Run] *)
  | MOff.                                             (* powered off *)

Inductive boot_pc := BIdle | BMount | BNetwork | BReady.

Inductive shell_pc := SWait | SRun | SDone.

(** The host's [Execute], from the handshake on. *)
Inductive host_pc := HStreaming | HReturned.

Record Sys := mkSys {
  s_log : log;
  main : main_pc;
  boot : boot_pc;
  ready : bool;                    (* the channel is closed *)
  shells : list shell_pc;
  started : list Cmd;              (* the processes, the last one first *)
  host : host_pc
}.

Definition init : Sys := mkSys [] MBase BIdle false [] [] HStreaming.

Definition set_main (m : main_pc) (s : Sys) : Sys :=
  mkSys (s_log s) m (boot s) (ready s) (shells s) (started s) (host s).
Definition set_boot (b : boot_pc) (s : Sys) : Sys :=
  mkSys (s_log s) (main s) b (ready s) (shells s) (started s) (host s).
Definition set_log (l : log) (s : Sys) : Sys :=
  mkSys l (main s) (boot s) (ready s) (shells s) (started s) (host s).
Definition set_shells (l : list shell_pc) (s : Sys) : Sys :=
  mkSys (s_log s) (main s) (boot s) (ready s) l (started s) (host s).
Definition start (c : Cmd) (s : Sys) : Sys :=
  mkSys (s_log s) (main s) (boot s) (ready s) (shells s) (c :: started s) (host s).
Definition set_host (h : host_pc) (s : Sys) : Sys :=
  mkSys (s_log s) (main s) (boot s) (ready s) (shells s) (started s) h.
Definition close_ready (s : Sys) : Sys :=
  mkSys (s_log s) (main s) BReady true (shells s) (started s) (host s).

(** A step of [main] or of the boot goroutine that runs [m] to its end: an error is fatal. *)
Definition ran {A} (m : M A) (k : A → Sys → Sys) (s s' : Sys) : Prop :=
  ∃ r l, m (s_log s, []) = (r, (l, [])) ∧
    s' = match r with Ok a => k a (set_log l s) | Err _ => set_main MOff (set_log l s) end.

(** What the exec server can already be asked on. *)
Definition serving (s : Sys) : Prop := main s ≠ MBase ∧ main s ≠ MOff.

Section boot.
Context (os : log → call → answer) (text : string).

Inductive step : Sys → Sys → Prop :=
  | step_base s s' : main s = MBase →
      ran (mountBaseFilesystems os) (λ _, set_main MListen) s s' → step s s'
  | step_listen s s' : main s = MListen →
      ran (listenVsock os 5000)
        (λ a s, if is_ok a then set_boot BMount (set_main MAccept s) else set_main MOff s) s s' → step s s'
  | step_mount s s' : main s ≠ MOff → boot s = BMount →
      ran (mountContainerFilesystems os) (λ _, set_boot BNetwork) s s' → step s s'
  | step_network s s' : main s ≠ MOff → boot s = BNetwork →
      ran (configureNetworking os) (λ _, close_ready) s s' → step s s'
  | step_accept s : main s = MAccept → step s (set_main MReceive s)
  | step_accept_fails s : main s = MAccept → step s (set_main MOff s)
  | step_receive s s' : main s = MReceive →
      ran (receive text) (λ bp, set_main (MWait bp.1 bp.2)) s s' → step s s'
  | step_run s s' bin p : main s = MWait bin p → ready s = true →
      ran (workload os bin p) (λ c s, set_main (MRun false) (start c s)) s s' → step s s'
  | step_run_fails s bin p : main s = MWait bin p → ready s = true → step s (set_main MOff s)
  | step_exit s : main s = MRun false → step s (set_main (MRun true) s)
    (* [cmd.Run] also waits for the copy from the connection to the process's input. *)
  | step_return s : main s = MRun true → host s = HReturned → step s (set_main MOff s)
  | step_context s : host s = HStreaming → step s (set_host HReturned s)
  | step_eof s : host s = HStreaming → main s = MOff → step s (set_host HReturned s)
  | step_connect s : serving s → step s (set_shells (shells s ++ [SWait]) s)
  | step_shell s s' i : main s ≠ MOff → shells s !! i = Some SWait → ready s = true →
      ran (handleInteractiveShell os) (λ c s, start c (set_shells (<[i := SRun]> (shells s)) s)) s s' → step s s'
  | step_shell_fails s i : main s ≠ MOff → shells s !! i = Some SWait → ready s = true →
      step s (set_shells (<[i := SDone]> (shells s)) s)
  | step_shell_ends s i : main s ≠ MOff → shells s !! i = Some SRun →
      step s (set_shells (<[i := SDone]> (shells s)) s).

Definition reachable (s : Sys) : Prop := rtc step init s.

(** ** What the steps change *)

(** What [ran] leaves, when what it ran succeeded and when not. *)
Lemma ran_does {A} (m : M A) k P s s' :
  does m P → ran m k s s' →
  (∃ a l es, s' = k a (set_log l s) ∧ effects l = effects (s_log s) ++ es ∧ P a es) ∨ main s' = MOff.
Proof.
  intros Hm (r & l & Hr & ->). destruct r as [a|e]; [left|by right].
  destruct (Hm _ _ _ Hr) as (es & E & HP). by exists a, l, es.
Qed.

(** Looking a command up and asking for a shell change nothing, and what they start is in
    the container. *)
Lemma does_look_up bin paths : does (look_up os bin paths) (λ _ es, es = []).
Proof.
  induction paths as [|p paths IH]; cbn [look_up]; [by apply does_ret|].
  eapply does_bind; [apply does_sys|]. intros [b|x] es ->; [by apply does_ret|apply IH].
Qed.

Definition confined (c : Cmd) (es : list call) : Prop := es = [] ∧ Chroot c = container_root.

Lemma does_workload bin p : does (workload os bin p) confined.
Proof.
  unfold workload. eapply (does_bind _ _ (λ _ es, es = [])).
  - destruct (HasPrefix bin "/"); [by apply does_ret|apply does_look_up].
  - intros b es ->. destruct (negb _); [apply does_throw|by apply does_ret].
Qed.

Lemma does_shell : does (handleInteractiveShell os) confined.
Proof. eapply does_bind; [by apply does_ignore|]. intros [] es ->. by apply does_ret. Qed.

Lemma does_receive : does (receive text) (λ _ es, es = []).
Proof.
  unfold receive. destruct (decode_payload text) as [p|]; [|apply does_throw].
  destruct (default [] (Vsock.Command p)); [apply does_throw|by apply does_ret].
Qed.

(** ** The order of the boot *)

Context (cmdline : string) (Hcmdline : ∀ l, os l (ReadFile "/proc/cmdline") = Ok cmdline).
#[local] Set Default Proof Using "Type*".

Definition container_changes (es : list call) : Prop :=
  ∃ ptmx, (ptmx = [] ∨ ptmx = [Symlink "/dev/pts/ptmx" "/dev/ptmx"]) ∧
    es = [Mount devpts] ++ ptmx ++ [Mount (root_mount cmdline)] ++ container_mounts.

Definition net_changes (es : list call) : Prop :=
  es = [LinkSetUp "lo"] ∨
  ∃ ip gw, ParseIP (parse_cmdline cmdline).1 = Some ip ∧ ParseIP (parse_cmdline cmdline).2 = Some gw ∧
    es = network_changes ip gw.

(** What the boot goroutine has changed so far, when it is at [b]. *)
Definition booted (b : boot_pc) (l : log) : Prop :=
  match b with
  | BIdle | BMount => True
  | BNetwork => ∃ base es, effects l = base ++ es ∧ container_changes es
  | BReady => ∃ base es net, effects l = base ++ es ++ net ∧ container_changes es ∧ net_changes net
  end.

Record running (s : Sys) : Prop := mkRunning {
  early : main s = MBase ∨ main s = MListen → boot s = BIdle;
  ready_boot : ready s = true → boot s = BReady;
  run_ready : ∀ exited, main s = MRun exited → ready s = true;
  changes : booted (boot s) (s_log s);
  confined_all : Forall (λ c, Chroot c = container_root) (started s)
}.

Definition inv (s : Sys) : Prop := main s = MOff ∨ running s.

Lemma booted_same b l l' : effects l' = effects l → booted b l → booted b l'.
Proof. clear Hcmdline. unfold booted. by intros ->. Qed.

Lemma off_step s s' : main s = MOff → step s s' → main s' = MOff.
Proof. clear Hcmdline. intros Hoff Hs. by destruct Hs; try congruence. Qed.

Lemma boot_step s s' :
  main s ≠ MOff → running s → step s s' →
  boot s' = boot s → inv s'.
Proof.
  intros Hon [H1 H2 H5 H3 H4] Hs Hb.
  destruct Hs as [s s' Hm Hs|s s' Hm Hs|s s' _ Hb' Hs|s s' _ Hb' Hs|s Hm|s Hm|s s' Hm Hs|s s' bin p Hm Hg Hs|s bin p Hm Hg
    |s Hm|s Hm Hh|s Hh|s Hh Hm|s [Hm _]|s s' i _ Hsh Hg Hs|s i _ Hsh Hg|s i _ Hsh]; try (by left).
  - destruct Hs as (r & l & _ & ->). destruct r; [right|by left]. split; simpl in *; try done.
    + intros _. apply H1. by left.
    + by rewrite (H1 (or_introl Hm)).
  - destruct Hs as (r & l & _ & ->). destruct r as [[b|x]|]; [|by left..]. simpl in Hb.
    by rewrite (H1 (or_intror Hm)) in Hb.
  - destruct (ran_does _ _ _ _ _ (does_container os cmdline Hcmdline) Hs) as [(a & l & es & -> & _)|?]; [|by left].
    simpl in Hb. congruence.
  - destruct (ran_does _ _ _ _ _ (does_network os cmdline Hcmdline) Hs) as [(a & l & es & -> & _)|?]; [|by left].
    simpl in Hb. congruence.
  - right. by split; simpl; try done; intros [|].
  - destruct (ran_does _ _ _ _ _ does_receive Hs) as [(a & l & es & -> & E & ->)|?]; [|by left].
    rewrite app_nil_r in E. right. split; simpl; try done; [by intros [|]|by eapply booted_same].
  - destruct (ran_does _ _ _ _ _ (does_workload bin p) Hs) as [(a & l & es & -> & E & -> & Hc)|?]; [|by left].
    rewrite app_nil_r in E. right. split; simpl; try done; [by intros [|]|by eapply booted_same|by constructor].
  - right. split; simpl; try done; [by intros [|]|]. intros e _. by eapply H5.
  - right. by split.
  - right. by split.
  - destruct (ran_does _ _ _ _ _ does_shell Hs) as [(a & l & es & -> & E & -> & Hc)|?]; [|by left].
    rewrite app_nil_r in E. right. split; simpl; try done; [by eapply booted_same|by constructor].
  - right. by split.
  - right. by split.
Qed.

Lemma boot_inv_step s s' : inv s → step s s' → inv s'.
Proof.
  intros Hi Hs. destruct Hi as [Hoff|Hr]; [left; by eapply off_step|].
  assert (main s = MOff ∨ main s ≠ MOff) as [Hoff|Hon] by (destruct (main s); (by left) || by right).
  { left. by eapply off_step. }
  assert (boot s' = boot s ∨ boot s' ≠ boot s) as [Hb|Hb] by (destruct (boot s), (boot s'); (by left) || by right).
  { by eapply boot_step. }
  destruct Hr as [H1 H2 H5 H3 H4].
  destruct Hs as [s s' Hm Hs|s s' Hm Hs|s s' _ Hb' Hs|s s' _ Hb' Hs|s Hm|s Hm|s s' Hm Hs|s s' bin p Hm Hg Hs|s bin p Hm Hg
    |s Hm|s Hm Hh|s Hh|s Hh Hm|s [Hm _]|s s' i _ Hsh Hg Hs|s i _ Hsh Hg|s i _ Hsh]; try done.
  - destruct Hs as (r & l & _ & ->). by destruct r.
  - destruct Hs as (r & l & _ & ->). destruct r as [[b|x]|]; [|by left..]. right.
    specialize (H1 (or_intror Hm)). split; simpl; try done; [by intros [|]|]. intros Hg. specialize (H2 Hg). congruence.
  - destruct (ran_does _ _ _ _ _ (does_container os cmdline Hcmdline) Hs) as [(a & l & es & -> & E & Hc)|?]; [|by left]. right.
    split; simpl; try done.
    + intros Hm. specialize (H1 Hm). congruence.
    + intros Hg. specialize (H2 Hg). congruence.
    + by exists (effects (s_log s)), es.
  - destruct (ran_does _ _ _ _ _ (does_network os cmdline Hcmdline) Hs) as [(a & l & es & -> & E & Hn)|?]; [|by left]. right.
    rewrite Hb' in H3. destruct H3 as (base & es' & E' & Hc). split; simpl; try done.
    + intros Hm. specialize (H1 Hm). congruence.
    + exists base, es', es. by rewrite E, E', app_assoc.
  - destruct Hs as (r & l & _ & ->). by destruct r.
  - destruct Hs as (r & l & _ & ->). by destruct r.
  - destruct Hs as (r & l & _ & ->). by destruct r.
Qed.

Lemma boot_inv_reachable s : reachable s → inv s.
Proof.
  intros Hs. assert (inv init) as Hi. { right. split; simpl; done. }
  revert Hi. unfold reachable in Hs. induction Hs as [|x y z Hxy _ IH]; [done|]. intros Hx.
  apply IH. by eapply boot_inv_step.
Qed.

(** [C26] No process is started too early: whatever the order in which the goroutines run,
    when one starts a process the container's file systems have been mounted and after
    that the network has been configured, each with exactly the changes it makes, and
    nothing was changed since; and the process has the container as its root. *)
Theorem started_after_boot s s' c :
  reachable s → step s s' → started s' = c :: started s →
  Chroot c = container_root ∧
  ∃ base es net, effects (s_log s) = base ++ es ++ net ∧ container_changes es ∧ net_changes net.
Proof.
  intros Hr Hs Hc. pose proof (boot_inv_step _ _ (boot_inv_reachable _ Hr) Hs) as Hi'.
  assert (main s ≠ MOff ∧ ready s = true ∧ Chroot c = container_root) as (Hon & Hg & Hroot).
  { assert (∀ l : list Cmd, l = c :: l → False) as Hne.
    { intros l Hl. apply (f_equal length) in Hl. simpl in Hl. lia. }
    destruct Hs as [s s' Hm Hs|s s' Hm Hs|s s' _ Hb' Hs|s s' _ Hb' Hs|s Hm|s Hm|s s' Hm Hs|s s' bin p Hm Hg Hs|s bin p Hm Hg
      |s Hm|s Hm Hh|s Hh|s Hh Hm|s Hsv|s s' i Hon Hsh Hg Hs|s i Hon Hsh Hg|s i Hon Hsh]; simpl in Hc; try (by destruct (Hne _ Hc)).
    1-5: destruct Hs as (r & l & _ & ->); destruct r as [a|]; simpl in Hc; try destruct (is_ok a); by destruct (Hne _ Hc).
    - destruct Hs as (r & l & Hw & ->). destruct r as [a|]; simpl in Hc; [|by destruct (Hne _ Hc)].
      destruct (does_workload bin p _ _ _ Hw) as (es & _ & _ & Hcf). simplify_eq. by rewrite Hm.
    - destruct Hs as (r & l & Hw & ->). destruct r as [a|]; simpl in Hc; [|by destruct (Hne _ Hc)].
      destruct (does_shell _ _ _ Hw) as (es & _ & _ & Hcf). by simplify_eq. }
  split; [done|]. destruct (boot_inv_reachable _ Hr) as [Hoff|[_ H2 _ H3 _]]; [by destruct Hon|].
  rewrite (H2 Hg) in H3. exact H3.
Qed.

(** When the workload has ended the VM stays on: [cmd.Run] waits for the end of the
    connection, which the host keeps open until the VM closes it or its context is done. *)
Lemma exit_not_noticed s s' :
  reachable s → main s = MRun true → host s = HStreaming → step s s' →
  main s' = MRun true ∧ (host s' = HStreaming ∨ s' = set_host HReturned s).
Proof.
  intros Hr Hrun Hh Hs. destruct (boot_inv_reachable _ Hr) as [Hoff|[_ H2 H5 _ _]]; [congruence|].
  specialize (H2 (H5 _ Hrun)).
  destruct Hs as [s s' Hm Hs|s s' Hm Hs|s s' _ Hb' Hs|s s' _ Hb' Hs|s Hm|s Hm|s s' Hm Hs|s s' bin p Hm Hg Hs|s bin p Hm Hg
    |s Hm|s Hm Hh'|s Hh'|s Hh' Hm|s Hsv|s s' i Hon Hsh Hg Hs|s i Hon Hsh Hg|s i Hon Hsh]; try congruence.
  - split; [done|by right].
  - split; [done|by left].
  - destruct Hs as (r & l & Hw & ->). destruct r as [a|e]; simpl; [by auto|].
    unfold handleInteractiveShell, ignore, sys, mbind, M_bind, mret, M_ret in Hw. done.
  - split; [done|by left].
  - split; [done|by left].
Qed.

End boot.

(** ** Witnesses *)

Ltac run_phase := eexists _, _; split; [vm_compute; reflexivity|reflexivity].

(** A run up to the end of the workload. *)
Lemma example_run :
  ∃ s c s', reachable (kind_os example_cmdline) (Vsock.Marshal example_payload) s ∧
    step (kind_os example_cmdline) (Vsock.Marshal example_payload) s s' ∧ started s' = c :: started s ∧
    reachable (kind_os example_cmdline) (Vsock.Marshal example_payload) (set_main (MRun true) s').
Proof.
  assert (∃ s s' c, reachable (kind_os example_cmdline) (Vsock.Marshal example_payload) s ∧
    step (kind_os example_cmdline) (Vsock.Marshal example_payload) s s' ∧ main s' = MRun false ∧
    started s' = c :: started s) as (s & s' & c & Hr & Hs & Hm & Hc).
  { eexists _, _, _. split_and!.
    - unfold reachable. eapply rtc_l; [eapply step_base; [reflexivity|run_phase]|].
      eapply rtc_l; [eapply step_listen; [reflexivity|run_phase]|].
      eapply rtc_l; [eapply step_mount; [done|reflexivity|run_phase]|].
      eapply rtc_l; [eapply step_network; [done|reflexivity|run_phase]|].
      eapply rtc_l; [eapply step_accept; reflexivity|].
      eapply rtc_l; [eapply step_receive; [reflexivity|run_phase]|]. apply rtc_refl.
    - eapply step_run; [reflexivity|reflexivity|run_phase].
    - reflexivity.
    - reflexivity. }
  exists s, c, s'. split_and!; [done..|]. eapply rtc_r; [|by apply step_exit].
  by eapply rtc_r.
Qed.

Lemma started_after_boot_witness :
  ∃ s c s', step (kind_os example_cmdline) (Vsock.Marshal example_payload) s s' ∧ started s' = c :: started s ∧
    Chroot c = container_root ∧
    ∃ base es net, effects (s_log s) = base ++ es ++ net ∧ container_changes example_cmdline es ∧
      net_changes example_cmdline net.
Proof.
  destruct example_run as (s & c & s' & Hr & Hs & Hc & _).
  destruct (started_after_boot (kind_os example_cmdline) (Vsock.Marshal example_payload) example_cmdline
    (λ _, eq_refl) s s' c Hr Hs Hc) as [Hroot Hb].
  exists s, c, s'. split; [exact Hs|]. split; [exact Hc|]. split; [exact Hroot|exact Hb].
Defined.

End GuestBoot.
