(* ===== verification/Cloud.v ===== *)
(** * The client of the cloud control plane ([internal/cloud/client.go])

    The client keeps the node's identity in memory and in two files, chooses the transport
    and the credentials of its stream, reports the node's state and turns the commands it
    receives into requests to the daemon's controller.  gRPC is a parameter: whether a dial
    succeeds, and what the stream delivers.  A file is its content, under its cleaned path. *)
From stdpp Require Import options.
From S2P Require Import Prelude GoStrings GoNet Registry Lifecycle Config Observer Service Daemon.
#[local] Open Scope Z_scope.

Module Cloud.

(** ** Data *)

Inductive transport := TLS (serverName : string) | Insecure.

Definition metadata : Type := list (string * string).

Record Client := mkClient {
  cfg : Config.CloudConfig;
  interfaceIP : string;
  conn : option transport;
  stream : option metadata           (* with what it was authenticated *)
}.

Definition NewClient (cfg : Config.CloudConfig) (interfaceIP : string) : Client := mkClient cfg interfaceIP None None.

Definition set_identity (nodeID nodeKey : string) (c : Client) : Client :=
  let k := cfg c in
  mkClient (Config.mkCloudConfig (Config.Enabled k) (Config.Endpoint k) (Config.MachineToken k) nodeKey
    (Config.NodeKeyPath k) nodeID (Config.Interface k)) (interfaceIP c) (conn c) (stream c).

Notation files := (gmap string string).

(** What the environment answers: errors of calls, and what a write that fails leaves. *)
Record Env := mkEnv {
  dial : transport → option string;
  Connect : metadata → option string;
  MkdirAll : string → option string;
  Remove : string → bool;
  write_fails : string → option (string * option string)
}.

Inductive error :=
  | ErrEndpoint (endpoint : string)
  | ErrDial (e : string)
  | ErrNoCredentials
  | ErrStream (e : string).

(** ** The identity *)

Definition id_path (c : Client) : string := FilepathJoin [Dir (Config.NodeKeyPath (cfg c)); "node.id"].

Definition loadLocalIdentity (fs : files) (c : Client) : Client :=
  let key := match fs !! Clean (Config.NodeKeyPath (cfg c)) with
             | Some data => TrimSpace data | None => Config.NodeKey (cfg c) end in
  let id := match fs !! id_path c with
            | Some data => TrimSpace data | None => Config.NodeID (cfg c) end in
  set_identity id key c.

Definition WriteFile (env : Env) (path data : string) (fs : files) : files * option string :=
  match write_fails env path with
  | Some (e, Some partial) => (<[path := partial]> fs, Some e)
  | Some (e, None) => (fs, Some e)
  | None => (<[path := data]> fs, None)
  end.

Definition persistIdentity (env : Env) (c : Client) (fs : files) (nodeID nodeKey : string)
    : Client * files * option string :=
  let c := set_identity nodeID nodeKey c in
  let dir := Dir (Config.NodeKeyPath (cfg c)) in
  match MkdirAll env dir with
  | Some e => (c, fs, Some e)
  | None =>
      let path := Clean (Config.NodeKeyPath (cfg c)) in
      let fs := if Remove env path then delete path fs else fs in
      match WriteFile env path nodeKey fs with
      | (fs, Some e) => (c, fs, Some e)
      | (fs, None) => let '(fs, e) := WriteFile env (id_path c) nodeID fs in (c, fs, e)
      end
  end.

(** ** The stream *)

(** The first transport that is accepted, and otherwise the last error. *)
Fixpoint first_dial (env : Env) (last : string) (attempts : list transport) : result error transport :=
  match attempts with
  | [] => Err (ErrDial last)
  | t :: attempts => match dial env t with None => Ok t | Some e => first_dial env e attempts end
  end.

Definition dialWithFallback (env : Env) (c : Client) : result error transport :=
  match SplitHostPort (Config.Endpoint (cfg c)) with
  | Err _ => Err (ErrEndpoint (Config.Endpoint (cfg c)))
  | Ok (endpointHost, _) => first_dial env "" [TLS endpointHost; Insecure]
  end.

Definition credentials (c : Client) : option metadata :=
  let k := cfg c in
  if decide (Config.NodeKey k ≠ "" ∧ Config.NodeID k ≠ "") then
    Some [("x-node-id", Config.NodeID k); ("x-node-key", Config.NodeKey k)]
  else if decide (Config.MachineToken k ≠ "") then Some [("x-machine-token", Config.MachineToken k)]
  else None.

(** The goroutines and the first heartbeat are left to [sendTelemetry] and [commandLoop]. *)
Definition Start (env : Env) (fs : files) (c : Client) : Client * option error :=
  if negb (Config.Enabled (cfg c)) then (c, None) else
  match dialWithFallback env c with
  | Err e => (c, Some e)
  | Ok t =>
      let c := mkClient (cfg c) (interfaceIP c) (Some t) (stream c) in
      let c := loadLocalIdentity fs c in
      match credentials c with
      | None => (c, Some ErrNoCredentials)
      | Some md =>
          match Connect env md with
          | Some e => (c, Some (ErrStream e))
          | None => (mkClient (cfg c) (interfaceIP c) (conn c) (Some md), None)
          end
      end
  end.

(** ** Telemetry *)

Definition int32 (z : Z) : Z := (z + 2 ^ 31) `mod` 2 ^ 32 - 2 ^ 31.

Record ProtoMapping := mkProtoMapping { InternalPort : Z; ProtoHostPort : Z }.

Record SessionInfo := mkSessionInfo { InfoSessionId : string; Mappings : list ProtoMapping }.

Record Heartbeat := mkHeartbeat {
  AvailableMemoryMb : Z;
  ActiveVmCount : Z;
  CpuUsagePercent : Observer.fraction;
  UptimeSeconds : Z;
  InterfaceIp : string;
  ActiveSessions : list SessionInfo;
  TotalMemoryMb : Z;
  TotalVcpu : Z
}.

Definition session_info (s : Lifecycle.SessionState) : SessionInfo :=
  mkSessionInfo (Lifecycle.SessionID s)
    ((λ m, mkProtoMapping (int32 (GuestPort m)) (int32 (HostPort m))) <$> Lifecycle.PortMappings s).

(** [(1 - idle) * 100], by its operands: the rounding of [float64] is left out. *)
Definition usage_percent (idle : Observer.fraction) : Observer.fraction :=
  match idle with
  | Observer.Whole => Observer.Quotient 0 1
  | Observer.Quotient n d => Observer.Quotient (100 * (d - n)) d
  end.

(** [active] sessions are in the pool's registry, and [unixTime] seconds since 1970. *)
Definition sendTelemetry (c : Client) (sessions : list Lifecycle.SessionState) (active : Z)
    (node : Observer.NodeStats) (unixTime : Z) : Heartbeat :=
  mkHeartbeat (Observer.AvailableMemoryBytes node `quot` 1024 `quot` 1024) (int32 active)
    (usage_percent (Observer.CPUIdle node)) unixTime (interfaceIP c) (session_info <$> sessions)
    (Observer.TotalMemoryBytes node `quot` 1024 `quot` 1024) (int32 (Observer.CPUCount node)).

(** What one heartbeat is made of, and the error of sending it. *)
Record reading := mkReading {
  r_sessions : list Lifecycle.SessionState;
  r_active : Z;
  r_node : Observer.NodeStats;
  r_time : Z;
  r_send : option string
}.

Definition heartbeat (c : Client) (r : reading) : Heartbeat :=
  sendTelemetry c (r_sessions r) (r_active r) (r_node r) (r_time r).

(** The messages of the ticks: the loop ends with the first that cannot be sent. *)
Fixpoint telemetry_ticks (c : Client) (ticks : list reading) : list Heartbeat :=
  match ticks with
  | [] => []
  | r :: ticks => heartbeat c r :: match r_send r with Some _ => [] | None => telemetry_ticks c ticks end
  end.

(** The error of the first message, before the ticks, is not looked at. *)
Definition telemetryLoop (c : Client) (first : reading) (ticks : list reading) : list Heartbeat :=
  heartbeat c first :: telemetry_ticks c ticks.

(** ** Commands *)

Record Command := mkCommand {
  Action : string;
  CommandId : string;
  RequestedSessionId : string;
  Params : gmap string string;
  RequestedMappings : list ProtoMapping
}.

Record CommandResponse := mkCommandResponse { RespCommandId : string; RespSessionId : string; RespError : string }.

(** A parameter that is not there is empty; the error of [Atoi] is dropped and its value kept. *)
Definition param (cmd : Command) (key : string) : string := default "" (Params cmd !! key).
Definition int_param (cmd : Command) (key : string) : Z := (ParseInt (param cmd key)).1.

Definition requestedMappings (cmd : Command) : list PortMapping :=
  let ms := (λ m, mkPortMapping "" 0 (InternalPort m) "tcp") <$> RequestedMappings cmd in
  if decide (ms = []) then [mkPortMapping "" 0 80 "tcp"] else ms.

Definition boot_request (cmd : Command) : Daemon.SessionCreateRequest :=
  {| Daemon.SessionID := RequestedSessionId cmd;
     Daemon.rq_Image := if decide (param cmd "image_ref" = "") then "alpine:latest" else param cmd "image_ref";
     Daemon.rq_Command := []; Daemon.rq_Env := ∅; Daemon.rq_IdleTimeoutSeconds := 0; Daemon.rq_TTLSeconds := 0;
     Daemon.rq_HealthInterval := ""; Daemon.Warm := false;
     Daemon.rq_VCPUs := int_param cmd "vcpus"; Daemon.rq_MemoryMB := int_param cmd "memory_mb";
     Daemon.rq_PortMappings := requestedMappings cmd |}.

Section commands.
Context {P : Type} `{SessionPool P}.

(** The goroutine of a [boot_vm] command: what it does to the controller, and its answer. *)
Definition boot_vm (env : Daemon.Env) (ctl : Daemon.Controller (P := P)) (cmd : Command)
    : Daemon.Controller (P := P) * CommandResponse :=
  match Daemon.CreateSession env ctl (boot_request cmd) with
  | (ctl, Err e) => (ctl, mkCommandResponse (CommandId cmd) "" e)
  | (ctl, Ok resp) => (ctl, mkCommandResponse (CommandId cmd) (Daemon.rs_SessionID resp) "")
  end.

(** The goroutines of several commands, in the order in which they create their sessions. *)
Fixpoint boot_all (ctl : Daemon.Controller (P := P)) (cmds : list (Daemon.Env * Command))
    : Daemon.Controller (P := P) * list CommandResponse :=
  match cmds with
  | [] => (ctl, [])
  | (env, cmd) :: cmds =>
      let '(ctl, r) := boot_vm env ctl cmd in
      let '(ctl, rs) := boot_all ctl cmds in
      (ctl, r :: rs)
  end.

End commands.

(** One command in the loop: the identity, the files, and whether a session is to be
    booted; [destroy_all] is only logged. *)
Definition handle_command (env : Env) (c : Client) (fs : files) (cmd : Command) : Client * files * bool :=
  let boot := bool_decide (Action cmd = "boot_vm") in
  if decide (Action cmd = "swap_credentials") then
    let nodeID := param cmd "node_id" in
    let nodeKey := param cmd "node_key" in
    if decide (nodeID = "" ∨ nodeKey = "") then (c, fs, boot)
    else let '(c, fs, _) := persistIdentity env c fs nodeID nodeKey in (c, fs, boot)
  else (c, fs, boot).

(** The commands that the stream delivers before it ends: the goroutines it has started,
    and the client and the files then. *)
Fixpoint commandLoop (env : Env) (c : Client) (fs : files) (cmds : list Command) : Client * files * list Command :=
  match cmds with
  | [] => (c, fs, [])
  | cmd :: cmds =>
      let '(c, fs, boot) := handle_command env c fs cmd in
      let '(c, fs, booted) := commandLoop env c fs cmds in
      (c, fs, if boot then cmd :: booted else booted)
  end.

(** ** Lemmas *)

(** After a message that cannot be sent the node is silent, however long it runs. *)
Lemma telemetry_stops c first before r after e :
  Forall (λ r, r_send r = None) before → r_send r = Some e →
  telemetryLoop c first (before ++ r :: after) = heartbeat c <$> first :: before ++ [r].
Proof.
  intros Hb He. unfold telemetryLoop. cbn [fmap list_fmap]. f_equal.
  induction Hb as [|b before Hs _ IH]; cbn [app telemetry_ticks fmap list_fmap]; [by rewrite He|]. by rewrite Hs, IH.
Qed.

Lemma int32_small z : - 2 ^ 31 ≤ z < 2 ^ 31 → int32 z = z.
Proof. intros Hz. unfold int32. rewrite Z.mod_small by lia. lia. Qed.

(** A write that succeeds. *)
Lemma written_file env path data fs fs' : WriteFile env path data fs = (fs', None) → fs' = <[path := data]> fs.
Proof. unfold WriteFile. destruct (write_fails env path) as [[e [p|]]|]; by intros [=]. Qed.

Lemma load_after_persist env c fs nodeID nodeKey c1 fs1 c2 :
  persistIdentity env c fs nodeID nodeKey = (c1, fs1, None) →
  trimmed nodeID → trimmed nodeKey → Clean (Config.NodeKeyPath (cfg c)) ≠ id_path c →
  Config.NodeKeyPath (cfg c2) = Config.NodeKeyPath (cfg c) →
  loadLocalIdentity fs1 c2 = set_identity nodeID nodeKey c2.
Proof.
  unfold persistIdentity. cbv zeta. change (id_path (set_identity _ _ c)) with (id_path c).
  change (Config.NodeKeyPath (cfg (set_identity _ _ c))) with (Config.NodeKeyPath (cfg c)).
  destruct (MkdirAll env _); [done|]. destruct (WriteFile env (Clean _) _ _) as [fs2 [e|]] eqn:E1; [done|].
  destruct (WriteFile env (id_path c) _ _) as [fs3 e] eqn:E2. intros [= <- <- ->] Hid Hkey Hne Hp.
  apply written_file in E1, E2. subst. assert (id_path c2 = id_path c) as Hi by (unfold id_path; by rewrite Hp).
  unfold loadLocalIdentity. rewrite Hp, Hi. rewrite lookup_insert_eq, lookup_insert_ne, lookup_insert_eq by (by apply not_eq_sym).
  unfold trimmed in *. by rewrite Hid, Hkey.
Qed.

(** ** Properties *)

(** [C33] A credential swap survives a restart: once an identity has been written, a client
    that starts anew from the same key path, enabled and with whatever other configuration,
    authenticates with that identity and no longer with a machine token, if its dial and its
    stream succeed.  The identifier and the key are not empty and have no white space at
    either end, which the client trims when it reads them, and the key path is not that of
    the identifier ([node.id] in the same directory), which would overwrite it. *)
Theorem swap_survives_restart env c fs nodeID nodeKey c1 fs1 env2 c2 t :
  persistIdentity env c fs nodeID nodeKey = (c1, fs1, None) →
  trimmed nodeID → trimmed nodeKey → nodeID ≠ "" → nodeKey ≠ "" →
  Clean (Config.NodeKeyPath (cfg c)) ≠ id_path c →
  Config.NodeKeyPath (cfg c2) = Config.NodeKeyPath (cfg c) → Config.Enabled (cfg c2) = true →
  dialWithFallback env2 c2 = Ok t →
  let md := [("x-node-id", nodeID); ("x-node-key", nodeKey)] in
  Connect env2 md = None →
  ∃ c3, Start env2 fs1 c2 = (c3, None) ∧ stream c3 = Some md ∧ conn c3 = Some t.
Proof.
  intros Hp Hid Hkey Hid' Hkey' Hne Hpath He Hd md Hc. unfold Start. rewrite He, Hd. cbn [negb]. cbv zeta.
  rewrite (load_after_persist _ _ _ _ _ _ _ _ Hp) by done. unfold credentials. cbn [cfg set_identity Config.NodeKey Config.NodeID].
  rewrite decide_True by done. fold md. rewrite Hc. by eexists.
Qed.

(** Which transport the stream goes over: TLS, for the host of the endpoint, whenever
    that dial succeeds; without encryption exactly when it does not and the second dial does. *)
Theorem dial_transport env c :
  match dialWithFallback env c with
  | Ok (TLS name) => ∃ port, SplitHostPort (Config.Endpoint (cfg c)) = Ok (name, port) ∧ dial env (TLS name) = None
  | Ok Insecure => dial env Insecure = None ∧ ∃ name port e,
      SplitHostPort (Config.Endpoint (cfg c)) = Ok (name, port) ∧ dial env (TLS name) = Some e
  | Err (ErrEndpoint _) => ∃ e, SplitHostPort (Config.Endpoint (cfg c)) = Err e
  | Err (ErrDial e) => dial env Insecure = Some e ∧ ∃ name port e',
      SplitHostPort (Config.Endpoint (cfg c)) = Ok (name, port) ∧ dial env (TLS name) = Some e'
  | Err _ => False
  end.
Proof.
  unfold dialWithFallback. destruct (SplitHostPort _) as [[host port]|e] eqn:E; [|by eexists].
  cbn [first_dial]. destruct (dial env (TLS host)) as [e1|] eqn:E1; [|by exists port].
  destruct (dial env Insecure) as [e2|] eqn:E2; (split; [done|]; by exists host, port, e1).
Qed.

(** What a heartbeat reports: memory in whole mebibytes, and the counts and ports as
    they are as long as they fit 32 bits. *)
Theorem heartbeat_exact c sessions active node unixTime :
  0 ≤ Observer.AvailableMemoryBytes node → 0 ≤ active < 2 ^ 31 → 0 ≤ Observer.CPUCount node < 2 ^ 31 →
  Forall (λ s, Forall (λ m, 0 ≤ GuestPort m < 2 ^ 31 ∧ 0 ≤ HostPort m < 2 ^ 31) (Lifecycle.PortMappings s)) sessions →
  let h := sendTelemetry c sessions active node unixTime in
  AvailableMemoryMb h = Observer.AvailableMemoryBytes node `div` 2 ^ 20 ∧
  ActiveVmCount h = active ∧ TotalVcpu h = Observer.CPUCount node ∧
  ActiveSessions h = (λ s, mkSessionInfo (Lifecycle.SessionID s)
    ((λ m, mkProtoMapping (GuestPort m) (HostPort m)) <$> Lifecycle.PortMappings s)) <$> sessions.
Proof.
  intros Hm Ha Hc Hs. cbv zeta. unfold sendTelemetry. cbn [AvailableMemoryMb ActiveVmCount TotalVcpu ActiveSessions].
  split_and!.
  - rewrite (Z.quot_div_nonneg (Observer.AvailableMemoryBytes node)), Z.quot_div_nonneg by (lia || apply Z.div_pos; lia).
    rewrite Z.div_div by lia. done.
  - apply int32_small. lia.
  - apply int32_small. lia.
  - apply list_fmap_ext. intros i s Hi. apply (Forall_lookup_1 _ _ _ _ Hs) in Hi. unfold session_info. f_equal.
    apply list_fmap_ext. intros j m Hj. apply (Forall_lookup_1 _ _ _ _ Hi) in Hj. f_equal; apply int32_small; lia.
Qed.

Section commands.
Context {P : Type} `{PoolLaws P}.
#[local] Set Default Proof Using "Type*".
Implicit Types ctl : Daemon.Controller (P := P).

(** A [boot_vm] command is answered: with its own id, and either the session that now
    has a worker and a lease, the requested one if one was requested, or an error, and then
    no session has changed. *)
Theorem boot_answered env ctl cmd ctl' r :
  Daemon.uuid env ≠ "" → boot_vm env ctl cmd = (ctl', r) →
  RespCommandId r = CommandId cmd ∧
  if decide (RespSessionId r = "") then live (Daemon.pool ctl') = live (Daemon.pool ctl) ∧
    Lifecycle.registry (Daemon.lifecycleManager ctl') = Lifecycle.registry (Daemon.lifecycleManager ctl)
  else RespError r = "" ∧
    RespSessionId r = (if decide (RequestedSessionId cmd = "") then Daemon.uuid env else RequestedSessionId cmd) ∧
    is_Some (live (Daemon.pool ctl') !! RespSessionId r) ∧
    is_Some (Lifecycle.registry (Daemon.lifecycleManager ctl') !! RespSessionId r).
Proof.
  intros Hu. unfold boot_vm. destruct (Daemon.CreateSession env ctl (boot_request cmd)) as [ctl1 res] eqn:E.
  apply Daemon.create_cases in E. cbv zeta in E. cbn [Daemon.SessionID boot_request] in E.
  set (id := if decide (RequestedSessionId cmd = "") then _ else _) in *.
  assert (id ≠ "") as Hid by (unfold id; case_decide; done).
  destruct res as [resp|e]; intros [= <- <-]; cbn [RespCommandId RespSessionId RespError]; (split; [done|]).
  - destruct E as (w & Hw & _ & Hreg & _ & -> & _). cbn [Daemon.rs_SessionID]. rewrite decide_False by done.
    split_and!; [done|done|by eexists|]. rewrite Hreg, lookup_insert_eq. by eexists.
  - destruct E as (Hr & _ & Hl). by rewrite decide_True.
Qed.

(** For the controller a [boot_vm] command is a request of the control plane, so what holds
    of every history of those holds with the commands of the cloud among them. *)
Lemma boot_as_request env ctl cmd :
  (boot_vm env ctl cmd).1 = (Daemon.handle env ctl (Daemon.Create (Some (Ok (boot_request cmd))))).1.
Proof.
  unfold boot_vm. cbn [Daemon.handle]. unfold Daemon.handleCreateSession. rewrite decide_False.
  - by destruct (Daemon.CreateSession env ctl (boot_request cmd)) as [ctl' [resp|e]].
  - cbn. by case_decide.
Qed.

(** Every goroutine answers once, in whatever order they run. *)
Lemma boot_all_ids ctl cmds :
  RespCommandId <$> (boot_all ctl cmds).2 = CommandId ∘ snd <$> cmds.
Proof.
  revert ctl. induction cmds as [|[env cmd] cmds IH]; intros ctl; [done|]. cbn [boot_all].
  specialize (IH (boot_vm env ctl cmd).1). destruct (boot_vm env ctl cmd) as [ctl1 r] eqn:E.
  assert (RespCommandId r = CommandId cmd) as Hr by (unfold boot_vm in E; by repeat case_match; simplify_eq).
  cbn [fst] in IH. destruct (boot_all ctl1 cmds) as [ctl2 rs]. cbn. by rewrite Hr; f_equal.
Qed.

End commands.

(** A swap whose write fails loses the key that was there: it was removed before. *)
Lemma failed_swap_loses_key env c fs nodeID nodeKey e :
  MkdirAll env (Dir (Config.NodeKeyPath (cfg c))) = None →
  Remove env (Clean (Config.NodeKeyPath (cfg c))) = true →
  write_fails env (Clean (Config.NodeKeyPath (cfg c))) = Some (e, None) →
  ∃ c' fs', persistIdentity env c fs nodeID nodeKey = (c', fs', Some e) ∧
    fs' !! Clean (Config.NodeKeyPath (cfg c)) = None ∧ Config.NodeKey (cfg c') = nodeKey.
Proof.
  intros Hm Hr Hw. unfold persistIdentity. cbv zeta.
  change (Config.NodeKeyPath (cfg (set_identity nodeID nodeKey c))) with (Config.NodeKeyPath (cfg c)).
  rewrite Hm, Hr. unfold WriteFile at 1. rewrite Hw. eexists _, _. split; [done|]. split; [|done].
  apply lookup_delete_eq.
Qed.

(** ** Witnesses *)

Definition example_config (nodeKeyPath token : string) : Config.CloudConfig :=
  Config.mkCloudConfig true "cloud.example:443" token "" nodeKeyPath "" "".

(** A control plane that refuses TLS. *)
Definition example_env : Env :=
  mkEnv (λ t, match t with TLS _ => Some "handshake" | Insecure => None end) (λ _, None) (λ _, None) (λ _, true) (λ _, None).

Lemma swap_survives_restart_witness :
  ∃ c3, Start example_env
      (persistIdentity example_env (NewClient (example_config "/etc/herd/node.key" "once") "") ∅ "node-1" "k3y").1.2
      (NewClient (example_config "/etc/herd/node.key" "once") "10.0.0.1") = (c3, None) ∧
    stream c3 = Some [("x-node-id", "node-1"); ("x-node-key", "k3y")] ∧ conn c3 = Some Insecure.
Proof.
  apply (swap_survives_restart example_env (NewClient (example_config "/etc/herd/node.key" "once") "") ∅ "node-1" "k3y"
    (persistIdentity example_env (NewClient (example_config "/etc/herd/node.key" "once") "") ∅ "node-1" "k3y").1.1);
    try (vm_compute; reflexivity); try done.
Defined.

Lemma heartbeat_exact_witness :
  ActiveVmCount (sendTelemetry (NewClient (example_config "k" "t") "") [] 3 (Observer.mkNodeStats 8192 4096 Observer.Whole 8) 0) = 3.
Proof. apply (heartbeat_exact (NewClient (example_config "k" "t") "") [] 3 (Observer.mkNodeStats 8192 4096 Observer.Whole 8) 0); simpl; try lia. constructor. Defined.

Definition example_command : Command :=
  mkCommand "boot_vm" "cmd-7" "s-1" (<["vcpus" := "2"]> ∅) [mkProtoMapping 8080 0].

Definition example_daemon : Daemon.Env :=
  Daemon.mkEnv 0 "fresh" "" (λ _, Err "") false None None (λ _ _, None).

Lemma boot_answered_witness :
  is_Some (live (Daemon.pool (boot_vm example_daemon (Daemon.start (mkMapPool ∅ ∅ ∅)) example_command).1) !! "s-1").
Proof.
  destruct (boot_answered example_daemon (Daemon.start (mkMapPool ∅ ∅ ∅)) example_command
    (boot_vm example_daemon (Daemon.start (mkMapPool ∅ ∅ ∅)) example_command).1
    (boot_vm example_daemon (Daemon.start (mkMapPool ∅ ∅ ∅)) example_command).2) as [_ Hr]; [done|by destruct (boot_vm _ _ _)|].
  exact (proj1 (proj2 (proj2 Hr))).
Defined.

End Cloud.
