(* ===== verification/Init.v ===== *)
(** * [herd init] ([cmd/herd/init.go])

    The command asks for, or takes from its flags, the paths and limits of a node,
    downloads what is missing, writes the configuration and sets up storage and network.
    The standard input is one text, files are their contents under their paths, and the
    answers of the system and of the network are an [Env].  A number that is typed is
    scanned as [fmt] does; the scanner of decimals is an argument. *)
From Stdlib Require Import SpecFloat.
From stdpp Require Import options.
From S2P Require Import Prelude GoStrings GoNet Rollback Config Observer UidPool Ipam PortMgr HostNet StorageBoot Vsock.
#[local] Open Scope Z_scope.

Module Init.

(** ** Prompts *)

(** [ReadString] with the newline as delimiter: its error is not looked at. *)
Definition ReadString (input : string) : string * string :=
  match Vsock.split_line input with
  | Some (line, rest) => (line +:+ String Vsock.newline "", rest)
  | None => (input, "")
  end.

(** The loop of a prompt: an answer that is blank is the default, one that cannot be read is
    asked for again.  The answer, and the input behind it. *)
Fixpoint ask {A} (fuel : nat) (norm : string → string) (parse : string → option A) (defaultValue : A)
    (input : string) : option (A * string) :=
  match fuel with
  | O => None
  | S fuel =>
      let '(line, rest) := ReadString input in
      let answer := norm line in
      if decide (answer = "") then Some (defaultValue, rest)
      else match parse answer with
           | Some v => Some (v, rest)
           | None => ask fuel norm parse defaultValue rest
           end
  end.

(** One more round than the input has bytes: every round but the last takes one. *)
Definition prompt_fuel (input : string) : nat := S (String.length input).

Definition parse_confirm (s : string) : option bool :=
  if decide (s = "y" ∨ s = "yes") then Some true else if decide (s = "n" ∨ s = "no") then Some false else None.

Definition promptString (defaultValue input : string) : string * string :=
  let '(line, rest) := ReadString input in
  (if decide (TrimSpace line = "") then defaultValue else TrimSpace line, rest).
Definition promptInt (defaultValue : Z) (input : string) : option (Z * string) :=
  ask (prompt_fuel input) TrimSpace Sscanf_d defaultValue input.
Definition promptInt64 : Z → string → option (Z * string) := promptInt.
Definition promptFloat (Sscanf_f : string → option spec_float) (defaultValue : spec_float) (input : string)
    : option (spec_float * string) :=
  ask (prompt_fuel input) TrimSpace Sscanf_f defaultValue input.
Definition promptConfirm (defaultValue : bool) (input : string) : option (bool * string) :=
  ask (prompt_fuel input) (λ s, TrimSpace (ToLower s)) parse_confirm defaultValue input.

(** ** Numbers *)

Definition float64 (z : Z) : spec_float := binary_normalize 53 1024 z 0 false.

(** The [float64] next to 0.8, and the conversion to [int64], which cuts the fraction off. *)
Definition float_0_8 : spec_float := S754_finite false 7205759403792794 (-53).
Definition int64 (f : spec_float) : Z :=
  match f with
  | S754_finite sign m e => (if sign then -1 else 1) * Z.shiftl (Z.pos m) e
  | _ => 0
  end.

Definition defaultMaxVMs (i : Observer.Info) : Z := wrap64 (Observer.CPUCores i * 4).
Definition defaultMaxMem (i : Observer.Info) : Z := int64 (SFmul 53 1024 (float64 (Observer.TotalMemoryMB i)) float_0_8).
Definition defaultCPUCores (i : Observer.Info) : spec_float :=
  let d := SFsub 53 1024 (float64 (Observer.CPUCores i)) (float64 1) in
  if SFltb d (float64 1) then float64 1 else d.

(** ** The command's world *)

Record Flags := mkFlags {
  autoYes : bool;
  fcBinaryPath : string;
  jailerBinPath : string;
  kernelImgPath : string;
  chrootBase : string;
  maxGlobalVMs : Z;
  maxGlobalMemMB : Z;
  cpuLimitCores : spec_float;
  cloudEndpoint : string;
  machineToken : string
}.

(** A download: the status, what can be read of the body, and whether reading it failed; of
    an archive, its entries up to the first that cannot be read, if there is one. *)
Record Body := mkBody { status : Z; text : string; broken : bool }.
Record Entry := mkEntry { e_name : string; e_body : Body }.

Record Env := mkEnv {
  euid : Z;
  home : result string string;                       (* [config.GetTargetHomeDir] *)
  os : string → string → option string;              (* the error of a call on a path *)
  get : string → result string Body;
  get_archive : string → result string (Z * list (option Entry));   (* status and entries *)
  GOARCH : string;
  Version : string;
  sysInfo : result string Observer.Info;
  Sscanf_f : string → option spec_float;
  Marshal : Config.Config → result string string
}.

Record World := mkWorld { stdin : string; files : gmap string string; dirs : gset string }.

(** Where [log.Fatal] was called. *)
Inductive fatal :=
  | NotRoot
  | Failed (stage cause : string)
  | OutOfFuel.

Notation M := (Rollback.M (W := World) (U := Empty_set) (E := fatal)).

Definition set_stdin (s : string) (w : World) : World := mkWorld s (files w) (dirs w).
Definition set_files (f : gmap string string) (w : World) : World := mkWorld (stdin w) f (dirs w).
Definition add_dir (d : string) (w : World) : World := mkWorld (stdin w) (files w) ({[d]} ∪ dirs w).

Section init.
Context (env : Env).

Definition ok_or_fail (stage : string) (e : option string) : M unit :=
  match e with None => mret tt | Some e => throw (Failed stage e) end.

Definition MkdirAll (stage path : string) : M unit :=
  ok_or_fail stage (os env "mkdirall" path);; modify (add_dir path).

Definition exists_file (path : string) : M bool :=
  w ← world; mret (bool_decide (is_Some (files w !! path))).

Definition asked {A} (prompt : string → option (A * string)) : M A :=
  w ← world;
  match prompt (stdin w) with
  | Some (v, rest) => modify (set_stdin rest);; mret v
  | None => throw OutOfFuel
  end.
Definition asked_string (defaultValue : string) : M string :=
  asked (λ input, Some (promptString defaultValue input)).

(** [os.Create] and [io.Copy]: what could be read is in the file even if the copy fails. *)
Definition save (stage path : string) (b : Body) : M unit :=
  ok_or_fail stage (os env "create" path);;
  modify (λ w, set_files (<[path := text b]> (files w)) w);;
  ok_or_fail stage (if broken b then Some "copy" else os env "copy" path).

(** ** Downloads *)

Definition release_url (file : string) : string :=
  "https://github.com/herd-core/herd/releases/download/" +:+ Version env +:+ "/" +:+ file.

Definition fetch (stage url : string) : M Body :=
  match get env url with
  | Err e => throw (Failed stage e)
  | Ok b => if decide (status b = 200) then mret b else throw (Failed stage "bad status")
  end.

Definition downloadGuestAgent (path : string) : M unit :=
  b ← fetch "guest agent" (release_url ("herd-guest-agent-linux-" +:+ GOARCH env));
  save "guest agent" path b;;
  ok_or_fail "guest agent" (os env "chmod" path).

Definition downloadKernel (path : string) : M unit :=
  b ← fetch "kernel" (release_url "vmlinux-v6.1.bin");
  save "kernel" path b.

Definition firecracker_arch : string :=
  if decide (GOARCH env = "amd4") then "x86_64" else if decide (GOARCH env = "arm64") then "aarch64" else GOARCH env.

Definition firecracker_url : string :=
  "https://github.com/firecracker-microvm/firecracker/releases/download/v1.14.3/firecracker-v1.14.3-" +:+
  firecracker_arch +:+ ".tgz".

Definition is_firecracker (name : string) : bool :=
  GoStrings.Contains name "firecracker-v" && negb (GoStrings.Contains name ".debug") && negb (GoStrings.Contains name "jailer").
Definition is_jailer (name : string) : bool :=
  GoStrings.Contains name "jailer-v" && negb (GoStrings.Contains name ".debug").

Definition extractBinaryFromTar (stage path : string) (b : Body) : M unit :=
  save stage path b;; ok_or_fail stage (os env "chmod" path).

(** The entries until both binaries are there: which of them are. *)
Fixpoint extract (fcPath jailerPath : string) (fcDone jailerDone : bool) (entries : list (option Entry)) : M (bool * bool) :=
  match entries with
  | [] => mret (fcDone, jailerDone)
  | None :: _ => throw (Failed "firecracker" "archive")
  | Some e :: entries =>
      done ← (if is_firecracker (e_name e) then
                extractBinaryFromTar "firecracker" fcPath (e_body e);; mret (true, jailerDone)
              else if is_jailer (e_name e) then
                extractBinaryFromTar "firecracker" jailerPath (e_body e);; mret (fcDone, true)
              else mret (fcDone, jailerDone));
      if (done.1 && done.2 : bool) then mret done else extract fcPath jailerPath done.1 done.2 entries
  end.

Definition downloadFirecrackerAndJailer (fcPath jailerPath : string) : M unit :=
  match get_archive env firecracker_url with
  | Err e => throw (Failed "firecracker" e)
  | Ok (st, entries) =>
      if decide (st ≠ 200) then throw (Failed "firecracker" "bad status") else
      done ← extract fcPath jailerPath false false entries;
      if negb done.1 then throw (Failed "firecracker" "firecracker binary not found in archive")
      else if negb done.2 then throw (Failed "firecracker" "jailer binary not found in archive")
      else mret tt
  end.

(** ** The stages of [runInit] *)

Definition choose_binaries (f : Flags) (binDir : string) : M (string * string) :=
  let fcPath := FilepathJoin [binDir; "firecracker"] in
  let jailerPath := FilepathJoin [binDir; "jailer"] in
  if decide (fcBinaryPath f ≠ "" ∧ jailerBinPath f ≠ "") then mret (fcBinaryPath f, jailerBinPath f)
  else if autoYes f then
    has_fc ← exists_file fcPath;
    has_jailer ← exists_file jailerPath;
    (if (has_fc && has_jailer : bool) then mret tt else downloadFirecrackerAndJailer fcPath jailerPath);;
    mret (fcPath, jailerPath)
  else
    useExistingFC ← asked (promptConfirm false);
    if (useExistingFC : bool) then
      fcPath ← asked_string "/usr/local/bin/firecracker";
      jailerPath ← asked_string "/usr/local/bin/jailer";
      mret (fcPath, jailerPath)
    else
      downloadFirecrackerAndJailer fcPath jailerPath;;
      mret (fcPath, jailerPath).

Definition choose_agent (binDir : string) : M string :=
  let agentPath := FilepathJoin [binDir; "herd-guest-agent"] in
  has ← exists_file agentPath;
  (if (has : bool) then mret tt else downloadGuestAgent agentPath);;
  mret agentPath.

Definition choose_kernel (f : Flags) (stateDir : string) : M string :=
  let kernelPath := FilepathJoin [stateDir; "vmlinux-v6.1.bin"] in
  if decide (kernelImgPath f ≠ "") then mret (kernelImgPath f)
  else if autoYes f then
    has ← exists_file kernelPath;
    (if (has : bool) then mret tt else downloadKernel kernelPath);;
    mret kernelPath
  else
    useExistingKernel ← asked (promptConfirm false);
    if (useExistingKernel : bool) then asked_string ""
    else downloadKernel kernelPath;; mret kernelPath.

Definition choose_chroot (f : Flags) : M string :=
  chrootBaseDir ← (if autoYes f then mret (chrootBase f) else asked_string "/srv/jailer");
  MkdirAll "chroot base dir" chrootBaseDir;;
  mret chrootBaseDir.

Definition uidPoolStart : Z := 300000.
Definition uidPoolSize : Z := 200.

Definition choose_resources (f : Flags) : M Config.ResourceConfig :=
  match sysInfo env with
  | Err e => throw (Failed "system info" e)
  | Ok i =>
      if autoYes f then
        mret (Config.mkResourceConfig
          (if decide (0 < maxGlobalVMs f) then maxGlobalVMs f else defaultMaxVMs i)
          (if decide (0 < maxGlobalMemMB f) then maxGlobalMemMB f else defaultMaxMem i)
          (if SFltb (S754_zero false) (cpuLimitCores f) then cpuLimitCores f else defaultCPUCores i))
      else
        maxVMs ← asked (promptInt (defaultMaxVMs i));
        maxMem ← asked (promptInt64 (defaultMaxMem i));
        cpuCores ← asked (promptFloat (Sscanf_f env) (defaultCPUCores i));
        mret (Config.mkResourceConfig maxVMs maxMem cpuCores)
  end.

Definition make_config (f : Flags) (stateDir fcPath jailerPath kernelPath agentPath chrootBaseDir : string)
    (r : Config.ResourceConfig) : Config.Config :=
  {| Config.Network := Config.mkNetworkConfig "127.0.0.1:8081" "127.0.0.1:8080" 10000 39999;
     Config.Storage := Config.mkStorageConfig stateDir "devmapper" "herd";
     Config.Resources := r;
     Config.Binaries := Config.mkBinaryConfig fcPath jailerPath kernelPath agentPath;
     Config.Jailer := Config.mkJailerConfig uidPoolStart uidPoolSize chrootBaseDir;
     Config.Telemetry := Config.mkTelemetryConfig "json" "/metrics";
     Config.Cloud := Config.mkCloudConfig (bool_decide (cloudEndpoint f ≠ "" ∧ machineToken f ≠ ""))
       (cloudEndpoint f) (machineToken f) "" "" "" "" |}.

Definition write_config (herdDir : string) (cfg : Config.Config) : M unit :=
  let path := FilepathJoin [herdDir; "herd.yaml"] in
  match Marshal env cfg with
  | Err e => throw (Failed "marshal config" e)
  | Ok data =>
      ok_or_fail "write config" (os env "write" path);;
      modify (λ w, set_files (<[path := data]> (files w)) w)
  end.

(** All of [runInit] before the environment is set up: the configuration it has written. *)
Definition configure (f : Flags) : M Config.Config :=
  if decide (euid env ≠ 0) then throw NotRoot else
  match home env with
  | Err e => throw (Failed "home directory" e)
  | Ok homeDir =>
      let herdDir := FilepathJoin [homeDir; ".herd"] in
      let binDir := FilepathJoin [herdDir; "bin"] in
      let stateDir := FilepathJoin [herdDir; "state"] in
      MkdirAll "bin dir" binDir;;
      MkdirAll "state dir" stateDir;;
      binaries ← choose_binaries f binDir;
      agentPath ← choose_agent binDir;
      kernelPath ← choose_kernel f stateDir;
      chrootBaseDir ← choose_chroot f;
      r ← choose_resources f;
      let cfg := make_config f stateDir binaries.1 binaries.2 kernelPath agentPath chrootBaseDir r in
      write_config herdDir cfg;;
      mret cfg
  end.

End init.

(** ** The whole command: the configuration, then storage, then network. *)

Section run.
Context {S N : Type} `{StorageBoot.Tools S} `{Commands N}.

Record Node := mkNode { n_files : World; n_storage : StorageBoot.World (H := S); n_net : N }.

Definition runInit (env : Env) (senv : StorageBoot.Env) (RouteList : result string (list HostNet.route))
    (LinkByIndex : Z → result string string) (f : Flags) (n : Node) : Node * result fatal Config.Config :=
  match configure env f (n_files n, []) with
  | (Err e, (w, _)) => (mkNode w (n_storage n) (n_net n), Err e)
  | (Ok cfg, (w, _)) =>
      match StorageBoot.Bootstrap senv (n_storage n) (Config.StateDir (Config.Storage cfg)) with
      | (Some _, sw) => (mkNode w sw (n_net n), Err (Failed "bootstrap storage" ""))
      | (None, sw) =>
          match HostNet.Bootstrap (n_net n) RouteList LinkByIndex with
          | (net, Some _) => (mkNode w sw net, Err (Failed "bootstrap network" ""))
          | (net, None) => (mkNode w sw net, Ok cfg)
          end
      end
  end.

End run.

(** ** Prompts, against the lines of the input *)

(** The first line that is blank or can be read decides; the end of the input is blank. *)
Fixpoint first_answer {A} (norm : string → string) (parse : string → option A) (d : A) (lines : list string) : A :=
  match lines with
  | [] => d
  | l :: lines =>
      if decide (norm l = "") then d
      else match parse (norm l) with Some v => v | None => first_answer norm parse d lines end
  end.

Lemma split_line_Split input :
  Split Vsock.newline input =
    match Vsock.split_line input with Some (line, rest) => line :: Split Vsock.newline rest | None => [input] end.
Proof.
  destruct (Vsock.split_line input) as [[line rest]|] eqn:E.
  - apply Vsock.split_line_some in E as [-> Hl]. by apply Split_app.
  - apply Split_one, Vsock.split_line_none, E.
Qed.

Lemma ask_spec {A} norm (parse : string → option A) d input fuel :
  norm "" = "" → (∀ l, norm (l +:+ String Vsock.newline "") = norm l) → (String.length input < fuel)%nat →
  ∃ rest, ask fuel norm parse d input = Some (first_answer norm parse d (Split Vsock.newline input), rest).
Proof.
  intros H0 Hn. revert input. induction fuel as [|fuel IH]; intros input Hf; [lia|].
  rewrite split_line_Split. cbn [ask]. unfold ReadString.
  destruct (Vsock.split_line input) as [[line rest]|] eqn:E; cbn [first_answer].
  - rewrite Hn. case_decide; [by eexists|]. destruct (parse (norm line)); [by eexists|]. apply IH.
    apply Vsock.split_line_some in E as [-> _]. rewrite length_app_string in Hf. simpl in Hf. lia.
  - case_decide; [by eexists|]. destruct (parse (norm input)); [by eexists|].
    destruct fuel as [|fuel].
    { destruct input; [done|simpl in Hf; lia]. }
    cbn [ask]. unfold ReadString. cbn [Vsock.split_line]. rewrite H0. by eexists.
Qed.

(** [C35] Every prompt ends, also when the input does, and its answer is a function of the
    lines typed: the first one that is blank gives the default, the first one before it that
    can be read its value. *)
Theorem prompts_end Sscanf_f n x b input :
  let lines := Split Vsock.newline input in
  (∃ rest, promptInt n input = Some (first_answer TrimSpace Sscanf_d n lines, rest)) ∧
  (∃ rest, promptFloat Sscanf_f x input = Some (first_answer TrimSpace Sscanf_f x lines, rest)) ∧
  (∃ rest, promptConfirm b input = Some (first_answer (λ s, TrimSpace (ToLower s)) parse_confirm b lines, rest)).
Proof.
  assert (∀ l, TrimSpace (l +:+ String Vsock.newline "") = TrimSpace l) as Hn by (intros l; by apply TrimSpace_snoc).
  cbv zeta. split_and!; apply ask_spec; try done; try (unfold prompt_fuel; lia).
  intros l. rewrite ToLower_app. apply Hn.
Qed.

(** ** What a step returns *)

Definition returns {A} (m : M A) (Q : A → Prop) : Prop :=
  ∀ s a s', m s = (Ok a, s') → Q a.

Lemma returns_bind {A B} (m : M A) (k : A → M B) P Q :
  returns m P → (∀ a, P a → returns (k a) Q) → returns (m ≫= k) Q.
Proof. intros Hm Hk s b s' (a & s1 & H1 & H2)%bind_ok. by eapply Hk; [eapply Hm|]. Qed.

Lemma returns_any {A} (m : M A) : returns m (λ _, True).
Proof. done. Qed.

Lemma returns_ret {A} (a : A) (Q : A → Prop) : Q a → returns (mret a) Q.
Proof. intros HQ s b s' [= <- _]. done. Qed.

Ltac skip_step := eapply returns_bind; [apply returns_any|intros ? _].

Section configured.
Context (env : Env) (f : Flags) (Hyes : autoYes f = true).
#[local] Set Default Proof Using "Type*".

Lemma join_nonempty a b : b ≠ "" → FilepathJoin [a; b] ≠ "".
Proof. clear Hyes. intros Hb. apply FilepathJoin_nonempty. exists b. split; [|done]. right. by left. Qed.

Lemma returns_binaries binDir : returns (choose_binaries env f binDir) (λ p, p.1 ≠ "" ∧ p.2 ≠ "").
Proof.
  unfold choose_binaries. case_decide as Hd; [by apply returns_ret|]. rewrite Hyes.
  do 3 skip_step. apply returns_ret. split; by apply join_nonempty.
Qed.

Lemma returns_agent binDir : returns (choose_agent env binDir) (λ p, p ≠ "").
Proof. clear Hyes. unfold choose_agent. do 2 skip_step. by apply returns_ret, join_nonempty. Qed.

Lemma returns_kernel stateDir : returns (choose_kernel env f stateDir) (λ p, p ≠ "").
Proof.
  unfold choose_kernel. case_decide; [by apply returns_ret|]. rewrite Hyes.
  do 2 skip_step. by apply returns_ret, join_nonempty.
Qed.

Lemma returns_chroot : returns (choose_chroot env f) (λ p, p = chrootBase f).
Proof.
  unfold choose_chroot. rewrite Hyes. eapply returns_bind; [by apply (returns_ret _ (λ p, p = chrootBase f))|].
  intros p ->. skip_step. by apply returns_ret.
Qed.

(** The limits that [Validate] accepts. *)
Definition accepted (r : Config.ResourceConfig) : Prop :=
  1 ≤ Config.MaxGlobalVMs r ∧ 1 ≤ Config.MaxGlobalMemoryMB r ∧ Config.negative (Config.CPULimitCores r) = false ∧
  Config.CPULimitCores r ≠ S754_zero true.

Lemma not_negative_default i : Config.negative (defaultCPUCores i) = false.
Proof.
  clear Hyes. unfold defaultCPUCores, Config.negative. set (d := SFsub _ _ _ _).
  destruct (SFltb d (float64 1)) eqn:E; [done|]. change (float64 1) with (S754_finite false 4503599627370496 (-52)) in E.
  revert E. generalize d. clear. intros [[]|[]| |[] m e]; done.
Qed.

Lemma not_zero_default i : defaultCPUCores i ≠ S754_zero true.
Proof.
  clear Hyes. unfold defaultCPUCores. set (d := SFsub _ _ _ _).
  destruct (SFltb d (float64 1)) eqn:E; [done|]. by intros Ed; rewrite Ed in E.
Qed.

Lemma returns_resources i :
  sysInfo env = Ok i → 0 < Observer.CPUCores i < 2 ^ 60 → 1 ≤ defaultMaxMem i → returns (choose_resources env f) accepted.
Proof.
  intros Hi Hc Hm. unfold choose_resources. rewrite Hi, Hyes. apply returns_ret. unfold accepted. simpl. split_and!.
  - case_decide; [lia|]. unfold defaultMaxVMs, wrap64. rewrite Z.mod_small by lia. lia.
  - case_decide; lia.
  - destruct (SFltb (S754_zero false) (cpuLimitCores f)) eqn:E; [|apply not_negative_default].
    revert E. unfold Config.negative. by destruct (cpuLimitCores f) as [[]|[]| |[] m e].
  - destruct (SFltb (S754_zero false) (cpuLimitCores f)) eqn:E; [|apply not_zero_default].
    by intros Ec; rewrite Ec in E.
Qed.

Lemma valid_config home stateDir fcPath jailerPath kernelPath agentPath r :
  accepted r → fcPath ≠ "" → jailerPath ≠ "" → kernelPath ≠ "" → agentPath ≠ "" → chrootBase f ≠ "" →
  Config.Validate (Config.applyDefaults home
    (make_config f stateDir fcPath jailerPath kernelPath agentPath (chrootBase f) r)) = None.
Proof.
  clear Hyes. intros (H1 & H2 & H3 & _) H4 H5 H6 H7 H8. unfold Config.Validate, Config.applyDefaults, make_config, uidPoolStart, uidPoolSize.
  simpl. rewrite !(decide_False (P := _ < _)) by lia. rewrite H3. by rewrite !decide_False by done.
Qed.

(** What YAML can carry: the fields that are tagged to be left out are empty, and the number
    that may have a fraction is no negative zero, which would be read back as an integer. *)
Definition survives_yaml (c : Config.Config) : Prop :=
  Config.NodeKey (Config.Cloud c) = "" ∧ Config.NodeID (Config.Cloud c) = "" ∧
  Config.CPULimitCores (Config.Resources c) ≠ S754_zero true.

(** What [configure] leaves: the configuration is the file it has written. *)
Lemma configure_yes i s cfg s' :
  sysInfo env = Ok i → 0 < Observer.CPUCores i < 2 ^ 60 → 1 ≤ defaultMaxMem i → chrootBase f ≠ "" →
  configure env f s = (Ok cfg, s') →
  ∃ homeDir data, home env = Ok homeDir ∧ Marshal env cfg = Ok data ∧
    files s'.1 !! FilepathJoin [FilepathJoin [homeDir; ".herd"]; "herd.yaml"] = Some data ∧
    survives_yaml cfg ∧ ∀ h, Config.Validate (Config.applyDefaults h cfg) = None.
Proof.
  intros Hi Hcores Hmem Hroot Hc. unfold configure in Hc. case_decide; [done|].
  destruct (home env) as [homeDir|]; [|done]. cbv zeta in Hc. exists homeDir.
  apply bind_ok in Hc as (? & s1 & _ & Hc). apply bind_ok in Hc as (? & s2 & _ & Hc).
  apply bind_ok in Hc as (bins & s3 & Hb%returns_binaries & Hc). apply bind_ok in Hc as (agent & s4 & Ha%returns_agent & Hc).
  apply bind_ok in Hc as (kernel & s5 & Hk%returns_kernel & Hc).
  apply bind_ok in Hc as (chroot & s6 & ->%returns_chroot & Hc).
  apply bind_ok in Hc as (r & s7 & Hr%(returns_resources i Hi Hcores Hmem) & Hc).
  apply bind_ok in Hc as (? & s8 & Hw & [= <- <-]).
  unfold write_config in Hw. destruct (Marshal env _) as [data|] eqn:Em; [|done]. exists data.
  split; [done|]. split; [done|]. split_and!; [|by destruct Hr as (_ & _ & _ & ?)|].
  - apply bind_ok in Hw as (? & s9 & _ & Hw). injection Hw as _ <-. apply lookup_insert_eq.
  - intros h. by apply valid_config; [..|apply Hb|apply Hb| | |].
Qed.

End configured.

(** [C34] The configuration that [herd init --yes] writes is one that the daemon loads: what
    it has written, read back and filled in, passes the validation, and is what [init] made.
    The flags may name anything but an empty chroot directory, and the machine has a core and
    so much memory that the default limit is not zero.  Of the YAML library it takes that
    what it encodes it decodes again, for configurations without the fields that are tagged
    to be left out (the node's key and identifier, which [init] does not set). *)
Theorem init_yes_loads env f i s cfg s' Decode h :
  autoYes f = true → chrootBase f ≠ "" →
  sysInfo env = Ok i → 0 < Observer.CPUCores i < 2 ^ 60 → 1 ≤ defaultMaxMem i →
  (∀ c data, survives_yaml c → Marshal env c = Ok data → Decode data = Ok c) →
  configure env f s = (Ok cfg, s') →
  ∃ homeDir, home env = Ok homeDir ∧
    Config.Load (λ path, from_option Ok (Err "no such file") (files s'.1 !! path)) Decode h
      (FilepathJoin [FilepathJoin [homeDir; ".herd"]; "herd.yaml"]) = Ok (Config.applyDefaults h cfg).
Proof.
  intros Hy Hr Hi Hc Hm Hd H. destruct (configure_yes env f Hy i s cfg s' Hi Hc Hm Hr H) as (homeDir & data & Hh & Hdata & Hf & Hy' & Hv).
  exists homeDir. split; [done|]. unfold Config.Load. rewrite Hf. cbn [from_option]. rewrite (Hd _ _ Hy' Hdata). cbv zeta.
  by rewrite Hv.
Qed.

(** ** Downloads *)

(** The file at [path] is the body of one of the entries that [p] accepts. *)
Definition from_archive (p : string → bool) (entries : list (option Entry)) (path : string) (fs : gmap string string) : Prop :=
  ∃ e, Some e ∈ entries ∧ p (e_name e) = true ∧ broken (e_body e) = false ∧ fs !! path = Some (text (e_body e)).

Lemma ok_or_fail_ok stage e s a s' : ok_or_fail stage e s = (Ok a, s') → e = None ∧ s' = s.
Proof. destruct e; [done|]. intros [= _ <-]. done. Qed.

Lemma save_ok env stage path b s a s' :
  save env stage path b s = (Ok a, s') → broken b = false ∧ files s'.1 = <[path := text b]> (files s.1).
Proof.
  unfold save. intros (? & s1 & [_ ->]%ok_or_fail_ok & H)%bind_ok. apply bind_ok in H as (? & s2 & [= _ <-] & [Hb ->]%ok_or_fail_ok).
  split; [|done]. by destruct (broken b).
Qed.

Lemma extract_one env stage path b s a s' :
  extractBinaryFromTar env stage path b s = (Ok a, s') → broken b = false ∧ files s'.1 = <[path := text b]> (files s.1).
Proof. unfold extractBinaryFromTar. intros (? & s1 & H & [_ ->]%ok_or_fail_ok)%bind_ok. by eapply save_ok. Qed.

Lemma extract_spec env fcPath jailerPath all entries fc jl s done s' :
  fcPath ≠ jailerPath → (∀ e, e ∈ entries → e ∈ all) →
  (fc = true → from_archive is_firecracker all fcPath (files s.1)) →
  (jl = true → from_archive is_jailer all jailerPath (files s.1)) →
  extract env fcPath jailerPath fc jl entries s = (Ok done, s') →
  (done.1 = true → from_archive is_firecracker all fcPath (files s'.1)) ∧
  (done.2 = true → from_archive is_jailer all jailerPath (files s'.1)).
Proof.
  intros Hne. revert fc jl s. induction entries as [|[e|] entries IH]; intros fc jl s Hall Hfc Hjl H; cbn [extract] in H.
  - injection H as <- <-. by split.
  - apply bind_ok in H as (d & s1 & Hd & H).
    assert ((d.1 = true → from_archive is_firecracker all fcPath (files s1.1)) ∧
      (d.2 = true → from_archive is_jailer all jailerPath (files s1.1))) as [H1 H2].
    { assert (Some e ∈ all) as Hin by (apply Hall; by left).
      destruct (is_firecracker (e_name e)) eqn:Ef; [|destruct (is_jailer (e_name e)) eqn:Ej].
      - apply bind_ok in Hd as (? & s2 & [Hb Hs]%extract_one & [= <- <-]). rewrite Hs. split; simpl.
        + intros _. exists e. by rewrite lookup_insert_eq.
        + intros Hj. destruct (Hjl Hj) as (e' & ? & ? & ? & ?). exists e'. by rewrite lookup_insert_ne.
      - apply bind_ok in Hd as (? & s2 & [Hb Hs]%extract_one & [= <- <-]). rewrite Hs. split; simpl.
        + intros Hj. destruct (Hfc Hj) as (e' & ? & ? & ? & ?). exists e'. by rewrite lookup_insert_ne by done.
        + intros _. exists e. by rewrite lookup_insert_eq.
      - injection Hd as <- <-. by split. }
    destruct (d.1 && d.2) eqn:Eb; [by injection H as <- <-|].
    eapply IH; [|exact H1|exact H2|exact H]. intros e' He'. apply Hall. by right.
  - done.
Qed.

(** A download that succeeds has found both binaries in the archive: each file is the
    whole body of an entry with its name, and not of a debug file or of the other. *)
Theorem binaries_extracted env fcPath jailerPath s a s' :
  fcPath ≠ jailerPath → downloadFirecrackerAndJailer env fcPath jailerPath s = (Ok a, s') →
  ∃ entries, get_archive env (firecracker_url env) = Ok (200, entries) ∧
    from_archive is_firecracker entries fcPath (files s'.1) ∧ from_archive is_jailer entries jailerPath (files s'.1).
Proof.
  intros Hne. unfold downloadFirecrackerAndJailer. destruct (get_archive env _) as [[st entries]|]; [|done].
  case_decide as Hst; [done|]. intros (d & s1 & Hd & H)%bind_ok. exists entries.
  apply (extract_spec _ _ _ entries) in Hd as [H1 H2]; [|done..].
  destruct d as [[] []]; try done. injection H as _ <-. split; [|by split; [apply H1|apply H2]].
  do 2 f_equal. by destruct (decide (st = 200)).
Qed.

(** The archive that is asked for on a PC: the releases name it by [x86_64]. *)
Lemma amd64_url env :
  GOARCH env = "amd64" → firecracker_url env =
    "https://github.com/firecracker-microvm/firecracker/releases/download/v1.14.3/firecracker-v1.14.3-amd64.tgz".
Proof. intros Ha. unfold firecracker_url, firecracker_arch. by rewrite Ha. Qed.

(** A download that breaks off leaves what it has read, and the next [init --yes] takes it
    for the kernel. *)
Lemma partial_download_accepted env f stateDir s b :
  autoYes f = true → kernelImgPath f = "" → files s.1 !! FilepathJoin [stateDir; "vmlinux-v6.1.bin"] = None →
  get env (release_url env "vmlinux-v6.1.bin") = Ok b → status b = 200 → broken b = true →
  os env "create" (FilepathJoin [stateDir; "vmlinux-v6.1.bin"]) = None →
  ∃ w e, choose_kernel env f stateDir s = (Err e, w) ∧
    choose_kernel env f stateDir w = (Ok (FilepathJoin [stateDir; "vmlinux-v6.1.bin"]), w) ∧
    files w.1 !! FilepathJoin [stateDir; "vmlinux-v6.1.bin"] = Some (text b).
Proof.
  intros Hy Hk Hn Hg Hst Hb Hc. set (path := FilepathJoin _) in *.
  assert (∀ w : World * list Empty_set, choose_kernel env f stateDir w =
    (if bool_decide (is_Some (files w.1 !! path)) then (Ok path, w)
     else match downloadKernel env path w with (Ok _, w') => (Ok path, w') | (Err e, w') => (Err e, w') end)) as Hck.
  { intros w. unfold choose_kernel. rewrite decide_False by (by intros H). rewrite Hy.
    unfold exists_file, world, mbind, M_bind, mret, M_ret. fold path. by destruct (bool_decide _). }
  eexists (set_files (<[path := text b]> (files s.1)) s.1, s.2), _. split_and!.
  - rewrite Hck, bool_decide_eq_false_2 by (rewrite Hn; by intros [? ?]).
    unfold downloadKernel, fetch. rewrite Hg, decide_True by done. unfold save, ok_or_fail. rewrite Hc.
    cbv [mbind M_bind mret M_ret modify throw]. rewrite Hb. reflexivity.
  - rewrite Hck, bool_decide_eq_true_2; [done|]. simpl. rewrite lookup_insert_eq. by eexists.
  - simpl. apply lookup_insert_eq.
Qed.

(** On a big machine the default limit promises more VMs than there are UIDs. *)
Lemma default_vms_exceed_uids : ∃ i, uidPoolSize < defaultMaxVMs i.
Proof. exists (Observer.mkInfo 64 262144). vm_compute. reflexivity. Qed.

(** ** Witnesses *)

Definition example_flags : Flags := mkFlags true "" "" "" "/srv/jailer" 0 0 (S754_zero false) "" "".

Definition example_entries : list (option Entry) :=
  (λ n, Some (mkEntry n (mkBody 200 n false))) <$>
  ["release-v1.14.3-aarch64/"; "release-v1.14.3-aarch64/jailer-v1.14.3-aarch64.debug";
   "release-v1.14.3-aarch64/jailer-v1.14.3-aarch64"; "release-v1.14.3-aarch64/firecracker-v1.14.3-aarch64"].

(** An encoder that leaves the key and the identifier out, as the tags say. *)
#[local] Instance spec_float_eq_dec : EqDecision spec_float.
Proof. solve_decision. Defined.
#[local] Instance spec_float_countable : Countable spec_float.
Proof.
  refine (inj_countable' (A := bool + (bool + (unit + (bool * positive * Z))))
    (λ x, match x with
          | S754_zero b => inl b | S754_infinity b => inr (inl b) | S754_nan => inr (inr (inl tt))
          | S754_finite b m e => inr (inr (inr (b, m, e)))
          end)
    (λ y, match y with
          | inl b => S754_zero b | inr (inl b) => S754_infinity b | inr (inr (inl _)) => S754_nan
          | inr (inr (inr (b, m, e))) => S754_finite b m e
          end) _).
  by intros [].
Defined.

Definition fields (c : Config.Config) : list positive :=
  let '(Config.mkConfig n s r b j t l) := c in
  [encode (Config.ControlBind n); encode (Config.DataBind n); encode (Config.EphemeralPortStart n);
   encode (Config.EphemeralPortEnd n); encode (Config.StateDir s); encode (Config.SnapshotterName s);
   encode (Config.Namespace s); encode (Config.MaxGlobalVMs r); encode (Config.MaxGlobalMemoryMB r);
   encode (Config.CPULimitCores r); encode (Config.FirecrackerPath b); encode (Config.JailerPath b);
   encode (Config.KernelImagePath b); encode (Config.GuestAgentPath b); encode (Config.UIDPoolStart j);
   encode (Config.UIDPoolSize j); encode (Config.ChrootBaseDir j); encode (Config.LogFormat t);
   encode (Config.MetricsPath t); encode (Config.Enabled l); encode (Config.Endpoint l);
   encode (Config.MachineToken l); encode (Config.NodeKeyPath l); encode (Config.Interface l)].

Definition of_fields (l : list positive) : option Config.Config :=
  match l with
  | [f1; f2; f3; f4; f5; f6; f7; f8; f9; f10; f11; f12; f13; f14; f15; f16; f17; f18; f19; f20; f21; f22; f23; f24] =>
      x1 ← decode f1; x2 ← decode f2; x3 ← decode f3; x4 ← decode f4; x5 ← decode f5; x6 ← decode f6; x7 ← decode f7;
      x8 ← decode f8; x9 ← decode f9; x10 ← decode f10; x11 ← decode f11; x12 ← decode f12; x13 ← decode f13;
      x14 ← decode f14; x15 ← decode f15; x16 ← decode f16; x17 ← decode f17; x18 ← decode f18; x19 ← decode f19;
      x20 ← decode f20; x21 ← decode f21; x22 ← decode f22; x23 ← decode f23; x24 ← decode f24;
      Some (Config.mkConfig (Config.mkNetworkConfig x1 x2 x3 x4) (Config.mkStorageConfig x5 x6 x7)
        (Config.mkResourceConfig x8 x9 x10) (Config.mkBinaryConfig x11 x12 x13 x14) (Config.mkJailerConfig x15 x16 x17)
        (Config.mkTelemetryConfig x18 x19) (Config.mkCloudConfig x20 x21 x22 "" x23 "" x24))
  | _ => None
  end.

Lemma of_fields_fields c :
  Config.NodeKey (Config.Cloud c) = "" → Config.NodeID (Config.Cloud c) = "" → of_fields (fields c) = Some c.
Proof.
  destruct c as [[] [] [] [] [] [] []]. cbn [Config.Cloud Config.NodeKey Config.NodeID]. intros -> ->.
  cbn [fields of_fields Config.ControlBind Config.DataBind Config.EphemeralPortStart Config.EphemeralPortEnd Config.StateDir
    Config.SnapshotterName Config.Namespace Config.MaxGlobalVMs Config.MaxGlobalMemoryMB Config.CPULimitCores
    Config.FirecrackerPath Config.JailerPath Config.KernelImagePath Config.GuestAgentPath Config.UIDPoolStart
    Config.UIDPoolSize Config.ChrootBaseDir Config.LogFormat Config.MetricsPath Config.Enabled Config.Endpoint
    Config.MachineToken Config.NodeKeyPath Config.Interface].
  rewrite !decode_encode. reflexivity.
Qed.

(** A number in binary digits, the last first. *)
Fixpoint digits (p : positive) : string :=
  match p with xH => "" | xO p => String "0" (digits p) | xI p => String "1" (digits p) end.
Fixpoint of_digits (s : string) : positive :=
  match s with "" => xH | String c s => if decide (c = "1"%char) then xI (of_digits s) else xO (of_digits s) end.

Lemma of_digits_digits p : of_digits (digits p) = p.
Proof. induction p as [p IH|p IH|]; cbn; [by rewrite IH..|done]. Qed.

Definition example_marshal (c : Config.Config) : result string string := Ok (digits (positives_flatten (fields c))).
Definition example_decode (data : string) : result string Config.Config :=
  match l ← positives_unflatten (of_digits data); of_fields l with Some c => Ok c | None => Err "decode yaml" end.

Lemma example_yaml c data : survives_yaml c → example_marshal c = Ok data → example_decode data = Ok c.
Proof.
  intros (Hk & Hi & _) [= <-]. unfold example_decode. rewrite of_digits_digits, positives_unflatten_flatten. cbn.
  by rewrite of_fields_fields.
Qed.

Definition example_config : Config.Config :=
  make_config example_flags "/root/.herd/state" "/root/.herd/bin/firecracker" "/root/.herd/bin/jailer"
    "/root/.herd/state/vmlinux-v6.1.bin" "/root/.herd/bin/herd-guest-agent" "/srv/jailer"
    (Config.mkResourceConfig 32 12800 (float64 7)).

Definition example_env : Env :=
  mkEnv 0 (Ok "/root") (λ _ _, None) (λ _, Ok (mkBody 200 "bytes" false)) (λ _, Ok (200, example_entries)) "arm64" "v0.6.0"
    (Ok (Observer.mkInfo 8 16000)) (λ _, None) example_marshal.

Lemma init_yes_loads_witness :
  Config.Load (λ path, from_option Ok (Err "no such file")
      (files (configure example_env example_flags (mkWorld "" ∅ ∅, [])).2.1 !! path))
    example_decode "/root" "/root/.herd/herd.yaml" =
  Ok (Config.applyDefaults "/root" example_config).
Proof.
  destruct (init_yes_loads example_env example_flags (Observer.mkInfo 8 16000) (mkWorld "" ∅ ∅, []) example_config
    (configure example_env example_flags (mkWorld "" ∅ ∅, [])).2 example_decode "/root")
    as (homeDir & [= <-] & Hl);
    [reflexivity|discriminate|reflexivity|simpl; lia|vm_compute; discriminate|exact example_yaml|vm_compute; reflexivity|exact Hl].
Defined.

Lemma binaries_extracted_witness :
  from_archive is_firecracker example_entries "/b/firecracker"
    (files (downloadFirecrackerAndJailer example_env "/b/firecracker" "/b/jailer" (mkWorld "" ∅ ∅, [])).2.1).
Proof.
  destruct (binaries_extracted example_env "/b/firecracker" "/b/jailer" (mkWorld "" ∅ ∅, []) tt
    (downloadFirecrackerAndJailer example_env "/b/firecracker" "/b/jailer" (mkWorld "" ∅ ∅, [])).2)
    as (entries & [= <-] & Hf & _); [discriminate|vm_compute; reflexivity|exact Hf].
Defined.

End Init.
