(* ===== verification/Cli.v ===== *)
(** * The other commands ([cmd/herd])

    [deploy], [stop], [status] and [logs] are clients of the control plane, here of
    [Daemon.handle] itself: [Wire] has what their requests and the replies are on the wire,
    and [Routes] the handlers that their URLs reach.  [exec] dials a VM's vsock itself;
    [teardown] undoes the bootstrap.  [start] is in [Start]. *)
From stdpp Require Import options.
From S2P Require Import Prelude GoStrings GoNet Registry UidPool Ipam PortMgr Binding Pool ImageStore HostNet StorageBoot Factory Config Lifecycle Service Proxy Daemon Vsock Cloud.
#[local] Open Scope Z_scope.

Module Cli.

(** ** root.go *)

Definition defaultConfig (home : result string string) : string :=
  match home with
  | Ok home => FilepathJoin [home; ".herd"; "herd.yaml"]
  | Err _ => "/etc/herd/herd.yaml"
  end.

(** ** Clients of the control plane *)

Inductive failure :=
  | BadConfig (e : Config.error)
  | BadEnv (e : string)
  | BadBinding (e : Binding.error)
  | Unreachable (e : string)
  | Rejected (status : Z)
  | BadResponse.

(** What becomes of a request: it does not arrive, it is answered, or the answer is lost. *)
Inductive delivery := NotSent (e : string) | Answered | AnswerLost (e : string).

Definition sessions_url (cfg : Config.Config) : string :=
  "http://" +:+ Config.ControlBind (Config.Network cfg) +:+ "/v1/sessions".
Definition session_url (cfg : Config.Config) (sessionID : string) : string :=
  sessions_url cfg +:+ "/" +:+ sessionID.
Definition logs_url (cfg : Config.Config) (sessionID : string) : string := session_url cfg sessionID +:+ "/logs".

(** *** deploy.go *)

Record DeployFlags := mkDeployFlags {
  deployImage : string;
  deployTimeout : Z;
  absoluteDeployTimeout : Z;
  deployCommand : list string;
  deployEnv : list string;
  deployPublish : list string
}.

Fixpoint env_map (l : list string) (m : gmap string string) : result failure (gmap string string) :=
  match l with
  | [] => Ok m
  | e :: l =>
      match Cut "=" e with
      | None => Err (BadEnv e)
      | Some (k, v) => env_map l (<[k := v]> m)
      end
  end.

Definition addr_text (a : Addr) : string :=
  match a with
  | V4 b => IP_String b
  | V6 b zone => if decide (zone = "") then IP_String b else IP_String b +:+ "%" +:+ zone
  end.

Fixpoint port_mappings (l : list string) : result failure (list PortMapping) :=
  match l with
  | [] => Ok []
  | p :: l =>
      match Binding.SanitizeNetworkBindings p with
      | (_, Some e) => Err (BadBinding e)
      | (b, None) =>
          match port_mappings l with
          | Err e => Err e
          | Ok ms => Ok (mkPortMapping (addr_text (Binding.IP b)) (Binding.HostPort b) (Binding.GuestPort b)
                           (Binding.Protocol b) :: ms)
          end
      end
  end.

Definition deploy_request (f : DeployFlags) : result failure Daemon.SessionCreateRequest :=
  match env_map (deployEnv f) ∅ with
  | Err e => Err e
  | Ok env =>
      match port_mappings (deployPublish f) with
      | Err e => Err e
      | Ok mappings =>
          Ok {| Daemon.SessionID := ""; Daemon.rq_Image := deployImage f; Daemon.rq_Command := deployCommand f;
                Daemon.rq_Env := env; Daemon.rq_IdleTimeoutSeconds := deployTimeout f;
                Daemon.rq_TTLSeconds := absoluteDeployTimeout f; Daemon.rq_HealthInterval := ""; Daemon.Warm := false;
                Daemon.rq_VCPUs := 0; Daemon.rq_MemoryMB := 0; Daemon.rq_PortMappings := mappings |}
      end
  end.

Section client.
Context {P : Type} `{SessionPool P}.
Implicit Types ctl : Daemon.Controller (P := P).

(** One request of a command: only the status 200 is taken for success. *)
Definition send (env : Daemon.Env) (d : delivery) (ctl : Daemon.Controller (P := P)) (r : Daemon.request)
    : Daemon.Controller (P := P) * result failure Daemon.reply :=
  match d with
  | NotSent e => (ctl, Err (Unreachable e))
  | AnswerLost e => ((Daemon.handle env ctl r).1, Err (Unreachable e))
  | Answered =>
      let '(ctl, reply) := Daemon.handle env ctl r in
      (ctl, if decide (Daemon.status reply = 200) then Ok reply else Err (Rejected (Daemon.status reply)))
  end.

Definition with_config {A} (cfg : result Config.error Config.Config) (ctl : Daemon.Controller (P := P))
    (k : Config.Config → Daemon.Controller (P := P) * result failure A) : Daemon.Controller (P := P) * result failure A :=
  match cfg with Err e => (ctl, Err (BadConfig e)) | Ok cfg => k cfg end.

Definition deploy env d cfg ctl (f : DeployFlags) : Daemon.Controller (P := P) * result failure Daemon.SessionCreateResponse :=
  with_config cfg ctl (λ _,
    match deploy_request f with
    | Err e => (ctl, Err e)
    | Ok req =>
        match send env d ctl (Daemon.Create (Some (Ok req))) with
        | (ctl, Ok (Daemon.Created resp)) => (ctl, Ok resp)
        | (ctl, Ok _) => (ctl, Err BadResponse)
        | (ctl, Err e) => (ctl, Err e)
        end
    end).

(** *** stop.go, status.go, logs.go *)

Definition stop env d cfg ctl (sessionID : string) : Daemon.Controller (P := P) * result failure unit :=
  with_config cfg ctl (λ _,
    match send env d ctl (Daemon.Delete sessionID) with
    | (ctl, Ok _) => (ctl, Ok tt)
    | (ctl, Err e) => (ctl, Err e)
    end).

(** A row of the table: the session, its times, and its connections. *)
Definition status_row (s : Lifecycle.SessionState) : string * Z * Z * Z :=
  (Lifecycle.SessionID s, Lifecycle.CreatedAt s, Lifecycle.LastControlHeartbeat s, Lifecycle.ActiveConns s).

Definition status env d cfg ctl order encodes : Daemon.Controller (P := P) * result failure (list (string * Z * Z * Z)) :=
  with_config cfg ctl (λ _,
    match send env d ctl (Daemon.List_ order encodes) with
    | (ctl, Ok (Daemon.Listed l)) => (ctl, Ok (status_row <$> l))
    | (ctl, Ok _) => (ctl, Err BadResponse)
    | (ctl, Err e) => (ctl, Err e)
    end).

Definition logs env d cfg ctl (sessionID : string) : Daemon.Controller (P := P) * result failure string :=
  with_config cfg ctl (λ _,
    match send env d ctl (Daemon.Logs sessionID) with
    | (ctl, Ok (Daemon.LogFile content)) => (ctl, Ok content)
    | (ctl, Ok _) => (ctl, Ok "")
    | (ctl, Err e) => (ctl, Err e)
    end).

End client.

(** ** exec.go *)

Definition exec_socket (cfg : Config.Config) (vmID : string) : string :=
  FilepathJoin [Config.ChrootBaseDir (Config.Jailer cfg); "firecracker"; vmID; "root"; "run"; vmID +:+ ".sock"].

Inductive exec_error := ExecConfig (e : Config.error) | ExecDial (e : Vsock.error) | ExecRaw.

(** The connection that the terminal is copied to and from, until one side ends; it is
    closed in every case. *)
Definition runExec (cfg : result Config.error Config.Config) (dial : string → option Vsock.Conn)
    (write_err raw_ok : bool) (vmID : string) : option exec_error * option Vsock.Conn :=
  match cfg with
  | Err e => (Some (ExecConfig e), None)
  | Ok cfg =>
      match Vsock.DialFirecracker (dial (exec_socket cfg vmID)) write_err 5001 with
      | (Err e, c) => (Some (ExecDial e), c)
      | (Ok conn, _) => (if raw_ok then None else Some ExecRaw, Some (Vsock.close conn))
      end
  end.

(** ** teardown.go *)

Section teardown.
Context {S N : Type} `{StorageBoot.Tools S} `{Commands N}.

(** The error that ends the command, and what it leaves. *)
Definition runTeardown (cfg : result Config.error Config.Config) (env : StorageBoot.Env)
    (RouteList : result string (list HostNet.route)) (LinkByIndex : Z → result string string)
    (w : StorageBoot.World (H := S)) (n : N) : option string * StorageBoot.World (H := S) * N :=
  match cfg with
  | Err _ => (Some "load config", w, n)
  | Ok cfg =>
      match StorageBoot.Teardown env w (Config.StateDir (Config.Storage cfg)) with
      | (_ :: _, w) => (Some "teardown storage", w, n)
      | ([], w) =>
          match HostNet.Teardown n RouteList LinkByIndex with
          | (n, Some _) => (Some "teardown nat routing", w, n)
          | (n, None) => (None, w, n)
          end
      end
  end.

End teardown.

(** ** What a deployment asks for *)

(** The tenant's configuration, read off the flags: each [KEY=VALUE] in turn, the last of a
    key counting, and each published port as [SanitizeNetworkBindings] reads it. *)
Definition asks_for (f : DeployFlags) (tc : TenantConfig) : Prop :=
  Image tc = deployImage f ∧ Command tc = deployCommand f ∧
  IdleTimeoutSeconds tc = deployTimeout f ∧ TTLSeconds tc = absoluteDeployTimeout f ∧
  (∃ kvs, Forall2 (λ e kv, Cut "=" e = Some kv) (deployEnv f) kvs ∧ Registry.Env tc = list_to_map (reverse kvs)) ∧
  Forall2 (λ p pm, ∃ b, Binding.SanitizeNetworkBindings p = (b, None) ∧ HostInterface pm = addr_text (Binding.IP b) ∧
    HostPort pm = Binding.HostPort b ∧ GuestPort pm = Binding.GuestPort b ∧ Protocol pm = Binding.Protocol b)
    (deployPublish f) (PortMappings tc).

Lemma env_map_ok l m env :
  env_map l m = Ok env → ∃ kvs, Forall2 (λ e kv, Cut "=" e = Some kv) l kvs ∧ env = list_to_map (reverse kvs) ∪ m.
Proof.
  revert m. induction l as [|e l IH]; intros m E; cbn [env_map] in E.
  { injection E as <-. exists []. split; [constructor|]. cbn. by rewrite map_empty_union. }
  destruct (Cut "=" e) as [[k v]|] eqn:Ec; [|done]. apply IH in E as (kvs & Hl & ->). exists ((k, v) :: kvs).
  split; [by constructor|]. rewrite reverse_cons, list_to_map_app. cbn [list_to_map foldr fst snd].
  rewrite <-map_union_assoc. f_equal. by rewrite insert_empty, insert_union_singleton_l.
Qed.

Lemma port_mappings_ok l pms :
  port_mappings l = Ok pms →
  Forall2 (λ p pm, ∃ b, Binding.SanitizeNetworkBindings p = (b, None) ∧ HostInterface pm = addr_text (Binding.IP b) ∧
    HostPort pm = Binding.HostPort b ∧ GuestPort pm = Binding.GuestPort b ∧ Protocol pm = Binding.Protocol b) l pms.
Proof.
  revert pms. induction l as [|p l IH]; intros pms E; cbn [port_mappings] in E; [injection E as <-; constructor|].
  destruct (Binding.SanitizeNetworkBindings p) as [b [e|]] eqn:Eb; [done|].
  destruct (port_mappings l) as [ms|]; [|done]. injection E as <-. constructor; [by exists b|by apply IH].
Qed.

Lemma deploy_asks f req : deploy_request f = Ok req → asks_for f (Daemon.tenantConfig req).
Proof.
  unfold deploy_request. destruct (env_map (deployEnv f) ∅) as [env|] eqn:Ee; [|done].
  destruct (port_mappings (deployPublish f)) as [pms|] eqn:Ep; [|done]. intros [= <-]. split_and!; try done.
  - apply env_map_ok in Ee as (kvs & Hl & ->). exists kvs. split; [done|]. cbn. by rewrite map_union_empty.
  - by apply port_mappings_ok.
Qed.

(** ** Properties *)

Section client.
Context {P : Type} `{PoolLaws P} (kill_ok : ∀ (p : P) id reason, (KillWorker p id reason).2 = None).
Implicit Types ctl : Daemon.Controller (P := P).

(** A creation that does not warm the image makes one acquisition. *)
Lemma create_acquires env ctl req ctl1 resp :
  Daemon.Warm req = false → Daemon.SessionID req = "" → Daemon.CreateSession env ctl req = (ctl1, Ok resp) →
  ∃ w, AcquireSession (Daemon.pool ctl) (Daemon.uuid env) (Daemon.tenantConfig req) = (Daemon.pool ctl1, Ok w).
Proof using Type.
  intros Hw Hs. unfold Daemon.CreateSession, Daemon.acquire_and_register. rewrite Hw, decide_True by done. cbv zeta.
  change (Daemon.pool (Daemon.on_pool _ _)) with (Daemon.pool ctl).
  destruct (AcquireSession _ _ _) as [p [w|e]]; [|done]. intros [= <- _]. by exists w.
Qed.

(** [C32] [herd deploy] and [herd stop] are inverse, for a pool whose [KillWorker] reports no
    error and a session identifier that is new.  A deployment that is reported has made one
    acquisition, of the session that the reply names, with the image, the command, the
    environment, the times and the ports that the flags say, one by one; it has created the
    session; and stopping that session succeeds and brings back the sessions and the leases
    of before. *)
Theorem deploy_then_stop env cfg ctl f ctl1 resp :
  Daemon.uuid env ≠ "" → live (Daemon.pool ctl) !! Daemon.uuid env = None →
  Lifecycle.registry (Daemon.lifecycleManager ctl) !! Daemon.uuid env = None →
  deploy env Answered (Ok cfg) ctl f = (ctl1, Ok resp) →
  (∃ tc w, asks_for f tc ∧ AcquireSession (Daemon.pool ctl) (Daemon.uuid env) tc = (Daemon.pool ctl1, Ok w) ∧
    live (Daemon.pool ctl1) !! Daemon.uuid env = Some w) ∧
  Daemon.rs_SessionID resp = Daemon.uuid env ∧
  let r := stop env Answered (Ok cfg) ctl1 (Daemon.rs_SessionID resp) in
  r.2 = Ok tt ∧ live (Daemon.pool r.1) = live (Daemon.pool ctl) ∧
  Lifecycle.registry (Daemon.lifecycleManager r.1) = Lifecycle.registry (Daemon.lifecycleManager ctl).
Proof using H0 kill_ok.
  intros Hu Hlive Hreg. unfold deploy, with_config. destruct (deploy_request f) as [req|] eqn:Er; [|done].
  unfold send. cbn [Daemon.handle]. unfold Daemon.handleCreateSession. case_decide; [done|].
  destruct (Daemon.CreateSession env ctl req) as [c r] eqn:Ec. destruct r as [rs|]; [|done]. simpl. intros [= -> ->].
  assert (Daemon.SessionID req = "" ∧ Daemon.Warm req = false) as [Hsid Hwarm].
  { unfold deploy_request in Er. repeat case_match; by simplify_eq/=. }
  pose proof Ec as Hc%Daemon.create_cases. cbv zeta in Hc. rewrite Hsid, decide_True in Hc by done.
  destruct Hc as (w' & _ & _ & _ & _ & Hresp & _). assert (Daemon.rs_SessionID resp = Daemon.uuid env) as Hid by by rewrite Hresp.
  split_and!; [|done|..].
  { destruct (create_acquires env ctl req ctl1 resp Hwarm Hsid Ec) as [w Hw]. exists (Daemon.tenantConfig req), w.
    split_and!; [by apply deploy_asks|done|]. pose proof (acquire_law (Daemon.pool ctl) (Daemon.uuid env) (Daemon.tenantConfig req)) as Ha.
    rewrite Hw in Ha. destruct Ha as [[Ha _]|[_ Ha]]; [congruence|]. by rewrite Ha, lookup_insert_eq. }
  all: rewrite <-Hid in Hlive, Hreg;
    destruct (Daemon.delete_created kill_ok env ctl req ctl1 resp "api_requested" Ec Hlive Hreg) as (He & Hl & Hr & _);
    unfold stop, with_config, send; cbn [Daemon.handle]; rewrite decide_False by (by rewrite Hid);
    destruct (Daemon.DeleteSession ctl1 _ _) as [c2 e]; simpl in He, Hl, Hr |- *; subst e; done.
Qed.

End client.

(** A published port without the interface: what a flag [8080:80] asks for. *)
Lemma deploy_published :
  port_mappings ["8080:80"; "127.0.0.1:53:53/udp"; ":443"] =
    Ok [mkPortMapping "0.0.0.0" 8080 80 "tcp"; mkPortMapping "127.0.0.1" 53 53 "udp"; mkPortMapping "0.0.0.0" 0 443 "tcp"].
Proof. vm_compute. reflexivity. Qed.

(** The socket that [exec] dials is not the one that the factory configures. *)
Lemma exec_wrong_socket cfg :
  Config.ChrootBaseDir (Config.Jailer cfg) = "/srv/jailer" →
  exec_socket cfg "vm-1" = "/srv/jailer/firecracker/vm-1/root/run/vm-1.sock" ∧
  FilepathJoin [Factory.chrootRoot (Factory.mkFirecrackerFactory "" "" "" "" "/srv/jailer") "vm-1"; "run"; "v.sock"] =
    "/srv/jailer/firecracker/vm-1/root/run/v.sock".
Proof. intros E. unfold exec_socket. rewrite E. vm_compute. done. Qed.

(** ** Witnesses *)

Definition example_config : Config.Config := Config.applyDefaults "" Config.demo.

#[local] Existing Instances ImageStore.store_ops Daemon.safe_pool Daemon.safe_pool_laws.

Definition example_deploy : DeployFlags :=
  mkDeployFlags "alpine" 60 0 ["/bin/sh"; "-c"; "sleep 5"] ["A=1"; "B=x=y"; "A=2"] ["8080:80"].

Lemma deploy_then_stop_witness :
  live (Daemon.pool (stop Daemon.demo_env Answered (Ok example_config)
    (deploy Daemon.demo_env Answered (Ok example_config) (Daemon.start (Daemon.mkSafePool ∅)) example_deploy).1 "3f2c").1) = ∅.
Proof.
  destruct (deploy Daemon.demo_env Answered (Ok example_config) (Daemon.start (Daemon.mkSafePool ∅)) example_deploy)
    as [ctl1 [resp|]] eqn:E; [|vm_compute in E; discriminate E].
  pose proof (deploy_then_stop (P := Daemon.SafePool) (λ _ _ _, eq_refl) Daemon.demo_env example_config
    (Daemon.start (Daemon.mkSafePool ∅)) example_deploy ctl1 resp) as H.
  destruct (H ltac:(discriminate) eq_refl eq_refl E) as (_ & Hid & _ & Hl & _).
  rewrite Hid in Hl. exact Hl.
Defined.

End Cli.
