(* ===== verification/Wire.v ===== *)
(** * What is on the wire: the JSON of the control plane

    The bodies that [cmd/herd] sends and [internal/daemon] decodes, and the replies, as
    texts.  Decoding into a struct follows [encoding/json]: keys are matched without regard
    to case, unknown ones are skipped, null changes nothing, and a key that comes twice is
    decoded into what the first one left. *)
From stdpp Require Import options.
From S2P Require Import Prelude GoStrings GoNet GoJson Json Registry Binding Lifecycle Service Daemon Telemetry Config Cli.
#[local] Open Scope Z_scope.

Module Wire.

(** ** Decoding into Go values *)

Definition upper_char (c : ascii) : ascii :=
  if (97 <=? code c) && (code c <=? 122) then Ascii.ascii_of_N (Ascii.N_of_ascii c - 32) else c.

(** [foldName]: ASCII letters are made upper case, and so are the long s and the Kelvin
    sign, whose simple folding is a letter; no other rune can match a field of herd's. *)
Fixpoint fold_name (s : string) : string :=
  match s with
  | String a ((String b r) as s1) =>
      if decide (a = byte 197 ∧ b = byte 191) then String "S" (fold_name r)
      else match r with
           | String c r' =>
               if decide (a = byte 226 ∧ b = byte 132 ∧ c = byte 170) then String "K" (fold_name r')
               else String (upper_char a) (fold_name s1)
           | EmptyString => String (upper_char a) (fold_name s1)
           end
  | String a EmptyString => String (upper_char a) ""
  | EmptyString => ""
  end.

(** The fields of a struct: a name, and how its value is stored. *)
Definition field (A : Type) : Type := string * (A → json → option A).

Definition find_field {A} (fields : list (field A)) (key : string) : option (field A) :=
  find (λ f, bool_decide (fold_name f.1 = fold_name key)) fields.

Definition read_member {A} (fields : list (field A)) (a : option A) (kv : string * json) : option A :=
  a ← a; match find_field fields kv.1 with Some f => f.2 a kv.2 | None => Some a end.

Definition read_struct {A} (fields : list (field A)) (a : A) (v : json) : option A :=
  match v with JNull => Some a | JObject l => foldl (read_member fields) (Some a) l | _ => None end.

Definition read_str (old : string) (v : json) : option string :=
  match v with JString s => Some s | JNull => Some old | _ => None end.

Definition read_int (old : Z) (v : json) : option Z :=
  match v with
  | JNumber l => match ParseInt l with (z, None) => Some z | (_, Some _) => None end
  | JNull => Some old
  | _ => None
  end.

Definition read_bool (old : bool) (v : json) : option bool :=
  match v with JBool b => Some b | JNull => Some old | _ => None end.

(** A [map[string]string]. *)
Definition read_map (old : gmap string string) (v : json) : option (gmap string string) :=
  match v with
  | JNull => Some ∅
  | JObject l => foldl (λ m kv, m ← m; s ← read_str "" kv.2; Some (<[kv.1 := s]> m)) (Some old) l
  | _ => None
  end.

(** A slice is what it holds and what its array holds behind that, which a later value for
    the same field finds there. *)
Section slice.
Context {A : Type} (zero : A) (item : A → json → option A).

Fixpoint read_slots (slots : list A) (l : list json) : option (list A) :=
  match l with
  | [] => Some []
  | v :: l => a ← item (default zero (head slots)) v; rest ← read_slots (tail slots) l; Some (a :: rest)
  end.

Definition read_slice (s : list A * list A) (v : json) : option (list A * list A) :=
  match v with
  | JNull | JArray [] => Some ([], [])
  | JArray l => items ← read_slots (s.1 ++ s.2) l; Some (items, drop (length items) (s.1 ++ s.2))
  | _ => None
  end.

End slice.

(** [json.NewDecoder(body).Decode(&v)]. *)
Definition decode_text {A} (f : json → option A) (body : string) : result string A :=
  match read_json body with
  | None => Err "no JSON value"
  | Some (v, _) => match f v with Some a => Ok a | None => Err "cannot unmarshal" end
  end.

(** ** Requests *)

Definition mapping_fields : list (field PortMapping) :=
  [("host_interface", λ p v, x ← read_str (HostInterface p) v; Some (mkPortMapping x (HostPort p) (GuestPort p) (Protocol p)));
   ("host_port", λ p v, x ← read_int (HostPort p) v; Some (mkPortMapping (HostInterface p) x (GuestPort p) (Protocol p)));
   ("guest_port", λ p v, x ← read_int (GuestPort p) v; Some (mkPortMapping (HostInterface p) (HostPort p) x (Protocol p)));
   ("protocol", λ p v, x ← read_str (Protocol p) v; Some (mkPortMapping (HostInterface p) (HostPort p) (GuestPort p) x))].

Definition no_mapping : PortMapping := mkPortMapping "" 0 0 "".

Definition read_mapping : PortMapping → json → option PortMapping := read_struct mapping_fields.

(** The request while it is decoded: what is behind its two slices comes with them. *)
Record Draft := mkDraft {
  d_SessionID : string; d_Image : string; d_Command : list string * list string; d_Env : gmap string string;
  d_Idle : Z; d_TTL : Z; d_Health : string; d_Warm : bool; d_VCPUs : Z; d_Memory : Z;
  d_Mappings : list PortMapping * list PortMapping
}.

Definition no_draft : Draft := mkDraft "" "" ([], []) ∅ 0 0 "" false 0 0 ([], []).

Definition request_of (d : Draft) : Daemon.SessionCreateRequest :=
  Daemon.mkRequest (d_SessionID d) (d_Image d) (d_Command d).1 (d_Env d) (d_Idle d) (d_TTL d) (d_Health d)
    (d_Warm d) (d_VCPUs d) (d_Memory d) (d_Mappings d).1.

Definition create_fields : list (field Draft) :=
  [("session_id", λ '(mkDraft s i c e n t h w p m l) v, s ← read_str s v; Some (mkDraft s i c e n t h w p m l));
   ("image", λ '(mkDraft s i c e n t h w p m l) v, i ← read_str i v; Some (mkDraft s i c e n t h w p m l));
   ("command", λ '(mkDraft s i c e n t h w p m l) v, c ← read_slice "" read_str c v; Some (mkDraft s i c e n t h w p m l));
   ("env", λ '(mkDraft s i c e n t h w p m l) v, e ← read_map e v; Some (mkDraft s i c e n t h w p m l));
   ("idle_timeout_seconds", λ '(mkDraft s i c e n t h w p m l) v, n ← read_int n v; Some (mkDraft s i c e n t h w p m l));
   ("ttl_seconds", λ '(mkDraft s i c e n t h w p m l) v, t ← read_int t v; Some (mkDraft s i c e n t h w p m l));
   ("health_interval", λ '(mkDraft s i c e n t h w p m l) v, h ← read_str h v; Some (mkDraft s i c e n t h w p m l));
   ("warm", λ '(mkDraft s i c e n t h w p m l) v, w ← read_bool w v; Some (mkDraft s i c e n t h w p m l));
   ("vcpus", λ '(mkDraft s i c e n t h w p m l) v, p ← read_int p v; Some (mkDraft s i c e n t h w p m l));
   ("memory_mb", λ '(mkDraft s i c e n t h w p m l) v, m ← read_int m v; Some (mkDraft s i c e n t h w p m l));
   ("port_mappings", λ '(mkDraft s i c e n t h w p m l) v,
      l ← read_slice no_mapping read_mapping l v; Some (mkDraft s i c e n t h w p m l))].

Definition decode_create (v : json) : option Daemon.SessionCreateRequest :=
  request_of <$> read_struct create_fields no_draft v.

(** [handleCreateSession] and [handleWarmImage], from the body on. *)
Definition create_request (body : string) : Daemon.request := Daemon.Create (Some (decode_text decode_create body)).

Definition decode_warm (v : json) : option string := read_struct [("image", read_str)] "" v.

Definition warm_request (body : string) : Daemon.request := Daemon.WarmUp (decode_text decode_warm body).

(** What [herd deploy] sends: maps, whose keys [encoding/json] sorts. *)
Definition sorted_object (m : gmap string json) : json :=
  JObject ((λ k, (k, default JNull (m !! k))) <$> Telemetry.Strings (elements (dom m))).

Definition env_value (env : gmap string string) : json := sorted_object (JString <$> env).

Definition mapping_value (p : PortMapping) : json :=
  sorted_object {["host_interface" := JString (HostInterface p); "protocol" := JString (Protocol p);
                  "host_port" := JInt (HostPort p); "guest_port" := JInt (GuestPort p)]}.

Definition deploy_value (f : Cli.DeployFlags) : result Cli.failure json :=
  match Cli.env_map (Cli.deployEnv f) ∅ with
  | Err e => Err e
  | Ok env =>
      match Cli.port_mappings (Cli.deployPublish f) with
      | Err e => Err e
      | Ok mappings =>
          let req := {["image" := JString (Cli.deployImage f); "idle_timeout_seconds" := JInt (Cli.deployTimeout f);
                       "ttl_seconds" := JInt (Cli.absoluteDeployTimeout f)]} : gmap string json in
          let req := if negb (bool_decide (Cli.deployCommand f = []))
                     then <["command" := JArray (JString <$> Cli.deployCommand f)]> req else req in
          let req := if negb (bool_decide (Cli.deployEnv f = [])) then <["env" := env_value env]> req else req in
          let req := if negb (bool_decide (Cli.deployPublish f = []))
                     then <["port_mappings" := JArray (mapping_value <$> mappings)]> req else req in
          Ok (sorted_object req)
      end
  end.

(** ** Replies *)

Definition mapping_reply (p : PortMapping) : json :=
  JObject [("host_interface", JString (HostInterface p)); ("host_port", JInt (HostPort p));
           ("guest_port", JInt (GuestPort p)); ("protocol", JString (Protocol p))].

Definition response_value (r : Daemon.SessionCreateResponse) : json :=
  JObject ([("session_id", JString (Daemon.rs_SessionID r)); ("internal_ip", JString (Daemon.InternalIP r));
            ("proxy_address", JString (Daemon.ProxyAddress r))] ++
           if decide (Daemon.rs_PortMappings r = []) then []
           else [("port_mappings", JArray (mapping_reply <$> Daemon.rs_PortMappings r))]).

(** A session in a list; [ftime] is [time.Time]'s own encoding.  The mappings that a worker
    of the factory reports are never the nil slice, which would be [null]. *)
Definition state_value (ftime : Z → string) (s : Lifecycle.SessionState) : json :=
  JObject [("session_id", JString (Lifecycle.SessionID s)); ("created_at", JString (ftime (Lifecycle.CreatedAt s)));
           ("last_control_heartbeat", JString (ftime (Lifecycle.LastControlHeartbeat s)));
           ("last_data_activity", JString (ftime (Lifecycle.LastDataActivity s)));
           ("active_conns", JInt (Lifecycle.ActiveConns s)); ("idle_ttl", JInt (Lifecycle.IdleTTL s));
           ("absolute_ttl", JInt (Lifecycle.AbsoluteTTL s));
           ("port_mappings", JArray (mapping_reply <$> Lifecycle.PortMappings s))].

(** *** What the commands make of a reply *)

(** The value of a key of a [map[string]any]: that of its last occurrence. *)
Definition any (key : string) (v : json) : option json :=
  match v with JObject l => (list_to_map (rev l) : gmap string json) !! key | _ => None end.

(** The verb [%v]; [other] prints numbers, as the float64 that they have become, and
    composite values. *)
Definition show (other : json → string) (v : option json) : string :=
  match v with
  | None | Some JNull => "<nil>"
  | Some (JString s) => s
  | Some (JBool true) => "true"
  | Some (JBool false) => "false"
  | Some v => other v
  end.

Definition mapping_line (other : json → string) (m : json) : string :=
  let at_ := match any "host_interface" m with
             | None | Some JNull => "0.0.0.0"
             | v => show other v
             end in
  "  " +:+ at_ +:+ ":" +:+ show other (any "host_port" m) +:+ " -> VM:" +:+ show other (any "guest_port" m) +:+ "/" +:+
  show other (any "protocol" m).

(** The lines that [herd deploy] prints. *)
Definition deploy_lines (other : json → string) (v : json) : list string :=
  ["Successfully deployed MicroVM!"; "Session ID: " +:+ show other (any "session_id" v);
   "Internal IP: " +:+ show other (any "internal_ip" v); "Proxy URL: " +:+ show other (any "proxy_address" v)] ++
  match any "port_mappings" v with
  | Some (JArray (m :: ms)) =>
      "Port Mappings:" :: omap (λ m, match m with JObject _ => Some (mapping_line other m) | _ => None end) (m :: ms)
  | _ => []
  end.

(** [SessionStatus]; [ptime] is [time.Time]'s own decoding. *)
Record SessionStatus := mkStatus { st_SessionID : string; st_CreatedAt : Z; st_Heartbeat : Z; st_ActiveConns : Z }.

Definition read_time (ptime : string → option Z) (old : Z) (v : json) : option Z :=
  match v with JString s => ptime s | JNull => Some old | _ => None end.

Definition status_fields (ptime : string → option Z) : list (field SessionStatus) :=
  [("session_id", λ '(mkStatus s c h a) v, s ← read_str s v; Some (mkStatus s c h a));
   ("created_at", λ '(mkStatus s c h a) v, c ← read_time ptime c v; Some (mkStatus s c h a));
   ("last_control_heartbeat", λ '(mkStatus s c h a) v, h ← read_time ptime h v; Some (mkStatus s c h a));
   ("active_conns", λ '(mkStatus s c h a) v, a ← read_int a v; Some (mkStatus s c h a))].

Definition decode_statuses (ptime : string → option Z) (v : json) : option (list SessionStatus) :=
  fst <$> read_slice (mkStatus "" 0 0 0) (read_struct (status_fields ptime)) ([], []) v.

(** *** A deployment and a status, as texts *)

Section client.
Context {P : Type} `{SessionPool P}.
Implicit Types ctl : Daemon.Controller (P := P).

(** The body of a reply: [json.Encoder] ends it with a newline. *)
Definition reply_body (r : Daemon.SessionCreateResponse) : string := print (response_value r) +:+ String "010" "".

Definition deploy (env : Daemon.Env) (other : json → string) (ctl : Daemon.Controller (P := P)) (f : Cli.DeployFlags)
    : Daemon.Controller (P := P) * result Cli.failure (list string) :=
  match deploy_value f with
  | Err e => (ctl, Err e)
  | Ok body =>
      match Daemon.handle env ctl (create_request (print body)) with
      | (ctl, Daemon.Created resp) =>
          match read_json (reply_body resp) with
          | Some (v, _) => (ctl, Ok (deploy_lines other v))
          | None => (ctl, Err Cli.BadResponse)
          end
      | (ctl, reply) => (ctl, Err (Cli.Rejected (Daemon.status reply)))
      end
  end.

Definition status (ftime : Z → string) (ptime : string → option Z) (ctl : Daemon.Controller (P := P))
    (order : list (string * nat)) : option (list SessionStatus) :=
  '(v, _) ← read_json (print (JArray (state_value ftime <$> Daemon.ListSessions ctl order)));
  decode_statuses ptime v.

End client.

(** ** Lemmas *)

Lemma deploy_object (i n t c e p : json) (b1 b2 b3 : bool) :
  sorted_object (let req := {["image" := i; "idle_timeout_seconds" := n; "ttl_seconds" := t]} : gmap string json in
    let req := if b1 then <["command" := c]> req else req in
    let req := if b2 then <["env" := e]> req else req in
    if b3 then <["port_mappings" := p]> req else req) =
  JObject ((if b1 then [("command", c)] else []) ++ (if b2 then [("env", e)] else []) ++
    [("idle_timeout_seconds", n); ("image", i)] ++ (if b3 then [("port_mappings", p)] else []) ++ [("ttl_seconds", t)]).
Proof. destruct b1, b2, b3; vm_compute; reflexivity. Qed.

Lemma mapping_object (i p h g : json) :
  sorted_object {["host_interface" := i; "protocol" := p; "host_port" := h; "guest_port" := g]} =
  JObject [("guest_port", g); ("host_interface", i); ("host_port", h); ("protocol", p)].
Proof. vm_compute. reflexivity. Qed.

Lemma read_member_at {A} (fields : list (field A)) f key a v :
  find_field fields key = Some f → read_member fields (Some a) (key, v) = f.2 a v.
Proof. intros E. unfold read_member. cbn. by rewrite E. Qed.

Lemma read_int_print old z : in_int64 z → read_int old (JInt z) = Some z.
Proof. intros Hz. unfold read_int, JInt. by rewrite ParseInt_print. Qed.

Lemma read_member_unknown {A} (fields : list (field A)) key a v :
  find_field fields key = None → read_member fields (Some a) (key, v) = Some a.
Proof. intros E. unfold read_member. cbn. by rewrite E. Qed.

(** Decoding of one member after the other, under keys that are known. *)
Ltac read_members_ :=
  cbn [foldl]; repeat (erewrite read_member_at by reflexivity; cbn [fst snd mbind option_bind read_str read_bool];
    try rewrite read_int_print by done; cbn [mbind option_bind]).

Definition valid_mapping (p : PortMapping) : Prop :=
  valid_utf8 (HostInterface p) = true ∧ valid_utf8 (Protocol p) = true ∧ in_int64 (HostPort p) ∧ in_int64 (GuestPort p).

Lemma read_mapping_value old p : valid_mapping p → read_mapping old (mapping_value p) = Some p.
Proof.
  intros (_ & _ & Hh & Hg). unfold mapping_value. rewrite mapping_object. unfold read_mapping, read_struct.
  read_members_. by destruct p.
Qed.

(** A slice whose items decode whatever their slots held. *)
Lemma read_slots_all {A B} (zero : A) item (f : B → A) (enc : B → json) (l : list B) slots :
  Forall (λ b, ∀ old, item old (enc b) = Some (f b)) l → read_slots zero item slots (enc <$> l) = Some (f <$> l).
Proof.
  intros Hl. revert slots. induction Hl as [|b l Hb _ IH]; intros slots; [done|].
  cbn [fmap list_fmap read_slots]. rewrite Hb. cbn [mbind option_bind]. by rewrite IH.
Qed.

Lemma read_slice_all {A B} (zero : A) item (f : B → A) (enc : B → json) (l : list B) :
  Forall (λ b, ∀ old, item old (enc b) = Some (f b)) l →
  fst <$> read_slice zero item ([], []) (JArray (enc <$> l)) = Some (f <$> l) ∧
  ∃ h, read_slice zero item ([], []) (JArray (enc <$> l)) = Some (f <$> l, h).
Proof.
  intros Hl. pose proof (read_slots_all zero item f enc l ([] ++ []) Hl) as Hs.
  destruct l as [|b l]; [by split; [|eexists]|]. unfold read_slice. cbn [fmap list_fmap fst snd] in *.
  rewrite Hs. cbn [mbind option_bind]. by split; [|eexists].
Qed.

(** An object made of a map of strings is decoded as that map. *)
Lemma read_map_keys (env : gmap string string) ks (m : gmap string string) :
  foldl (λ m kv, m ← m; s ← read_str "" kv.2; Some (<[kv.1 := s]> m)) (Some m)
    ((λ k, (k, default JNull ((JString <$> env) !! k))) <$> ks) =
  Some (foldl (λ m k, <[k := default "" (env !! k)]> m) m ks) ∧
  ∀ k, foldl (λ m k, <[k := default "" (env !! k)]> m) m ks !! k =
    if decide (k ∈ ks) then Some (default "" (env !! k)) else (m : gmap string string) !! k.
Proof.
  revert m. induction ks as [|k ks IH]; intros m; [by split|]. cbn [fmap list_fmap foldl fst snd mbind option_bind].
  assert (read_str "" (default JNull ((JString <$> env) !! k)) = Some (default "" (env !! k))) as ->
    by (rewrite lookup_fmap; by destruct (env !! k)).
  cbn [option_bind]. destruct (IH (<[k := default "" (env !! k)]> m)) as [E Hk]. split; [exact E|].
  intros k'. rewrite Hk. destruct (decide (k' ∈ ks)) as [Hin|Hin].
  - rewrite decide_True; [done|by right].
  - destruct (decide (k = k')) as [->|Hne].
    + rewrite lookup_insert_eq, decide_True; [done|by left].
    + rewrite lookup_insert_ne, decide_False; [done| |done]. intros [->|?]%elem_of_cons; done.
Qed.

Lemma read_env env : read_map ∅ (env_value env) = Some env.
Proof.
  unfold env_value, sorted_object, read_map. set (ks := Telemetry.Strings _).
  destruct (read_map_keys env ks ∅) as [-> Hk]. f_equal. apply map_eq. intros k. rewrite Hk.
  assert (k ∈ ks ↔ is_Some (env !! k)) as Hin.
  { unfold ks. rewrite Telemetry.Strings_perm, elem_of_elements, dom_fmap_L. apply elem_of_dom. }
  destruct (decide (k ∈ ks)) as [[s Hs]%Hin|Hno]; [by rewrite Hs|].
  rewrite lookup_empty. destruct (env !! k) eqn:E; [|done]. destruct Hno. apply Hin. by eexists.
Qed.

(** *** What is printed *)

Lemma printable_array {A} (enc : A → json) (l : list A) :
  Forall (λ a, printable (enc a) = true) l → printable (JArray (enc <$> l)) = true.
Proof. induction 1 as [|a l Ha _ IH]; [done|]. cbn in *. by rewrite Ha, IH. Qed.

Lemma printable_sorted (m : gmap string json) :
  (∀ k j, m !! k = Some j → valid_utf8 k = true ∧ printable j = true) → printable (sorted_object m) = true.
Proof.
  intros H. unfold sorted_object. cbn [printable]. apply forallb_forall. intros [k j] Hin%list_elem_of_In.
  apply list_elem_of_fmap in Hin as (k' & [= <- ->] & Hk).
  rewrite Telemetry.Strings_perm, elem_of_elements, elem_of_dom in Hk. destruct Hk as [j Hj].
  destruct (H k j Hj) as [H1 H2]. cbn [fst snd]. by rewrite Hj, H1; cbn [default andb].
Qed.

Lemma printable_mapping p : valid_mapping p → printable (mapping_value p) = true ∧ printable (mapping_reply p) = true.
Proof.
  intros (H1 & H2 & H3 & H4). split.
  - unfold mapping_value. rewrite mapping_object. cbn [printable forallb fst snd]. by rewrite H1, H2, !printable_int.
  - cbn [mapping_reply printable forallb fst snd]. by rewrite H1, H2, !printable_int.
Qed.

Record valid_request (r : Daemon.SessionCreateRequest) : Prop := {
  vr_image : valid_utf8 (Daemon.rq_Image r) = true;
  vr_command : Forall (λ s, valid_utf8 s = true) (Daemon.rq_Command r);
  vr_env k s : Daemon.rq_Env r !! k = Some s → valid_utf8 k = true ∧ valid_utf8 s = true;
  vr_idle : in_int64 (Daemon.rq_IdleTimeoutSeconds r);
  vr_ttl : in_int64 (Daemon.rq_TTLSeconds r);
  vr_mappings : Forall valid_mapping (Daemon.rq_PortMappings r)
}.

Lemma deploy_printable f req v :
  Cli.deploy_request f = Ok req → deploy_value f = Ok v → valid_request req →
  printable v = true ∧ decode_create v = Some req ∧ ∃ l, v = JObject l.
Proof.
  unfold Cli.deploy_request, deploy_value. destruct (Cli.env_map (Cli.deployEnv f) ∅) as [env|] eqn:Eenv; [|done].
  destruct (Cli.port_mappings (Cli.deployPublish f)) as [ms|] eqn:Ems; [|done].
  intros [= <-] [= <-] [Hi Hc He Hid Ht Hm]. cbn [Daemon.rq_Image Daemon.rq_Command Daemon.rq_Env Daemon.rq_IdleTimeoutSeconds Daemon.rq_TTLSeconds Daemon.rq_PortMappings] in *.
  rewrite deploy_object.
  destruct (read_slice_all "" read_str Datatypes.id JString (Cli.deployCommand f)) as [_ [hc Ec]]; [by apply Forall_true|].
  destruct (read_slice_all no_mapping read_mapping Datatypes.id mapping_value ms) as [_ [hm Em]];
    [eapply Forall_impl; [exact Hm|]; intros; by apply read_mapping_value|].
  rewrite !list_fmap_id in Ec. rewrite list_fmap_id in Em.
  split; [|split; [|by eexists]].
  - assert (printable (JArray (JString <$> Cli.deployCommand f)) = true) as P1 by by apply printable_array.
    assert (printable (env_value env) = true) as P2.
    { apply printable_sorted. intros k j. rewrite lookup_fmap. destruct (env !! k) as [x|] eqn:Ek; [|done].
      intros [= <-]. by apply He. }
    assert (printable (JArray (mapping_value <$> ms)) = true) as P3.
    { apply printable_array. eapply Forall_impl; [exact Hm|]. intros p Hp. by destruct (printable_mapping p Hp). }
    pose proof (printable_int _ Hid) as P4. pose proof (printable_int _ Ht) as P5.
    unfold JInt in *. cbn [printable] in P1, P3, P4, P5.
    destruct (negb _), (negb _), (negb _); cbn [printable forallb app fst snd]; by rewrite ?P1, ?P2, ?P3, ?P4, ?P5, Hi.
  - unfold decode_create, read_struct.
    destruct (bool_decide (Cli.deployCommand f = [])) eqn:B1, (bool_decide (Cli.deployEnv f = [])) eqn:B2,
      (bool_decide (Cli.deployPublish f = [])) eqn:B3; cbn [negb app foldl];
    repeat (erewrite read_member_at by reflexivity; cbn [fst snd mbind option_bind read_str no_draft];
      rewrite ?read_int_print, ?Ec, ?Em, ?read_env by done; cbn [mbind option_bind]);
    try apply bool_decide_eq_true in B1; try apply bool_decide_eq_true in B2; try apply bool_decide_eq_true in B3;
    cbn [request_of fmap option_fmap option_map d_SessionID d_Image d_Command d_Env d_Idle d_TTL d_Health d_Warm d_VCPUs d_Memory d_Mappings fst snd];
    try (rewrite B1); try (rewrite B2 in Eenv; injection Eenv as <-); try (rewrite B3 in Ems; injection Ems as <-); done.
Qed.

Definition valid_response (r : Daemon.SessionCreateResponse) : Prop :=
  valid_utf8 (Daemon.rs_SessionID r) = true ∧ valid_utf8 (Daemon.InternalIP r) = true ∧
  valid_utf8 (Daemon.ProxyAddress r) = true ∧ Forall valid_mapping (Daemon.rs_PortMappings r).

Lemma printable_response r : valid_response r → printable (response_value r) = true.
Proof.
  intros (H1 & H2 & H3 & Hm). unfold response_value.
  assert (printable (JArray (mapping_reply <$> Daemon.rs_PortMappings r)) = true) as P.
  { apply printable_array. eapply Forall_impl; [exact Hm|]. intros p Hp. by destruct (printable_mapping p Hp). }
  cbn [printable] in P. case_decide; cbn [app printable forallb fst snd]; by rewrite H1, H2, H3, ?P.
Qed.

(** The lines of a deployment, without JSON. *)
Definition port_line (p : PortMapping) : string :=
  "  " +:+ HostInterface p +:+ ":" +:+ Itoa (HostPort p) +:+ " -> VM:" +:+ Itoa (GuestPort p) +:+ "/" +:+ Protocol p.

Definition response_lines (r : Daemon.SessionCreateResponse) : list string :=
  ["Successfully deployed MicroVM!"; "Session ID: " +:+ Daemon.rs_SessionID r;
   "Internal IP: " +:+ Daemon.InternalIP r; "Proxy URL: " +:+ Daemon.ProxyAddress r] ++
  (if decide (Daemon.rs_PortMappings r = []) then [] else "Port Mappings:" :: (port_line <$> Daemon.rs_PortMappings r)).

Lemma any_response (s i a p : json) (b : bool) :
  let v := JObject ([("session_id", s); ("internal_ip", i); ("proxy_address", a)] ++
    (if b then [] else [("port_mappings", p)])) in
  any "session_id" v = Some s ∧ any "internal_ip" v = Some i ∧ any "proxy_address" v = Some a ∧
  any "port_mappings" v = if b then None else Some p.
Proof. destruct b; vm_compute; done. Qed.

Lemma any_mapping (i h g p : json) :
  let v := JObject [("host_interface", i); ("host_port", h); ("guest_port", g); ("protocol", p)] in
  any "host_interface" v = Some i ∧ any "host_port" v = Some h ∧ any "guest_port" v = Some g ∧ any "protocol" v = Some p.
Proof. vm_compute. done. Qed.

Section floats.
Context (other : json → string) (Hother : ∀ z, 0 ≤ z ≤ 65535 → other (JInt z) = Itoa z).
Definition small_ports (p : PortMapping) : Prop := 0 ≤ HostPort p ≤ 65535 ∧ 0 ≤ GuestPort p ≤ 65535.

Lemma mapping_line_reply p : small_ports p → mapping_line other (mapping_reply p) = port_line p.
Proof using Hother.
  intros [H1 H2]. unfold mapping_line, mapping_reply.
  destruct (any_mapping (JString (HostInterface p)) (JInt (HostPort p)) (JInt (GuestPort p)) (JString (Protocol p))) as (-> & -> & -> & ->).
  cbn [show]. unfold JInt in *. by rewrite !Hother.
Qed.

Lemma response_shown r :
  Forall small_ports (Daemon.rs_PortMappings r) → deploy_lines other (response_value r) = response_lines r.
Proof using Hother.
  intros Hm. unfold deploy_lines, response_value, response_lines.
  pose proof (any_response (JString (Daemon.rs_SessionID r)) (JString (Daemon.InternalIP r)) (JString (Daemon.ProxyAddress r))
    (JArray (mapping_reply <$> Daemon.rs_PortMappings r))) as Ha. case_decide as E.
  - specialize (Ha true) as (-> & -> & -> & ->). done.
  - specialize (Ha false) as (-> & -> & -> & ->). cbn [show]. f_equal.
    assert (omap (λ m, match m with JObject _ => Some (mapping_line other m) | _ => None end)
      (mapping_reply <$> Daemon.rs_PortMappings r) = port_line <$> Daemon.rs_PortMappings r) as Ho.
    { clear E. induction Hm as [|p ps Hp _ IH]; [done|]. cbn [fmap list_fmap]. rewrite <-IH, <-mapping_line_reply by done. done. }
    destruct (Daemon.rs_PortMappings r) as [|p ps]; [done|]. cbn [fmap list_fmap] in *. by rewrite Ho.
Qed.

End floats.

Lemma deploy_value_ok f e req : deploy_value f = Err e → Cli.deploy_request f = Ok req → False.
Proof.
  unfold deploy_value, Cli.deploy_request. destruct (Cli.env_map _ _); [|done]. by destruct (Cli.port_mappings _).
Qed.

(** The replies to a creation. *)
Lemma created_replies {P} `{SessionPool P} env (ctl ctl' : Daemon.Controller (P := P)) body reply :
  Daemon.handle env ctl (Daemon.Create body) = (ctl', reply) →
  match reply with Daemon.Plain st _ => st ≠ 200 | Daemon.Created _ => True | _ => False end.
Proof.
  cbn [Daemon.handle]. unfold Daemon.handleCreateSession. destruct body as [[req|]|]; [|by intros [= _ <-]..].
  case_decide; [by intros [= _ <-]|]. destruct (Daemon.CreateSession env ctl req) as [c [resp|e]]; by intros [= _ <-].
Qed.

(** *** A list of sessions *)

Definition status_of (s : Lifecycle.SessionState) : SessionStatus :=
  mkStatus (Lifecycle.SessionID s) (Lifecycle.CreatedAt s) (Lifecycle.LastControlHeartbeat s) (Lifecycle.ActiveConns s).

Definition valid_state (ftime : Z → string) (ptime : string → option Z) (s : Lifecycle.SessionState) : Prop :=
  valid_utf8 (Lifecycle.SessionID s) = true ∧
  Forall (λ t, valid_utf8 (ftime t) = true ∧ ptime (ftime t) = Some t)
    [Lifecycle.CreatedAt s; Lifecycle.LastControlHeartbeat s; Lifecycle.LastDataActivity s] ∧
  Forall in_int64 [Lifecycle.ActiveConns s; Lifecycle.IdleTTL s; Lifecycle.AbsoluteTTL s] ∧
  Forall valid_mapping (Lifecycle.PortMappings s).

Lemma read_state ftime ptime s old :
  valid_state ftime ptime s → read_struct (status_fields ptime) old (state_value ftime s) = Some (status_of s).
Proof.
  intros (_ & Ht & Hz & _). rewrite !Forall_cons in Ht, Hz. destruct Ht as ([_ H1] & [_ H2] & [_ H3] & _), Hz as (Ha & _).
  destruct old. unfold read_struct, state_value. cbn [foldl].
  repeat (first [erewrite read_member_at by reflexivity|rewrite read_member_unknown by reflexivity];
    cbn [fst snd read_str mbind option_bind]; unfold read_time; rewrite ?H1, ?H2, ?read_int_print by done; cbn [mbind option_bind]).
  done.
Qed.

Lemma printable_state ftime ptime s : valid_state ftime ptime s → printable (state_value ftime s) = true.
Proof.
  intros (Hs & Ht & Hz & Hm). rewrite !Forall_cons in Ht, Hz.
  destruct Ht as ([H1 _] & [H2 _] & [H3 _] & _), Hz as (Z1%printable_int & Z2%printable_int & Z3%printable_int & _).
  assert (printable (JArray (mapping_reply <$> Lifecycle.PortMappings s)) = true) as P.
  { apply printable_array. eapply Forall_impl; [exact Hm|]. intros p Hp. by destruct (printable_mapping p Hp). }
  unfold state_value, JInt in *. cbn [printable] in *. cbn [forallb fst snd printable].
  by rewrite Hs, H1, H2, H3, Z1, Z2, Z3, P.
Qed.

(** What [herd status] reads is what the daemon lists. *)
Lemma status_on_the_wire {P} `{SessionPool P} ftime ptime (ctl : Daemon.Controller (P := P)) order :
  Forall (valid_state ftime ptime) (Daemon.ListSessions ctl order) →
  status ftime ptime ctl order = Some (status_of <$> Daemon.ListSessions ctl order).
Proof.
  intros Hl. unfold status. rewrite <-(string_app_nil_r (print _)), read_json_print; [|apply printable_array|done].
  2: { eapply Forall_impl; [exact Hl|]. intros; by eapply printable_state. }
  cbn [mbind option_bind]. unfold decode_statuses. apply read_slice_all.
  eapply Forall_impl; [exact Hl|]. intros s Hs old. by apply read_state.
Qed.

(** ** Properties *)

(** [C29] JSON changes nothing of a deployment.  With flags in UTF-8, what [herd deploy]
    writes on the wire the daemon decodes as the request that was meant, field by field and
    with no other field set, and what the daemon answers is printed as the session, the
    addresses and the port mappings of the answer; a refusal stays one. *)
Theorem deploy_on_the_wire {P} `{SessionPool P} env other cfg (ctl : Daemon.Controller (P := P)) f req :
  (∀ z, 0 ≤ z ≤ 65535 → other (JInt z) = Itoa z) →
  Cli.deploy_request f = Ok req → valid_request req →
  (∀ ctl' resp, Daemon.handle env ctl (Daemon.Create (Some (Ok req))) = (ctl', Daemon.Created resp) →
    valid_response resp ∧ Forall small_ports (Daemon.rs_PortMappings resp)) →
  (∃ body, deploy_value f = Ok body ∧ create_request (print body) = Daemon.Create (Some (Ok req))) ∧
  deploy env other ctl f =
    match Cli.deploy env Cli.Answered (Ok cfg) ctl f with
    | (ctl', Ok resp) => (ctl', Ok (response_lines resp))
    | (ctl', Err e) => (ctl', Err e)
    end.
Proof.
  intros Hother Hreq Hv Hresp. destruct (deploy_value f) as [body|e] eqn:Eb; [|destruct (deploy_value_ok f e req Eb Hreq)].
  destruct (deploy_printable f req body Hreq Eb Hv) as (Hp & Hd & l & Hl).
  assert (create_request (print body) = Daemon.Create (Some (Ok req))) as Ec.
  { unfold create_request, decode_text. rewrite <-(string_app_nil_r (print body)), read_json_print by (done || by rewrite Hl). by rewrite Hd. }
  split; [by exists body|]. unfold deploy, Cli.deploy, Cli.with_config, Cli.send. rewrite Eb, Ec, Hreq.
  destruct (Daemon.handle env ctl (Daemon.Create (Some (Ok req)))) as [ctl' reply] eqn:Eh.
  destruct reply as [st msg|resp|l'|log| |e|path port]; try by (apply created_replies in Eh).
  - apply created_replies in Eh as Hst. by rewrite decide_False.
  - rewrite decide_True by done. destruct (Hresp ctl' resp eq_refl) as [Hvr Hsm]. unfold reply_body.
    rewrite read_json_print by (done || by apply printable_response). by rewrite response_shown.
Qed.

(** ** Witness *)

#[local] Existing Instances Daemon.safe_pool.

Definition example_other (j : json) : string := match j with JNumber l => l | _ => "" end.

Definition example_request : Daemon.SessionCreateRequest :=
  match Cli.deploy_request Cli.example_deploy with Ok req => req | Err _ => Daemon.demo_request "" "" end.

Lemma example_asks : Cli.deploy_request Cli.example_deploy = Ok example_request.
Proof. vm_compute. reflexivity. Qed.

Definition example_mapping : PortMapping := mkPortMapping "0.0.0.0" 8080 80 "tcp".

Lemma example_request_eq :
  example_request = Daemon.mkRequest "" "alpine" ["/bin/sh"; "-c"; "sleep 5"] {["A" := "2"; "B" := "x=y"]} 60 0 "" false 0 0
    [example_mapping].
Proof. vm_compute. reflexivity. Qed.

Lemma example_mapping_valid : valid_mapping example_mapping ∧ small_ports example_mapping.
Proof.
  unfold valid_mapping, small_ports, example_mapping, in_int64, int64_min, int64_max.
  cbn [HostInterface Protocol HostPort GuestPort]. split_and!; [reflexivity..|lia|lia|lia|lia|lia|lia|lia|lia].
Qed.

Lemma example_valid : valid_request example_request.
Proof.
  rewrite example_request_eq. split;
    cbn [Daemon.rq_Image Daemon.rq_Command Daemon.rq_Env Daemon.rq_IdleTimeoutSeconds Daemon.rq_TTLSeconds Daemon.rq_PortMappings].
  - reflexivity.
  - repeat (constructor; [reflexivity|]). constructor.
  - intros k s [[<- <-]|[_ [<- <-]%lookup_singleton_Some]]%lookup_insert_Some; split; reflexivity.
  - unfold in_int64, int64_min, int64_max. lia.
  - unfold in_int64, int64_min, int64_max. lia.
  - apply Forall_singleton, example_mapping_valid.
Qed.

Lemma example_reply (ctl' : Daemon.Controller (P := Daemon.SafePool)) resp :
  Daemon.handle Daemon.demo_env (Daemon.start (Daemon.mkSafePool ∅)) (Daemon.Create (Some (Ok example_request))) =
    (ctl', Daemon.Created resp) →
  valid_response resp ∧ Forall small_ports (Daemon.rs_PortMappings resp).
Proof.
  intros E. assert (Daemon.mkResponse "3f2c" "10.200.0.2" "127.0.0.1:8080" [example_mapping] = resp) as <-.
  { apply (f_equal snd) in E. cbn [snd] in E. rewrite example_request_eq in E. vm_compute in E. by injection E. }
  split; [split; [reflexivity|split; [reflexivity|split; [reflexivity|]]]|]; apply Forall_singleton, example_mapping_valid.
Qed.

Lemma deploy_on_the_wire_witness :
  (deploy Daemon.demo_env example_other (Daemon.start (Daemon.mkSafePool ∅)) Cli.example_deploy).2 =
  Ok ["Successfully deployed MicroVM!"; "Session ID: 3f2c"; "Internal IP: 10.200.0.2"; "Proxy URL: 127.0.0.1:8080";
      "Port Mappings:"; "  0.0.0.0:8080 -> VM:80/tcp"].
Proof.
  destruct (deploy_on_the_wire Daemon.demo_env example_other Cli.example_config (Daemon.start (Daemon.mkSafePool ∅))
    Cli.example_deploy example_request (λ z _, eq_refl) example_asks example_valid example_reply) as [_ E].
  rewrite E. vm_compute. reflexivity.
Defined.

End Wire.
