(* ===== verification/Mux.v ===== *)
(** * Go's [http.ServeMux], as far as herd uses it

    Patterns as [HandleFunc] parses them, the conflicts that make it panic, and the choice
    of a handler for a method and a path, with cleaned paths and the 404 and 405 answers.
    [letters] says whether a name is one of Unicode letters, digits and underscores; hosts
    are those of patterns that start with a slash, that is, none. *)
From stdpp Require Import options.
From S2P Require Import Prelude GoStrings GoJson.
#[local] Open Scope Z_scope.

Module Mux.

(** ** Paths *)

(** [url.PathUnescape]; a text that is not well escaped stays as it is. *)
Fixpoint unescape (s : string) : option string :=
  match s with
  | EmptyString => Some ""
  | String c s' =>
      if decide (c = "%"%char) then
        match s' with
        | String a (String b r) =>
            match hex_value a, hex_value b, unescape r with
            | Some x, Some y, Some t => Some (String (byte (x * 16 + y)) t)
            | _, _, _ => None
            end
        | _ => None
        end
      else t ← unescape s'; Some (String c t)
  end.

Definition pathUnescape (s : string) : string := default s (unescape s).

Definition HasSuffix (s p : string) : bool := bool_decide (TrimSuffix s p ≠ s).

Definition cleanPath (p : string) : string :=
  let p := if HasPrefix p "/" then p else "/" +:+ p in
  let np := Clean p in
  if HasSuffix p "/" && negb (bool_decide (np = "/")) then np +:+ "/" else np.

(** ** Patterns *)

Inductive seg := Lit (s : string) | Wild (name : string) | Multi (name : string).

Record pattern := mkPattern { p_method : string; p_segs : list seg }.

Definition is_token (c : ascii) : bool :=
  is_digit c || between 65 90 c || between 97 122 c || bool_decide (c ∈ ["!"; "#"; "$"; "%"; "&"; "'"; "*"; "+"; "-"; "."; "^"; "_"; "`"; "|"; "~"]%char).

Definition validMethod (s : string) : bool := negb (bool_decide (s = "")) && all_bytes is_token s.

Section parse.
Context (letters : string → bool).

(** The segments of a path; [seen]: the names of wildcards so far. *)
Fixpoint parse_segs (seen : list string) (l : list string) : option (list seg) :=
  match l with
  | [] => Some []
  | s :: rest =>
      if decide (s = "" ∧ rest = []) then Some [Multi ""]
      else if negb (contains_byte "{" s) then segs ← parse_segs seen rest; Some (Lit (pathUnescape s) :: segs)
      else if negb (HasPrefix s "{" && HasSuffix s "}") then None
      else
        let name := TrimSuffix (drop_bytes 1 s) "}" in
        if decide (name = "$") then if decide (rest = []) then Some [Lit "/"] else None
        else
          let multi := HasSuffix name "..." in
          let name := TrimSuffix name "..." in
          if multi && negb (bool_decide (rest = [])) then None
          else if bool_decide (name = "") || negb (letters name) || bool_decide (name ∈ seen) then None
          else segs ← parse_segs (name :: seen) rest; Some ((if multi then Multi name else Wild name) :: segs)
  end.

(** The method and the path of a pattern. *)
Fixpoint cut_blank (s : string) : option (string * string) :=
  match s with
  | EmptyString => None
  | String c r =>
      if decide (c = " "%char ∨ c = byte 9) then Some ("", r)
      else '(a, b) ← cut_blank r; Some (String c a, b)
  end.

Fixpoint trim_blanks (s : string) : string :=
  match s with
  | String c r => if decide (c = " "%char ∨ c = byte 9) then trim_blanks r else s
  | EmptyString => ""
  end.

(** [parsePattern], without hosts. *)
Definition parsePattern (s : string) : option pattern :=
  let '(method, rest) := match cut_blank s with Some (a, b) => (a, trim_blanks b) | None => ("", s) end in
  if negb (bool_decide (method = "")) && negb (validMethod method) then None
  else if negb (HasPrefix rest "/") then None
  else if negb (bool_decide (method = "")) && negb (bool_decide (method = "CONNECT")) && negb (bool_decide (cleanPath rest = rest)) then None
  else segs ← parse_segs [] (Split "/" (drop_bytes 1 rest)); Some (mkPattern method segs).

End parse.

(** *** How two patterns relate *)

Inductive relation := Equivalent | MoreGeneral | MoreSpecific | Overlaps | Disjoint.

#[export] Instance relation_eq_dec : EqDecision relation.
Proof. solve_decision. Defined.

Definition inverse (r : relation) : relation :=
  match r with MoreGeneral => MoreSpecific | MoreSpecific => MoreGeneral | _ => r end.

Definition combine (r1 r2 : relation) : relation :=
  match r1 with
  | Equivalent => r2
  | Disjoint => Disjoint
  | Overlaps => if decide (r2 = Disjoint) then Disjoint else Overlaps
  | MoreGeneral | MoreSpecific =>
      if decide (r2 = Equivalent) then r1 else if decide (r2 = inverse r1) then Overlaps else r2
  end.

Definition compareSegs (s1 s2 : seg) : relation :=
  match s1, s2 with
  | Multi _, Multi _ => Equivalent
  | Multi _, _ => MoreGeneral
  | _, Multi _ => MoreSpecific
  | Wild _, Wild _ => Equivalent
  | Wild _, Lit s => if decide (s = "/") then Disjoint else MoreGeneral
  | Lit s, Wild _ => if decide (s = "/") then Disjoint else MoreSpecific
  | Lit a, Lit b => if decide (a = b) then Equivalent else Disjoint
  end.

Definition is_multi (s : seg) : bool := match s with Multi _ => true | _ => false end.
Definition ends_multi (l : list seg) : bool := match last l with Some s => is_multi s | None => false end.

Fixpoint compare_from (rel : relation) (l1 l2 : list seg) : relation :=
  match l1, l2 with
  | [], [] => rel
  | s1 :: r1, s2 :: r2 =>
      match r1, r2 with
      | [], _ :: _ => if is_multi s1 then combine (combine rel (compareSegs s1 s2)) MoreGeneral else Disjoint
      | _ :: _, [] => if is_multi s2 then combine (combine rel (compareSegs s1 s2)) MoreSpecific else Disjoint
      | _, _ => compare_from (combine rel (compareSegs s1 s2)) r1 r2
      end
  | _, _ => Disjoint
  end.

Definition comparePaths (p1 p2 : pattern) : relation := compare_from Equivalent (p_segs p1) (p_segs p2).

Definition compareMethods (p1 p2 : pattern) : relation :=
  let m1 := p_method p1 in let m2 := p_method p2 in
  if decide (m1 = m2) then Equivalent
  else if decide (m1 = "") then MoreGeneral
  else if decide (m2 = "") then MoreSpecific
  else if decide (m1 = "GET" ∧ m2 = "HEAD") then MoreGeneral
  else if decide (m1 = "HEAD" ∧ m2 = "GET") then MoreSpecific
  else Disjoint.

Definition conflicts (p1 p2 : pattern) : bool :=
  let r := combine (compareMethods p1 p2) (comparePaths p1 p2) in
  bool_decide (r = Equivalent ∨ r = Overlaps).

(** ** The mux *)

Section mux.
Context {H : Type} (letters : string → bool).

Definition ServeMux : Type := list (pattern * H).

(** [Handle]: [None] is the panic. *)
Definition Handle (mux : ServeMux) (pat : string) (h : H) : option ServeMux :=
  p ← parsePattern letters pat;
  if existsb (λ e, conflicts p e.1) mux then None else Some (mux ++ [(p, h)]).

Fixpoint Handle_all (mux : ServeMux) (l : list (string * H)) : option ServeMux :=
  match l with [] => Some mux | (pat, h) :: l => mux ← Handle mux pat h; Handle_all mux l end.

(** The segments of a path that starts with a slash, unescaped but for the rest that a
    trailing wildcard takes. *)
Fixpoint match_segs (segs : list seg) (path : list string) : option (list string) :=
  match segs, path with
  | [], [] => Some []
  | [Multi ""], _ :: _ => Some []
  | [Multi _], _ :: _ => Some [pathUnescape (Join "/" path)]
  | Lit s :: segs, e :: path =>
      if decide (s = (if decide (e = "" ∧ path = []) then "/" else pathUnescape e)) then match_segs segs path else None
  | Wild _ :: segs, e :: path =>
      if decide (e = "" ∧ path = []) then None
      else ms ← match_segs segs path; Some (pathUnescape e :: ms)
  | _, _ => None
  end.

Definition match_path (p : pattern) (path : string) : option (list string) :=
  match path with String _ rest => match_segs (p_segs p) (Split "/" rest) | EmptyString => None end.

(** At the first segment where two patterns differ a literal comes before a wildcard, and
    a wildcard before a trailing one. *)
Definition rank (s : seg) : nat := match s with Lit _ => 0 | Wild _ => 1 | Multi _ => 2 end.

Fixpoint precedes (l1 l2 : list seg) : bool :=
  match l1, l2 with
  | s1 :: l1, s2 :: l2 => (rank s1 <? rank s2)%nat || ((rank s1 =? rank s2)%nat && precedes l1 l2)
  | _, _ => false
  end.

Definition candidates (mux : ServeMux) (method path : string) : list (pattern * H * list string) :=
  omap (λ e, if decide (p_method e.1 = method) then ms ← match_path e.1 path; Some (e, ms) else None) mux.

Definition best (l : list (pattern * H * list string)) : option (pattern * H * list string) :=
  foldl (λ b c, match b with Some b => if precedes (p_segs c.1.1) (p_segs b.1.1) then Some c else Some b | None => Some c end) None l.

Definition find_match (mux : ServeMux) (method path : string) : option (pattern * H * list string) :=
  match best (candidates mux method path) with
  | Some c => Some c
  | None =>
      match (if decide (method = "HEAD") then best (candidates mux "GET" path) else None) with
      | Some c => Some c
      | None => best (candidates mux "" path)
      end
  end.

(** Whether a match takes the path as it is, with nothing for a trailing wildcard. *)
Definition exact (m : option (pattern * H * list string)) (path : string) : bool :=
  match m with
  | None => false
  | Some (p, _, _) =>
      negb (ends_multi (p_segs p)) ||
      (HasSuffix path "/" && (length (p_segs p) =? length (Split "/" path) - 1)%nat)
  end.

Inductive routed :=
  | Found (h : H) (pathValues : list string)
  | Redirect (path : string)
  | NotFound
  | MethodNotAllowed.

Definition method_missing (mux : ServeMux) (path : string) : bool :=
  existsb (λ e, negb (bool_decide (p_method e.1 = "")) &&
    (bool_decide (is_Some (match_path e.1 path)) ||
     (negb (HasSuffix path "/") && bool_decide (is_Some (match_path e.1 (path +:+ "/")))))) mux.

(** [findHandler], for a method and the escaped path of a request; a request that is to
    be redirected keeps its query. *)
Definition findHandler (mux : ServeMux) (method escapedPath : string) : routed :=
  let path := if decide (method = "CONNECT") then escapedPath else cleanPath escapedPath in
  let m := find_match mux method path in
  if negb (exact m path) && negb (HasSuffix path "/") && exact (find_match mux method (path +:+ "/")) (path +:+ "/") then
    Redirect (path +:+ "/")
  else if negb (bool_decide (path = escapedPath)) then Redirect path
  else match m with
       | Some (_, h, ms) => Found h ms
       | None => if method_missing mux path then MethodNotAllowed else NotFound
       end.

End mux.
Arguments ServeMux : clear implicits.
Arguments routed : clear implicits.

(** ** Lemmas *)

(** A segment that takes one element of the path. *)
Definition simple (s : seg) : bool := match s with Lit s => negb (bool_decide (s = "/")) | Wild _ => true | Multi _ => false end.

(** Matching against the elements as they are unescaped. *)
Fixpoint match_elements (segs : list seg) (us : list string) : option (list string) :=
  match segs, us with
  | [], [] => Some []
  | Lit s :: segs, u :: us => if decide (s = u) then match_elements segs us else None
  | Wild _ :: segs, u :: us => ms ← match_elements segs us; Some (u :: ms)
  | _, _ => None
  end.

Lemma match_segs_elements segs es :
  forallb simple segs = true → Forall (λ e, e ≠ "") es →
  match_segs segs es = match_elements segs (pathUnescape <$> es).
Proof.
  intros Hs Hes. revert segs Hs. induction Hes as [|e es He _ IH]; intros [|[a|a|a] segs]; try done.
  - cbn [forallb]. intros [_ Hs]%andb_true_iff. cbn [match_segs match_elements fmap list_fmap].
    rewrite (decide_False (P := e = "" ∧ es = [])) by (by intros [? _]). by rewrite IH.
  - cbn [forallb]. intros [_ Hs]%andb_true_iff. cbn [match_segs match_elements fmap list_fmap].
    rewrite (decide_False (P := e = "" ∧ es = [])) by (by intros [? _]). by rewrite IH.
Qed.

(** A trailing slash matches no such pattern. *)
Lemma match_segs_slash segs es : forallb simple segs = true → match_segs segs (es ++ [""]) = None.
Proof.
  revert segs. induction es as [|e es IH]; intros [|[a|a|a] segs]; try done; cbn [forallb app].
  - intros [Ha Hs]%andb_true_iff. cbn [match_segs]. rewrite (decide_True (P := "" = "" ∧ [] = [])) by done.
    rewrite decide_False; [done|]. intros ->. cbn [simple] in Ha. by rewrite bool_decide_eq_true_2 in Ha.
  - intros [_ Hs]%andb_true_iff. cbn [match_segs]. rewrite (decide_False (P := e = "" ∧ _)) by (intros [_ ?]; by destruct es).
    rewrite IH by done. by case_decide.
  - intros [_ Hs]%andb_true_iff. cbn [match_segs]. rewrite (decide_False (P := e = "" ∧ _)) by (intros [_ ?]; by destruct es).
    by rewrite IH.
Qed.

Lemma HasSuffix_last s e c : contains_byte c e = false → e ≠ "" → HasSuffix (s +:+ e) (String c "") = false.
Proof.
  intros Hc He. apply bool_decide_eq_false. intros Hn. apply Hn. clear Hn.
  induction s as [|a s IH]; cbn [String.append TrimSuffix].
  - clear He. induction e as [|a e IH]; [done|]. cbn [TrimSuffix contains_byte] in *. apply orb_false_iff in Hc as [Ha He].
    rewrite decide_False; [by rewrite IH|]. intros [= -> _]. by rewrite bool_decide_eq_true_2 in Ha.
  - rewrite decide_False; [by rewrite IH|]. intros [= _ E]. by destruct s, e.
Qed.

(** A path made of plain elements. *)
Definition abs_path (es : list string) : string := String "/" (Join "/" es).

Lemma clean_plain es st : Forall plain es → foldl (clean_step true) st es = rev es ++ st.
Proof.
  intros Hes. revert st. induction Hes as [|e es ((H1 & H2 & H3) & _) _ IH]; intros st; [done|]. cbn [foldl rev].
  unfold clean_step at 2. rewrite decide_False by tauto. rewrite decide_False by done. rewrite IH, <-app_assoc. done.
Qed.

Lemma abs_path_split es : Forall plain es → es ≠ [] → Split "/" (Join "/" es) = es.
Proof. intros Hes Hne. apply Split_Join; [done|]. eapply Forall_impl; [exact Hes|]. by intros e [_ ?]. Qed.

Lemma HasPrefix_abs s : HasPrefix (String "/" s) "/" = true.
Proof. unfold HasPrefix. cbn [String.prefix]. apply HasPrefix_nil. Qed.

Lemma cleanPath_abs es :
  Forall plain es → es ≠ [] → cleanPath (abs_path es) = abs_path es ∧ HasSuffix (abs_path es) "/" = false.
Proof.
  intros Hes Hne.
  assert (HasSuffix (abs_path es) "/" = false) as Hs.
  { destruct es as [|e es _] using rev_ind; [done|]. apply Forall_app in Hes as [_ [((H1 & _ & _) & H4) _]%Forall_cons].
    unfold abs_path. destruct es as [|e' es]; [by apply (HasSuffix_last "/")|].
    rewrite Join_snoc by done. assert (∀ a b, String "/" (a +:+ String "/" b) = (String "/" a +:+ "/") +:+ b) as ->
      by (intros; by rewrite string_app_assoc). by apply HasSuffix_last. }
  split; [|done]. unfold cleanPath. assert (HasPrefix (abs_path es) "/" = true) as -> by apply HasPrefix_abs.
  rewrite Hs. cbn [andb]. unfold abs_path at 1.
  rewrite Clean_abs by apply HasPrefix_abs. cbn [Split]. rewrite decide_True by done. rewrite abs_path_split by done.
  cbn [foldl]. change (clean_step true [] "") with (@nil string). by rewrite clean_plain, app_nil_r, rev_involutive by done.
Qed.

End Mux.
