(* ===== verification/Routes.v ===== *)
(** * The routes of the two HTTP servers ([internal/daemon/api.go], [runtime.go])

    The patterns that are registered with [http.ServeMux] and what a request reaches: on
    the control plane a handler of [Daemon] with the session of the path, on the data plane
    the health check, the metrics or the proxy. *)
From stdpp Require Import options.
From S2P Require Import Prelude GoStrings GoJson Registry Lifecycle Service Proxy Daemon Config Cli Wire Mux.
#[local] Open Scope Z_scope.

Module Routes.

(** The names of wildcards in ASCII; [unicode] decides on the others. *)
Definition ascii_letter (c : ascii) : bool := between 65 90 c || between 97 122 c || bool_decide (c = "_"%char).

Definition valid_name (unicode : string → bool) (s : string) : bool :=
  if all_bytes (λ c, code c <? 128) s then
    match s with
    | String c r => ascii_letter c && all_bytes (λ c, ascii_letter c || is_digit c) r
    | EmptyString => false
    end
  else unicode s.

(** ** The control plane *)

Inductive endpoint :=
  | handleHealthCheck | handleCreateSession | handleListSessions | handleDeleteSession | handleLogsSession
  | handleExecSession | handleHeartbeat | handleWarmImage.

Definition control_patterns : list (string * endpoint) :=
  [("GET /healthz", handleHealthCheck); ("POST /v1/sessions", handleCreateSession);
   ("GET /v1/sessions", handleListSessions); ("DELETE /v1/sessions/{id}", handleDeleteSession);
   ("GET /v1/sessions/{id}/logs", handleLogsSession); ("POST /v1/sessions/{id}/exec", handleExecSession);
   ("PUT /v1/sessions/{id}/heartbeat", handleHeartbeat); ("POST /v1/images/warm", handleWarmImage)].

Definition NewControlPlaneHandler (unicode : string → bool) : option (Mux.ServeMux endpoint) :=
  Mux.Handle_all (valid_name unicode) [] control_patterns.

(** What the mux hands to the handler, as a request of [Daemon]; [id] is [r.PathValue("id")]. *)
Definition request_of (e : endpoint) (pathValues : list string) (body : string)
    (order : list (string * nat)) (encodes : bool) : Daemon.request :=
  let id := default "" (head pathValues) in
  match e with
  | handleHealthCheck => Daemon.HealthCheck
  | handleCreateSession => Wire.create_request body
  | handleListSessions => Daemon.List_ order encodes
  | handleDeleteSession => Daemon.Delete id
  | handleLogsSession => Daemon.Logs id
  | handleExecSession => Daemon.Exec id
  | handleHeartbeat => Daemon.Heartbeat id
  | handleWarmImage => Wire.warm_request body
  end.

Section control.
Context {P : Type} `{SessionPool P}.

Definition ServeControl (env : Daemon.Env) (mux : Mux.ServeMux endpoint) (c : Daemon.Controller (P := P))
    (method path body : string) (order : list (string * nat)) (encodes : bool)
    : Daemon.Controller (P := P) * (Daemon.reply + string) :=
  match Mux.findHandler mux method path with
  | Mux.Found e ids => let '(c, r) := Daemon.handle env c (request_of e ids body order encodes) in (c, inl r)
  | Mux.Redirect to => (c, inr to)
  | Mux.NotFound => (c, inl (Daemon.Plain 404 "404 page not found"))
  | Mux.MethodNotAllowed => (c, inl (Daemon.Plain 405 "Method Not Allowed"))
  end.

End control.

(** *** The table of the routes, as a reference *)

Definition routes (method : string) (segs : list string) : option (endpoint * list string) :=
  let get := method = "GET" ∨ method = "HEAD" in
  match segs with
  | [a] => if decide (a = "healthz" ∧ get) then Some (handleHealthCheck, []) else None
  | [a; b] =>
      if decide (a = "v1" ∧ b = "sessions") then
        if decide get then Some (handleListSessions, [])
        else if decide (method = "POST") then Some (handleCreateSession, []) else None
      else None
  | [a; b; c] =>
      if decide (a = "v1" ∧ b = "images" ∧ c = "warm" ∧ method = "POST") then Some (handleWarmImage, [])
      else if decide (a = "v1" ∧ b = "sessions" ∧ method = "DELETE") then Some (handleDeleteSession, [c]) else None
  | [a; b; id; d] =>
      if decide (a = "v1" ∧ b = "sessions") then
        if decide (d = "logs" ∧ get) then Some (handleLogsSession, [id])
        else if decide (d = "exec" ∧ method = "POST") then Some (handleExecSession, [id])
        else if decide (d = "heartbeat" ∧ method = "PUT") then Some (handleHeartbeat, [id]) else None
      else None
  | _ => None
  end.

(** ** The data plane *)

Inductive data_endpoint := health | MetricsHandler | reverse_proxy.

Definition data_patterns (metricsPath : string) : list (string * data_endpoint) :=
  [("/healthz", health); (metricsPath, MetricsHandler); ("/", reverse_proxy)].

(** [None] is the panic of [ServeMux]. *)
Definition NewDataPlaneHandler (unicode : string → bool) (metricsPath : string) : option (Mux.ServeMux data_endpoint) :=
  Mux.Handle_all (valid_name unicode) [] (data_patterns metricsPath).

Inductive data_reply :=
  | Healthy
  | Metrics (lines : list (string * Z))
  | Proxied (r : Proxy.reply)
  | Moved (path : string).

Section data.
Context {P : Type} `{SessionPool P}.

(** [sessionID] is the header [X-Session-ID]; [stats] are the pool's numbers. *)
Definition ServeData (penv : Proxy.Env) (mux : Mux.ServeMux data_endpoint) (c : Daemon.Controller (P := P))
    (method path sessionID : string) (stats : Z * Z * Z) (now : Z) (deadline : bool)
    (meanwhile : Lifecycle.Manager (K := P) → Lifecycle.Manager (K := P))
    : Daemon.Controller (P := P) * data_reply :=
  match Mux.findHandler mux method path with
  | Mux.Found health _ => (c, Healthy)
  | Mux.Found MetricsHandler _ =>
      let '(total, active, inflight) := stats in (c, Metrics (Daemon.metrics total active inflight (Daemon.counters c)))
  | Mux.Found reverse_proxy _ =>
      let '(m, r) := Proxy.ServeHTTP penv Proxy.NewDataPlaneHandler (Daemon.lifecycleManager c) now sessionID deadline meanwhile in
      (Daemon.set_manager m c, Proxied r)
  | Mux.Redirect to => (c, Moved to)
  | Mux.NotFound => (c, Proxied (Proxy.Error 404 "404 page not found"))
  | Mux.MethodNotAllowed => (c, Proxied (Proxy.Error 405 "Method Not Allowed"))
  end.

End data.

(** ** Lemmas *)

Definition control_mux : Mux.ServeMux endpoint :=
  [(Mux.mkPattern "GET" [Mux.Lit "healthz"], handleHealthCheck);
   (Mux.mkPattern "POST" [Mux.Lit "v1"; Mux.Lit "sessions"], handleCreateSession);
   (Mux.mkPattern "GET" [Mux.Lit "v1"; Mux.Lit "sessions"], handleListSessions);
   (Mux.mkPattern "DELETE" [Mux.Lit "v1"; Mux.Lit "sessions"; Mux.Wild "id"], handleDeleteSession);
   (Mux.mkPattern "GET" [Mux.Lit "v1"; Mux.Lit "sessions"; Mux.Wild "id"; Mux.Lit "logs"], handleLogsSession);
   (Mux.mkPattern "POST" [Mux.Lit "v1"; Mux.Lit "sessions"; Mux.Wild "id"; Mux.Lit "exec"], handleExecSession);
   (Mux.mkPattern "PUT" [Mux.Lit "v1"; Mux.Lit "sessions"; Mux.Wild "id"; Mux.Lit "heartbeat"], handleHeartbeat);
   (Mux.mkPattern "POST" [Mux.Lit "v1"; Mux.Lit "images"; Mux.Lit "warm"], handleWarmImage)].

(** None of the control plane's patterns is in conflict with another. *)
Lemma control_registers unicode : NewControlPlaneHandler unicode = Some control_mux.
Proof. vm_compute. reflexivity. Qed.

Lemma metrics_registers unicode : is_Some (NewDataPlaneHandler unicode "/metrics").
Proof. vm_compute. by eexists. Qed.

(** Paths that the validation of the configuration accepts and the mux does not. *)
Lemma metrics_path_panics unicode :
  NewDataPlaneHandler unicode "/" = None ∧ NewDataPlaneHandler unicode "/healthz" = None ∧
  NewDataPlaneHandler unicode "/my metrics" = None ∧ NewDataPlaneHandler unicode "/{id" = None.
Proof. vm_compute. done. Qed.

(** One element of a path, in a form that a pattern can have: not empty, without slashes,
    braces and blanks. *)
Definition metrics_element (m : string) : Prop :=
  m ≠ "" ∧ contains_byte "/" m = false ∧ contains_byte "{" m = false ∧ contains_byte " " m = false ∧
  contains_byte (byte 9) m = false.

(** The three patterns of the data plane, for such a path of the metrics. *)
Definition data_mux (m : string) : Mux.ServeMux data_endpoint :=
  [(Mux.mkPattern "" [Mux.Lit "healthz"], health); (Mux.mkPattern "" [Mux.Lit m], MetricsHandler);
   (Mux.mkPattern "" [Mux.Multi ""], reverse_proxy)].

Lemma cut_blank_none s : contains_byte " " s = false → contains_byte (byte 9) s = false → Mux.cut_blank s = None.
Proof.
  induction s as [|c s IH]; [done|]. cbn [contains_byte Mux.cut_blank].
  intros [H1 H2]%orb_false_iff [H3 H4]%orb_false_iff. rewrite bool_decide_eq_false in H1, H3.
  rewrite decide_False by (intros [->|E]; [by apply H1|by apply H3]). by rewrite IH.
Qed.

Lemma metrics_parsed letters m :
  metrics_element m → Mux.parsePattern letters (String "/" m) = Some (Mux.mkPattern "" [Mux.Lit (Mux.pathUnescape m)]).
Proof.
  intros (H0 & H1 & H2 & H3 & H4). unfold Mux.parsePattern. rewrite cut_blank_none by done.
  rewrite bool_decide_eq_true_2, Mux.HasPrefix_abs by done. cbn [negb andb drop_bytes].
  rewrite Split_one by done. cbn [Mux.parse_segs]. rewrite decide_False by (by intros [? _]).
  by rewrite H2.
Qed.

(** The data plane's patterns register unless the metrics take the health check's place. *)
Lemma data_plane_registers unicode m : metrics_element m →
  NewDataPlaneHandler unicode (String "/" m) =
    if decide (Mux.pathUnescape m = "healthz") then None else Some (data_mux (Mux.pathUnescape m)).
Proof.
  intros Hm. unfold NewDataPlaneHandler, data_patterns. cbn [Mux.Handle_all].
  assert (∀ (h : data_endpoint), Mux.Handle (valid_name unicode) [] "/healthz" h = Some [(Mux.mkPattern "" [Mux.Lit "healthz"], h)]) as -> by (intros; vm_compute; reflexivity).
  cbn [mbind option_bind]. unfold Mux.Handle. rewrite (metrics_parsed _ m) by done. cbn [mbind option_bind existsb fst].
  unfold Mux.conflicts, Mux.compareMethods, Mux.comparePaths.
  cbn [Mux.p_method Mux.p_segs Mux.compare_from Mux.compareSegs Mux.combine].
  rewrite (decide_True (P := "" = "")) by done. cbn [Mux.combine].
  destruct (decide (Mux.pathUnescape m = "healthz")); by cbn.
Qed.

(** *** What is found *)

Definition candidate (method : string) (us : list string) (e : Mux.pattern * endpoint)
    : option (Mux.pattern * endpoint * list string) :=
  if decide (Mux.p_method e.1 = method) then ms ← Mux.match_elements (Mux.p_segs e.1) us; Some (e, ms) else None.

Definition view (m : option (Mux.pattern * endpoint * list string)) : option (endpoint * list string) :=
  '(p, e, ms) ← m; Some (e, ms).

Lemma omap_flat_map {A B} (f : A → option B) l : omap f l = flat_map (λ x, option_list (f x)) l.
Proof. induction l as [|x l IH]; [done|]. cbn [omap list_omap flat_map]. rewrite <-IH. by destruct (f x). Qed.

Ltac route_cases :=
  rewrite omap_flat_map; unfold control_mux, candidate, routes; cbn [flat_map fst snd Mux.p_method Mux.p_segs];
  repeat (rewrite (decide_False (P := @eq string _ _)) by (intros [=]));
  repeat (rewrite (decide_True (P := @eq string _ _)) by reflexivity);
  cbn [Mux.match_elements mbind option_bind option_list app];
  repeat (case_decide; try (exfalso; congruence)); destruct_and?; subst; first [reflexivity|exfalso; naive_solver].

Lemma routes_method method us :
  method ∈ ["GET"; "POST"; "PUT"; "DELETE"] → view (Mux.best (omap (candidate method us) control_mux)) = routes method us.
Proof.
  rewrite !elem_of_cons. intros [-> | [-> | [-> | [-> | ?%not_elem_of_nil]]]]; [..|done];
    destruct us as [|a [|b [|c [|d [|x us]]]]]; route_cases.
Qed.

(** The methods of the patterns, and no other. *)
Lemma no_candidate method us :
  method ∉ ["GET"; "POST"; "PUT"; "DELETE"] → omap (candidate method us) control_mux = [].
Proof.
  rewrite !not_elem_of_cons. intros (H1 & H2 & H3 & H4 & _). rewrite omap_flat_map. unfold control_mux, candidate.
  cbn [flat_map fst Mux.p_method]. by repeat (rewrite (decide_False (P := @eq string _ _)) by congruence).
Qed.

Lemma routes_none method us :
  method ∉ ["GET"; "POST"; "PUT"; "DELETE"] → method ≠ "HEAD" → routes method us = None.
Proof.
  rewrite !not_elem_of_cons. intros (H1 & H2 & H3 & H4 & _) H5.
  destruct us as [|a [|b [|c [|d [|x us]]]]]; unfold routes; repeat case_decide; destruct_and?; naive_solver.
Qed.

Lemma routes_HEAD us :
  routes "HEAD" us = match routes "GET" us with Some r => Some r | None => None end.
Proof.
  destruct us as [|a [|b [|c [|d [|x us]]]]]; unfold routes; repeat case_decide; destruct_and?; try reflexivity; naive_solver.
Qed.

Lemma simple_patterns e : e ∈ control_mux → forallb Mux.simple (Mux.p_segs e.1) = true ∧ Mux.ends_multi (Mux.p_segs e.1) = false.
Proof.
  unfold control_mux. rewrite !elem_of_cons. intros Hin.
  repeat (destruct Hin as [->|Hin]; [by vm_compute|]). by apply not_elem_of_nil in Hin.
Qed.

Section paths.
Context (es : list string) (Hes : Forall plain es) (Hne : es ≠ []).
#[local] Set Default Proof Using "All".

Lemma elements_nonempty : Forall (λ e, e ≠ "") es.
Proof. eapply Forall_impl; [exact Hes|]. by intros e ((? & _) & _). Qed.

Lemma match_plain e : e ∈ control_mux →
  Mux.match_path e.1 (Mux.abs_path es) = Mux.match_elements (Mux.p_segs e.1) (Mux.pathUnescape <$> es) ∧
  Mux.match_path e.1 (Mux.abs_path es +:+ "/") = None.
Proof.
  intros [Hs _]%simple_patterns. unfold Mux.match_path, Mux.abs_path. cbn [String.append].
  rewrite (Split_snoc "/" (Join "/" es) "") by done. rewrite Mux.abs_path_split by done. split.
  - apply Mux.match_segs_elements; [done|apply elements_nonempty].
  - by apply Mux.match_segs_slash.
Qed.

Lemma candidates_plain method :
  Mux.candidates control_mux method (Mux.abs_path es) = omap (candidate method (Mux.pathUnescape <$> es)) control_mux ∧
  Mux.candidates control_mux method (Mux.abs_path es +:+ "/") = [].
Proof.
  unfold Mux.candidates. pose proof match_plain as Hm. revert Hm. generalize control_mux. intros mux Hm.
  induction mux as [|e mux IH]; [done|]. destruct IH as [IH1 IH2]; [intros; apply Hm; by right|].
  destruct (Hm e) as [E1 E2]; [by left|]. cbn [omap list_omap]. rewrite E1, E2, IH1, IH2. split; [done|].
  by case_decide.
Qed.

Lemma best_in {H} (l : list (Mux.pattern * H * list string)) c : Mux.best l = Some c → c ∈ l.
Proof using Type.
  unfold Mux.best. assert (∀ o, foldl (λ b c, match b with
    | Some b => if Mux.precedes (Mux.p_segs c.1.1) (Mux.p_segs b.1.1) then Some c else Some b | None => Some c end) o l = Some c →
    o = Some c ∨ c ∈ l) as Hl; [|by intros Hb; destruct (Hl None Hb)].
  induction l as [|d l IH]; intros o Ho; [by left|]. cbn [foldl] in Ho.
  destruct (IH _ Ho) as [E|?]; [|right; by right]. destruct o as [b|]; [|simplify_eq; right; by left].
  destruct (Mux.precedes _ _); simplify_eq; [right; by left|by left].
Qed.

Lemma find_plain method :
  view (Mux.find_match control_mux method (Mux.abs_path es)) = routes method (Mux.pathUnescape <$> es) ∧
  Mux.find_match control_mux method (Mux.abs_path es +:+ "/") = None ∧
  ∀ c, Mux.find_match control_mux method (Mux.abs_path es) = Some c → Mux.ends_multi (Mux.p_segs c.1.1) = false.
Proof.
  set (us := Mux.pathUnescape <$> es).
  assert (∀ m, Mux.best (Mux.candidates control_mux m (Mux.abs_path es +:+ "/")) = None) as Hslash
    by (intros m; by rewrite (proj2 (candidates_plain m))).
  assert (∀ m c, Mux.best (Mux.candidates control_mux m (Mux.abs_path es)) = Some c → Mux.ends_multi (Mux.p_segs c.1.1) = false) as Hc.
  { intros m c Hb%best_in. unfold Mux.candidates in Hb. apply list_elem_of_omap in Hb as (e & He & E).
    apply simple_patterns in He as [_ He]. case_decide; [|done]. destruct (Mux.match_path _ _); [|done]. cbn in E. by simplify_eq. }
  unfold Mux.find_match. rewrite !Hslash. split_and!.
  - rewrite !(proj1 (candidates_plain _)). fold us.
    assert (Mux.best (omap (candidate "" us) control_mux) = None) as H0 by by rewrite no_candidate by (by rewrite !elem_of_cons, elem_of_nil; intuition).
    destruct (decide (method ∈ ["GET"; "POST"; "PUT"; "DELETE"])) as [Hin|Hin].
    + rewrite <-routes_method by done. destruct (Mux.best (omap (candidate method us) control_mux)) eqn:E; [done|].
      rewrite decide_False; [by rewrite H0|]. intros ->.
      rewrite !elem_of_cons in Hin. by destruct Hin as [?|[?|[?|[?|?%not_elem_of_nil]]]].
    + rewrite (no_candidate method) by done. cbn [Mux.best foldl]. destruct (decide (method = "HEAD")) as [->|Hh].
      * rewrite routes_HEAD, <-routes_method by by left. destruct (Mux.best (omap (candidate "GET" us) control_mux)) as [[[]]|]; [done|].
        by rewrite H0.
      * by rewrite H0, routes_none.
  - by destruct (decide (method = "HEAD")).
  - intros c. destruct (Mux.best (Mux.candidates control_mux method _)) eqn:E; [intros; simplify_eq; by eapply Hc|].
    destruct (decide (method = "HEAD")); [|apply Hc].
    destruct (Mux.best (Mux.candidates control_mux "GET" _)) eqn:E'; [intros; simplify_eq; by eapply Hc|apply Hc].
Qed.

Lemma best_some {H} (l : list (Mux.pattern * H * list string)) : l ≠ [] → Mux.best l ≠ None.
Proof using Type.
  unfold Mux.best. destruct l as [|c l]; [done|]. intros _. cbn [foldl]. generalize c. clear c.
  induction l as [|d l IH]; intros c; [done|]. cbn [foldl]. destruct (Mux.precedes _ _); apply IH.
Qed.

(** 405 when the path has a handler for another method. *)
Lemma method_missing_plain :
  Mux.method_missing control_mux (Mux.abs_path es) =
    existsb (λ m, bool_decide (routes m (Mux.pathUnescape <$> es) ≠ None)) ["GET"; "POST"; "PUT"; "DELETE"].
Proof.
  set (us := Mux.pathUnescape <$> es). apply eq_true_iff_eq. unfold Mux.method_missing. rewrite !existsb_exists. split.
  - intros (e & He%list_elem_of_In & Hm). destruct (match_plain e He) as [E1 E2]. rewrite E1, E2 in Hm.
    rewrite (bool_decide_eq_false_2 (is_Some None)) in Hm by (by intros [? ?]). rewrite andb_false_r, orb_false_r in Hm.
    apply andb_true_iff in Hm as [_ Hm%bool_decide_eq_true]. fold us in Hm.
    assert (Mux.p_method e.1 ∈ ["GET"; "POST"; "PUT"; "DELETE"]) as Hin.
    { unfold control_mux in He. rewrite !elem_of_cons in He. rewrite !elem_of_cons. clear -He.
      repeat (destruct He as [->|He]; [cbn; tauto|]). by apply not_elem_of_nil in He. }
    exists (Mux.p_method e.1). split; [by apply list_elem_of_In|]. apply bool_decide_eq_true. rewrite <-routes_method by done.
    assert (omap (candidate (Mux.p_method e.1) us) control_mux ≠ []) as Hne'.
    { destruct Hm as [ms Hms]. intros Hnil. apply (not_elem_of_nil (e, ms)). rewrite <-Hnil. apply list_elem_of_omap.
      exists e. split; [done|]. unfold candidate. by rewrite decide_True, Hms. }
    apply best_some in Hne'. by destruct (Mux.best _) as [[[]]|].
  - intros (m & Hin%list_elem_of_In & Hr%bool_decide_eq_true). rewrite <-routes_method in Hr by done.
    destruct (Mux.best _) as [c|] eqn:Eb; [|done]. apply best_in, list_elem_of_omap in Eb as (e & He & Ec).
    exists e. split; [by apply list_elem_of_In|]. destruct (match_plain e He) as [-> _]. fold us.
    unfold candidate in Ec. case_decide as Em; [|done]. destruct (Mux.match_elements _ us); [|done].
    rewrite (bool_decide_eq_false_2 (_ = "")) by (intros E0; rewrite E0 in Em; subst m; rewrite !elem_of_cons in Hin;
      by destruct Hin as [?|[?|[?|[?|?%not_elem_of_nil]]]]).
    by rewrite bool_decide_eq_true_2.
Qed.

End paths.

(** *** The data plane *)

Lemma default_data_mux unicode : NewDataPlaneHandler unicode "/metrics" = Some (data_mux "metrics").
Proof. vm_compute. reflexivity. Qed.

Lemma no_method_candidates m method path : method ≠ "" → Mux.candidates (data_mux m) method path = [].
Proof. intros Hm. unfold Mux.candidates, data_mux. cbn [omap list_omap fst Mux.p_method]. by rewrite !decide_False. Qed.

(** A clean path of one or more elements reaches the health check, the metrics or the proxy. *)
Lemma data_plane_routed m method es :
  method ≠ "" → method ≠ "CONNECT" → m ≠ "healthz" → m ≠ "/" → Forall plain es → es ≠ [] →
  Mux.findHandler (data_mux m) method (Mux.abs_path es) =
    if decide (Mux.pathUnescape <$> es = ["healthz"]) then Mux.Found health []
    else if decide (Mux.pathUnescape <$> es = [m]) then Mux.Found MetricsHandler []
    else Mux.Found reverse_proxy [].
Proof.
  intros H0 Hc Hm Hslash Hes Hne. destruct (Mux.cleanPath_abs es Hes Hne) as [Hclean Hsuf].
  assert (∀ p, Mux.find_match (data_mux m) method p = Mux.best (Mux.candidates (data_mux m) "" p)) as Hf.
  { intros p. unfold Mux.find_match. rewrite !no_method_candidates by done. by case_decide. }
  unfold Mux.findHandler. rewrite (decide_False (P := method = "CONNECT")), Hclean by done. rewrite !Hf.
  rewrite (bool_decide_eq_true_2 (Mux.abs_path es = _)) by done. cbn [negb].
  assert (∀ l, forallb Mux.simple l = true →
    Mux.match_path (Mux.mkPattern "" l) (Mux.abs_path es) = Mux.match_elements l (Mux.pathUnescape <$> es) ∧
    Mux.match_path (Mux.mkPattern "" l) (Mux.abs_path es +:+ "/") = None) as Hmatch.
  { intros l Hl. unfold Mux.match_path, Mux.abs_path. cbn [String.append Mux.p_segs].
    rewrite (Split_snoc "/" (Join "/" es) ""), Mux.abs_path_split by done.
    split; [apply Mux.match_segs_elements; [done|by apply elements_nonempty]|by apply Mux.match_segs_slash]. }
  assert (Mux.simple (Mux.Lit m) = true) as Hsm by (cbn; by rewrite bool_decide_eq_false_2).
  destruct (Hmatch [Mux.Lit "healthz"] eq_refl) as [E1 E1'].
  destruct (Hmatch [Mux.Lit m]) as [E2 E2']; [by cbn [forallb]; rewrite Hsm|].
  assert (∀ e l, Mux.match_segs [Mux.Multi ""] (e :: l) = Some []) as Hmulti by done.
  assert (Mux.match_path (Mux.mkPattern "" [Mux.Multi ""]) (Mux.abs_path es) = Some [] ∧
    Mux.match_path (Mux.mkPattern "" [Mux.Multi ""]) (Mux.abs_path es +:+ "/") = Some []) as [E3 E3'].
  { unfold Mux.match_path, Mux.abs_path. cbn [String.append Mux.p_segs]. split.
    - by destruct (Split "/" (Join "/" es)) eqn:E; [apply Split_nonempty in E|].
    - by destruct (Split "/" (Join "/" es +:+ "/")) eqn:E; [apply Split_nonempty in E|]. }
  unfold Mux.candidates, data_mux. cbn [omap list_omap fst Mux.p_method]. rewrite !(decide_True (P := "" = "")) by done.
  assert (∀ a us, Mux.match_elements [Mux.Lit a] us = if decide (us = [a]) then Some [] else None) as Hlit.
  { intros a us. destruct us as [|u [|u' us]]; cbn [Mux.match_elements].
    - by rewrite decide_False.
    - destruct (decide (a = u)) as [->|Hne']; [by rewrite decide_True|]. rewrite decide_False; [done|]. congruence.
    - rewrite (decide_False (P := _ :: _ :: _ = _)) by done. by case_decide. }
  rewrite E1, E1', E2, E2', E3, E3', !Hlit.
  assert (length (Split "/" (Mux.abs_path es +:+ "/")) = S (S (length es))) as Hlen.
  { unfold Mux.abs_path. cbn [String.append Split]. rewrite decide_True by done.
    rewrite (Split_snoc "/" (Join "/" es) ""), Mux.abs_path_split by done. cbn [length]. rewrite length_app. simpl. lia. }
  assert (∀ l, Mux.exact (Some (Mux.mkPattern "" [Mux.Multi ""], reverse_proxy, l)) (Mux.abs_path es +:+ "/") = false) as Hex.
  { intros l. cbn [Mux.exact Mux.p_segs Mux.ends_multi last Mux.is_multi negb orb]. rewrite Hlen. cbn [length].
    assert ((1 =? S (S (length es)) - 1)%nat = false) as -> by (destruct es; [done|]; apply Nat.eqb_neq; simpl; lia).
    by rewrite andb_false_r. }
  cbn [mbind option_bind Mux.best foldl]. rewrite Hex, andb_false_r.
  destruct (decide (Mux.pathUnescape <$> es = ["healthz"])) as [->|Hh].
  - rewrite decide_False by congruence. done.
  - by destruct (decide (Mux.pathUnescape <$> es = [m])).
Qed.

(** The table, on the mux as it is. *)
Lemma control_routes method es :
  method ≠ "CONNECT" → Forall plain es → es ≠ [] →
  let us := Mux.pathUnescape <$> es in
  Mux.findHandler control_mux method (Mux.abs_path es) =
    match routes method us with
    | Some (e, ids) => Mux.Found e ids
    | None =>
        if existsb (λ m, bool_decide (routes m us ≠ None)) ["GET"; "POST"; "PUT"; "DELETE"]
        then Mux.MethodNotAllowed else Mux.NotFound
    end.
Proof.
  intros Hm Hes Hne. cbv zeta. destruct (find_plain es Hes Hne method) as (Hf & Hslash & Hmulti).
  destruct (Mux.cleanPath_abs es Hes Hne) as [Hclean _]. unfold Mux.findHandler.
  rewrite (decide_False (P := method = "CONNECT")) by done. rewrite Hclean, Hslash. cbn [Mux.exact].
  rewrite andb_false_r, bool_decide_eq_true_2 by done. cbn [negb]. rewrite <-Hf.
  destruct (Mux.find_match _ _ _) as [[[p e] ids]|]; [done|]. cbn [view mbind option_bind].
  by rewrite method_missing_plain.
Qed.

(** What the commands of [cmd/herd] ask for reaches the handler that they mean, for a
    session whose name is one element of a path as it stands. *)
Lemma clients_routed id :
  plain id → Mux.pathUnescape id = id →
  Mux.findHandler control_mux "POST" (Mux.abs_path ["v1"; "sessions"]) = Mux.Found handleCreateSession [] ∧
  Mux.findHandler control_mux "GET" (Mux.abs_path ["v1"; "sessions"]) = Mux.Found handleListSessions [] ∧
  Mux.findHandler control_mux "DELETE" (Mux.abs_path ["v1"; "sessions"; id]) = Mux.Found handleDeleteSession [id] ∧
  Mux.findHandler control_mux "GET" (Mux.abs_path ["v1"; "sessions"; id; "logs"]) = Mux.Found handleLogsSession [id].
Proof.
  intros Hid Hu. assert (plain "v1" ∧ plain "sessions" ∧ plain "logs") as (H1 & H2 & H3) by done.
  rewrite !control_routes by (done || by repeat (apply Forall_cons; split)).
  cbn [fmap list_fmap]. rewrite Hu. by vm_compute.
Qed.

(** ** Properties *)

(** [C28] The control plane's mux implements the table of its routes.  The patterns register
    without a conflict, and a request for a path of plain elements reaches the handler that
    the table names for its method and its unescaped elements, with the session of the
    path; without one it is answered 405 if the path has a handler for another method, and
    otherwise 404. *)
Theorem control_plane_routed unicode method es :
  method ≠ "CONNECT" → Forall plain es → es ≠ [] →
  ∃ mux, NewControlPlaneHandler unicode = Some mux ∧
    let us := Mux.pathUnescape <$> es in
    Mux.findHandler mux method (Mux.abs_path es) =
      match routes method us with
      | Some (e, ids) => Mux.Found e ids
      | None =>
          if existsb (λ m, bool_decide (routes m us ≠ None)) ["GET"; "POST"; "PUT"; "DELETE"]
          then Mux.MethodNotAllowed else Mux.NotFound
      end.
Proof. intros. exists control_mux. split; [apply control_registers|]. by apply control_routes. Qed.

Lemma control_plane_routed_witness :
  ∃ mux, NewControlPlaneHandler (λ _, false) = Some mux ∧
    Mux.findHandler mux "GET" "/v1/sessions/vm%2D1/logs" = Mux.Found handleLogsSession ["vm-1"].
Proof.
  destruct (control_plane_routed (λ _, false) "GET" ["v1"; "sessions"; "vm%2D1"; "logs"]) as (mux & Hmux & E).
  - discriminate.
  - repeat (constructor; [split; [split; [discriminate|split; discriminate]|reflexivity]|]). constructor.
  - discriminate.
  - exists mux. split; [exact Hmux|]. refine (eq_trans E _). vm_compute. reflexivity.
Defined.

(** [stop] puts the name of a session into the URL as it is, so a name may reach another
    session, or none. *)
Lemma names_not_escaped cfg :
  Config.ControlBind (Config.Network cfg) = "127.0.0.1:8081" →
  Cli.session_url cfg "%41" = "http://127.0.0.1:8081" +:+ "/v1/sessions/%41" ∧
  Mux.findHandler control_mux "DELETE" "/v1/sessions/%41" = Mux.Found handleDeleteSession ["A"] ∧
  Mux.findHandler control_mux "DELETE" "/v1/sessions/a/b" = Mux.NotFound ∧
  Mux.findHandler control_mux "DELETE" "/v1/sessions/.." = Mux.Redirect "/v1".
Proof. intros E. unfold Cli.session_url, Cli.sessions_url. rewrite E. vm_compute. done. Qed.

End Routes.
