(* ===== verification/Start.v ===== *)
(** * The start of the daemon ([cmd/herd/start.go])

    The pool that [start] builds from the configuration, the run of [runDaemon] up to the
    point at which both servers listen, with what ends it before, and the shutdown. *)
From stdpp Require Import options.
From S2P Require Import Prelude GoStrings GoNet Registry UidPool Ipam PortMgr Pool ImageStore Factory Config Daemon Cloud Mux Routes.
#[local] Open Scope Z_scope.

Module Start.

Section start.
Context {C : Type} `{Containerd C}.

(** What [buildPool] puts together: the factory's fields and what it draws from, and the pool. *)
Record Built := mkBuilt {
  b_factory : Factory.FirecrackerFactory;
  b_storage : ImageStore.Manager (C := C);
  b_ipam : Ipam.IPAM;
  b_uids : UidPool.Pool;
  b_ports : PortMgr.PortManager;
  b_pool : Pool.Pool (R := Registry.localRegistry)
}.

(** [BuildPanics] is the panic of [WithMaxWorkers]. *)
Inductive build_error :=
  | ErrAbs (e : string)
  | ErrContainerd (sock e : string)
  | ErrIPAM (e : Ipam.error)
  | ErrUIDs (e : UidPool.error)
  | BuildPanics.

(** [filepath.Abs], from the working directory or the error of asking for it. *)
Definition Abs (cwd : result string string) (path : string) : result string string :=
  if HasPrefix path "/" then Ok (Clean path)
  else match cwd with Ok dir => Ok (FilepathJoin [dir; path]) | Err e => Err e end.

Definition buildPool (cwd : result string string) (connect : string → result string C) (cfg : Config.Config)
    : result build_error Built :=
  let sockPath := FilepathJoin [Config.StateDir (Config.Storage cfg); "containerd.sock"] in
  match Abs cwd sockPath with
  | Err e => Err (ErrAbs e)
  | Ok absSock =>
      match connect absSock with
      | Err e => Err (ErrContainerd absSock e)
      | Ok client =>
          let mgr := ImageStore.NewManager client (Config.SnapshotterName (Config.Storage cfg)) in
          match Ipam.NewIPAM "10.200.0.0/16" with
          | Err e => Err (ErrIPAM e)
          | Ok ipam =>
              match UidPool.NewPool (Config.UIDPoolStart (Config.Jailer cfg)) (Config.UIDPoolSize (Config.Jailer cfg)) with
              | Err e => Err (ErrUIDs e)
              | Ok uidPool =>
                  let portMgr := PortMgr.NewPortManager (Config.EphemeralPortStart (Config.Network cfg))
                    (Config.EphemeralPortEnd (Config.Network cfg)) in
                  let factory :=
                    {| Factory.FirecrackerPath := Config.FirecrackerPath (Config.Binaries cfg);
                       Factory.JailerPath := Config.JailerPath (Config.Binaries cfg);
                       Factory.KernelImagePath := Config.KernelImagePath (Config.Binaries cfg);
                       Factory.GuestAgentPath := Config.GuestAgentPath (Config.Binaries cfg);
                       Factory.JailerChrootBaseDir := Config.ChrootBaseDir (Config.Jailer cfg) |} in
                  match Pool.WithMaxWorkers (Config.MaxGlobalVMs (Config.Resources cfg)) with
                  | None => Err BuildPanics
                  | Some opt =>
                      Ok (mkBuilt factory mgr ipam uidPool portMgr (Pool.New Registry.NewLocalRegistry [opt]))
                  end
              end
          end
      end
  end.

(** The answers to one run of the daemon up to the point at which it serves. *)
Record StartEnv := mkStartEnv {
  goos : string;
  load : result Config.error Config.Config;
  getwd : result string string;
  connect : string → result string C;
  listen : string → option string;                    (* the control listener *)
  interface_ip : string → result string string;       (* [network.GetInterfaceIP] *)
  cloud : Cloud.Env;
  cloud_files : gmap string string;
  letters : string → bool                             (* whether a text beyond ASCII is a name *)
}.

(** How the daemon stops: what is shut down, in order. *)
Inductive action := StopData | StopControl | CloseControl | CloseCloud | CloseListener | StopPool | StopSignals.

(** [log.Fatal] ends the process without the deferred calls; a panic makes them first. *)
Inductive fatal :=
  | FatalPlatform
  | FatalConfig (e : Config.error)
  | FatalPool (e : build_error)
  | FatalListen (e : string)
  | MuxPanics (deferred : list action).

(** A daemon that runs: what it is made of, the address it reports, the client of the cloud
    if that was started, the addresses it serves, and the handlers. *)
Record Running := mkRunning {
  r_built : Built;
  r_interfaceIP : string;
  r_cloud : option Cloud.Client;
  r_control : string;
  r_data : string;
  r_control_mux : Mux.ServeMux Routes.endpoint;
  r_data_mux : Mux.ServeMux Routes.data_endpoint
}.

(** The deferred calls, the last one first. *)
Definition deferred (client : option Cloud.Client) : list action :=
  (match client with Some _ => [CloseCloud] | None => [] end) ++ [CloseListener; StopPool; StopSignals].

Definition interface_of (env : StartEnv) (cfg : Config.Config) (interfaceName : string) : string :=
  let interfaceName := if decide (interfaceName = "") then Config.Interface (Config.Cloud cfg) else interfaceName in
  if decide (interfaceName = "") then "" else
  match interface_ip env interfaceName with Ok ip => ip | Err _ => "" end.

Definition start_cloud (env : StartEnv) (cfg : Config.Config) (interfaceIP : string) : option Cloud.Client :=
  if Config.Enabled (Config.Cloud cfg) then
    match Cloud.Start (cloud env) (cloud_files env) (Cloud.NewClient (Config.Cloud cfg) interfaceIP) with
    | (c, None) => Some c
    | (_, Some _) => None
    end
  else None.

Definition runDaemon (env : StartEnv) (interfaceName : string) : result fatal Running :=
  match Daemon.EnforceRuntimePolicy (goos env) with
  | Err _ => Err FatalPlatform
  | Ok _ =>
      match load env with
      | Err e => Err (FatalConfig e)
      | Ok cfg =>
          match buildPool (getwd env) (connect env) cfg with
          | Err e => Err (FatalPool e)
          | Ok built =>
              match listen env (Config.ControlBind (Config.Network cfg)) with
              | Some e => Err (FatalListen e)
              | None =>
                  let interfaceIP := interface_of env cfg interfaceName in
                  let client := start_cloud env cfg interfaceIP in
                  match Routes.NewControlPlaneHandler (letters env) with
                  | None => Err (MuxPanics (deferred client))
                  | Some control =>
                      match Routes.NewDataPlaneHandler (letters env) (Config.MetricsPath (Config.Telemetry cfg)) with
                      | None => Err (MuxPanics (deferred client))
                      | Some data =>
                          Ok (mkRunning built interfaceIP client (Config.ControlBind (Config.Network cfg))
                                (Config.DataBind (Config.Network cfg)) control data)
                      end
                  end
              end
          end
      end
  end.

Definition shutdown (r : Running) (in_time : bool) : list action :=
  [StopData; StopControl] ++ (if in_time then [] else [CloseControl]) ++ deferred (r_cloud r).

End start.

(** ** Properties *)

Lemma Abs_rooted cwd dir path : cwd = Ok dir → HasPrefix dir "/" = true → path ≠ "" →
  ∃ abs, Abs cwd path = Ok abs ∧ HasPrefix abs "/" = true.
Proof.
  intros -> Hd Hp. unfold Abs. destruct (HasPrefix path "/") eqn:E; eexists; (split; [done|]).
  - rewrite Clean_abs by done. apply HasPrefix_nil.
  - cbn [FilepathJoin]. rewrite decide_False by (by destruct dir).
    rewrite Clean_abs by (by apply HasPrefix_slash_app). apply HasPrefix_nil.
Qed.

(** The factory draws on the files that the configuration names, each in its place. *)
Definition as_configured (cfg : Config.Config) (f : Factory.FirecrackerFactory) : Prop :=
  Factory.FirecrackerPath f = Config.FirecrackerPath (Config.Binaries cfg) ∧
  Factory.JailerPath f = Config.JailerPath (Config.Binaries cfg) ∧
  Factory.KernelImagePath f = Config.KernelImagePath (Config.Binaries cfg) ∧
  Factory.GuestAgentPath f = Config.GuestAgentPath (Config.Binaries cfg) ∧
  Factory.JailerChrootBaseDir f = Config.ChrootBaseDir (Config.Jailer cfg).

(** A configuration that passes the validation starts: given a connection to containerd
    the pool is built, without panic, with the binaries and the jail's directory as
    configured, as many tickets as VMs are allowed, the UIDs' and ports' ranges as
    configured, and no address or port in use. *)
Lemma valid_config_builds {C : Type} `{Containerd C} dir connect cfg (client : C) :
  Config.Validate cfg = None → HasPrefix dir "/" = true →
  (∀ sock, HasPrefix sock "/" = true → connect sock = Ok client) →
  ∃ b, buildPool (Ok dir) connect cfg = Ok b ∧
    Z.of_nat (Pool.tickets (b_pool b)) = Config.MaxGlobalVMs (Config.Resources cfg) ∧
    UidPool.NewPool (Config.UIDPoolStart (Config.Jailer cfg)) (Config.UIDPoolSize (Config.Jailer cfg)) = Ok (b_uids b) ∧
    b_ports b = PortMgr.NewPortManager (Config.EphemeralPortStart (Config.Network cfg)) (Config.EphemeralPortEnd (Config.Network cfg)) ∧
    Ipam.NewIPAM "10.200.0.0/16" = Ok (b_ipam b) ∧
    as_configured cfg (b_factory b) ∧ b_storage b = ImageStore.NewManager client (Config.SnapshotterName (Config.Storage cfg)).
Proof.
  intros Hv%Config.Validate_valid Hd Hc. destruct Hv as [_ _ _ Hvms _ _ _ Hbin [Hu1 Hu2] Hroot _].
  unfold buildPool. cbv zeta.
  destruct (Abs_rooted (Ok dir) dir (FilepathJoin [Config.StateDir (Config.Storage cfg); "containerd.sock"]) eq_refl Hd)
    as (abs & -> & Habs).
  { apply FilepathJoin_nonempty. exists "containerd.sock". split; [right; by left|done]. }
  rewrite (Hc abs Habs). destruct (Ipam.NewIPAM "10.200.0.0/16") as [ipam|e] eqn:Ei; [|vm_compute in Ei; discriminate Ei].
  destruct (UidPool.NewPool _ _) as [u|e] eqn:Eu.
  2: { unfold UidPool.NewPool in Eu. rewrite !decide_False in Eu by lia. done. }
  unfold Pool.WithMaxWorkers. rewrite decide_False by lia. eexists. split; [done|]. simpl.
  split_and!; try done; lia.
Qed.

(** What ends the run of a valid configuration: the paths of the metrics that the mux does
    not take; a failure of the cloud or of the interface does not. *)
Lemma daemon_runs {C : Type} `{Containerd C} (env : StartEnv (C := C)) name cfg b :
  goos env = "linux" → load env = Ok cfg → buildPool (getwd env) (connect env) cfg = Ok b →
  listen env (Config.ControlBind (Config.Network cfg)) = None →
  match Routes.NewDataPlaneHandler (letters env) (Config.MetricsPath (Config.Telemetry cfg)) with
  | Some data => ∃ r, runDaemon env name = Ok r ∧ r_built r = b ∧
      r_control r = Config.ControlBind (Config.Network cfg) ∧ r_data r = Config.DataBind (Config.Network cfg) ∧ r_control_mux r = Routes.control_mux ∧ r_data_mux r = data
  | None => ∃ l, runDaemon env name = Err (MuxPanics l)
  end.
Proof.
  intros Hg Hl Hb Hn. unfold runDaemon, Daemon.EnforceRuntimePolicy. rewrite Hg, Hl, Hb, Hn, Routes.control_registers.
  cbn [decide]. by destruct (Routes.NewDataPlaneHandler _ _); eexists.
Qed.

(** The validation accepts paths of the metrics with which the daemon does not start. *)
Lemma valid_config_panics {C : Type} `{Containerd C} (env : StartEnv (C := C)) name cfg b :
  goos env = "linux" → load env = Ok cfg → buildPool (getwd env) (connect env) cfg = Ok b →
  listen env (Config.ControlBind (Config.Network cfg)) = None →
  Config.MetricsPath (Config.Telemetry cfg) ∈ ["/"; "/healthz"; "/my metrics"; "/{id"] →
  ∃ l, runDaemon env name = Err (MuxPanics l).
Proof.
  intros Hg Hl Hb Hn Hm. pose proof (daemon_runs env name cfg b Hg Hl Hb Hn) as Hr.
  destruct (Routes.metrics_path_panics (letters env)) as (E1 & E2 & E3 & E4).
  rewrite !elem_of_cons, elem_of_nil in Hm.
  by destruct Hm as [Em|[Em|[Em|[Em|[]]]]]; rewrite Em in Hr; rewrite ?E1, ?E2, ?E3, ?E4 in Hr.
Qed.

(** [C30] A configuration that passes the validation starts, on Linux, given an absolute
    working directory, a connection to containerd and a listener, and if the path of the
    metrics has one element, which is not the health check's.  The pool is built without
    panic, with as many tickets as VMs are allowed, the ranges of UIDs and ports as
    configured, no address or port in use, and a factory that has each of Firecracker, the
    jailer, the kernel, the guest agent and the jail's directory at its configured path; the
    addresses served are the configured ones, and every route is registered.  Neither the
    cloud nor the interface can prevent it. *)
Theorem valid_config_starts {C : Type} `{Containerd C} (env : StartEnv (C := C)) name cfg dir (client : C) m :
  Config.Validate cfg = None → goos env = "linux" → load env = Ok cfg →
  getwd env = Ok dir → HasPrefix dir "/" = true →
  (∀ sock, HasPrefix sock "/" = true → connect env sock = Ok client) →
  listen env (Config.ControlBind (Config.Network cfg)) = None →
  Config.MetricsPath (Config.Telemetry cfg) = String "/" m → Routes.metrics_element m → Mux.pathUnescape m ≠ "healthz" →
  ∃ r, runDaemon env name = Ok r ∧
    let b := r_built r in
    Z.of_nat (Pool.tickets (b_pool b)) = Config.MaxGlobalVMs (Config.Resources cfg) ∧
    UidPool.NewPool (Config.UIDPoolStart (Config.Jailer cfg)) (Config.UIDPoolSize (Config.Jailer cfg)) = Ok (b_uids b) ∧
    b_ports b = PortMgr.NewPortManager (Config.EphemeralPortStart (Config.Network cfg)) (Config.EphemeralPortEnd (Config.Network cfg)) ∧
    Ipam.NewIPAM "10.200.0.0/16" = Ok (b_ipam b) ∧
    as_configured cfg (b_factory b) ∧ b_storage b = ImageStore.NewManager client (Config.SnapshotterName (Config.Storage cfg)) ∧
    r_control r = Config.ControlBind (Config.Network cfg) ∧ r_data r = Config.DataBind (Config.Network cfg) ∧
    r_control_mux r = Routes.control_mux ∧ r_data_mux r = Routes.data_mux (Mux.pathUnescape m).
Proof.
  intros Hv Hg Hl Hwd Hd Hc Hn Hm Hel Hh.
  destruct (valid_config_builds dir (connect env) cfg client Hv Hd Hc) as (b & Hb & Hspec).
  rewrite <-Hwd in Hb. pose proof (daemon_runs env name cfg b Hg Hl Hb Hn) as Hr.
  rewrite Hm, Routes.data_plane_registers, decide_False in Hr by done.
  destruct Hr as (r & Hr & <- & Hrc & Hrd & Hcm & Hdm). exists r. split; [done|]. cbv zeta. tauto.
Qed.

(** ** Witnesses *)

Definition example_config : Config.Config := Config.applyDefaults "" Config.demo.

#[local] Existing Instances ImageStore.store_ops.

Definition example_store : ImageStore.store := ImageStore.mkStore ∅ ∅ ∅.

Definition example_env : StartEnv :=
  mkStartEnv "linux" (Ok example_config) (Ok "/root") (λ _, Ok example_store) (λ _, None) (λ _, Err "no such interface")
    Cloud.example_env ∅ (λ _, false).

Lemma valid_config_starts_witness :
  ∃ r, runDaemon example_env "eth0" = Ok r ∧ Z.of_nat (Pool.tickets (b_pool (r_built r))) = 100 ∧
    r_data_mux r = Routes.data_mux "metrics".
Proof.
  destruct (valid_config_starts example_env "eth0" example_config "/root" example_store "metrics")
    as (r & Hr & Ht & _ & _ & _ & _ & _ & _ & _ & _ & Hd); try reflexivity.
  - split; [discriminate|]. repeat split.
  - discriminate.
  - exists r. split; [exact Hr|]. split; [exact Ht|exact Hd].
Defined.

End Start.
